(* ===== verification/_CoqProject ===== *)
-Q . S2P
Prelude.v
Params.v
Bytes.v
Format.v
DList.v
TimerQueue.v
TimerHeap.v
State.v
Frame.v
Nl.v
NlRecv.v
RtTable.v
Inv.v
Total.v
PacketQueue.v
SeekList.v
Socket.v
Rerr.v
RtUpdate.v
Rrep.v
Rreq.v
Timeouts.v
PacketInput.v
Daemon.v
Progress.v
Kaodv.v
KExpl.v
KIpenc.v
KQueue.v
KNetlink.v
KMod.v
KHook.v
KInit.v
KProc.v
KScenarios.v
Wire.v
Steady.v
Waiting.v
Hop.v
Report.v
Discovery.v
Network.v
Llf.v
Cmdline.v
Startup.v
Debug.v
NlCallback.v
Scenarios.v
NetScenarios.v
Gateway.v
NoGateway.v
GatewayScenarios.v
Ns.v
NsOwn.v
NsAgent.v
NsScenarios.v
