(* ===== verification/Prelude.v ===== *)
(** * AODV-UU: a verification development of the aodvd routing daemon and its kernel module

    ** The program

    [src/src] is the user-space daemon [aodvd], an implementation of the AODV
    routing protocol (RFC 3561, [extra/rfc3561.txt]).  It is a single-threaded
    event loop over global state:
    - [core/main.c] initialises the globals and then, for ever, runs the
      expired timers and the callbacks of the descriptors that are ready;
    - [utils/timer_queue.c] keeps the pending timers in one sorted list;
    - [network/aodv_socket.c] receives control messages and hands them to
      [protocol/aodv_hello.c], [aodv_rreq.c], [aodv_rrep.c], [aodv_rerr.c] and
      [aodv_neighbor.c]; it also sends the messages these build in the one
      global send buffer, under a rate limit;
    - [network/nfqueue.c] and [packet_input.c] receive the data packets the
      kernel has no route for; [packet_queue.c] holds them while
      [routing/seek_list.c] and [protocol/aodv_timeout.c] search for a route;
    - [routing/routing_table.c] is the table all of them read and change; it
      mirrors the valid routes to the kernel through [network/nl.c].

    The build modelled is the default one of the Makefile: [NS_PORT],
    [CONFIG_GATEWAY] and [LLFEEDBACK] are not defined, [DEBUG] is; the host is
    little-endian with 64-bit [long].  [Llf.v] and [Gateway.v] hold what the other
    settings of [LLFEEDBACK] and [CONFIG_GATEWAY] change.

    [src/kernel] is the netfilter module that older versions of the daemon work
    with.  It keeps a copy of the routes ([kaodv-expl.c]), queues the packets that
    wait for one ([kaodv-queue.c]), exchanges messages with the daemon over a
    netlink socket ([kaodv-netlink.c]), encapsulates packets for a gateway
    ([kaodv-ipenc.c]), and decides about every packet that passes
    ([kaodv-mod.c]).  It is modelled as it is built for Linux 2.6.31 and later,
    without [EXPL_TIMER] and [CONFIG_QUAL_THRESHOLD].

    [src/sim] runs the protocol code in the simulator ns-2: an agent receives
    simulated packets ([aodv-uu.cc]), decides about them ([packet_input.cc]) and
    queues them ([packet_queue.cc]).

    ** The files

    - [Prelude.v]: machine integers; outcomes ([Ok], [Exit] for [exit(3)], [Ub u]
      for an undefined behaviour); the state monad [CM] with its notation; the
      precondition [wp E m Q], "[m] returns with [Q], exits, or has an undefined
      behaviour that [E] allows"; lists; the hint database [aodv].
    - [Params.v]: the macros of [core/defs.h], [core/params.h] and the message and
      table headers.
    - [Bytes.v]: byte buffers, little-endian loads and stores, [htonl].
    - [Format.v]: the conversions of [sprintf] and the lengths of their results.
    - [DList.v]: [utils/list.c] and [list.h] on a heap of nodes; [is_list] relates
      a ring of nodes to a sequence.
    - [TimerQueue.v]: [utils/timer_queue.c], generic in the timers and handlers;
      its invariant [tq_wf].
    - [TimerHeap.v]: the same functions on the pointers of [DList.v], and that they
      refine those of [TimerQueue.v].
    - [State.v]: the C structures as records, the globals as the record [state],
      the environment (clock, random numbers, results of system calls, heap
      size, names of interfaces), and the primitives that read and write them.  A [rt_table_t *] is
      the destination of its entry; following it when there is no such entry is
      [Ub UseAfterFree].
    - [Frame.v]: [frames g m], what an operation leaves alone.
    - [Nl.v]: [network/nl.c].
    - [NlRecv.v]: [nl_rt_callback] of [network/nl.c] on the bytes of the answers of the
      kernel, for any way of logging what it reports; [kernel_msg] are the messages that
      the kernel sends.
    - [RtTable.v], [RtUpdate.v]: [routing/routing_table.c]; [table_ok], and the
      abstraction [rt_map] of the hash table to a finite map.
    - [Inv.v]: the invariant [inv] of the globals, the judgement
      [safe md ks m res] ("run with the invariant and the pointers [ks] valid,
      [m] has no undefined behaviour except of the message buffers, keeps the
      invariant and all entries, and returns the valid pointers [res]") with the
      tactic [safe_go] that derives it, and [eff], the effect of an operation on
      one entry.
    - [Total.v]: the judgement [total b ks m], "with the room [b], [m] returns".
    - [PacketQueue.v], [SeekList.v]: [network/packet_queue.c] and
      [nfqueue_set_packet_verdict]; [routing/seek_list.c].
    - [Socket.v]: the sending half of [network/aodv_socket.c], with the rate
      limiter.
    - [Rerr.v]: [protocol/aodv_rerr.c] and [neighbor_link_break].
    - [Rrep.v]: [protocol/aodv_hello.c] and [aodv_rrep.c].
    - [Rreq.v]: [protocol/aodv_rreq.c].
    - [Timeouts.v]: [protocol/aodv_timeout.c], [neighbor_add], and [print_rt_table] of
      [utils/debug.c] as far as the daemon's state and its undefined behaviours go.
    - [PacketInput.v]: [network/packet_input.c] and [nfqueue_packet_cb].
    - [Daemon.v]: the receiving half of [network/aodv_socket.c], the timer loop,
      the initialisation, the main loop and the exit handler of [core/main.c];
      the states [reachable] between two turns of the loop.
    - [Progress.v]: the main loop returns from every handler and callback.
    - [Wire.v]: what a node promises to the others of a closed network: the judgement
      [hold] for the operations that keep the messages and routes within it.
    - [Network.v]: networks of daemons, with the step relation [net_step] in which
      messages are lost, delayed, duplicated and reordered.
    - [Steady.v], [Waiting.v], [Hop.v]: what an operation does to the routes and to the
      waiting packets when it returns: renewing a route, sending, relaying and
      answering a RREQ, relaying and receiving a RREP.
    - [Report.v]: what a node tells the others when a link breaks.
    - [Discovery.v]: a route discovery along a path of nodes.
    - [Kaodv.v]: the state of the kernel module and the services of the kernel it
      uses.
    - [KExpl.v], [KIpenc.v], [KQueue.v], [KNetlink.v]: the files of [src/kernel] of
      these names.
    - [KMod.v]: [kaodv-mod.h] and the hook of [kaodv-mod.c]; the invariant [kinv]
      of the module and the judgement [ksafe E m], derived by [ksafe_go].
    - [KHook.v]: the theorems about the hook and about the module as a whole.
    - [KInit.v]: loading and unloading.
    - [KProc.v]: the files in /proc and [kaodv-debug.c].
    - [Cmdline.v]: the command line and the interface names of [core/main.c].
    - [Startup.v]: starting and stopping the services: the callbacks and kernel
      options of [core/main.c], [nl_init], [nfqueue_init], [aodv_socket_init],
      [llf_init] and their counterparts.
    - [Llf.v]: [network/llf.c], as builds with [LLFEEDBACK] have it.
    - [Debug.v]: [utils/debug.c]: the log, with its buffers, and the table of routes.
    - [NlCallback.v]: [nl_rt_callback] with the log of [Debug.v].
    - [Gateway.v]: [routing/locality.c] and the functions that [CONFIG_GATEWAY]
      changes, with the suffix [_gw]; [invalidate_rec] and [update_rec] are the
      recursive functions of the routing table.
    - [NoGateway.v]: the judgement [agree m m'], "as long as no gateway is known, [m]
      and [m'] do the same", and that the functions of [Gateway.v] agree with those of the
      daemon.
    - [Ns.v]: the packets and the agent of [sim/], sending, encapsulation, and
      [sim/packet_queue.cc]; [on_core] runs an operation that the port shares with the
      daemon on the daemon's state, its messages becoming packets.
    - [NsOwn.v]: ownership of packets: the judgement [settles ins m outs], "started
      with the packets [ins] in hand, [m] leaves [outs] in hand and has settled the
      rest".
    - [NsAgent.v]: [sim/aodv-uu.cc] and [packet_input.cc].
    - [KScenarios.v], [Scenarios.v], [NetScenarios.v], [GatewayScenarios.v],
      [NsScenarios.v]: runs of the module, of the daemon, of networks, with gateways and
      of the port on concrete inputs: instances
      of the theorems, and runs that go wrong.

    Operations keep the names of the C functions; the handlers of timers have
    the suffix [_h], their names being the constructors of [handler].  A C
    function that is too long for one definition is cut at its comments:
    [rreq_process] calls [rreq_reverse_route], [rreq_reply_as_dest],
    [rreq_intermediate] and so on, in the order of the source.

    ** What is proved

    - Safety ([daemon_memory_safe], [reachable_invariant],
      [daemon_init_establishes]): every operation of the daemon is [safe], so from
      the zeroed globals, through initialisation and any sequence of inputs and
      timer expiries, the invariant holds between the turns of the loop, and no
      turn follows a NULL or dangling pointer, links a list element twice, or
      calls a handler on an object of another type.  What remains possible is an
      overrun of the two message buffers, and [rerr_build_overflow] and
      [rreq_ext_overread] show that both are reachable by the code as it is; with the log
      of the routing table on, an overrun of the buffer for the interface addresses and a
      NULL interface name ([missing_interface_turn]); and with netlink messages that the
      kernel does not send, reads and copies that are too long ([long_address_turn],
      [short_error_turn]).  The fields listed in [reachable_types] keep the values of their C
      types.
    - Progress ([daemon_progress]): with room in the table, the wait after a reboot over,
      without the option for unidirectional links and with messages without extensions no turn
      of the loop overruns a buffer, exits or fails to end.
    - Networks: a closed network of daemons with at most 98 addresses, started without the wait
      after a reboot and without the option for unidirectional links, never fails, whatever
      becomes of its messages ([network_never_fails]); its messages are well-formed and about its
      members only ([network_messages]); and a route discovery succeeds along every
      path on which the messages are heard ([route_discovered], whose comment lists the
      conditions on the nodes): every node of the path gets a route through its successor, and the packets that waited are sent.
    - The routing table ([table_refines_map], [rt_table_insert_correct],
      [rt_table_update_correct]) refines a finite map; insertion and update change
      the route they are for and no other, except for the documented link break.
    - The protocol: broken links and RERRs ([link_break_invalidates],
      [link_break_reports], [rerr_process_scope]), RREPs ([rrep_process_installs],
      [rrep_process_stale]), RREQs ([rreq_process_once], [rreq_process_ignores],
      [rreq_reverse_route_correct], [dest_seqno_fresh]), HELLOs
      ([hello_process_installs]).
    - Route discovery: the timeout handler, run again and again, retransmits the RREQ with
      growing TTLs, at most six times, and then gives up cleanly ([discovery_terminates],
      [discovery_gives_up]).
    - Data packets: queueing, release, expiry and verdicts ([set_verdict_exact],
      [release_packets_correct], [packet_queue_add_bounded],
      [garbage_collect_exact], [packet_without_route_queued] and its companions,
      [cleanup_releases]).
    - Lists and timers: the pointer operations refine those on sequences
      ([list_ops_refine], [list_drain_filters], [timer_queue_refined]); timers fire
      when they are due ([collect_expired_correct], [timer_set_timeout_correct]).
    - Starting the daemon: what the command line means ([cmdline_meaning]), the named interfaces are the ones that are used
      ([interfaces_stored], [interface_name_overflows] for names that are too long),
      and the services are started and stopped without a leak, on at most three
      interfaces ([services_start_stop], [nfqueue_all_or_nothing]).
    - Rate limiting ([rate_limit_spacing]) and messages ([rreq_roundtrip],
      [rrep_roundtrip], [rerr_roundtrip]).
    - The kernel module: it is safe for any message and any packet that is not cut short
      in its transport header, and only reads too far in one that is ([kmod_safe]); it leaves
      nothing behind ([kmod_lifecycle]); its routes refine a map ([expl_refines_map],
      [expl_invariant]); its queue settles every packet once
      ([queue_set_verdict_exact], [dequeue_all_is_pass]); the verdicts on packets
      ([forward_verdict], [local_verdict]) and what becomes of the daemon's
      messages ([addroute_delivers], [route_gone_drops], [peer_release_flushes],
      [netlink_peer_exclusive]); encapsulation is reversible ([ipenc_roundtrip],
      [ip_csum_verifies]).
    - Link-layer feedback: whatever is received, its handler ends and keeps the
      daemon's invariant, unless it reads behind what was received or a RERR overruns the
      send buffer ([llf_keeps_invariant]); a dropped frame breaks the link to
      the neighbour and no other ([llf_drop_breaks_link]).
    - The ns-2 port: every packet that it receives or gets back from the link layer is
      settled exactly once, and the shared code keeps the daemon's invariant
      ([recv_settles], [packetFailed_settles]), and a verdict settles the packets of its destination and no others ([ns_set_verdict_exact]).
    - Gateways: losing one takes the destinations behind it along, and the recursion ends
      ([gateway_lost]); a gateway's answer names the destination it is for
      ([inet_ext_roundtrip]); without gateways both builds do the same
      ([same_without_gateways]).
    - Output: what becomes of a message of the log ([alog_correct]) and that no
      received message makes it overrun a buffer ([log_pkt_fields_safe]); the
      table of routes in the log is the text of the table, and printing it goes wrong exactly when
      the handler of the main loop does ([print_rt_table_correct]); the callback of the netlink socket ends ([nl_rt_callback_ends], [newaddr_logged]); a file in
      /proc that is read in parts is read whole ([proc_read_whole]), and the routes fit its page
      up to 52 of them ([expl_print_bounds]); debug messages of the module arrive
      ([trace_delivers]).
    - Runs that go wrong: [num_active_drift], [reverse_route_lifetime_wraps],
      [hello_neighbor_set_overlaps], [seqno_rollover_rejected] in the daemon,
      [rrep_swallowed] and [routing_loop] in a network,
      [expl_full_loses_routes], [expl_add_race], [addroute_keeps_old_route],
      [gateway_packet_used_after_free], [short_encapsulation_overruns],
      [short_udp_overruns] in the module, [proc_page_overrun] in its /proc file, [newlink_overread] in the
      link-layer feedback, [gateway_update_endless], [gateway_rrep_endless] and
      [local_destination_aborts] with gateways, [devs_buffer_overflows],
      [missing_interface_printed], [expired_route_printed] and [long_address_overflows]
      in the log, and
      [salvaged_packet_dropped], [verdict_without_route_loses_packet],
      [drop_by_dest_loses_packet], [start_reads_unwritten_period] in the port: each is a
      theorem about a reachable state or about the operation as written.

    ** Bounds and fuel

    The loops over received extensions take [ext_fuel] = [RECV_BUF_SIZE] = 812
    turns of fuel: a turn advances by at least two bytes and a load outside the
    buffer stops it, so the fuel is never used up ([ext_loop_pure],
    [hello_ext_loop_pure] and the safety theorems, whose undefined behaviours do
    not include [OutOfFuel]).  [run_expired] takes one more than the number of
    expired timers, which no handler increases ([run_expired_spec]).
    [prefix_length_loop] takes the 32 bits of its argument.  The loops over
    linked lists take one more than the number of nodes in memory, and the loops
    that empty the kernel queue one more than the number of its packets; the
    theorems about them show that they end before ([list_drain_filters],
    [dequeue_all_is_pass]).  The search for a size of the receive buffer takes 257
    turns, one more than the steps from 256 KB down to 0 ([rcvbuf_spec]).  The loops
    of [Llf.v] take one more than the bytes they go through, of which each turn
    takes at least one ([lsafe_events], [lsafe_attrs], [lsafe_messages]).  In the
    port, [hand_over] takes the number of packets, one of which leaves with every
    turn, and [ifq_loop] one more than the interface queue holds ([settles_hand_over],
    [ifq_loop_settles]).  [invalidate_rec] takes one more than the number of routes, of which every
    call invalidates one ([invalidate_rec_spec]); for [update_rec] no fuel is enough
    when a gateway is a destination in the Internet ([gateway_update_endless]), and one turn is
    without gateways ([same_without_gateways]).  [addr_loop] takes one more than the bytes
    received ([addr_loop_ends]), [read_all] one more than those of the page
    ([proc_read_whole]), [digits] the 20 digits of a 64-bit number ([dec_numeral]).

    ** What is not modelled

    In the models of the other components, the messages they pass to the log: there
    logging at [LOG_ERR] exits, which [Debug.v] shows to be all ([alog_correct]).  The main loop
    runs [print_rt_table] and [nl_rt_callback] without the texts they write, which [Debug.v]
    and [NlCallback.v] add ([print_rt_table_correct], [newaddr_logged]).  [getopt_long] (its results are the input of
    [Cmdline.v]), signals and the detaching from the terminal, the parsing of
    NFQUEUE messages in libnetfilter_queue.  [Daemon.v] initialises the tables for services
    that have started; [Startup.v] shows when they do.  [iw_extract_event_stream] of libiw,
    a parameter of [Llf.v] that takes at least a byte off the stream with every event.
    The lookups of names and subnets in [locality] and [localtime], [strerror]
    in the log are parameters.  The main loop of a build with
    [CONFIG_GATEWAY]: its handlers are those of [Gateway.v], which are the daemon's as long as
    there is no gateway.
    Of the ns-2 port, the commands and classes of Tcl and the clock; the files under
    [sim/ns-2.*] are copies of the simulator; [scheduleNextEvent], which runs the timers
    after every packet, and the processing of AODV messages in the port: they call the port's
    packet queue from the shared code of [src/src], whose definitions here use the daemon's
    queue.  The daemon's components other than
    the timer queue use Rocq lists, with the check that an element is linked at
    most once; [DList.v] shows what the pointer operations do to such lists.
    Allocation in the daemon fails only for route entries ([env_heap]), where the
    source exits.  The sequence number of kernel requests does not wrap.  A call of
    the kernel module runs as one step; the module takes its locks for parts of a
    call only, and [expl_add_race] shows what two calls can do to each other.

    ** Possible extensions

    Local repair as a functional property; a reachability theorem for builds with
    gateways, which needs an update that ends; the packet queue of the port in the
    network of [Network.v]. *)

From stdpp Require Export base tactics option list fin_maps gmap.
From Stdlib Require Export ZArith Lia.

#[global] Open Scope Z_scope.

(** ** Machine integers

    C integers are [Z] with the wrap-around of their width written where a
    value is converted to that width. *)

Definition u8 (z : Z) : Z := z mod 2 ^ 8.
Definition u16 (z : Z) : Z := z mod 2 ^ 16.
Definition u32 (z : Z) : Z := z mod 2 ^ 32.

(** Conversion of a 32-bit value to [int32_t] (two's complement). *)
Definition int32 (z : Z) : Z :=
  let w := u32 z in if w <? 2 ^ 31 then w else w - 2 ^ 32.

(** [x & mask], read as a C truth value. *)
Definition has (x mask : Z) : bool := negb (Z.land x mask =? 0).

Lemma u8_range z : 0 <= u8 z < 256.
Proof. apply Z.mod_pos_bound. lia. Qed.
Lemma u16_range z : 0 <= u16 z < 65536.
Proof. apply Z.mod_pos_bound. lia. Qed.
Lemma u32_range z : 0 <= u32 z < 4294967296.
Proof. apply Z.mod_pos_bound. lia. Qed.
Lemma u8_small z : 0 <= z < 256 → u8 z = z.
Proof. apply Z.mod_small. Qed.
Lemma u32_small z : 0 <= z < 4294967296 → u32 z = z.
Proof. apply Z.mod_small. Qed.
Lemma u32_idemp z : u32 (u32 z) = u32 z.
Proof. apply Z.mod_mod. lia. Qed.

Lemma int32_range z : - 2147483648 <= int32 z < 2147483648.
Proof. unfold int32. pose proof (u32_range z). case_match; lia. Qed.

Lemma int32_cases z : 0 <= z < 4294967296 →
  int32 z = z ∧ z < 2147483648 ∨ int32 z = z - 4294967296 ∧ 2147483648 <= z.
Proof.
  intros Hz. unfold int32. rewrite u32_small by lia.
  destruct (z <? _) eqn:E; [apply Z.ltb_lt in E|apply Z.ltb_ge in E]; simpl in *; lia.
Qed.

Lemma int32_inj a b :
  0 <= a < 4294967296 → 0 <= b < 4294967296 → int32 a = int32 b → a = b.
Proof.
  unfold int32. intros Ha Hb. rewrite !u32_small by lia.
  repeat case_match; lia.
Qed.

(** ** Outcomes and the state monad

    A C function that reads and writes the program's globals is a function
    from the state to an outcome.  [Exit] is a call of [exit]; [Ub] is
    undefined behaviour, with its cause; [Ok] is a return. *)

Inductive ub :=
  | UseAfterFree     (* a pointer to an object that is not allocated *)
  | NullDeref        (* a NULL pointer is dereferenced *)
  | NullString       (* NULL is passed for a string to be printed *)
  | ListCorrupt      (* an attached list element is linked a second time *)
  | SendBufOverflow  (* a write or read past the end of send_buf *)
  | RecvBufOverread  (* a read past the end of recv_buf *)
  | StringOverflow   (* a string or an address is copied to a buffer that is too short for it *)
  | Uninitialised    (* memory is read that has not been written *)
  | OutOfFuel.       (* a loop bound of the model was reached *)

#[export] Instance ub_eq_dec : EqDecision ub.
Proof. solve_decision. Defined.

Inductive outcome (S A : Type) :=
  | Ok (a : A) (s : S)
  | Exit (code : Z)
  | Ub (u : ub).
Arguments Ok {S A}.
Arguments Exit {S A}.
Arguments Ub {S A}.

Definition CM (S A : Type) : Type := S → outcome S A.

Definition ret {S A} (a : A) : CM S A := λ s, Ok a s.
Definition bind {S A B} (m : CM S A) (f : A → CM S B) : CM S B := λ s,
  match m s with
  | Ok a s' => f a s'
  | Exit c => Exit c
  | Ub u => Ub u
  end.

Declare Scope cm_scope.
Delimit Scope cm_scope with cm.
Notation "x ← m ; k" := (bind m (λ x, k)) : cm_scope.
Notation "' p ← m ; k" := (bind m (λ x, match x with p => k end)) : cm_scope.
Notation "m ;; k" := (bind m (λ _, k)) : cm_scope.

Definition gets {S A} (f : S → A) : CM S A := λ s, Ok (f s) s.
Definition modify {S} (f : S → S) : CM S () := λ s, Ok () (f s).
Definition cexit {S A} (code : Z) : CM S A := λ _, Exit code.
Definition undefined {S A} (u : ub) : CM S A := λ _, Ub u.
Definition when {S} (b : bool) (m : CM S ()) : CM S () :=
  if b then m else ret ().

(** [for] loops over a list fixed at the start of the loop, with the local
    variables of the loop body as the accumulator. *)
Fixpoint foreach {S A B} (l : list A) (acc : B) (body : A → B → CM S B) : CM S B :=
  match l with
  | [] => ret acc
  | a :: l' => bind (body a acc) (λ acc', foreach l' acc' body)
  end.

Lemma foreach_app {S A B} (l1 l2 : list A) (acc : B) (body : A → B → CM S B) s :
  foreach (l1 ++ l2) acc body s = bind (foreach l1 acc body) (λ b, foreach l2 b body) s.
Proof.
  revert acc s. induction l1 as [|a l1 IH]; intros acc s; [done|]. simpl. unfold bind.
  destruct (body a acc s) as [b s'| |]; [apply IH|done|done].
Qed.

Lemma foreach_cons {S A B} (a : A) l (acc : B) (f : A → B → CM S B) :
  foreach (a :: l) acc f = bind (f a acc) (λ b, foreach l b f).
Proof. done. Qed.

(** ** Weakest preconditions

    [wp E m Q s] : run from [s], [m] returns in a state that satisfies [Q],
    calls [exit], or stops with an undefined behaviour that [E] admits. *)

Section wp.
Context {S : Type} (E : ub → Prop).

Definition wp {A} (m : CM S A) (Q : A → S → Prop) (s : S) : Prop :=
  match m s with
  | Ok a s' => Q a s'
  | Exit _ => True
  | Ub u => E u
  end.

Lemma wp_ret {A} (a : A) Q s : Q a s → wp (ret a) Q s.
Proof. done. Qed.

Lemma wp_bind {A B} (m : CM S A) (f : A → CM S B) Q s :
  wp m (λ a s', wp (f a) Q s') s → wp (bind m f) Q s.
Proof. unfold wp, bind. by destruct (m s). Qed.

Lemma wp_mono {A} (m : CM S A) (Q Q' : A → S → Prop) s :
  wp m Q s → (∀ a s', Q a s' → Q' a s') → wp m Q' s.
Proof. unfold wp. intros H HQ. destruct (m s); auto. Qed.

Lemma wp_gets {A} (f : S → A) Q s : Q (f s) s → wp (gets f) Q s.
Proof. done. Qed.

Lemma wp_modify (f : S → S) Q s : Q () (f s) → wp (modify f) Q s.
Proof. done. Qed.

Lemma wp_exit {A} c (Q : A → S → Prop) s : wp (cexit c) Q s.
Proof. done. Qed.

Lemma wp_ub {A} u (Q : A → S → Prop) s : E u → wp (undefined u) Q s.
Proof. done. Qed.

Lemma wp_when (b : bool) m Q s :
  (b = true → wp m Q s) → (b = false → Q () s) → wp (when b m) Q s.
Proof. intros H1 H2. destruct b; [by apply H1|by apply H2]. Qed.

(** The loop rule: [I] holds of the accumulator and the state before every
    iteration. *)
Lemma wp_foreach {A B} (I : B → S → Prop) (l : list A) (acc : B) body s :
  I acc s →
  (∀ a b s', a ∈ l → I b s' → wp (body a b) I s') →
  wp (foreach l acc body) I s.
Proof.
  revert acc s. induction l as [|a l IH]; intros acc s Hs Hbody; [done|].
  simpl. apply wp_bind. eapply wp_mono.
  { apply Hbody; [left|done]. }
  intros b s' Hb. apply IH; [done|].
  intros a' b' s'' Ha'. apply Hbody. by right.
Qed.
End wp.

Lemma wp_ok {S A} E (m : CM S A) Q s a s' :
  wp E m Q s → m s = Ok a s' → Q a s'.
Proof. unfold wp. intros H Hm. by rewrite Hm in H. Qed.

Lemma wp_weaken {S A} (E E' : ub → Prop) (m : CM S A) (Q : A → S → Prop) s :
  wp E m Q s → (∀ u, E u → E' u) → wp E' m Q s.
Proof. unfold wp. intros H HE. destruct (m s); auto. Qed.

Lemma wp_and {S A} E (m : CM S A) (Q Q' : A → S → Prop) s :
  wp E m Q s → wp E m Q' s → wp E m (λ a s', Q a s' ∧ Q' a s') s.
Proof. unfold wp. by destruct (m s). Qed.

(** A postcondition that holds of every return, once [wp] has excluded the
    other outcomes. *)
Lemma wp_returns {S A} E (m : CM S A) (Q Q' : A → S → Prop) s :
  wp E m Q s → (∀ a s', m s = Ok a s' → Q' a s') → wp E m Q' s.
Proof. unfold wp. intros H HQ. destruct (m s); auto. Qed.

Lemma wp_also {S A} E (m : CM S A) (Q Q' : A → S → Prop) s :
  wp E m Q s → (∀ a s', m s = Ok a s' → Q' a s') → wp E m (λ a s', Q a s' ∧ Q' a s') s.
Proof. unfold wp. intros H HQ. destruct (m s); auto. Qed.

Lemma bind_inv {S A B} (m : CM S A) (f : A → CM S B) s b s' :
  bind m f s = Ok b s' → ∃ a s1, m s = Ok a s1 ∧ f a s1 = Ok b s'.
Proof. unfold bind. destruct (m s) as [a s1| |]; [eauto|done|done]. Qed.

Lemma bind_ok {S A B} (m : CM S A) (f : A → CM S B) s a s' :
  m s = Ok a s' → bind m f s = f a s'.
Proof. unfold bind. by intros ->. Qed.

Lemma wp_run {S A B} E (m : CM S A) (f : A → CM S B) Q s a s' :
  m s = Ok a s' → wp E (f a) Q s' → wp E (bind m f) Q s.
Proof. unfold wp. intros Hm. by rewrite (bind_ok _ _ _ _ _ Hm). Qed.

(** ** Lists *)

Section lists.
Context {A : Type}.

(** The element found first by a [list_foreach] search loop. *)
Fixpoint search (p : A → bool) (l : list A) : option A :=
  match l with
  | [] => None
  | a :: l' => if p a then Some a else search p l'
  end.

(** Update of the first element that satisfies [p] in place. *)
Fixpoint modify_first (p : A → bool) (f : A → A) (l : list A) : list A :=
  match l with
  | [] => []
  | a :: l' => if p a then f a :: l' else a :: modify_first p f l'
  end.

(** [list_detach] of the first element that satisfies [p]. *)
Fixpoint remove_first (p : A → bool) (l : list A) : list A :=
  match l with
  | [] => []
  | a :: l' => if p a then l' else a :: remove_first p l'
  end.

Lemma search_Some p (l : list A) a : search p l = Some a → a ∈ l ∧ p a = true.
Proof.
  induction l as [|b l IH]; simpl; [done|]. destruct (p b) eqn:Hb.
  - intros [= ->]. split; [left|done].
  - intros H. destruct (IH H). split; [by right|done].
Qed.

Lemma search_None p (l : list A) : search p l = None → ∀ a, a ∈ l → p a = false.
Proof.
  induction l as [|b l IH]; simpl; intros H a Ha; [by apply not_elem_of_nil in Ha|].
  destruct (p b) eqn:Hb; [done|].
  apply elem_of_cons in Ha as [->|Ha]; auto.
Qed.

Lemma search_is_Some p (l : list A) a :
  a ∈ l → p a = true → is_Some (search p l).
Proof.
  intros Ha Hp. destruct (search p l) eqn:E; [eauto|].
  by rewrite (search_None _ _ E a Ha) in Hp.
Qed.

Lemma search_ext p q (l : list A) :
  (∀ a, a ∈ l → p a = q a) → search p l = search q l.
Proof.
  induction l as [|b l IH]; simpl; intros H; [done|].
  rewrite H by left. rewrite IH; [done|]. intros a Ha. apply H. by right.
Qed.

Lemma length_modify_first p f (l : list A) :
  length (modify_first p f l) = length l.
Proof. induction l; simpl; [done|]. case_match; simpl; auto. Qed.

Lemma map_modify_first {B} (g : A → B) p f (l : list A) :
  (∀ a, g (f a) = g a) → map g (modify_first p f l) = map g l.
Proof.
  intros Hf. induction l as [|a l IH]; simpl; [done|].
  case_match; simpl; by rewrite ?Hf, ?IH.
Qed.

Lemma search_modify_first_eq p f (l : list A) a :
  (∀ b, p (f b) = p b) → search p l = Some a →
  search p (modify_first p f l) = Some (f a).
Proof.
  intros Hf. induction l as [|b l IH]; simpl; [done|].
  destruct (p b) eqn:Hb; simpl.
  - intros [= ->]. by rewrite Hf, Hb.
  - rewrite Hb. auto.
Qed.

Lemma search_modify_first_ne p q f (l : list A) :
  (∀ b, p b = true → q b = false) → (∀ b, q (f b) = q b) →
  search q (modify_first p f l) = search q l.
Proof.
  intros Hpq Hf. induction l as [|b l IH]; simpl; [done|].
  destruct (p b) eqn:Hb; simpl.
  - by rewrite Hf, (Hpq b Hb).
  - by rewrite IH.
Qed.

Lemma elem_of_modify_first p f (l : list A) a :
  a ∈ modify_first p f l → a ∈ l ∨ ∃ b, b ∈ l ∧ p b = true ∧ a = f b.
Proof.
  induction l as [|b l IH]; simpl; [by intros ?%not_elem_of_nil|].
  destruct (p b) eqn:Hb; rewrite !elem_of_cons.
  - intros [->|?]; [right; exists b; split; [left|]; done|eauto].
  - intros [->|[?|(c & ? & ? & ->)]%IH]; eauto.
    right. exists c. split; [by right|done].
Qed.

Lemma elem_of_remove_first p (l : list A) a : a ∈ remove_first p l → a ∈ l.
Proof.
  induction l as [|b l IH]; simpl; [done|].
  destruct (p b); [by right|]. rewrite !elem_of_cons. intros [->|?]; auto.
Qed.

Lemma elem_of_remove_first_ne p (l : list A) a :
  p a = false → a ∈ l → a ∈ remove_first p l.
Proof.
  induction l as [|b l IH]; simpl; [done|]. intros Hp.
  destruct (p b) eqn:Hb; rewrite !elem_of_cons; intros [->|?]; auto; congruence.
Qed.

Lemma NoDup_map_remove_first {B} (g : A → B) p (l : list A) :
  NoDup (map g l) → NoDup (map g (remove_first p l)).
Proof.
  induction l as [|b l IH]; simpl; [done|]. rewrite NoDup_cons. intros [Hb Hl].
  destruct (p b); [done|]. simpl. apply NoDup_cons. split; [|auto].
  rewrite list_elem_of_fmap in Hb |- *. intros (c & Hgc & Hc). apply Hb.
  exists c. split; [done|]. by apply elem_of_remove_first in Hc.
Qed.

Lemma length_remove_first p (l : list A) a :
  a ∈ l → p a = true → length l = S (length (remove_first p l)).
Proof.
  induction l as [|b l IH]; simpl; intros Ha Hp; [by apply not_elem_of_nil in Ha|].
  destruct (p b) eqn:Hb; simpl; [done|]. f_equal. apply IH; [|done].
  apply elem_of_cons in Ha as [->|]; congruence.
Qed.

Lemma filter_all (P : A → Prop) `{!∀ x, Decision (P x)} (l : list A) :
  (∀ a, a ∈ l → P a) → filter P l = l.
Proof.
  induction l as [|a l IH]; intros HP; [done|].
  rewrite filter_cons_True by (apply HP; left). f_equal. apply IH.
  intros b Hb. apply HP. by right.
Qed.

Lemma remove_first_None p (l : list A) : search p l = None → remove_first p l = l.
Proof. induction l; simpl; [done|]. case_match; [done|]. intros. f_equal. auto. Qed.
End lists.

(** ** Automation *)

Create HintDb aodv discriminated.
#[export] Hint Constants Opaque : aodv.
#[export] Hint Resolve u8_range u16_range u32_range : aodv.

(** Split the conjunctions and existentials of a hypothesis or of the whole
    context, then simplify. *)
Ltac crush := repeat (simplify_eq/=; destruct_and?; try done).

(** One step of symbolic execution of a monadic program under [wp]. *)
Ltac wp_step :=
  lazymatch goal with
  | |- wp _ (bind _ _) _ _ => apply wp_bind
  | |- wp _ (ret _) _ _ => apply wp_ret
  | |- wp _ (gets _) _ _ => apply wp_gets
  | |- wp _ (modify _) _ _ => apply wp_modify
  | |- wp _ (cexit _) _ _ => apply wp_exit
  | |- wp _ (when _ _) _ _ => apply wp_when; intros ?
  | |- wp _ (if ?b then _ else _) _ _ => let H := fresh "Hif" in destruct b eqn:H
  | |- wp _ (match ?x with _ => _ end) _ _ => let H := fresh "Hm" in destruct x eqn:H
  end.
