(* ===== verification/Params.v ===== *)
(** * Constants of the daemon

    The macros of [core/defs.h], [core/params.h] and of the message and
    table headers, with their expansions evaluated as the C preprocessor
    writes them (most of them are not parenthesised in the source). *)

From S2P Require Import Prelude.

(** ** core/defs.h *)

Definition MAX_NR_INTERFACES : nat := 10.
Definition IFNAMSIZ : nat := 16.
Definition AODV_BROADCAST : Z := 0xFFFFFFFF.
Definition AODV_PORT : Z := 654.

Definition AODV_RREQ : Z := 1.
Definition AODV_RREP : Z := 2.
Definition AODV_RERR : Z := 3.
Definition AODV_RREP_ACK : Z := 4.

Definition RREQ_EXT : Z := 1.
Definition RREP_EXT : Z := 1.
Definition RREP_HELLO_INTERVAL_EXT : Z := 2.
Definition RREP_HELLO_NEIGHBOR_SET_EXT : Z := 3.
Definition AODV_EXT_HDR_SIZE : Z := 2.

(** ** core/params.h *)

Definition K : Z := 5.
Definition ALLOWED_HELLO_LOSS : Z := 2.
Definition HELLO_INTERVAL : Z := 1000.
Definition ACTIVE_ROUTE_TIMEOUT_LLF : Z := 10000.
Definition ACTIVE_ROUTE_TIMEOUT_HELLO : Z := 3000.
Definition TTL_START_HELLO : Z := 2.
Definition DELETE_PERIOD_HELLO : Z :=
  K * Z.max ACTIVE_ROUTE_TIMEOUT_HELLO (ALLOWED_HELLO_LOSS * HELLO_INTERVAL).
Definition LOCAL_ADD_TTL : Z := 2.
Definition NET_DIAMETER : Z := 35.
Definition MAX_REPAIR_TTL : Z := 3 * NET_DIAMETER / 10.
Definition NODE_TRAVERSAL_TIME : Z := 40.
Definition NET_TRAVERSAL_TIME : Z := 2 * NODE_TRAVERSAL_TIME * NET_DIAMETER.
Definition NEXT_HOP_WAIT : Z := NODE_TRAVERSAL_TIME + 10.
Definition PATH_DISCOVERY_TIME : Z := 2 * NET_TRAVERSAL_TIME.
Definition RERR_RATELIMIT : nat := 10.
Definition RREQ_RATELIMIT : nat := 10.
Definition RREQ_RETRIES : Z := 2.
Definition TIMEOUT_BUFFER : Z := 2.
Definition TTL_INCREMENT : Z := 2.
Definition TTL_THRESHOLD : Z := 7.
Definition RING_TRAVERSAL_TIME (ttl : Z) : Z :=
  2 * NODE_TRAVERSAL_TIME * (ttl + TIMEOUT_BUFFER).
Definition BLACKLIST_TIMEOUT (ttl_start : Z) : Z :=
  RREQ_RETRIES * NET_TRAVERSAL_TIME
  + Z.quot (TTL_THRESHOLD - ttl_start) TTL_INCREMENT + 1 + RREQ_RETRIES.

(** ** Message headers *)

Definition RREQ_JOIN : Z := 1.
Definition RREQ_REPAIR : Z := 2.
Definition RREQ_GRATUITOUS : Z := 4.
Definition RREQ_DEST_ONLY : Z := 8.
Definition RREQ_SIZE : Z := 24.

Definition RREP_ACK : Z := 1.
Definition RREP_REPAIR : Z := 2.
Definition RREP_SIZE : Z := 20.

Definition RERR_NODELETE : Z := 1.
Definition RERR_SIZE : Z := 12.
Definition RERR_UDEST_SIZE : Z := 8.

Definition AODV_MSG_MAX_SIZE : Z := RERR_SIZE + 100 * RERR_UDEST_SIZE.
Definition RECV_BUF_SIZE : Z := AODV_MSG_MAX_SIZE.
Definition SEND_BUF_SIZE : Z := RECV_BUF_SIZE.

(** ** routing/routing_table.h *)

Definition RT_UNIDIR : Z := 1.
Definition RT_REPAIR : Z := 2.
Definition RT_INV_SEQNO : Z := 4.
Definition RT_INET_DEST : Z := 8.
Definition RT_GATEWAY : Z := 16.
Definition INVALID : Z := 0.
Definition VALID : Z := 1.
Definition RT_TABLESIZE : nat := 64.
Definition RT_TABLEMASK : Z := 63.

(** ** protocol/aodv_hello.h and aodv_hello.c *)

Definition ROUTE_TIMEOUT_SLACK : Z := 100.
Definition JITTER_INTERVAL : Z := 100.
Definition HELLO_DELAY : Z := 50.

(** ** network: packet_queue.h, packet_input.h, netfilter_compat.h, netinet/ip.h *)

Definition MAX_QUEUE_LENGTH : Z := 512.
Definition MAX_QUEUE_TIME : Z := 10000.
Definition GARBAGE_COLLECT_TIME : Z := 1000.
Definition PQ_DROP : Z := 0.
Definition PQ_SEND : Z := 1.
Definition PQ_ENC_SEND : Z := 2.
Definition NF_DROP : Z := 0.
Definition NF_ACCEPT : Z := 1.
Definition NF_INET_FORWARD : Z := 2.
Definition PACKET_INPUT_QUEUED : Z := -1.
Definition MAXTTL : Z := 255.
Definition IPPROTO_TCP : Z := 6.
Definition IPPROTO_UDP : Z := 17.
