(* ===== verification/Bytes.v ===== *)
(** * Bytes in memory

    Buffers are lists of byte values.  Multi-byte fields are loaded and
    stored in the little-endian order of the host; [htonl]/[ntohl] reverse
    the bytes of a 32-bit value, so that storing [htonl v] writes [v] in
    network order. *)

From S2P Require Import Prelude.

(** [load8]/[store8] fail ([None]) outside the buffer. *)
Definition load8 (buf : list Z) (off : Z) : option Z :=
  if off <? 0 then None else buf !! Z.to_nat off.

Definition store8 (buf : list Z) (off v : Z) : option (list Z) :=
  if (0 <=? off) && (off <? Z.of_nat (length buf))
  then Some (<[Z.to_nat off := u8 v]> buf) else None.

Definition le_bytes32 (v : Z) : list Z :=
  [u8 v; u8 (v / 2 ^ 8); u8 (v / 2 ^ 16); u8 (v / 2 ^ 24)].

Definition le_value32 (b0 b1 b2 b3 : Z) : Z :=
  b0 + 2 ^ 8 * b1 + 2 ^ 16 * b2 + 2 ^ 24 * b3.

Definition load32 (buf : list Z) (off : Z) : option Z :=
  b0 ← load8 buf off; b1 ← load8 buf (off + 1);
  b2 ← load8 buf (off + 2); b3 ← load8 buf (off + 3);
  Some (le_value32 b0 b1 b2 b3).

Definition load16 (buf : list Z) (off : Z) : option Z :=
  b0 ← load8 buf off; b1 ← load8 buf (off + 1); Some (b0 + 2 ^ 8 * b1).

Definition load64 (buf : list Z) (off : Z) : option Z :=
  lo ← load32 buf off; hi ← load32 buf (off + 4); Some (lo + 2 ^ 32 * hi).

Definition le_bytes64 (v : Z) : list Z := le_bytes32 v ++ le_bytes32 (v / 2 ^ 32).

Fixpoint store_bytes (buf : list Z) (off : Z) (bs : list Z) : option (list Z) :=
  match bs with
  | [] => Some buf
  | b :: bs' => buf' ← store8 buf off b; store_bytes buf' (off + 1) bs'
  end.

Definition store32 (buf : list Z) (off v : Z) : option (list Z) :=
  store_bytes buf off (le_bytes32 v).

(** [htonl] and [ntohl] on a little-endian host. *)
Definition htonl (v : Z) : Z :=
  let w := u32 v in
  le_value32 (u8 (w / 2 ^ 24)) (u8 (w / 2 ^ 16)) (u8 (w / 2 ^ 8)) (u8 w).
Definition ntohl (v : Z) : Z := htonl v.

Definition ntohs (b0 b1 : Z) : Z := 2 ^ 8 * b0 + b1.

(** A buffer whose elements are byte values. *)
Definition bytes_ok (buf : list Z) : Prop := Forall (λ b, 0 <= b < 256) buf.

(** ** Lemmas *)

Lemma le_value_bytes v : 0 <= v < 2 ^ 32 →
  le_value32 (u8 v) (u8 (v / 2 ^ 8)) (u8 (v / 2 ^ 16)) (u8 (v / 2 ^ 24)) = v.
Proof.
  unfold le_value32, u8. intros Hv.
  assert (v / 2 ^ 16 = v / 2 ^ 8 / 2 ^ 8) as -> by (rewrite Z.div_div; done).
  assert (v / 2 ^ 24 = v / 2 ^ 8 / 2 ^ 8 / 2 ^ 8) as -> by (rewrite !Z.div_div; done).
  change (2 ^ 8) with 256. change (2 ^ 16) with 65536. change (2 ^ 24) with 16777216.
  change (2 ^ 32) with 4294967296 in Hv. Z.to_euclidean_division_equations. lia.
Qed.

Lemma ntohl_htonl v : ntohl (htonl v) = u32 v.
Proof.
  unfold ntohl. set (w := u32 v). assert (Hw : 0 <= w < 2 ^ 32) by apply u32_range.
  unfold htonl at 2. fold w. unfold htonl.
  assert (Hb : ∀ x, 0 <= u8 x < 256) by apply u8_range.
  set (b3 := u8 (w / 2 ^ 24)). set (b2 := u8 (w / 2 ^ 16)).
  set (b1 := u8 (w / 2 ^ 8)). set (b0 := u8 w).
  assert (Hs : u32 (le_value32 b3 b2 b1 b0) = le_value32 b3 b2 b1 b0).
  { apply u32_small. unfold le_value32.
    pose proof (Hb (w / 2 ^ 24)). pose proof (Hb (w / 2 ^ 16)).
    pose proof (Hb (w / 2 ^ 8)). pose proof (Hb w). subst b0 b1 b2 b3. lia. }
  cbv zeta. rewrite Hs.
  etransitivity; [|apply (le_value_bytes w Hw)]. fold b0 b1 b2 b3.
  pose proof (Hb (w / 2 ^ 24)) as H3. pose proof (Hb (w / 2 ^ 16)) as H2.
  pose proof (Hb (w / 2 ^ 8)) as H1. pose proof (Hb w) as H0.
  fold b3 in H3. fold b2 in H2. fold b1 in H1. fold b0 in H0.
  clearbody b0 b1 b2 b3. clear -H0 H1 H2 H3. unfold le_value32, u8.
  change (2 ^ 8) with 256. change (2 ^ 16) with 65536. change (2 ^ 24) with 16777216.
  Z.to_euclidean_division_equations. lia.
Qed.

Lemma htonl_range v : 0 <= htonl v < 4294967296.
Proof.
  unfold htonl, le_value32. cbv zeta.
  pose proof (u8_range (u32 v)). pose proof (u8_range (u32 v / 2 ^ 8)).
  pose proof (u8_range (u32 v / 2 ^ 16)). pose proof (u8_range (u32 v / 2 ^ 24)). lia.
Qed.

Lemma ntohl_u32_htonl v : ntohl (u32 (htonl v)) = u32 v.
Proof. rewrite (u32_small (htonl v)) by apply htonl_range. apply ntohl_htonl. Qed.

Lemma store8_Some buf off v :
  0 <= off < Z.of_nat (length buf) →
  store8 buf off v = Some (<[Z.to_nat off := u8 v]> buf).
Proof.
  intros H. unfold store8. rewrite (proj2 (Z.leb_le 0 off)) by lia.
  by rewrite (proj2 (Z.ltb_lt _ _)) by lia.
Qed.

Lemma store8_length buf off v buf' :
  store8 buf off v = Some buf' → length buf' = length buf.
Proof. unfold store8. case_match; [|done]. intros [= <-]. apply length_insert. Qed.

Lemma store_bytes_length bs : ∀ buf off buf',
  store_bytes buf off bs = Some buf' → length buf' = length buf.
Proof.
  induction bs as [|b bs IH]; intros buf off buf'; simpl; [by intros [= ->]|].
  destruct (store8 buf off b) eqn:E; [|done]. simpl. intros H.
  rewrite (IH _ _ _ H). by eapply store8_length.
Qed.

Lemma store_bytes_is_Some bs : ∀ buf off,
  0 <= off → off + Z.of_nat (length bs) <= Z.of_nat (length buf) →
  is_Some (store_bytes buf off bs).
Proof.
  induction bs as [|b bs IH]; intros buf off H0 Hlen; simpl; [eauto|].
  simpl in Hlen. rewrite store8_Some by lia. simpl. apply IH; [lia|].
  rewrite length_insert. lia.
Qed.

Lemma store32_is_Some buf off v :
  0 <= off → off + 4 <= Z.of_nat (length buf) → is_Some (store32 buf off v).
Proof. intros. apply store_bytes_is_Some; simpl; lia. Qed.

Lemma store32_length buf off v buf' :
  store32 buf off v = Some buf' → length buf' = length buf.
Proof. apply store_bytes_length. Qed.

Lemma load8_is_Some buf off :
  0 <= off < Z.of_nat (length buf) → is_Some (load8 buf off).
Proof.
  intros H. unfold load8. rewrite (proj2 (Z.ltb_ge _ _)) by lia.
  apply lookup_lt_is_Some. lia.
Qed.

Lemma load32_is_Some buf off :
  0 <= off → off + 4 <= Z.of_nat (length buf) → is_Some (load32 buf off).
Proof.
  intros H0 H. unfold load32.
  destruct (load8_is_Some buf off) as [b0 ->]; [lia|].
  destruct (load8_is_Some buf (off + 1)) as [b1 ->]; [lia|].
  destruct (load8_is_Some buf (off + 2)) as [b2 ->]; [lia|].
  destruct (load8_is_Some buf (off + 3)) as [b3 ->]; [lia|]. simpl. eauto.
Qed.

Lemma load16_is_Some buf off :
  0 <= off → off + 2 <= Z.of_nat (length buf) → is_Some (load16 buf off).
Proof.
  intros H0 H. unfold load16. destruct (load8_is_Some buf off) as [b0 ->]; [lia|].
  destruct (load8_is_Some buf (off + 1)) as [b1 ->]; [lia|]. simpl. eauto.
Qed.

Lemma load8_store8_eq buf off v buf' :
  store8 buf off v = Some buf' → load8 buf' off = Some (u8 v).
Proof.
  unfold store8, load8. destruct (0 <=? off) eqn:E1; [|done].
  destruct (off <? Z.of_nat (length buf)) eqn:E2; [|done]. simpl. intros [= <-].
  rewrite (proj2 (Z.ltb_ge off 0)) by lia. apply list_lookup_insert_eq. lia.
Qed.

Lemma load8_store8_ne buf off v buf' i :
  store8 buf off v = Some buf' → i ≠ off → load8 buf' i = load8 buf i.
Proof.
  unfold store8, load8. destruct (0 <=? off) eqn:E1; [|done].
  destruct (off <? Z.of_nat (length buf)) eqn:E2; [|done]. simpl. intros [= <-] Hi.
  destruct (i <? 0) eqn:E3; [done|]. apply list_lookup_insert_ne. lia.
Qed.

Lemma load8_store_bytes_ne bs : ∀ buf off buf' i,
  store_bytes buf off bs = Some buf' →
  i < off ∨ off + Z.of_nat (length bs) <= i → load8 buf' i = load8 buf i.
Proof.
  induction bs as [|b bs IH]; intros buf off buf' i; simpl; [by intros [= ->]|].
  destruct (store8 buf off b) as [buf1|] eqn:E; [|done]. simpl. intros H Hi.
  rewrite (IH _ _ _ i H) by lia. eapply load8_store8_ne; [done|]. lia.
Qed.

Lemma le_value_u32 v :
  le_value32 (u8 v) (u8 (v / 2 ^ 8)) (u8 (v / 2 ^ 16)) (u8 (v / 2 ^ 24)) = u32 v.
Proof.
  rewrite <- (le_value_bytes (u32 v)) by apply u32_range. unfold le_value32, u8, u32.
  change (2 ^ 8) with 256. change (2 ^ 16) with 65536. change (2 ^ 24) with 16777216.
  change (2 ^ 32) with 4294967296.
  f_equal; [f_equal; [f_equal|]|]; Z.to_euclidean_division_equations; lia.
Qed.

Lemma load32_store32_eq buf off v buf' :
  store32 buf off v = Some buf' → load32 buf' off = Some (u32 v).
Proof.
  unfold store32, le_bytes32. simpl.
  destruct (store8 buf off (u8 v)) as [b1|] eqn:E0; [|done]. simpl.
  destruct (store8 b1 (off + 1) _) as [b2|] eqn:E1; [|done]. simpl.
  destruct (store8 b2 (off + 1 + 1) _) as [b3|] eqn:E2; [|done]. simpl.
  destruct (store8 b3 (off + 1 + 1 + 1) _) as [b4|] eqn:E3; [|done]. simpl.
  intros [= <-]. unfold load32.
  assert (L0 : load8 b4 off = Some (u8 (u8 v))).
  { rewrite (load8_store8_ne _ _ _ _ off E3), (load8_store8_ne _ _ _ _ off E2),
      (load8_store8_ne _ _ _ _ off E1) by lia. by apply (load8_store8_eq _ _ _ _ E0). }
  assert (L1 : load8 b4 (off + 1) = Some (u8 (u8 (v / 2 ^ 8)))).
  { rewrite (load8_store8_ne _ _ _ _ (off + 1) E3), (load8_store8_ne _ _ _ _ (off + 1) E2)
      by lia. by apply (load8_store8_eq _ _ _ _ E1). }
  assert (L2 : load8 b4 (off + 2) = Some (u8 (u8 (v / 2 ^ 16)))).
  { rewrite (load8_store8_ne _ _ _ _ (off + 2) E3) by lia.
    replace (off + 2) with (off + 1 + 1) by lia. by apply (load8_store8_eq _ _ _ _ E2). }
  assert (L3 : load8 b4 (off + 3) = Some (u8 (u8 (v / 2 ^ 24)))).
  { replace (off + 3) with (off + 1 + 1 + 1) by lia. by apply (load8_store8_eq _ _ _ _ E3). }
  rewrite L0, L1, L2, L3. simpl. f_equal.
  rewrite !(u8_small (u8 _)) by apply u8_range. apply le_value_u32.
Qed.

Lemma load32_ext buf buf' off :
  (∀ i, off <= i < off + 4 → load8 buf' i = load8 buf i) →
  load32 buf' off = load32 buf off.
Proof. intros H. unfold load32. by rewrite !H by lia. Qed.

Lemma load32_store32_ne buf off v buf' i :
  store32 buf off v = Some buf' → i + 4 <= off ∨ off + 4 <= i →
  load32 buf' i = load32 buf i.
Proof.
  intros H Hi. apply load32_ext. intros j Hj.
  eapply load8_store_bytes_ne; [exact H|]. simpl. lia.
Qed.

Lemma load8_store32_ne buf off v buf' i :
  store32 buf off v = Some buf' → i < off ∨ off + 4 <= i →
  load8 buf' i = load8 buf i.
Proof. intros H Hi. eapply load8_store_bytes_ne; [exact H|]. simpl. lia. Qed.

Lemma load32_store8_ne buf off v buf' i :
  store8 buf off v = Some buf' → off < i ∨ i + 4 <= off →
  load32 buf' i = load32 buf i.
Proof.
  intros H Hi. apply load32_ext. intros j Hj. eapply load8_store8_ne; [done|]. lia.
Qed.

Lemma bytes_ok_store8 buf off v buf' :
  bytes_ok buf → store8 buf off v = Some buf' → bytes_ok buf'.
Proof.
  unfold bytes_ok, store8. intros Hb. case_match; [|done]. intros [= <-].
  apply Forall_insert; [done|]. apply u8_range.
Qed.

Lemma bytes_ok_store_bytes bs : ∀ buf off buf',
  bytes_ok buf → store_bytes buf off bs = Some buf' → bytes_ok buf'.
Proof.
  induction bs as [|b bs IH]; intros buf off buf' Hb; simpl; [by intros [= <-]|].
  destruct (store8 buf off b) eqn:E; [|done]. simpl. apply IH.
  by eapply bytes_ok_store8.
Qed.

Lemma load8_range buf off v : bytes_ok buf → load8 buf off = Some v → 0 <= v < 256.
Proof.
  unfold bytes_ok, load8. intros Hb. case_match; [done|]. intros Hl.
  exact (Forall_lookup_1 _ _ _ _ Hb Hl).
Qed.

Lemma load32_range buf off v : bytes_ok buf → load32 buf off = Some v → 0 <= v < 2 ^ 32.
Proof.
  intros Hb. unfold load32, le_value32.
  destruct (load8 buf off) eqn:E0; [|done]. destruct (load8 buf (off + 1)) eqn:E1; [|done].
  destruct (load8 buf (off + 2)) eqn:E2; [|done].
  destruct (load8 buf (off + 3)) eqn:E3; [|done]. simpl. intros [= <-].
  apply (load8_range _ _ _ Hb) in E0, E1, E2, E3. lia.
Qed.

#[export] Hint Resolve store8_length store32_length store_bytes_length : aodv.

(** Read back what a chain of stores wrote: resolve each load at a constant
    offset through the stores in the context, the last one first. *)
Ltac load_simp :=
  repeat match goal with
  | S : store8 ?b ?o ?v = Some ?b' |- context [load8 ?b' ?i] =>
      first [ rewrite (load8_store8_ne b o v b' i S) by lia
            | rewrite (load8_store8_eq b o v b' S) ]
  | S : store8 ?b ?o ?v = Some ?b' |- context [load32 ?b' ?i] =>
      rewrite (load32_store8_ne b o v b' i S) by lia
  | S : store32 ?b ?o ?v = Some ?b' |- context [load8 ?b' ?i] =>
      rewrite (load8_store32_ne b o v b' i S) by lia
  | S : store32 ?b ?o ?v = Some ?b' |- context [load32 ?b' ?i] =>
      first [ rewrite (load32_store32_ne b o v b' i S) by lia
            | rewrite (load32_store32_eq b o v b' S) ]
  end.
