(* ===== verification/Format.v ===== *)
(** * Strings and the conversions of [printf]

    Strings are lists of character codes without the final NUL. *)

From Stdlib Require Import Ascii String.
From S2P Require Import Prelude.

#[local] Open Scope cm_scope.

Definition ch (a : ascii) : Z := Z.of_N (N_of_ascii a).
Definition str (s : string) : list Z := ch <$> list_ascii_of_string s.

(** ** Decimal numbers *)

(** The digits of [n], before [acc].  Numbers of 64 bits have 20 digits at most. *)
Fixpoint digits (fuel : nat) (n : Z) (acc : list Z) : list Z :=
  match fuel with
  | O => acc
  | S fuel => if n <? 10 then (48 + n) :: acc else digits fuel (n / 10) ((48 + n mod 10) :: acc)
  end.
Definition dec (n : Z) : list Z := digits 20 n [].
Definition sdec (n : Z) : list Z := if n <? 0 then 45 :: dec (- n) else dec n.

(** The value of a string of digits. *)
Definition numeral (l : list Z) : Z := foldl (λ v c, 10 * v + (c - 48)) 0 l.

(** The signed value of the low 64 bits. *)
Definition int64 (z : Z) : Z := let w := z mod 2 ^ 64 in if w <? 2 ^ 63 then w else w - 2 ^ 64.

(** [%u], [%d], [%lu] and [%ld] *)
Definition fmt_u (z : Z) : list Z := dec (u32 z).
Definition fmt_d (z : Z) : list Z := sdec (int32 z).
Definition fmt_lu (z : Z) : list Z := dec (z mod 2 ^ 64).
Definition fmt_ld (z : Z) : list Z := sdec (int64 z).

(** [%-<w>s], [%<w>s] and [%0<w>d] *)
Definition pad_right (w : nat) (s : list Z) : list Z := s ++ replicate (w - length s) 32.
Definition pad_left (w : nat) (s : list Z) : list Z := replicate (w - length s) 32 ++ s.
Definition pad_zero (w : nat) (s : list Z) : list Z := replicate (w - length s) 48 ++ s.

Lemma digits_length fuel : ∀ k n acc,
  0 <= n < 10 ^ Z.of_nat k → (1 <= k)%nat → (length (digits fuel n acc) <= k + length acc)%nat.
Proof.
  induction fuel as [|fuel IH]; intros k n acc Hn Hk; cbn [digits]; [lia|].
  destruct (Z.ltb_spec n 10); [cbn [length]; lia|].
  destruct k as [|[|k]]; [lia|cbn in Hn; lia|].
  assert (Hd : 0 <= n / 10 < 10 ^ Z.of_nat (S k)).
  { split; [apply Z.div_pos; lia|]. apply Z.div_lt_upper_bound; [lia|].
    rewrite <- Z.pow_succ_r, <- Nat2Z.inj_succ by lia. lia. }
  pose proof (IH (S k) (n / 10) ((48 + n mod 10) :: acc) Hd ltac:(lia)) as H1. cbn [length] in H1. lia.
Qed.

Lemma digits_nonempty fuel n acc : (1 <= length (digits (S fuel) n acc))%nat.
Proof.
  revert n acc. induction fuel as [|fuel IH]; intros n acc; cbn [digits];
    (destruct (n <? 10); [cbn; lia|]); [cbn; lia|]. apply IH.
Qed.

Lemma fmt_u_length z : (length (fmt_u z) <= 10)%nat.
Proof.
  pose proof (u32_range z). pose proof (digits_length 20 10 (u32 z) []) as H1. cbn [length] in H1.
  unfold fmt_u, dec. rewrite Nat.add_0_r in H1. apply H1; [|lia]. simpl Z.of_nat. lia.
Qed.
Lemma fmt_lu_length z : (length (fmt_lu z) <= 20)%nat.
Proof.
  pose proof (Z.mod_pos_bound z (2 ^ 64) ltac:(lia)). pose proof (digits_length 20 20 (z mod 2 ^ 64) []) as H1.
  cbn [length] in H1. unfold fmt_lu, dec. rewrite Nat.add_0_r in H1. apply H1; [|lia]. simpl Z.of_nat. lia.
Qed.
Lemma sdec_length k n :
  - 10 ^ Z.of_nat k < n < 10 ^ Z.of_nat k → (1 <= k)%nat → (length (sdec n) <= S k)%nat.
Proof.
  intros Hn Hk. unfold sdec, dec. destruct (Z.ltb_spec n 0).
  - pose proof (digits_length 20 k (- n) [] ltac:(lia) Hk) as H1. cbn [length] in *. lia.
  - pose proof (digits_length 20 k n [] ltac:(lia) Hk) as H1. cbn [length] in *. lia.
Qed.
Lemma fmt_d_length z : (length (fmt_d z) <= 11)%nat.
Proof. pose proof (int32_range z). apply (sdec_length 10); [simpl Z.of_nat|]; lia. Qed.
Lemma fmt_ld_length z : (length (fmt_ld z) <= 21)%nat.
Proof.
  apply (sdec_length 20); [|lia]. pose proof (Z.mod_pos_bound z (2 ^ 64) ltac:(lia)). unfold int64.
  simpl Z.of_nat. destruct (_ <? _); lia.
Qed.
Lemma pad_right_length w s : length (pad_right w s) = Nat.max w (length s).
Proof. unfold pad_right. rewrite length_app, length_replicate. lia. Qed.
Lemma pad_left_length w s : length (pad_left w s) = Nat.max w (length s).
Proof. unfold pad_left. rewrite length_app, length_replicate. lia. Qed.
Lemma pad_zero_length w s : length (pad_zero w s) = Nat.max w (length s).
Proof. unfold pad_zero. rewrite length_app, length_replicate. lia. Qed.

(** The digits of a number have its value, and it can be read back. *)
Lemma numeral_app l k : numeral (l ++ k) = foldl (λ v c, 10 * v + (c - 48)) (numeral l) k.
Proof. unfold numeral. by rewrite foldl_app. Qed.

Lemma digits_numeral fuel : ∀ n acc,
  0 <= n < 10 ^ Z.of_nat fuel → numeral (digits fuel n acc) = foldl (λ v c, 10 * v + (c - 48)) n acc.
Proof.
  induction fuel as [|fuel IH]; intros n acc Hn; cbn [digits].
  { cbn in Hn. by replace n with 0 by lia. }
  destruct (Z.ltb_spec n 10); [unfold numeral; cbn [foldl]; f_equal; lia|].
  rewrite IH.
  - cbn [foldl]. f_equal. pose proof (Z.div_mod n 10 ltac:(lia)). lia.
  - split; [apply Z.div_pos; lia|]. apply Z.div_lt_upper_bound; [lia|].
    rewrite <- Z.pow_succ_r, <- Nat2Z.inj_succ by lia. lia.
Qed.

Lemma dec_numeral n : 0 <= n < 10 ^ 20 → numeral (dec n) = n.
Proof. intros Hn. unfold dec. by rewrite digits_numeral by (simpl Z.of_nat; lia). Qed.

(** None of them contains a NUL. *)
Definition no_nul (l : list Z) : Prop := Forall (λ c, c ≠ 0) l.

Lemma digits_no_nul fuel : ∀ n acc, 0 <= n → no_nul acc → no_nul (digits fuel n acc).
Proof.
  induction fuel as [|fuel IH]; intros n acc Hn Ha; cbn [digits]; [done|].
  destruct (Z.ltb_spec n 10); [constructor; [lia|done]|]. apply IH; [apply Z.div_pos; lia|].
  constructor; [|done]. pose proof (Z.mod_pos_bound n 10 ltac:(lia)). lia.
Qed.

(** ** [sprintf] *)

(** [len += sprintf(buf + len, ...)] with the text [t], where [buf] has [size] bytes and holds
    [text] so far. *)
Definition sprintf {S} (size : nat) (text t : list Z) : CM S (list Z) :=
  if (size <? length text + length t + 1)%nat then undefined StringOverflow else ret (text ++ t).

Lemma sprintf_run {S} size text t (s : S) :
  (length text + length t + 1 <= size)%nat → sprintf size text t s = Ok (text ++ t) s.
Proof. intros H. unfold sprintf. by rewrite (proj2 (Nat.ltb_ge _ _)) by lia. Qed.

Lemma sprintf_long {S} size text t (s : S) :
  (size < length text + length t + 1)%nat → sprintf size text t s = Ub StringOverflow.
Proof. intros H. unfold sprintf. by rewrite (proj2 (Nat.ltb_lt _ _)) by lia. Qed.

(** The letters of the flags that are set. *)
Fixpoint flag_letters (l : list (bool * Z)) : list Z :=
  match l with
  | [] => []
  | (b, c) :: l => if b then c :: flag_letters l else flag_letters l
  end.

Lemma flag_letters_length l : (length (flag_letters l) <= length l)%nat.
Proof. induction l as [|[[] c] l IH]; cbn; lia. Qed.

(** An address in dotted form, from its lowest byte on. *)
Definition dotted (a : Z) : list Z :=
  fmt_u (u8 a) ++ str "." ++ fmt_u (u8 (a / 2 ^ 8)) ++ str "." ++
  fmt_u (u8 (a / 2 ^ 16)) ++ str "." ++ fmt_u (u8 (a / 2 ^ 24)).

Lemma fmt_u8_length z : (1 <= length (fmt_u (u8 z)) <= 3)%nat.
Proof.
  pose proof (u8_range z). unfold fmt_u. rewrite u32_small by lia.
  pose proof (digits_length 20 3 (u8 z) []) as H1. cbn [length] in H1. rewrite Nat.add_0_r in H1. split.
  - unfold dec. apply digits_nonempty.
  - apply H1; [simpl Z.of_nat|]; lia.
Qed.

Lemma dotted_length a : (7 <= length (dotted a) <= 15)%nat.
Proof.
  unfold dotted. rewrite !length_app. cbn [str ch fmap list_fmap length list_ascii_of_string].
  pose proof (fmt_u8_length a). pose proof (fmt_u8_length (a / 2 ^ 8)).
  pose proof (fmt_u8_length (a / 2 ^ 16)). pose proof (fmt_u8_length (a / 2 ^ 24)). lia.
Qed.

Lemma dotted_no_nul a : no_nul (dotted a).
Proof.
  assert (Hd : ∀ z, no_nul (fmt_u (u8 z))).
  { intros z. apply digits_no_nul; [|by constructor]. apply u32_range. }
  unfold dotted, no_nul. rewrite !Forall_app. split_and!; try apply Hd; by repeat constructor.
Qed.

(** ** Automation *)

(** The length of a constant text. *)
Ltac len_const e :=
  let n := eval vm_compute in (length e) in change (length e) with n.

(** The widths of the numbers in a text. *)
Ltac width f lem :=
  repeat match goal with
  | |- context[length (f ?z)] => lazymatch goal with _ : (length (f z) <= _)%nat |- _ => fail | _ => pose proof (lem z) end
  end.
