(* ===== verification/DList.v ===== *)
(** * utils/list.c and list.h: doubly linked lists

    The lists are intrusive: a [list_t] is a pair of pointers inside the object
    that is listed, and the head is one more [list_t].  Memory is a finite map
    from the addresses of the [list_t]s to their contents; [is_list h head l] says
    that the ring that starts at [head] runs through the elements [l].  The
    operations of the source, pointer by pointer, then do to [l] what the other
    files do to Rocq lists. *)

From S2P Require Import Prelude.

#[local] Open Scope cm_scope.

Definition LIST_NULL : Z := -1.
Definition LIST_SUCCESS : Z := 1.

(** A pointer is [None] for NULL. *)
Record list_t (L : Type) := mk_list_t { prev : option L; next : option L }.
Arguments mk_list_t {L}.
Arguments prev {L}.
Arguments next {L}.

Section ops.
Context {L : Type} `{Countable L}.
Abbreviation heap := (gmap L (list_t L)).
Abbreviation ptr := (option L).

(** [*p] *)
Definition node (p : ptr) : CM heap (list_t L) := λ h,
  match p with
  | None => Ub NullDeref
  | Some a => match h !! a with Some n => Ok n h | None => Ub UseAfterFree end
  end.

Definition store (p : ptr) (f : list_t L → list_t L) : CM heap () := λ h,
  match p with
  | None => Ub NullDeref
  | Some a =>
      match h !! a with Some n => Ok () (<[a := f n]> h) | None => Ub UseAfterFree end
  end.

Definition set_next (p v : ptr) : CM heap () := store p (λ n, mk_list_t (prev n) v).
Definition set_prev (p v : ptr) : CM heap () := store p (λ n, mk_list_t v (next n)).

Definition listelm_detach (prev next : ptr) : CM heap Z :=
  set_prev next prev ;;
  set_next prev next ;;
  ret LIST_SUCCESS.

Definition listelm_add (le prev next : ptr) : CM heap Z :=
  set_next prev le ;;
  set_prev le prev ;;
  set_next le next ;;
  set_prev next le ;;
  ret LIST_SUCCESS.

Definition list_add (head le : ptr) : CM heap Z :=
  match head, le with
  | Some _, Some _ =>
      n ← node head;
      listelm_add le head (next n) ;;
      ret LIST_SUCCESS
  | _, _ => ret LIST_NULL
  end.

Definition list_add_tail (head le : ptr) : CM heap Z :=
  match head, le with
  | Some _, Some _ =>
      n ← node head;
      listelm_add le (prev n) head ;;
      ret LIST_SUCCESS
  | _, _ => ret LIST_NULL
  end.

Definition list_detach (le : ptr) : CM heap Z :=
  match le with
  | None => ret LIST_NULL
  | Some _ =>
      n ← node le;
      listelm_detach (prev n) (next n) ;;
      store le (λ _, mk_list_t None None) ;;
      ret LIST_SUCCESS
  end.

(** The macros. *)
Definition INIT_LIST_HEAD (p : ptr) : CM heap () :=
  set_next p p ;; set_prev p p.
Definition INIT_LIST_ELM (p : ptr) : CM heap () :=
  set_next p None ;; set_prev p None.
Definition list_first (head : ptr) : CM heap ptr :=
  n ← node head; ret (next n).
Definition list_empty (head : ptr) : CM heap bool :=
  n ← node head; ret (bool_decide (head = next n)).
Definition list_unattached (le : ptr) : CM heap bool :=
  n ← node le; ret (bool_decide (next n = None) && bool_decide (prev n = None)).

(** The loops.  The body may use the heap; it gives the new value of its local
    variables and whether the loop goes on.  The result is the value of the
    local variables and of the loop variable when the loop ends.  A ring cannot
    be longer than the heap. *)
Section loops.
Context {B : Type} (body : L → B → CM heap (bool * B)).

Fixpoint foreach_loop (fuel : nat) (head curr : ptr) (acc : B) : CM heap (ptr * B) :=
  match fuel with
  | O => undefined OutOfFuel
  | S fuel =>
      if bool_decide (curr = head) then ret (curr, acc) else
      match curr with
      | None => undefined NullDeref
      | Some c =>
          '(go, acc) ← body c acc;
          if go : bool then n ← node curr; foreach_loop fuel head (next n) acc
          else ret (curr, acc)
      end
  end.

Definition list_foreach (head : ptr) (acc : B) : CM heap (ptr * B) :=
  n ← node head;
  fuel ← gets (λ h, S (size h));
  foreach_loop fuel head (next n) acc.

Fixpoint foreach_safe_loop (fuel : nat) (head pos tmp : ptr) (acc : B) : CM heap (ptr * B) :=
  match fuel with
  | O => undefined OutOfFuel
  | S fuel =>
      if bool_decide (pos = head) then ret (pos, acc) else
      match pos with
      | None => undefined NullDeref
      | Some c =>
          '(go, acc) ← body c acc;
          if go : bool then n ← node tmp; foreach_safe_loop fuel head tmp (next n) acc
          else ret (pos, acc)
      end
  end.

Definition list_foreach_safe (head : ptr) (acc : B) : CM heap (ptr * B) :=
  n ← node head;
  m ← node (next n);
  fuel ← gets (λ h, S (size h));
  foreach_safe_loop fuel head (next n) (next m) acc.
End loops.
End ops.

(** ** The ring of a list *)

Section rep.
Context {L : Type} `{Countable L}.
Abbreviation heap := (gmap L (list_t L)).
Implicit Types (h : heap) (a b x y head le : L) (l : list L).

Definition next_of h a : option L := h !! a ≫= next.
Definition prev_of h a : option L := h !! a ≫= prev.

(** [b] follows [a], seen from both sides. *)
Definition link h a b : Prop := next_of h a = Some b ∧ prev_of h b = Some a.

(** From [a] the pointers run through [l] to [b]. *)
Fixpoint seg h a l b : Prop :=
  match l with
  | [] => link h a b
  | x :: l' => link h a x ∧ seg h x l' b
  end.

Record is_list h head l : Prop := {
  ring_seg : seg h head l head;
  ring_nodup : NoDup (head :: l)
}.

(** An element that is in no list. *)
Definition unattached h a : Prop := h !! a = Some (mk_list_t None None).

Lemma seg_app h a l1 x l2 b : seg h a (l1 ++ x :: l2) b ↔ seg h a l1 x ∧ seg h x l2 b.
Proof. revert a. induction l1 as [|y l1 IH]; intros a; simpl; [done|]. rewrite IH. tauto. Qed.

Lemma seg_frame h h' l : ∀ a b,
  seg h a l b → (∀ x, x ∈ a :: l → next_of h' x = next_of h x) →
  (∀ x, x ∈ b :: l → prev_of h' x = prev_of h x) → seg h' a l b.
Proof.
  induction l as [|y l IH]; intros a b; simpl.
  - intros [H1 H2] Hn Hp. split; [rewrite Hn by left|rewrite Hp by left]; done.
  - intros [[H1 H2] Hs] Hn Hp. split.
    + split; [rewrite Hn by left|rewrite Hp by (right; left)]; done.
    + apply IH; [done| |]; intros x Hx; [apply Hn; by right|].
      apply Hp. rewrite !elem_of_cons in *. tauto.
Qed.

(** The element before the end and the one after the start. *)
Lemma last_cons l x a : List.last (x :: l) a = List.last l x.
Proof.
  revert x a. induction l as [|y l IH]; intros x a; [done|].
  change (List.last (y :: l) a = List.last (y :: l) x). by rewrite !IH.
Qed.

Lemma last_elem l a : List.last l a ∈ a :: l.
Proof.
  revert a. induction l as [|y l IH]; intros a; [left|]. rewrite last_cons. right. apply IH.
Qed.

Lemma hd_elem l b : hd b l ∈ b :: l.
Proof. destruct l; [left|right; left]. Qed.

Lemma seg_last h l : ∀ a b, seg h a l b → prev_of h b = Some (List.last l a).
Proof.
  induction l as [|y l IH]; intros a b; cbn [seg]; [by intros []|]. intros [_ Hs].
  rewrite last_cons. by apply IH.
Qed.

(** Two neighbours of a ring. *)
Lemma seg_link h l1 l2 : ∀ a b, seg h a (l1 ++ l2) b → link h (List.last l1 a) (hd b l2).
Proof.
  induction l1 as [|y l1 IH]; intros a b; cbn [seg app].
  - destruct l2; [done|by intros []].
  - intros [_ Hs]. rewrite last_cons. by apply IH.
Qed.

(** A ring with an element more. *)
Lemma seg_insert h h' le l2 : ∀ l1 a b,
  seg h a (l1 ++ l2) b → link h' (List.last l1 a) le → link h' le (hd b l2) →
  (∀ x, x ≠ List.last l1 a → x ≠ le → next_of h' x = next_of h x) →
  (∀ x, x ≠ hd b l2 → x ≠ le → prev_of h' x = prev_of h x) →
  NoDup (a :: l1 ++ l2) → b ∉ l1 ++ l2 → le ∉ a :: b :: l1 ++ l2 →
  seg h' a (l1 ++ le :: l2) b.
Proof.
  induction l1 as [|z l1 IH]; intros a b Hs H1 H2 Hn Hp Hnd Hb Hle; cbn [seg app] in *.
  - split; [done|]. destruct l2 as [|y l2]; [done|]. cbn [hd seg] in *. destruct Hs as [_ Hs].
    split; [done|]. apply NoDup_cons in Hnd as [Ha Hnd].
    apply (seg_frame h); [done| |]; intros x Hx.
    + apply Hn; set_solver.
    + apply NoDup_cons in Hnd as [Hy _]. apply Hp; set_solver.
  - rewrite last_cons in H1, Hn. destruct Hs as [[L1 L2] Hs].
    apply NoDup_cons in Hnd as [Ha Hnd]. pose proof (proj1 (proj1 (NoDup_cons _ _) Hnd)) as Hz.
    split.
    + split; [rewrite Hn; [done| |set_solver]|rewrite Hp; [done| |set_solver]].
      * intros ->. apply Ha. pose proof (last_elem l1 z). set_solver.
      * intros ->. pose proof (hd_elem l2 b). set_solver.
    + apply IH; [done|done|done|done|done|done|set_solver|set_solver].
Qed.

(** A ring with an element less. *)
Lemma seg_delete h h' x l2 : ∀ l1 a b,
  seg h a (l1 ++ x :: l2) b → link h' (List.last l1 a) (hd b l2) →
  (∀ y, y ≠ List.last l1 a → y ≠ x → next_of h' y = next_of h y) →
  (∀ y, y ≠ hd b l2 → y ≠ x → prev_of h' y = prev_of h y) →
  NoDup (a :: l1 ++ x :: l2) → b ∉ l1 ++ x :: l2 →
  seg h' a (l1 ++ l2) b.
Proof.
  induction l1 as [|z l1 IH]; intros a b Hs H1 Hn Hp Hnd Hb; cbn [seg app] in *.
  - destruct Hs as [_ Hs]. destruct l2 as [|y l2]; [done|]. cbn [hd seg] in *.
    split; [done|]. destruct Hs as [_ Hs]. rewrite !NoDup_cons in Hnd.
    destruct Hnd as (Ha & Hx & Hy & _).
    apply (seg_frame h); [done| |]; intros w Hw; [apply Hn|apply Hp]; set_solver.
  - rewrite last_cons in H1, Hn. destruct Hs as [[L1 L2] Hs].
    apply NoDup_cons in Hnd as [Ha Hnd]. pose proof (proj1 (proj1 (NoDup_cons _ _) Hnd)) as Hz.
    split.
    + split; [rewrite Hn; [done| |set_solver]|rewrite Hp; [done| |set_solver]].
      * intros ->. apply Ha. pose proof (last_elem l1 z). set_solver.
      * intros ->. pose proof (hd_elem l2 b). set_solver.
    + apply IH; [done|done|done|done|done|set_solver].
Qed.

Lemma seg_first h l a b : seg h a l b → next_of h a = Some (hd b l).
Proof. destruct l; simpl; [by intros []|by intros [[] _]]. Qed.

Lemma seg_alloc h l : ∀ a b x, seg h a l b → x ∈ a :: b :: l → is_Some (h !! x).
Proof.
  assert (Hl : ∀ a b, link h a b → is_Some (h !! a) ∧ is_Some (h !! b)).
  { unfold link, next_of, prev_of. intros a b [Hn Hp].
    destruct (h !! a), (h !! b); simplify_eq/=; eauto. }
  induction l as [|y l IH]; intros a b x Hs Hx; simpl in Hs.
  - apply Hl in Hs as [??]. by rewrite !elem_of_cons, elem_of_nil in Hx; destruct Hx as [->|[->|[]]].
  - destruct Hs as [Hay Hs]. apply Hl in Hay as [Ha _].
    rewrite elem_of_cons in Hx. destruct Hx as [->|Hx]; [done|]. apply (IH y b); [done|].
    rewrite !elem_of_cons in *. tauto.
Qed.

(** *** Assignments *)

Definition put_next a (v : option L) h : heap := alter (λ n, mk_list_t (prev n) v) a h.
Definition put_prev a (v : option L) h : heap := alter (λ n, mk_list_t v (next n)) a h.

Lemma set_next_ok h a v : is_Some (h !! a) → set_next (Some a) v h = Ok () (put_next a v h).
Proof.
  intros [n Hn]. unfold set_next, store, put_next. rewrite Hn. f_equal.
  by rewrite (alter_alt_Some _ _ _ n).
Qed.

Lemma set_prev_ok h a v : is_Some (h !! a) → set_prev (Some a) v h = Ok () (put_prev a v h).
Proof.
  intros [n Hn]. unfold set_prev, store, put_prev. rewrite Hn. f_equal.
  by rewrite (alter_alt_Some _ _ _ n).
Qed.

Lemma next_put_next h a v x :
  is_Some (h !! a) → next_of (put_next a v h) x = if decide (x = a) then v else next_of h x.
Proof.
  intros [n Hn]. unfold next_of, put_next. case_decide as E; [subst|].
  - rewrite lookup_alter_eq, Hn. done.
  - by rewrite lookup_alter_ne by congruence.
Qed.
Lemma next_put_prev h a v x : next_of (put_prev a v h) x = next_of h x.
Proof.
  unfold next_of, put_prev. destruct (decide (x = a)) as [->|E].
  - rewrite lookup_alter_eq. by destruct (h !! a).
  - by rewrite lookup_alter_ne by congruence.
Qed.
Lemma prev_put_prev h a v x :
  is_Some (h !! a) → prev_of (put_prev a v h) x = if decide (x = a) then v else prev_of h x.
Proof.
  intros [n Hn]. unfold prev_of, put_prev. case_decide as E; [subst|].
  - rewrite lookup_alter_eq, Hn. done.
  - by rewrite lookup_alter_ne by congruence.
Qed.
Lemma prev_put_next h a v x : prev_of (put_next a v h) x = prev_of h x.
Proof.
  unfold prev_of, put_next. destruct (decide (x = a)) as [->|E].
  - rewrite lookup_alter_eq. by destruct (h !! a).
  - by rewrite lookup_alter_ne by congruence.
Qed.
Lemma alloc_put_next h a v x : is_Some (put_next a v h !! x) ↔ is_Some (h !! x).
Proof. apply lookup_alter_is_Some. Qed.
Lemma alloc_put_prev h a v x : is_Some (put_prev a v h !! x) ↔ is_Some (h !! x).
Proof. apply lookup_alter_is_Some. Qed.

(** The same cells are allocated, and those outside [l] are as they were. *)
Definition touches (l : list L) h h' : Prop :=
  (∀ x, is_Some (h' !! x) ↔ is_Some (h !! x)) ∧ (∀ x, x ∉ l → h' !! x = h !! x).

Lemma touches_refl l h : touches l h h.
Proof. done. Qed.

Lemma touches_trans l h1 h2 h3 : touches l h1 h2 → touches l h2 h3 → touches l h1 h3.
Proof.
  intros [A1 B1] [A2 B2]. split; intros x; [by rewrite A2|]. intros Hx.
  by rewrite B2, B1.
Qed.

Lemma touches_weaken l l' h h' : touches l h h' → l ⊆ l' → touches l' h h'.
Proof. intros [A B] Hl. split; [done|]. intros x Hx. apply B. set_solver. Qed.

Lemma touches_size l h h' : touches l h h' → size h' = size h.
Proof.
  intros [A _]. rewrite <- !size_dom. f_equal. apply set_eq. intros x.
  rewrite !elem_of_dom. apply A.
Qed.

Lemma touches_put_next l a v h : a ∈ l → touches l h (put_next a v h).
Proof.
  intros Ha. split; [apply alloc_put_next|]. intros x Hx. apply lookup_alter_ne. by intros ->.
Qed.
Lemma touches_put_prev l a v h : a ∈ l → touches l h (put_prev a v h).
Proof.
  intros Ha. split; [apply alloc_put_prev|]. intros x Hx. apply lookup_alter_ne. by intros ->.
Qed.

(** A list none of whose cells is touched stays. *)
Lemma is_list_frame l h h' head k :
  touches l h h' → head :: k ## l → is_list h head k → is_list h' head k.
Proof.
  intros [_ Ht] Hd [Hs Hn]. split; [|done].
  assert (Hsame : ∀ x, x ∈ head :: k → h' !! x = h !! x).
  { intros x Hx. apply Ht. intros Hl. by apply (Hd x). }
  apply (seg_frame h); [done| |]; intros x Hx; unfold next_of, prev_of; by rewrite Hsame.
Qed.

(** *** Linking an element *)

Lemma listelm_add_spec h le p n :
  link h p n → is_Some (h !! le) → is_Some (h !! p) → is_Some (h !! n) → le ≠ p → le ≠ n →
  ∃ h', listelm_add (Some le) (Some p) (Some n) h = Ok LIST_SUCCESS h' ∧
    link h' p le ∧ link h' le n ∧ touches [p; le; n] h h' ∧
    (∀ x, x ≠ p → x ≠ le → next_of h' x = next_of h x) ∧
    (∀ x, x ≠ n → x ≠ le → prev_of h' x = prev_of h x).
Proof.
  intros [Hn Hp] Hle Hap Han Hlp Hln. unfold listelm_add.
  erewrite bind_ok by (by apply set_next_ok).
  erewrite bind_ok by (apply set_prev_ok; by rewrite alloc_put_next).
  erewrite bind_ok by (apply set_next_ok; by rewrite alloc_put_prev, alloc_put_next).
  erewrite bind_ok by (apply set_prev_ok; by rewrite alloc_put_next, alloc_put_prev, alloc_put_next).
  eexists. split; [reflexivity|].
  set (h1 := put_next p _ h). set (h2 := put_prev le _ h1). set (h3 := put_next le _ h2).
  assert (A1 : ∀ x, is_Some (h1 !! x) ↔ is_Some (h !! x)) by apply alloc_put_next.
  assert (A2 : ∀ x, is_Some (h2 !! x) ↔ is_Some (h !! x))
    by (intros x; unfold h2; by rewrite alloc_put_prev).
  assert (A3 : ∀ x, is_Some (h3 !! x) ↔ is_Some (h !! x))
    by (intros x; unfold h3; by rewrite alloc_put_next).
  assert (N : ∀ x, next_of (put_prev n (Some le) h3) x
    = if decide (x = le) then Some n else if decide (x = p) then Some le else next_of h x).
  { intros x. rewrite next_put_prev. unfold h3. rewrite next_put_next by by rewrite A2.
    unfold h2. rewrite next_put_prev. unfold h1. by rewrite next_put_next. }
  assert (P : ∀ x, prev_of (put_prev n (Some le) h3) x
    = if decide (x = n) then Some le else if decide (x = le) then Some p else prev_of h x).
  { intros x. rewrite prev_put_prev by by rewrite A3. unfold h3. rewrite prev_put_next.
    unfold h2. rewrite prev_put_prev by by rewrite A1. unfold h1. by rewrite prev_put_next. }
  split_and!.
  - split; [rewrite N, decide_False, decide_True by done; done|].
    rewrite P, decide_False, decide_True by done. done.
  - split; [by rewrite N, decide_True by done|by rewrite P, decide_True by done].
  - apply (touches_trans _ _ h3); [|apply touches_put_prev; set_solver].
    apply (touches_trans _ _ h2); [|apply touches_put_next; set_solver].
    apply (touches_trans _ _ h1); [apply touches_put_next; set_solver|].
    apply touches_put_prev; set_solver.
  - intros x ? ?. by rewrite N, !decide_False by done.
  - intros x ? ?. by rewrite P, !decide_False by done.
Qed.

(** Linking [le] between two neighbours of a ring. *)
Lemma listelm_add_ring h head l1 l2 le :
  is_list h head (l1 ++ l2) → is_Some (h !! le) → le ∉ head :: l1 ++ l2 →
  ∃ h', listelm_add (Some le) (Some (List.last l1 head)) (Some (hd head l2)) h
        = Ok LIST_SUCCESS h' ∧
    is_list h' head (l1 ++ le :: l2) ∧ touches (le :: head :: l1 ++ l2) h h'.
Proof.
  intros [Hs Hnd] Hle Hnew. set (p := List.last l1 head). set (n := hd head l2).
  assert (Hp : p ∈ head :: l1) by apply last_elem.
  assert (Hn : n ∈ head :: l2) by apply hd_elem.
  assert (Hal : ∀ x, x ∈ head :: l1 ++ l2 → is_Some (h !! x)).
  { intros x Hx. apply (seg_alloc h (l1 ++ l2) head head); [done|]. set_solver. }
  destruct (listelm_add_spec h le p n) as (h' & R & L1 & L2 & T & N & P);
    [by apply seg_link|done|apply Hal; set_solver|apply Hal; set_solver|set_solver|set_solver|].
  exists h'. split_and!; [done| |eapply touches_weaken; [exact T|set_solver]].
  pose proof (proj1 (proj1 (NoDup_cons _ _) Hnd)) as Hh. split.
  - eapply seg_insert; [exact Hs|exact L1|exact L2|exact N|exact P|done|done|set_solver].
  - rewrite NoDup_cons in *. destruct Hnd as [_ Hnd]. split; [set_solver|].
    rewrite NoDup_app in *. rewrite NoDup_cons. destruct Hnd as (? & Hd & ?).
    split_and!; [done|set_solver|set_solver|done].
Qed.

Lemma node_ok h a n : h !! a = Some n → node (Some a) h = Ok n h.
Proof. unfold node. by intros ->. Qed.

(** The pointers of an element of a ring, the head included. *)
Lemma ring_node h head l1 x l2 :
  is_list h head (l1 ++ x :: l2) →
  h !! x = Some (mk_list_t (Some (List.last l1 head)) (Some (hd head l2))).
Proof.
  intros [Hs _]. apply seg_app in Hs as [H1 H2].
  pose proof (seg_last _ _ _ _ H1) as Hp. pose proof (seg_first _ _ _ _ H2) as Hn.
  unfold next_of, prev_of in *. destruct (h !! x) as [[p n]|]; [|done]. by simplify_eq/=.
Qed.

Lemma ring_head h head l :
  is_list h head l → h !! head = Some (mk_list_t (Some (List.last l head)) (Some (hd head l))).
Proof.
  intros [Hs _]. pose proof (seg_last _ _ _ _ Hs) as Hp.
  pose proof (seg_first _ _ _ _ Hs) as Hn.
  unfold next_of, prev_of in *. destruct (h !! head) as [[p n]|]; [|done]. by simplify_eq/=.
Qed.

Lemma ring_head_fresh h head l : is_list h head l → head ∉ l.
Proof. intros Hl. apply (proj1 (NoDup_cons _ _) (ring_nodup _ _ _ Hl)). Qed.

Lemma ring_size h head l : is_list h head l → (length l < size h)%nat.
Proof.
  intros [Hs Hn]. rewrite <- size_dom.
  replace (length l < size (dom h))%nat with (length (head :: l) <= size (dom h))%nat
    by (simpl; done).
  rewrite <- (size_list_to_set (C:=gset L) (head :: l)) by done. apply subseteq_size. intros x.
  rewrite elem_of_list_to_set, elem_of_dom. intros Hx. eapply seg_alloc; [exact Hs|].
  rewrite !elem_of_cons in *. tauto.
Qed.

Lemma list_add_spec h head l le :
  is_list h head l → is_Some (h !! le) → le ∉ head :: l →
  ∃ h', list_add (Some head) (Some le) h = Ok LIST_SUCCESS h' ∧
    is_list h' head (le :: l) ∧ touches (le :: head :: l) h h'.
Proof.
  intros Hl Hle Hn. destruct (listelm_add_ring h head [] l le Hl Hle Hn) as (h' & R & Hl' & T).
  exists h'. split_and!; [|done|done]. unfold list_add.
  erewrite bind_ok by (apply node_ok; by apply ring_head). cbn [next].
  by erewrite bind_ok by exact R.
Qed.

Lemma list_add_tail_spec h head l le :
  is_list h head l → is_Some (h !! le) → le ∉ head :: l →
  ∃ h', list_add_tail (Some head) (Some le) h = Ok LIST_SUCCESS h' ∧
    is_list h' head (l ++ [le]) ∧ touches (le :: head :: l) h h'.
Proof.
  intros Hl Hle Hn.
  destruct (listelm_add_ring h head l [] le) as (h' & R & Hl' & T);
    [by rewrite app_nil_r|done|by rewrite app_nil_r|].
  exists h'. rewrite app_nil_r in T. split_and!; [|done|done]. unfold list_add_tail.
  erewrite bind_ok by (apply node_ok; by apply ring_head). cbn [prev].
  by erewrite bind_ok by exact R.
Qed.

(** [list_add(pos->prev, le)]: [le] goes before [pos]. *)
Lemma list_add_before h head l1 l2 le :
  is_list h head (l1 ++ l2) → is_Some (h !! le) → le ∉ head :: l1 ++ l2 →
  ∃ h', list_add (Some (List.last l1 head)) (Some le) h = Ok LIST_SUCCESS h' ∧
    is_list h' head (l1 ++ le :: l2) ∧ touches (le :: head :: l1 ++ l2) h h'.
Proof.
  intros Hl Hle Hn. destruct (listelm_add_ring h head l1 l2 le Hl Hle Hn) as (h' & R & Hl' & T).
  exists h'. split_and!; [|done|done]. unfold list_add.
  destruct (seg_link _ _ _ _ _ (ring_seg _ _ _ Hl)) as [Hnx _]. unfold next_of in Hnx.
  destruct (h !! List.last l1 head) as [n|] eqn:E; [|done]. simpl in Hnx.
  erewrite bind_ok by (by apply node_ok). rewrite Hnx.
  by erewrite bind_ok by exact R.
Qed.

Lemma list_detach_spec h head l1 x l2 :
  is_list h head (l1 ++ x :: l2) →
  ∃ h', list_detach (Some x) h = Ok LIST_SUCCESS h' ∧
    is_list h' head (l1 ++ l2) ∧ unattached h' x ∧ touches (head :: l1 ++ x :: l2) h h'.
Proof.
  intros Hl. pose proof (ring_node _ _ _ _ _ Hl) as Hx. destruct Hl as [Hs Hnd].
  set (p := List.last l1 head) in *. set (n := hd head l2) in *.
  assert (Hp : p ∈ head :: l1) by apply last_elem.
  assert (Hn : n ∈ head :: l2) by apply hd_elem.
  pose proof (proj1 (NoDup_cons _ _) Hnd) as [Hh Hnd']. apply NoDup_app in Hnd' as (_ & Hd & Hxn).
  apply NoDup_cons in Hxn as [Hxn _].
  assert (Hpx : p ≠ x) by set_solver. assert (Hnx : n ≠ x) by set_solver.
  assert (Hal : ∀ y, y ∈ head :: l1 ++ x :: l2 → is_Some (h !! y)).
  { intros y Hy. apply (seg_alloc h (l1 ++ x :: l2) head head); [done|]. set_solver. }
  assert (Hap : is_Some (h !! p)) by (apply Hal; set_solver).
  assert (Han : is_Some (h !! n)) by (apply Hal; set_solver).
  set (h2 := put_next p (Some n) (put_prev n (Some p) h)).
  assert (Hx2 : h2 !! x = h !! x).
  { unfold h2, put_next, put_prev. by rewrite !lookup_alter_ne by congruence. }
  exists (<[x := mk_list_t None None]> h2). split_and!.
  - unfold list_detach. erewrite bind_ok by (apply node_ok; exact Hx). cbn [prev next].
    unfold listelm_detach. erewrite bind_ok.
    + unfold store. erewrite bind_ok by (rewrite Hx2, Hx; reflexivity). reflexivity.
    + erewrite bind_ok by (by apply set_prev_ok).
      erewrite bind_ok by (apply set_next_ok; by rewrite alloc_put_prev). reflexivity.
  - assert (N : ∀ y, y ≠ x → next_of (<[x := mk_list_t None None]> h2) y
      = if decide (y = p) then Some n else next_of h y).
    { intros y Hy. unfold next_of at 1. rewrite lookup_insert_ne by congruence.
      fold (next_of h2 y). unfold h2. rewrite next_put_next by by rewrite alloc_put_prev.
      by rewrite next_put_prev. }
    assert (P : ∀ y, y ≠ x → prev_of (<[x := mk_list_t None None]> h2) y
      = if decide (y = n) then Some p else prev_of h y).
    { intros y Hy. unfold prev_of at 1. rewrite lookup_insert_ne by congruence.
      fold (prev_of h2 y). unfold h2. rewrite prev_put_next, prev_put_prev by done. done. }
    split.
    + eapply (seg_delete h); [exact Hs| | | |done|done].
      * split; [rewrite N, decide_True by done|rewrite P, decide_True by done]; done.
      * intros y Hy ?. by rewrite N, decide_False by done.
      * intros y Hy ?. by rewrite P, decide_False by done.
    + apply NoDup_cons. split; [set_solver|]. apply NoDup_cons in Hnd as [_ Hnd].
      rewrite NoDup_app in *. rewrite NoDup_cons in *. destruct Hnd as (? & ? & ? & ?).
      split_and!; [done|set_solver|done].
  - unfold unattached. by rewrite lookup_insert_eq.
  - apply (touches_trans _ _ h2).
    + apply (touches_trans _ _ (put_prev n (Some p) h)); [apply touches_put_prev; set_solver|].
      apply touches_put_next; set_solver.
    + split; intros y.
      * rewrite lookup_insert_is_Some. destruct (decide (x = y)) as [<-|]; [|naive_solver].
        rewrite Hx2. naive_solver.
      * intros Hy. rewrite lookup_insert_ne; [done|]. set_solver.
Qed.
End rep.

(** ** Macros and loops *)

Section loops_spec.
Context {L : Type} `{Countable L}.
Abbreviation heap := (gmap L (list_t L)).
Implicit Types (h : heap) (head : L) (l : list L).

Lemma list_empty_spec h head l :
  is_list h head l → list_empty (Some head) h = Ok (bool_decide (l = [])) h.
Proof.
  intros Hl. unfold list_empty. erewrite bind_ok by (apply node_ok; by apply ring_head).
  cbn [next]. unfold ret. f_equal. destruct l as [|x l]; simpl.
  - by rewrite !bool_decide_eq_true_2.
  - rewrite bool_decide_eq_false_2; [done|]. intros [= ->].
    apply (ring_head_fresh _ _ _ Hl). left.
Qed.

Lemma list_first_spec h head x l :
  is_list h head (x :: l) → list_first (Some head) h = Ok (Some x) h.
Proof.
  intros Hl. unfold list_first. by erewrite bind_ok by (apply node_ok; by apply ring_head).
Qed.

Lemma unattached_spec h x : unattached h x → list_unattached (Some x) h = Ok true h.
Proof. intros Hx. unfold list_unattached. by erewrite bind_ok by by apply node_ok. Qed.

Lemma attached_spec h head l1 x l2 :
  is_list h head (l1 ++ x :: l2) → list_unattached (Some x) h = Ok false h.
Proof.
  intros Hl. unfold list_unattached.
  by erewrite bind_ok by (apply node_ok; by apply (ring_node _ _ _ _ _ Hl)).
Qed.

Lemma init_elm_spec h x :
  is_Some (h !! x) → ∃ h', INIT_LIST_ELM (Some x) h = Ok () h' ∧ unattached h' x ∧
    touches [x] h h'.
Proof.
  intros Hx. unfold INIT_LIST_ELM. erewrite bind_ok by by apply set_next_ok.
  rewrite set_prev_ok by by rewrite alloc_put_next.
  eexists. split; [reflexivity|]. split.
  - destruct Hx as [n Hn]. unfold unattached, put_prev, put_next.
    by rewrite !lookup_alter_eq, Hn.
  - apply (touches_trans _ _ (put_next x None h)); [apply touches_put_next|apply touches_put_prev];
      left.
Qed.

Lemma init_head_spec h x :
  is_Some (h !! x) → ∃ h', INIT_LIST_HEAD (Some x) h = Ok () h' ∧ is_list h' x [] ∧
    touches [x] h h'.
Proof.
  intros Hx. unfold INIT_LIST_HEAD. erewrite bind_ok by by apply set_next_ok.
  rewrite set_prev_ok by by rewrite alloc_put_next.
  eexists. split; [reflexivity|]. split.
  - split; [|by apply NoDup_singleton]. split.
    + by rewrite next_put_prev, next_put_next, decide_True.
    + by rewrite prev_put_prev, decide_True by by rewrite ?alloc_put_next.
  - apply (touches_trans _ _ (put_next x (Some x) h));
      [apply touches_put_next|apply touches_put_prev]; left.
Qed.

(** A loop whose body only reads: what it has passed, what is left when it stops,
    and its local variables. *)
Fixpoint scan {B} (f : L → B → bool * B) (l : list L) (acc : B) : list L * list L * B :=
  match l with
  | [] => ([], [], acc)
  | x :: r =>
      let '(go, acc) := f x acc in
      if go : bool then let '(l1, l2, acc) := scan f r acc in (x :: l1, l2, acc)
      else ([], x :: r, acc)
  end.

Lemma scan_app {B} (f : L → B → bool * B) l : ∀ acc l1 l2 acc',
  scan f l acc = (l1, l2, acc') → l = l1 ++ l2.
Proof.
  induction l as [|x l IH]; intros acc l1 l2 acc'; simpl; [by intros [= <- <- _]|].
  destruct (f x acc) as [[] acc1]; [|by intros [= <- <- _]].
  destruct (scan f l acc1) as [[r1 r2] acc2] eqn:E. intros [= <- <- _]. simpl. f_equal. by eapply IH.
Qed.

Lemma list_foreach_spec {B} (body : L → B → CM heap (bool * B)) f h head l acc l1 l2 acc' :
  is_list h head l → (∀ x b, x ∈ l → body x b h = Ok (f x b) h) →
  scan f l acc = (l1, l2, acc') →
  list_foreach body (Some head) acc h = Ok (Some (hd head l2), acc') h.
Proof.
  intros Hl Hb. unfold list_foreach. erewrite bind_ok by (apply node_ok; by apply ring_head).
  erewrite bind_ok by done. cbn [next]. pose proof (ring_size _ _ _ Hl) as Hsz.
  assert (Hgen : ∀ fuel k l acc l1 l2, is_list h head (k ++ l) → (length l < fuel)%nat →
    (∀ x b, x ∈ l → body x b h = Ok (f x b) h) → scan f l acc = (l1, l2, acc') →
    foreach_loop body fuel (Some head) (Some (hd head l)) acc h = Ok (Some (hd head l2), acc') h);
    cycle 1.
  { intros Hs. eapply (Hgen _ [] l acc l1 l2); [done|lia|done|done]. }
  clear. induction fuel as [|fuel IH]; intros k l acc l1 l2 Hl Hf Hb Hs; [lia|].
  cbn [foreach_loop]. destruct l as [|x r]; simpl in Hs.
  { rewrite bool_decide_eq_true_2 by done. by simplify_eq. }
  cbn [hd]. rewrite bool_decide_eq_false_2.
  2:{ intros [= ->]. apply (ring_head_fresh _ _ _ Hl). set_solver. }
  erewrite bind_ok by (apply Hb; left). destruct (f x acc) as [[] acc1]; [|by simplify_eq].
  erewrite bind_ok by (apply node_ok, (ring_node _ _ _ _ _ Hl)). cbn [next].
  destruct (scan f r acc1) as [[r1 r2] acc2] eqn:E. simplify_eq.
  eapply (IH (k ++ [x])); [by rewrite <- app_assoc|simpl in Hf; lia| |exact E].
  intros y b Hy. apply Hb. by right.
Qed.

(** A loop whose body may unlink the current element.  [J] holds of the elements still
    to come. *)
Section safe_rule.
Context {B : Type} (body : L → B → CM heap (bool * B)) (head : L).
Context (J : list L → B → heap → Prop) (Q : option L → B → heap → Prop).
Context (J_ring : ∀ rem acc h, J rem acc h → ∃ k, is_list h head (k ++ rem)).
Context (J_body : ∀ x r acc h, J (x :: r) acc h →
  ∃ go acc' h', body x acc h = Ok (go, acc') h' ∧
    (if go : bool then J r acc' h' else Q (Some x) acc' h')).
Context (J_end : ∀ acc h, J [] acc h → Q (Some head) acc h).

Lemma foreach_safe_loop_rule fuel : ∀ rem acc h,
  J rem acc h → (length rem < fuel)%nat →
  ∃ p b h', foreach_safe_loop body fuel (Some head) (Some (hd head rem))
      (next_of h (hd head rem)) acc h = Ok (p, b) h' ∧ Q p b h'.
Proof.
  induction fuel as [|fuel IH]; intros rem acc h HJ Hf; [lia|]. cbn [foreach_safe_loop].
  destruct (J_ring _ _ _ HJ) as [k Hl]. destruct rem as [|x r].
  { cbn [hd]. rewrite bool_decide_eq_true_2 by done. exists (Some head), acc, h.
    split; [done|by apply J_end]. }
  cbn [hd]. rewrite bool_decide_eq_false_2.
  2:{ intros [= ->]. apply (ring_head_fresh _ _ _ Hl). set_solver. }
  destruct (J_body _ _ _ _ HJ) as (go & acc' & h' & R & Hgo).
  erewrite bind_ok by exact R. destruct go; [|by exists (Some x), acc', h'].
  assert (Ht : next_of h x = Some (hd head r)).
  { unfold next_of. by rewrite (ring_node _ _ _ _ _ Hl). }
  rewrite Ht.
  destruct (J_ring _ _ _ Hgo) as [k' Hl'].
  assert (Hn : ∃ n, h' !! hd head r = Some n ∧ next n = next_of h' (hd head r)).
  { destruct r as [|y r]; cbn [hd].
    - pose proof (ring_head _ _ _ Hl') as E. unfold next_of. rewrite E. eauto.
    - pose proof (ring_node _ _ _ _ _ Hl') as E. unfold next_of. rewrite E. eauto. }
  destruct Hn as (n & Hn & Hnx). erewrite bind_ok by (by apply node_ok). rewrite Hnx.
  apply IH; [done|simpl in Hf; lia].
Qed.

Lemma list_foreach_safe_rule l acc h :
  J l acc h → is_list h head l →
  ∃ p b h', list_foreach_safe body (Some head) acc h = Ok (p, b) h' ∧ Q p b h'.
Proof.
  intros HJ Hl. unfold list_foreach_safe.
  erewrite bind_ok by (apply node_ok; by apply ring_head). cbn [next].
  assert (Hn : ∃ n, h !! hd head l = Some n ∧ next n = next_of h (hd head l)).
  { unfold next_of. destruct l as [|y l]; cbn [hd].
    - rewrite (ring_head _ _ _ Hl). eauto.
    - rewrite (ring_node _ _ [] _ _ Hl). eauto. }
  destruct Hn as (n & Hn & Hnx). erewrite bind_ok by by apply node_ok.
  erewrite bind_ok by done. rewrite Hnx. apply foreach_safe_loop_rule; [done|].
  pose proof (ring_size _ _ _ Hl). lia.
Qed.
End safe_rule.
End loops_spec.

(** ** Unlinking the selected elements *)

Section drain.
Context {L : Type} `{Countable L} (p : L → bool).
Abbreviation heap := (gmap L (list_t L)).
Implicit Types (h : heap) (head : L) (l : list L).

(** The loops of [packet_queue_set_verdict] and [packet_queue_garbage_collect]: the
    elements that [p] selects are unlinked and counted. *)
Definition list_drain (head : option L) : CM heap Z :=
  r ← list_foreach_safe (λ x count,
        if p x then list_detach (Some x) ;; ret (true, count + 1) else ret (true, count))
      head 0;
  ret r.2.

Abbreviation kept := (filter (λ x, p x = false)).
Abbreviation taken := (filter (λ x, p x = true)).

Lemma list_drain_spec h head l :
  is_list h head l →
  ∃ h', list_drain (Some head) h = Ok (Z.of_nat (length (taken l))) h' ∧
    is_list h' head (kept l) ∧ (∀ x, x ∈ taken l → unattached h' x) ∧
    touches (head :: l) h h'.
Proof.
  intros Hl. unfold list_drain.
  set (J := λ (rem : list L) (count : Z) (h1 : heap), ∃ done,
    l = done ++ rem ∧ count = Z.of_nat (length (taken done)) ∧
    is_list h1 head (kept done ++ rem) ∧ (∀ x, x ∈ taken done → unattached h1 x) ∧
    touches (head :: l) h h1).
  destruct (list_foreach_safe_rule (λ x count,
      if p x then list_detach (Some x) ;; ret (true, count + 1) else ret (true, count)) head J
      (λ _ count h1, J [] count h1)) with (l := l) (acc := 0) (h := h)
    as (q & b & h' & R & dn & Hd & Hc & Hl' & Hu & T).
  - intros rem acc h1 (dn & _ & _ & Hl1 & _). by exists (kept dn).
  - intros x r acc h1 (dn & Hd & -> & Hl1 & Hu & T). destruct (p x) eqn:Hp.
    + destruct (list_detach_spec _ _ _ _ _ Hl1) as (h2 & R2 & Hl2 & Hx & T2).
      exists true, (Z.of_nat (length (taken dn)) + 1), h2.
      split; [by erewrite bind_ok by exact R2|]. exists (dn ++ [x]).
      rewrite !filter_app, !(filter_cons_True (λ x, p x = true)), filter_nil by done.
      rewrite (filter_cons_False (λ x, p x = false)), filter_nil, app_nil_r by (by rewrite Hp).
      split_and!; [by rewrite Hd, <- app_assoc|rewrite length_app; simpl; lia|done| |].
      * intros y. rewrite elem_of_app, list_elem_of_singleton. intros [Hy| ->]; [|done].
        unfold unattached. rewrite (proj2 T2); [by apply Hu|].
        assert (y ∈ dn) by (by apply list_elem_of_filter in Hy as [_ ?]).
        apply list_elem_of_filter in Hy as [Hpy Hyd].
        pose proof (ring_nodup _ _ _ Hl) as Hnd. rewrite Hd in Hnd.
        rewrite NoDup_cons, NoDup_app in Hnd. destruct Hnd as (Hh & _ & Hdis & _).
        rewrite elem_of_cons, elem_of_app, list_elem_of_filter. intros [->|[[Hpf _]|Hin]].
        -- apply Hh. rewrite elem_of_app. by left.
        -- congruence.
        -- by apply (Hdis y).
      * eapply touches_trans; [exact T|]. eapply touches_weaken; [exact T2|].
        intros y. rewrite Hd, !elem_of_cons, !elem_of_app, list_elem_of_filter. tauto.
    + exists true, (Z.of_nat (length (taken dn))), h1. split; [done|]. exists (dn ++ [x]).
      rewrite !filter_app, (filter_cons_True (λ x, p x = false)), filter_nil by done.
      rewrite (filter_cons_False (λ x, p x = true)), filter_nil, app_nil_r by (by rewrite Hp).
      split_and!; [by rewrite Hd, <- app_assoc|done|by rewrite <- app_assoc|done|done].
  - intros acc h1 HJ. exact HJ.
  - exists []. split_and!; [done|done|done|by intros x ?%not_elem_of_nil|done].
  - done.
  - rewrite app_nil_r in Hd, Hl'. subst dn b. exists h'.
    split_and!; [|done|done|done]. by erewrite bind_ok by exact R.
Qed.

(** The [list_foreach_safe] loop that unlinks the packets of a destination while it
    walks through the queue is a filter: it visits every element once although it
    changes the pointers it follows, counts the selected ones, leaves the others
    linked in their order and the selected ones unattached, and writes no cell
    outside the list. *)
Theorem list_drain_filters (h : heap) (head : L) (l : list L) :
  is_list h head l →
  ∃ h', list_drain (Some head) h = Ok (Z.of_nat (length (taken l))) h' ∧
    is_list h' head (kept l) ∧ (∀ x, x ∈ taken l → list_unattached (Some x) h' = Ok true h') ∧
    (∀ x, x ∉ head :: l → h' !! x = h !! x).
Proof.
  intros Hl. destruct (list_drain_spec h head l Hl) as (h' & R & Hl' & Hu & T).
  exists h'. split_and!; [done|done| |apply T].
  intros x Hx. by apply unattached_spec, Hu.
Qed.
End drain.

(** C28: the pointer operations of [utils/list.c] refine lists: adding an unlinked
    element puts it at the front or at the end, detaching an element removes it and
    leaves it unattached, [list_empty] and [list_first] see the list's start, and a
    second list with other cells is not affected. *)
Theorem list_ops_refine {L : Type} `{Countable L} (h : gmap L (list_t L)) (head : L) (l : list L)
    (le : L) (head2 : L) (k : list L) :
  is_list h head l → is_Some (h !! le) → is_list h head2 k →
  head2 :: k ## le :: head :: l →
  list_empty (Some head) h = Ok (bool_decide (l = [])) h ∧
  (le ∉ head :: l →
     (∃ h', list_add (Some head) (Some le) h = Ok LIST_SUCCESS h' ∧
        is_list h' head (le :: l) ∧ is_list h' head2 k ∧
        list_first (Some head) h' = Ok (Some le) h') ∧
     (∃ h', list_add_tail (Some head) (Some le) h = Ok LIST_SUCCESS h' ∧
        is_list h' head (l ++ [le]) ∧ is_list h' head2 k)) ∧
  (∀ l1 l2, l = l1 ++ le :: l2 →
     list_unattached (Some le) h = Ok false h ∧
     ∃ h', list_detach (Some le) h = Ok LIST_SUCCESS h' ∧ is_list h' head (l1 ++ l2) ∧
       list_unattached (Some le) h' = Ok true h' ∧ is_list h' head2 k).
Proof.
  intros Hl Hle Hk Hd. split; [by apply list_empty_spec|]. split.
  - intros Hn. split.
    + destruct (list_add_spec h head l le Hl Hle Hn) as (h' & R & Hl' & T).
      exists h'. split_and!; [done|done|by eapply is_list_frame|by eapply list_first_spec].
    + destruct (list_add_tail_spec h head l le Hl Hle Hn) as (h' & R & Hl' & T).
      exists h'. split_and!; [done|done|by eapply is_list_frame].
  - intros l1 l2 ->. split; [by eapply attached_spec|].
    destruct (list_detach_spec h head l1 le l2 Hl) as (h' & R & Hl' & Hu & T).
    exists h'. split_and!; [done|done|by apply unattached_spec|].
    eapply is_list_frame; [exact T| |done]. set_solver.
Qed.
