(* ===== verification/TimerQueue.v ===== *)
(** * utils/timer_queue.c: the timer queue

    The queue is generic in the type [K] that names the [struct timer]
    objects and in the type [H] of handler functions.  A [struct timer] is
    embedded in the object it belongs to, so a timer is named by its owner;
    [timers] holds the allocated timers, [TQ] and [expTQ] are the two
    intrusive lists a timer can be linked into (the global queue, and the
    local list of expired timers of [timer_timeout]).  A timer that is in
    neither list is what [list_unattached] tests. *)

From S2P Require Import Prelude.
From S2P Require Import Params.

#[local] Open Scope cm_scope.

(** ** struct timeval *)

Record timeval := mk_timeval { tv_sec : Z; tv_usec : Z }.

#[export] Instance timeval_eq_dec : EqDecision timeval.
Proof. solve_decision. Defined.

Definition tv_zero : timeval := mk_timeval 0 0.

(** The time in microseconds. *)
Definition tv_us (t : timeval) : Z := tv_sec t * 1000000 + tv_usec t.

(** [timeval_diff]: the difference in milliseconds, truncated towards zero. *)
Definition timeval_diff (t1 t2 : timeval) : Z :=
  Z.quot ((tv_sec t1 - tv_sec t2) * 1000000 + tv_usec t1 - tv_usec t2) 1000.

(** [timeval_add_msec] ([msec] is unsigned). *)
Definition timeval_add_msec (t : timeval) (msec : Z) : timeval :=
  let add := tv_usec t + msec * 1000 in
  mk_timeval (tv_sec t + add / 1000000) (add mod 1000000).

(** ** struct timer and the queue *)

Record timer (H : Type) := mk_timer {
  tm_used : bool;
  tm_timeout : timeval;
  tm_handler : option H
}.
Arguments mk_timer {H}.
Arguments tm_used {H}.
Arguments tm_timeout {H}.
Arguments tm_handler {H}.

Record tqueue (K H : Type) `{Countable K} := mk_tqueue {
  timers : gmap K (timer H);
  TQ : list K;
  expTQ : list K
}.
Arguments mk_tqueue {K H _ _}.
Arguments timers {K H _ _}.
Arguments TQ {K H _ _}.
Arguments expTQ {K H _ _}.

Section ops.
Context {K H : Type} `{Countable K}.
Abbreviation tq := (tqueue K H).

Definition attached (q : tq) (id : K) : bool :=
  bool_decide (id ∈ TQ q) || bool_decide (id ∈ expTQ q).

Definition timer_get (id : K) : CM tq (timer H) := λ q,
  match timers q !! id with
  | Some t => Ok t q
  | None => Ub UseAfterFree
  end.

Definition timer_put (id : K) (t : timer H) : CM tq () :=
  modify (λ q, mk_tqueue (<[id := t]> (timers q)) (TQ q) (expTQ q)).

(** [list_detach] of a timer: it leaves the list it is linked into. *)
Definition timer_detach (id : K) : CM tq () :=
  modify (λ q, mk_tqueue (timers q)
    (filter (λ k, k ≠ id) (TQ q)) (filter (λ k, k ≠ id) (expTQ q))).

(** [timer_init], also the storage of a newly allocated timer.  It clears
    the links, which would corrupt the list of an attached timer. *)
Definition timer_init (id : K) (f : H) : CM tq () := λ q,
  if attached q id then Ub ListCorrupt
  else timer_put id (mk_timer false tv_zero (Some f)) q.

(** [free] of the object a timer is embedded in. *)
Definition timer_free (id : K) : CM tq () := λ q,
  if attached q id then Ub ListCorrupt
  else Ok () (mk_tqueue (delete id (timers q)) (TQ q) (expTQ q)).

Definition timer_remove (id : K) : CM tq Z :=
  t ← timer_get id;
  att ← gets (λ q : tq, attached q id);
  when att (timer_detach id) ;;
  timer_put id (mk_timer false (tm_timeout t) (tm_handler t)) ;;
  ret (if att then 1 else 0).

(** The insertion loop of [timer_add]: the new timer goes before the first
    timer whose timeout is at least a millisecond later. *)
Fixpoint insert_before (tms : gmap K (timer H)) (id : K) (t : timeval) (l : list K)
  : option (list K) :=
  match l with
  | [] => Some [id]
  | c :: l' =>
      match tms !! c with
      | None => None
      | Some tc =>
          if timeval_diff t (tm_timeout tc) <? 0 then Some (id :: c :: l')
          else cons c <$> insert_before tms id t l'
      end
  end.

Definition timer_link (id : K) (t : timeval) : CM tq () := λ q,
  if attached q id then Ub ListCorrupt
  else match insert_before (timers q) id t (TQ q) with
       | Some l => Ok () (mk_tqueue (timers q) l (expTQ q))
       | None => Ub UseAfterFree
       end.

Definition timer_add (id : K) : CM tq () :=
  t ← timer_get id;
  match tm_handler t with
  | None => cexit (-1)
  | Some _ =>
      (if tm_used t then timer_remove id ;; ret () else ret ()) ;;
      timer_put id (mk_timer true (tm_timeout t) (tm_handler t)) ;;
      timer_link id (tm_timeout t)
  end.

Definition timeout_after (now : timeval) (msec : Z) : timeval :=
  let usec := tv_usec now + msec * 1000 in
  mk_timeval (tv_sec now + Z.quot usec 1000000) (Z.rem usec 1000000).

(** [now] is what [gettimeofday] returned. *)
Definition timer_set_timeout (id : K) (now : timeval) (msec : Z) : CM tq () :=
  t ← timer_get id;
  (if tm_used t then timer_remove id ;; ret () else ret ()) ;;
  t ← timer_get id;
  timer_put id (mk_timer (tm_used t) (timeout_after now msec) (tm_handler t)) ;;
  timer_add id.

(** The first loop of [timer_timeout]: it moves the expired timers at the
    head of [TQ] to the tail of [expTQ]. *)
Fixpoint expired_prefix (tms : gmap K (timer H)) (now : timeval) (l : list K)
  : option (list K * list K) :=
  match l with
  | [] => Some ([], [])
  | c :: l' =>
      match tms !! c with
      | None => None
      | Some tc =>
          if 0 <? timeval_diff (tm_timeout tc) now then Some ([], c :: l')
          else (λ r, (c :: r.1, r.2)) <$> expired_prefix tms now l'
      end
  end.

Definition collect_expired (now : timeval) : CM tq () := λ q,
  match expired_prefix (timers q) now (TQ q) with
  | Some (e, r) => Ok () (mk_tqueue (timers q) r (expTQ q ++ e))
  | None => Ub UseAfterFree
  end.

(** One turn of the second loop of [timer_timeout]: unlink the first
    expired timer and clear its [used] flag.  The caller runs the handler. *)
Definition pop_expired : CM tq (option (K * option H)) := λ q,
  match expTQ q with
  | [] => Ok None q
  | id :: r =>
      (t ← timer_get id;
       timer_put id (mk_timer false (tm_timeout t) (tm_handler t)) ;;
       ret (Some (id, tm_handler t)))
        (mk_tqueue (timers q) (TQ q) r)
  end.

(** [timer_left]: the time since the timeout (negative while it is pending). *)
Definition timer_left (id : K) (now : timeval) : CM tq Z :=
  t ← timer_get id; ret (timeval_diff now (tm_timeout t)).

(** The end of [timer_age_queue]: the time to wait for the first timer, or
    NULL for an empty queue. *)
Definition remaining_time (now : timeval) : CM tq (option timeval) := λ q,
  match TQ q with
  | [] => Ok None q
  | id :: _ =>
      (t ← timer_get id;
       let usec := tv_usec (tm_timeout t) - tv_usec now in
       let sec := tv_sec (tm_timeout t) - tv_sec now in
       ret (Some (if usec <? 0 then mk_timeval (sec - 1) (usec + 1000000)
                   else mk_timeval sec usec))) q
  end.
End ops.

(** ** Invariant of the queue *)

(** Timeouts are compared in whole milliseconds, so the queue is sorted only
    up to a millisecond: no timer stands before one that is due a
    millisecond or more earlier. *)
Fixpoint near_sorted (l : list Z) : Prop :=
  match l with
  | [] => True
  | x :: l' => Forall (λ y, x < y + 1000) l' ∧ near_sorted l'
  end.

Section invariant.
Context {K H : Type} `{Countable K}.
Abbreviation tq := (tqueue K H).

Definition due (tms : gmap K (timer H)) (id : K) : Z :=
  match tms !! id with Some t => tv_us (tm_timeout t) | None => 0 end.

Record tq_wf (q : tq) : Prop := {
  wf_nodup : NoDup (TQ q ++ expTQ q);
  wf_linked id : id ∈ TQ q ++ expTQ q →
    ∃ t, timers q !! id = Some t ∧ tm_used t = true;
  wf_used id t : timers q !! id = Some t → tm_used t = true →
    id ∈ TQ q ++ expTQ q;
  wf_handler id t : timers q !! id = Some t → tm_used t = true →
    is_Some (tm_handler t);
  wf_sorted : near_sorted (due (timers q) <$> TQ q)
}.

Lemma timeval_diff_neg t1 t2 :
  timeval_diff t1 t2 < 0 ↔ tv_us t1 <= tv_us t2 - 1000.
Proof. unfold timeval_diff, tv_us. Z.to_euclidean_division_equations. lia. Qed.

Lemma timeval_diff_pos t1 t2 :
  0 < timeval_diff t1 t2 ↔ tv_us t2 + 1000 <= tv_us t1.
Proof. unfold timeval_diff, tv_us. Z.to_euclidean_division_equations. lia. Qed.

Lemma near_sorted_filter (P : K → Prop) `{!∀ x, Decision (P x)} f (l : list K) :
  near_sorted (f <$> l) → near_sorted (f <$> filter P l).
Proof.
  induction l as [|x l IH]; [done|]. rewrite fmap_cons. intros [Hx Hl].
  rewrite filter_cons. case_decide; [|auto]. rewrite fmap_cons. split; [|auto].
  rewrite !Forall_fmap in Hx |- *.
  rewrite Forall_forall in Hx |- *. intros y [_ Hy]%list_elem_of_filter. auto.
Qed.

Lemma attached_true (q : tq) id : attached q id = true ↔ id ∈ TQ q ++ expTQ q.
Proof.
  unfold attached. rewrite orb_true_iff, !bool_decide_eq_true, elem_of_app. done.
Qed.

Lemma attached_false (q : tq) id : attached q id = false ↔ id ∉ TQ q ++ expTQ q.
Proof. rewrite <- not_true_iff_false. by rewrite attached_true. Qed.

Lemma due_insert_ne (tms : gmap K (timer H)) id t (l : list K) :
  id ∉ l → due (<[id := t]> tms) <$> l = due tms <$> l.
Proof.
  intros Hid. apply list_fmap_ext. intros i x Hx. unfold due.
  rewrite lookup_insert_ne; [done|]. intros ->. apply Hid.
  by eapply list_elem_of_lookup_2.
Qed.

Lemma due_insert_same (tms : gmap K (timer H)) id t t' k :
  tms !! id = Some t → tm_timeout t' = tm_timeout t →
  due (<[id := t']> tms) k = due tms k.
Proof.
  intros Ht Htt. unfold due. destruct (decide (k = id)) as [->|].
  - by rewrite lookup_insert_eq, Ht, Htt.
  - by rewrite lookup_insert_ne.
Qed.

(** [timer_remove] on an allocated timer: it is in neither list afterwards
    and its [used] flag is cleared. *)
Lemma timer_remove_spec (q : tq) id t :
  timers q !! id = Some t →
  ∃ r, timer_remove id q =
    Ok r (mk_tqueue (<[id := mk_timer false (tm_timeout t) (tm_handler t)]> (timers q))
            (filter (λ k, k ≠ id) (TQ q)) (filter (λ k, k ≠ id) (expTQ q))).
Proof.
  intros Ht. unfold timer_remove, bind, timer_get, gets. rewrite Ht.
  destruct (attached q id) eqn:Ha; simpl.
  - exists 1. done.
  - exists 0. apply attached_false in Ha. rewrite elem_of_app in Ha.
    unfold timer_put, modify, ret. simpl.
    rewrite !filter_all; [done| |]; intros x Hx ->; apply Ha; auto.
Qed.

Lemma tq_wf_remove (q : tq) id t :
  tq_wf q → timers q !! id = Some t →
  tq_wf (mk_tqueue (<[id := mk_timer false (tm_timeout t) (tm_handler t)]> (timers q))
           (filter (λ k, k ≠ id) (TQ q)) (filter (λ k, k ≠ id) (expTQ q))).
Proof.
  intros [Hnd Hl Hu Hh Hs] Ht. split; simpl; rewrite <- ?filter_app.
  - by apply NoDup_filter.
  - intros k [Hne Hk]%list_elem_of_filter. rewrite lookup_insert_ne by done. eauto.
  - intros k t' Hk Hused. rewrite list_elem_of_filter.
    apply lookup_insert_Some in Hk as [[<- <-]|[Hne Hk]]; [done|]. eauto.
  - intros k t' Hk Hused.
    apply lookup_insert_Some in Hk as [[<- <-]|[Hne Hk]]; [done|]. eauto.
  - rewrite due_insert_ne; [by apply near_sorted_filter|].
    by intros [? _]%list_elem_of_filter.
Qed.

(** The insertion loop succeeds on linked timers, and puts the timer where
    it keeps the queue sorted up to a millisecond. *)
Lemma insert_before_spec (tms : gmap K (timer H)) id t l :
  (∀ k, k ∈ l → is_Some (tms !! k)) →
  ∃ l1 l2, l = l1 ++ l2 ∧ insert_before tms id t l = Some (l1 ++ id :: l2) ∧
    Forall (λ k, due tms k < tv_us t + 1000) l1 ∧
    (∀ k, head l2 = Some k → tv_us t + 1000 <= due tms k).
Proof.
  induction l as [|c l IH]; intros Hl.
  - exists [], []. done.
  - destruct (Hl c) as [tc Htc]; [left|]. simpl. rewrite Htc.
    destruct (timeval_diff t (tm_timeout tc) <? 0) eqn:E.
    + exists [], (c :: l). repeat split; [done|]. intros k [= <-].
      apply Z.ltb_lt, timeval_diff_neg in E. unfold due. rewrite Htc. lia.
    + destruct IH as (l1 & l2 & -> & Hi & H1 & H2); [intros k Hk; apply Hl; by right|].
      exists (c :: l1), l2. rewrite Hi. repeat split; auto.
      constructor; [|done]. unfold due. rewrite Htc.
      apply Z.ltb_ge in E. pose proof (timeval_diff_neg t (tm_timeout tc)). lia.
Qed.

Lemma near_sorted_app l1 l2 :
  near_sorted (l1 ++ l2) ↔ near_sorted l1 ∧ near_sorted l2 ∧
    (∀ x y, x ∈ l1 → y ∈ l2 → x < y + 1000).
Proof.
  induction l1 as [|a l1 IH]; simpl.
  - split; [|tauto]. intros Hs. repeat split; auto. by intros x y ?%not_elem_of_nil.
  - rewrite IH, Forall_app, !Forall_forall. split.
    + intros [[Ha1 Ha2] (H1 & H2 & H3)]. repeat split; auto.
      intros x y [->|Hx]%elem_of_cons Hy; auto.
    + intros ([Ha1 H1] & H2 & H3). repeat split; auto; intros; apply H3; auto;
        (by left) || (by right).
Qed.

Lemma near_sorted_insert l1 l2 t :
  near_sorted (l1 ++ l2) → Forall (λ x, x < t + 1000) l1 →
  (∀ x, head l2 = Some x → t + 1000 <= x) → near_sorted (l1 ++ t :: l2).
Proof.
  rewrite !near_sorted_app. intros (H1 & H2 & H3) Ht Hh. split; [done|].
  rewrite Forall_forall in Ht. split.
  - split; [|done]. destruct l2 as [|x l2]; [done|].
    specialize (Hh x eq_refl). destruct H2 as [Hx _].
    constructor; [lia|]. rewrite Forall_forall in Hx |- *.
    intros y Hy. specialize (Hx y Hy). lia.
  - intros x y Hx [->|Hy]%elem_of_cons; auto.
Qed.
End invariant.

Section specs.
Context {K H : Type} `{Countable K}.
Abbreviation tq := (tqueue K H).

(** Linking an unlinked timer with a handler. *)
Lemma timer_link_spec (q : tq) id t h :
  tq_wf q → id ∉ TQ q ++ expTQ q →
  ∃ l, timer_link id t (mk_tqueue (<[id := mk_timer true t (Some h)]> (timers q))
                          (TQ q) (expTQ q))
       = Ok () (mk_tqueue (<[id := mk_timer true t (Some h)]> (timers q)) l (expTQ q)) ∧
    (∀ k, k ∈ l ↔ k = id ∨ k ∈ TQ q) ∧
    tq_wf (mk_tqueue (<[id := mk_timer true t (Some h)]> (timers q)) l (expTQ q)).
Proof.
  intros [Hnd Hl Hu Hh Hs] Hid. unfold timer_link.
  set (tms := <[id := mk_timer true t (Some h)]> (timers q)).
  assert (Hid1 : id ∉ TQ q) by (rewrite elem_of_app in Hid; tauto).
  destruct (insert_before_spec tms id t (TQ q)) as (l1 & l2 & HTQ & Hi & H1 & H2).
  { intros k Hk. destruct (Hl k) as (t' & Ht' & _); [rewrite elem_of_app; auto|].
    exists t'. subst tms. rewrite lookup_insert_ne; [done|]. by intros ->. }
  rewrite (proj2 (attached_false _ id)) by done. simpl. rewrite Hi.
  exists (l1 ++ id :: l2). split; [done|]. rewrite HTQ in Hid1, Hid, Hnd, Hs, Hl, Hu.
  split; [intros k; rewrite HTQ, !elem_of_app, elem_of_cons; tauto|].
  split; simpl.
  - rewrite <- app_assoc. simpl. rewrite <- app_assoc in Hnd, Hid.
    apply NoDup_app in Hnd as (Hn1 & Hn2 & Hn3).
    apply NoDup_app. repeat split; [done| |].
    + intros k Hk [->|Hk']%elem_of_cons; [|by apply (Hn2 k)].
      apply Hid. rewrite elem_of_app. auto.
    + apply NoDup_cons. split; [|done]. intros Hk. apply Hid. rewrite elem_of_app. auto.
  - intros k Hk. destruct (decide (k = id)) as [->|Hne].
    { subst tms. rewrite lookup_insert_eq. eauto. }
    subst tms. rewrite lookup_insert_ne by done. apply Hl.
    rewrite !elem_of_app, elem_of_cons in Hk. rewrite !elem_of_app. tauto.
  - intros k t' Hk Hused. rewrite !elem_of_app, elem_of_cons.
    apply lookup_insert_Some in Hk as [[<- <-]|[Hne Hk]]; [auto|].
    specialize (Hu k t' Hk Hused). rewrite !elem_of_app in Hu. tauto.
  - intros k t' Hk Hused.
    apply lookup_insert_Some in Hk as [[<- <-]|[Hne Hk]]; [simpl; eauto|]. eauto.
  - assert (Hd : due tms <$> (l1 ++ id :: l2)
                 = (due tms <$> l1) ++ tv_us t :: (due tms <$> l2)).
    { rewrite fmap_app, fmap_cons. unfold due at 2, tms. by rewrite lookup_insert_eq. }
    rewrite Hd. apply near_sorted_insert.
    + rewrite <- fmap_app. unfold tms. by rewrite due_insert_ne.
    + by rewrite Forall_fmap.
    + intros x Hx. destruct l2 as [|k l2]; simplify_eq/=. auto.
Qed.

Lemma timer_add_unused (q : tq) id t h :
  timers q !! id = Some (mk_timer false t (Some h)) →
  timer_add id q = timer_link id t
    (mk_tqueue (<[id := mk_timer true t (Some h)]> (timers q)) (TQ q) (expTQ q)).
Proof. intros Ht. unfold timer_add, bind, timer_get. by rewrite Ht. Qed.

(** [timer_set_timeout] on an allocated timer with a handler always
    returns; the timer is then pending with the new timeout, the other
    timers are untouched, and the queue is well-formed. *)
Lemma timer_set_timeout_spec (q : tq) id t h now msec :
  tq_wf q → timers q !! id = Some t → tm_handler t = Some h →
  ∃ l, let tms := <[id := mk_timer true (timeout_after now msec) (Some h)]> (timers q) in
    let q' := mk_tqueue tms l (filter (λ k, k ≠ id) (expTQ q)) in
    timer_set_timeout id now msec q = Ok () q' ∧ tq_wf q' ∧
    (∀ k, k ∈ l ↔ k = id ∨ k ∈ TQ q).
Proof.
  intros Hwf Ht Hh.
  set (q1 := mk_tqueue (<[id := mk_timer false (tm_timeout t) (tm_handler t)]> (timers q))
           (filter (λ k, k ≠ id) (TQ q)) (filter (λ k, k ≠ id) (expTQ q))).
  assert (Hwf1 : tq_wf q1) by (by apply tq_wf_remove).
  assert (Hin1 : id ∉ TQ q1 ++ expTQ q1).
  { simpl. rewrite <- filter_app. by intros [? _]%list_elem_of_filter. }
  set (T := timeout_after now msec).
  destruct (timer_link_spec q1 id T h Hwf1 Hin1) as (l & Hlink & Hl & Hwf').
  simpl in Hlink, Hwf', Hl. rewrite insert_insert_eq in Hlink, Hwf'.
  exists l. simpl. split_and!; [|done|].
  2:{ intros k. rewrite Hl, list_elem_of_filter.
      destruct (decide (k = id)); tauto. }
  unfold timer_set_timeout, bind at 1, timer_get at 1. rewrite Ht.
  destruct (tm_used t) eqn:Hused.
  - destruct (timer_remove_spec q id t Ht) as [r Hr].
    unfold bind, ret, timer_get, timer_put, modify.
    rewrite Hr. simpl. rewrite lookup_insert_eq. simpl.
    rewrite insert_insert_eq, Hh.
    erewrite timer_add_unused by apply lookup_insert_eq.
    simpl. rewrite insert_insert_eq. apply Hlink.
  - assert (Hna : id ∉ TQ q ++ expTQ q).
    { intros Hin. destruct (wf_linked _ Hwf _ Hin) as (t' & ? & ?). congruence. }
    rewrite elem_of_app in Hna.
    unfold bind, ret, timer_get, timer_put, modify. simpl.
    rewrite Ht. simpl. rewrite Hused, Hh.
    erewrite timer_add_unused by apply lookup_insert_eq.
    simpl. rewrite insert_insert_eq.
    assert (HT : filter (λ k, k ≠ id) (TQ q) = TQ q)
      by (apply filter_all; intros k Hk ->; tauto).
    assert (HE : filter (λ k, k ≠ id) (expTQ q) = expTQ q)
      by (apply filter_all; intros k Hk ->; tauto).
    rewrite HT, HE in Hlink. rewrite HE. apply Hlink.
Qed.

(** The first loop of [timer_timeout] splits the queue: everything it takes
    is due in less than a millisecond, and nothing that is due stays. *)
Lemma expired_prefix_spec (tms : gmap K (timer H)) now l :
  (∀ k, k ∈ l → is_Some (tms !! k)) → near_sorted (due tms <$> l) →
  ∃ e r, expired_prefix tms now l = Some (e, r) ∧ l = e ++ r ∧
    Forall (λ k, due tms k < tv_us now + 1000) e ∧
    Forall (λ k, tv_us now < due tms k) r.
Proof.
  induction l as [|c l IH]; intros Hl Hs.
  - exists [], []. by repeat constructor.
  - destruct (Hl c) as [tc Htc]; [left|]. simpl. rewrite Htc.
    rewrite fmap_cons in Hs. destruct Hs as [Hc Hs].
    assert (Hd : due tms c = tv_us (tm_timeout tc)) by (unfold due; by rewrite Htc).
    destruct (0 <? timeval_diff (tm_timeout tc) now) eqn:E.
    + exists [], (c :: l). repeat split; [done|].
      apply Z.ltb_lt, timeval_diff_pos in E.
      constructor; [lia|]. rewrite Forall_fmap in Hc.
      eapply Forall_impl; [exact Hc|]. simpl. intros k Hk. lia.
    + destruct IH as (e & r & -> & -> & He & Hr); [intros k Hk; apply Hl; by right|done|].
      exists (c :: e), r. repeat split; [|done]. constructor; [|done].
      apply Z.ltb_ge in E. pose proof (timeval_diff_pos (tm_timeout tc) now). lia.
Qed.

Lemma collect_expired_spec (q : tq) now :
  tq_wf q →
  ∃ e r, TQ q = e ++ r ∧
    collect_expired now q = Ok () (mk_tqueue (timers q) r (expTQ q ++ e)) ∧
    tq_wf (mk_tqueue (timers q) r (expTQ q ++ e)) ∧
    Forall (λ k, due (timers q) k < tv_us now + 1000) e ∧
    Forall (λ k, tv_us now < due (timers q) k) r.
Proof.
  intros [Hnd Hl Hu Hh Hs].
  destruct (expired_prefix_spec (timers q) now (TQ q)) as (e & r & He & HTQ & H1 & H2).
  { intros k Hk. destruct (Hl k) as (t & -> & _); [rewrite elem_of_app; auto|eauto]. }
  { done. }
  exists e, r. split; [done|]. split; [unfold collect_expired; by rewrite He|].
  split; [|done].
  assert (Hperm : ∀ k, k ∈ r ++ expTQ q ++ e ↔ k ∈ TQ q ++ expTQ q).
  { intros k. rewrite HTQ, !elem_of_app. tauto. }
  split; simpl.
  - rewrite HTQ in Hnd. eapply NoDup_Permutation_proper; [|exact Hnd].
    rewrite (Permutation_app_comm e r), <- app_assoc.
    by rewrite (Permutation_app_comm (expTQ q) e).
  - intros k Hk. apply Hl. by apply Hperm.
  - intros k t Ht Hused. apply Hperm. eauto.
  - eauto.
  - rewrite HTQ, fmap_app, near_sorted_app in Hs. tauto.
Qed.

Lemma pop_expired_spec (q : tq) id r :
  tq_wf q → expTQ q = id :: r →
  ∃ t, timers q !! id = Some t ∧
    let q' := mk_tqueue (<[id := mk_timer false (tm_timeout t) (tm_handler t)]> (timers q))
                (TQ q) r in
    pop_expired q = Ok (Some (id, tm_handler t)) q' ∧ tq_wf q' ∧ is_Some (tm_handler t).
Proof.
  intros Hwf He. destruct (wf_linked _ Hwf id) as (t & Ht & Hused).
  { rewrite He, elem_of_app, elem_of_cons. auto. }
  exists t. split; [done|]. simpl. unfold pop_expired. rewrite He.
  unfold bind, timer_get. simpl. rewrite Ht. split; [done|].
  split; [|by eapply wf_handler].
  pose proof (tq_wf_remove q id t Hwf Ht) as Hrem.
  pose proof (wf_nodup _ Hwf) as Hnd. rewrite He in Hnd.
  assert (Hid1 : id ∉ TQ q) by (apply NoDup_app in Hnd as (_ & Hn & _); intros Hin;
    apply (Hn _ Hin); left).
  assert (Hid2 : id ∉ r) by (apply NoDup_app in Hnd as (_ & _ & Hn);
    by apply NoDup_cons in Hn as [? _]).
  rewrite He, filter_cons_False in Hrem by (intros Hne; by apply Hne).
  rewrite !filter_all in Hrem; [done|intros k Hk ->; done|intros k Hk ->; done].
Qed.
End specs.

(** ** Properties *)

Section properties.
Context {K H : Type} `{Countable K}.
Abbreviation tq := (tqueue K H).

Lemma tv_us_timeout_after now msec :
  tv_us (timeout_after now msec) = tv_us now + msec * 1000.
Proof.
  unfold tv_us, timeout_after. simpl.
  pose proof (Z.quot_rem' (tv_usec now + msec * 1000) 1000000). lia.
Qed.

(** Starting a timer that is allocated and has a handler always succeeds,
  whether or not it is already running: it is then pending exactly once,
  due [msec] milliseconds after [now], and no other timer is affected. *)
Theorem timer_set_timeout_correct (q : tq) (id : K) (t : timer H) (h : H) (now : timeval)
  (msec : Z) :
tq_wf q → timers q !! id = Some t → tm_handler t = Some h →
∃ q', timer_set_timeout id now msec q = Ok () q' ∧ tq_wf q' ∧
  id ∈ TQ q' ∧ due (timers q') id = tv_us now + msec * 1000 ∧
  ∀ k, k ≠ id → timers q' !! k = timers q !! k ∧ (k ∈ TQ q' ↔ k ∈ TQ q) ∧
                (k ∈ expTQ q' ↔ k ∈ expTQ q).
Proof.
intros Hwf Ht Hh.
destruct (timer_set_timeout_spec q id t h now msec Hwf Ht Hh) as (l & Hrun & Hwf' & Hl).
eexists. split_and!; [exact Hrun|exact Hwf'|simpl; rewrite Hl; by left| |].
- unfold due. simpl. rewrite lookup_insert_eq. simpl. apply tv_us_timeout_after.
- intros k Hk. simpl. rewrite lookup_insert_ne, Hl, list_elem_of_filter by done.
  split_and!; [done|tauto|tauto].
Qed.

(** [timer_timeout] collects the timers that are due and only those: every
  pending timer whose time has come is moved to the list of expired timers,
  none is moved a millisecond or more before its time, and the others stay
  pending. *)
Theorem collect_expired_correct (q : tq) (now : timeval) :
tq_wf q →
∃ q', collect_expired now q = Ok () q' ∧ tq_wf q' ∧ timers q' = timers q ∧
  ∀ k, k ∈ TQ q →
    (due (timers q) k <= tv_us now → k ∈ expTQ q' ∧ ¬ k ∈ TQ q') ∧
    (tv_us now + 1000 <= due (timers q) k → k ∈ TQ q' ∧ ¬ k ∈ expTQ q').
Proof.
intros Hwf. destruct (collect_expired_spec q now Hwf) as (e & r & HTQ & Hrun & Hwf' & He & Hr).
eexists. split_and!; [exact Hrun|exact Hwf'|done|]. simpl. intros k Hk.
pose proof (wf_nodup _ Hwf') as Hnd. simpl in Hnd. apply NoDup_app in Hnd as (_ & Hnd & _).
rewrite HTQ, elem_of_app in Hk. rewrite Forall_forall in He, Hr.
assert (Hke : k ∈ e → k ∈ expTQ q ++ e) by (rewrite elem_of_app; auto).
split; intros Hdue; destruct Hk as [Hk|Hk].
- split; [auto|]. intros Hkr. by apply (Hnd k Hkr), Hke.
- specialize (Hr k Hk). simpl in Hr. lia.
- specialize (He k Hk). simpl in He. lia.
- split; [done|by apply Hnd].
Qed.

(** The time [timer_age_queue] returns is the time that is left until the
  first pending timer is due, as a normalised [timeval]. *)
Theorem remaining_time_correct (q : tq) (now : timeval) (id : K) (l : list K) :
tq_wf q → TQ q = id :: l → 0 <= tv_usec now < 1000000 →
(∀ k t, timers q !! k = Some t → 0 <= tv_usec (tm_timeout t) < 1000000) →
∃ r, remaining_time now q = Ok (Some r) q ∧
  tv_us r = due (timers q) id - tv_us now ∧ 0 <= tv_usec r < 1000000.
Proof.
intros Hwf HT Hn Hu. destruct (wf_linked _ Hwf id) as (t & Ht & _).
{ rewrite HT. left. }
specialize (Hu id t Ht). unfold remaining_time. rewrite HT. unfold bind, timer_get, due.
rewrite Ht. eexists. split; [done|]. unfold tv_us.
destruct (_ <? 0) eqn:E; simpl; [apply Z.ltb_lt in E|apply Z.ltb_ge in E]; split; lia.
Qed.
End properties.
