(* ===== verification/TimerHeap.v ===== *)
(** * utils/timer_queue.c on linked lists

    [TimerQueue.v] keeps the queue of timers as a Rocq list.  Here the same
    functions work on the intrusive list of the source: every timer has a
    [list_t], as have the heads [TQ] and [expTQ], and the functions call the
    operations of [utils/list.c].  They refine those of [TimerQueue.v]. *)

From S2P Require Import Prelude.
From S2P Require Import DList.
From S2P Require Import TimerQueue.

#[local] Open Scope cm_scope.

Section ops.
Context {K H : Type} `{Countable K}.

(** A [list_t] is a head, or the one in a timer. *)
Abbreviation cell := (bool + K)%type.
Abbreviation heap := (gmap cell (list_t cell)).

Record tmem := mk_tmem { cells : heap; tmrs : gmap K (timer H) }.

Definition TQ_head : option cell := Some (inl false).
Definition expTQ_head : option cell := Some (inl true).

Definition on_cells {A} (m : CM heap A) : CM tmem A := λ s,
  match m (cells s) with
  | Ok a h => Ok a (mk_tmem h (tmrs s))
  | Exit c => Exit c
  | Ub u => Ub u
  end.

Definition read_timer (id : K) : CM tmem (timer H) := λ s,
  match tmrs s !! id with Some t => Ok t s | None => Ub UseAfterFree end.
Definition write_timer (id : K) (t : timer H) : CM tmem () :=
  modify (λ s, mk_tmem (cells s) (<[id := t]> (tmrs s))).

(** [(struct timer * ) pos]; a head is not part of a timer. *)
Definition timer_of (tms : gmap K (timer H)) (c : cell) : CM heap (timer H) := λ h,
  match c with
  | inr k => match tms !! k with Some t => Ok t h | None => Ub UseAfterFree end
  | inl _ => Ub UseAfterFree
  end.

Definition timer_remove_p (id : K) : CM tmem Z :=
  free ← on_cells (list_unattached (Some (inr id)));
  res ← (if free : bool then ret 0 else on_cells (list_detach (Some (inr id))) ;; ret 1);
  t ← read_timer id;
  write_timer id (mk_timer false (tm_timeout t) (tm_handler t)) ;;
  ret res.

Definition timer_add_p (id : K) : CM tmem () :=
  t ← read_timer id;
  match tm_handler t with
  | None => cexit (-1)
  | Some _ =>
      (if tm_used t then timer_remove_p id ;; ret () else ret ()) ;;
      t ← read_timer id;
      write_timer id (mk_timer true (tm_timeout t) (tm_handler t)) ;;
      empty ← on_cells (list_empty TQ_head);
      if empty : bool then on_cells (list_add TQ_head (Some (inr id))) ;; ret () else
      tms ← gets tmrs;
      pos ← on_cells (list_foreach (λ c _,
              curr ← timer_of tms c;
              ret (negb (timeval_diff (tm_timeout t) (tm_timeout curr) <? 0), ())) TQ_head ());
      n ← on_cells (node pos.1);
      on_cells (list_add (prev n) (Some (inr id))) ;;
      ret ()
  end.

Definition timer_set_timeout_p (id : K) (now : timeval) (msec : Z) : CM tmem () :=
  t ← read_timer id;
  (if tm_used t then timer_remove_p id ;; ret () else ret ()) ;;
  t ← read_timer id;
  write_timer id (mk_timer (tm_used t) (timeout_after now msec) (tm_handler t)) ;;
  timer_add_p id.

Definition collect_expired_p (now : timeval) : CM tmem () :=
  tms ← gets tmrs;
  on_cells (list_foreach_safe (λ c _,
    t ← timer_of tms c;
    if 0 <? timeval_diff (tm_timeout t) now then ret (false, ()) else
    list_detach (Some c) ;;
    list_add_tail expTQ_head (Some c) ;;
    ret (true, ())) TQ_head ()) ;;
  ret ().

Definition pop_expired_p : CM tmem (option (K * option H)) :=
  empty ← on_cells (list_empty expTQ_head);
  if empty : bool then ret None else
  c ← on_cells (list_first expTQ_head);
  on_cells (list_detach c) ;;
  match c with
  | Some (inr id) =>
      t ← read_timer id;
      write_timer id (mk_timer false (tm_timeout t) (tm_handler t)) ;;
      ret (Some (id, tm_handler t))
  | _ => undefined NullDeref
  end.
End ops.

(** ** The representation *)

Section rep.
Context {K H : Type} `{Countable K}.
Abbreviation cell := (bool + K)%type.
Abbreviation heap := (gmap cell (list_t cell)).
Abbreviation tq := (tqueue K H).
Abbreviation timer_cells l := (fmap (M:=list) (inr : K → cell) l).

(** The two rings hold the timers of the two lists; every other timer is in no list. *)
Record reps (s : tmem) (q : tq) : Prop := {
  rp_timers : tmrs s = timers q;
  rp_nodup : NoDup (TQ q ++ expTQ q);
  rp_alive k : k ∈ TQ q ++ expTQ q → is_Some (timers q !! k);
  rp_TQ : is_list (cells s) (inl false) (timer_cells (TQ q));
  rp_exp : is_list (cells s) (inl true) (timer_cells (expTQ q));
  rp_free k : is_Some (timers q !! k) → k ∉ TQ q ++ expTQ q → unattached (cells s) (inr k)
}.

(** [c] does to the pointers what [a] does to the lists. *)
Definition refines {A} (c : CM (@tmem K H _ _) A) (a : CM tq A) : Prop :=
  ∀ s q, reps s q →
    match a q with
    | Ok x q' => ∃ s', c s = Ok x s' ∧ reps s' q'
    | Exit n => c s = Exit n
    | Ub _ => True
    end.

Lemma refines_bind {A B} (c : CM tmem A) (a : CM tq A) (f : A → CM tmem B) (g : A → CM tq B) :
  refines c a → (∀ x, refines (f x) (g x)) → refines (bind c f) (bind a g).
Proof.
  intros Hc Hf s q Hr. specialize (Hc s q Hr). unfold bind.
  destruct (a q) as [x q'|n|u]; [|by rewrite Hc|done].
  destruct Hc as (s' & -> & Hr'). by apply Hf.
Qed.

Lemma refines_ret {A} (x : A) : refines (ret x) (ret x).
Proof. intros s q Hr. by exists s. Qed.

Lemma refines_get id : refines (read_timer id) (timer_get id).
Proof.
  intros s q Hr. unfold timer_get, read_timer. rewrite (rp_timers _ _ Hr).
  destruct (timers q !! id); [by exists s|done].
Qed.

(** The cells of timers that are not linked. *)
Lemma refines_put id t t' :
  ∀ s q, reps s q → timers q !! id = Some t' →
  ∃ s', write_timer id t s = Ok () s' ∧
    reps s' (mk_tqueue (<[id := t]> (timers q)) (TQ q) (expTQ q)).
Proof.
  intros s q [Ht Hn Ha H1 H2 Hf] Hid. eexists. split; [reflexivity|].
  split; simpl; [by rewrite Ht|done| |done|done|].
  - intros k Hk. apply lookup_insert_is_Some'. auto.
  - intros k Hk Hk'. apply Hf; [|done]. apply lookup_insert_is_Some' in Hk as [<-|]; eauto.
Qed.

Lemma timer_cells_disjoint (b1 b2 : bool) (l1 l2 : list K) :
  b1 ≠ b2 → l1 ## l2 → inl b1 :: timer_cells l1 ## inl b2 :: timer_cells l2.
Proof.
  intros Hb Hl x. rewrite !elem_of_cons, !list_elem_of_fmap.
  intros [->|(k & -> & Hk)] [?|(k' & ? & Hk')]; simplify_eq. by apply (Hl k').
Qed.

(** One of the two lists. *)
Definition ring (b : bool) (q : tq) : list K := if b then expTQ q else TQ q.
Definition with_ring (b : bool) (l : list K) (q : tq) : tq :=
  mk_tqueue (timers q) (if b then TQ q else l) (if b then l else expTQ q).

Lemma with_ring_same b q : with_ring b (ring b q) q = q.
Proof. by destruct q, b. Qed.

Lemma rp_ring s q b : reps s q → is_list (cells s) (inl b) (timer_cells (ring b q)).
Proof. intros []. by destruct b. Qed.

Lemma ring_disjoint s q b : reps s q → ring b q ## ring (negb b) q.
Proof.
  intros Hr k. pose proof (rp_nodup _ _ Hr) as Hn. apply NoDup_app in Hn as (_ & Hd & _).
  destruct b; simpl; intros H1 H2; by apply (Hd k).
Qed.

Lemma linked_rings b (q : tq) k : k ∈ TQ q ++ expTQ q ↔ k ∈ ring b q ∨ k ∈ ring (negb b) q.
Proof. rewrite elem_of_app. destruct b; simpl; tauto. Qed.

(** New rings with the same timers. *)
Lemma reps_rings s q b l h' :
  reps s q → l ## ring (negb b) q → NoDup l → (∀ k, k ∈ l → is_Some (timers q !! k)) →
  is_list h' (inl b) (timer_cells l) →
  is_list h' (inl (negb b)) (timer_cells (ring (negb b) q)) →
  (∀ k, is_Some (timers q !! k) → k ∉ l → k ∉ ring (negb b) q → unattached h' (inr k)) →
  reps (mk_tmem h' (tmrs s)) (with_ring b l q).
Proof.
  intros [Ht Hn Ha _ _ _] Hd Hnl Hal H1 H2 Hf. apply NoDup_app in Hn as (Hn1 & Hn2 & Hn3).
  destruct b; simpl in *; split; simpl; try done.
  - apply NoDup_app. split_and!; [done|set_solver|done].
  - intros k [?|?]%elem_of_app; [|auto]. apply Ha, elem_of_app. by left.
  - intros k Hk Hk'. apply Hf; [done|set_solver|set_solver].
  - apply NoDup_app. split_and!; [done|set_solver|done].
  - intros k [?|?]%elem_of_app; [auto|]. apply Ha, elem_of_app. by right.
  - intros k Hk Hk'. apply Hf; [done|set_solver|set_solver].
Qed.

Lemma not_timer_cell (l : list K) k : inr k ∉ timer_cells l ↔ k ∉ l.
Proof.
  rewrite list_elem_of_fmap. split; [intros Hn Hk; apply Hn; eauto|].
  intros Hn (j & [= <-] & ?). done.
Qed.

Lemma reps_delete s q b l1 k l2 :
  reps s q → ring b q = l1 ++ k :: l2 →
  ∃ h', list_detach (Some (inr k)) (cells s) = Ok LIST_SUCCESS h' ∧
    reps (mk_tmem h' (tmrs s)) (with_ring b (l1 ++ l2) q).
Proof.
  intros Hr Hq. pose proof (rp_ring s q b Hr) as Hl. rewrite Hq, fmap_app in Hl.
  destruct (list_detach_spec (cells s) (inl b) (timer_cells l1) (inr k) (timer_cells l2) Hl)
    as (h' & R & Hl' & Hu & T). exists h'.
  split; [done|]. rewrite <- fmap_app in Hl'.
  pose proof (ring_disjoint s q b Hr) as Hd. rewrite Hq in Hd.
  assert (Hnd : NoDup (l1 ++ k :: l2)).
  { pose proof (rp_nodup _ _ Hr) as Hn. apply NoDup_app in Hn as (? & _ & ?).
    rewrite <- Hq. by destruct b. }
  change (inr k :: timer_cells l2) with (timer_cells (k :: l2)) in T. rewrite <- fmap_app in T.
  apply reps_rings; [done|set_solver| | |done| |].
  - rewrite NoDup_app, NoDup_cons in *. destruct Hnd as (? & ? & ? & ?). split_and!; set_solver.
  - intros j Hj. apply (rp_alive _ _ Hr), (linked_rings b). left. rewrite Hq. set_solver.
  - eapply is_list_frame; [exact T| |apply (rp_ring s q (negb b)), Hr].
    apply timer_cells_disjoint; [by destruct b|set_solver].
  - intros j Hj H1 H2. destruct (decide (j = k)) as [->|Hjk]; [done|].
    unfold unattached. rewrite (proj2 T).
    + apply Hr; [done|]. rewrite (linked_rings b), Hq. set_solver.
    + rewrite elem_of_cons, (list_elem_of_fmap _ (l1 ++ k :: l2)).
      intros [?|(i & [= <-] & Hi)]; [done|]. set_solver.
Qed.

Lemma reps_insert s q b l1 k l2 h' :
  reps s q → ring b q = l1 ++ l2 → k ∉ TQ q ++ expTQ q → is_Some (timers q !! k) →
  is_list h' (inl b) (timer_cells (l1 ++ k :: l2)) →
  touches (inr k :: inl b :: timer_cells (l1 ++ l2)) (cells s) h' →
  reps (mk_tmem h' (tmrs s)) (with_ring b (l1 ++ k :: l2) q).
Proof.
  intros Hr Hq Hk Ha Hl T. pose proof (ring_disjoint s q b Hr) as Hd. rewrite Hq in Hd.
  assert (Hnd : NoDup (l1 ++ l2)).
  { pose proof (rp_nodup _ _ Hr) as Hn. apply NoDup_app in Hn as (? & _ & ?).
    rewrite <- Hq. by destruct b. }
  rewrite (linked_rings b), Hq in Hk.
  apply reps_rings; [done|set_solver| | |done| |].
  - rewrite NoDup_app, ?NoDup_cons in *. destruct Hnd as (? & ? & ?). split_and!; set_solver.
  - intros j Hj. destruct (decide (j = k)) as [->|]; [done|].
    apply (rp_alive _ _ Hr), (linked_rings b). left. rewrite Hq. set_solver.
  - eapply is_list_frame; [exact T| |apply (rp_ring s q (negb b)), Hr].
    intros x Hx1 Hx2. apply elem_of_cons in Hx2 as [->|Hx2].
    + apply elem_of_cons in Hx1 as [|Hx1]; [done|]. revert Hx1. apply not_timer_cell. tauto.
    + revert x Hx1 Hx2. apply timer_cells_disjoint; [by destruct b|set_solver].
  - intros j Hj H1 H2. unfold unattached. rewrite (proj2 T).
    + apply Hr; [done|]. rewrite (linked_rings b), Hq. set_solver.
    + rewrite !elem_of_cons. intros [[= ->]|[?|Hi]]; [set_solver|done|].
      revert Hi. apply not_timer_cell. set_solver.
Qed.

(** An unlinked timer has a cell. *)
Lemma free_cell s q k :
  reps s q → is_Some (timers q !! k) → k ∉ TQ q ++ expTQ q → is_Some (cells s !! inr k).
Proof. intros Hr Ha Hk. rewrite (rp_free _ _ Hr k Ha Hk). eauto. Qed.

Lemma on_cells_ok {A} (m : CM heap A) (s : @tmem K H _ _) a h :
  m (cells s) = Ok a h → on_cells m s = Ok a (mk_tmem h (tmrs s)).
Proof. unfold on_cells. by intros ->. Qed.

Lemma on_cells_read {A} (m : CM heap A) (s : @tmem K H _ _) a :
  m (cells s) = Ok a (cells s) → on_cells m s = Ok a s.
Proof. intros Hm. rewrite (on_cells_ok _ _ _ _ Hm). by destruct s. Qed.

Lemma in_ring (q : tq) k : attached q k = true → ∃ b l1 l2, ring b q = l1 ++ k :: l2.
Proof.
  unfold attached. rewrite orb_true_iff, !bool_decide_eq_true.
  intros [Hk|Hk]; apply list_elem_of_split in Hk as (l1 & l2 & Hk);
    [exists false, l1, l2|exists true, l1, l2]; done.
Qed.

Lemma not_linked (q : tq) k : attached q k = false → k ∉ TQ q ++ expTQ q.
Proof.
  unfold attached. rewrite orb_false_iff, !bool_decide_eq_false, elem_of_app. tauto.
Qed.

(** What [timer_detach] leaves. *)
Lemma detach_ring s q b l1 k l2 :
  reps s q → ring b q = l1 ++ k :: l2 → timer_detach k q = Ok () (with_ring b (l1 ++ l2) q).
Proof.
  intros Hr Hq. unfold timer_detach, modify, with_ring. f_equal.
  pose proof (ring_disjoint s q b Hr) as Hd. rewrite Hq in Hd.
  assert (Hnd : NoDup (l1 ++ k :: l2)).
  { pose proof (rp_nodup _ _ Hr) as Hn. apply NoDup_app in Hn as (? & _ & ?).
    rewrite <- Hq. by destruct b. }
  apply NoDup_app in Hnd as (_ & H1 & H2). apply NoDup_cons in H2 as [H2 _].
  assert (Hf : filter (λ j, j ≠ k) (l1 ++ k :: l2) = l1 ++ l2).
  { rewrite filter_app, filter_cons_False by (intros Hn; by apply Hn).
    rewrite !filter_all; [done| |]; set_solver. }
  assert (Ho : filter (λ j, j ≠ k) (ring (negb b) q) = ring (negb b) q)
    by (apply filter_all; set_solver).
  destruct b; simpl in *; f_equal; try done; by rewrite Hq.
Qed.

Lemma refines_remove id : refines (timer_remove_p id) (timer_remove id).
Proof.
  intros s q Hr. unfold timer_remove, timer_get, timer_remove_p.
  destruct (timers q !! id) as [t|] eqn:Ht; [|by unfold bind; rewrite Ht].
  erewrite (bind_ok (λ q, _)) by by rewrite Ht. erewrite bind_ok by done.
  assert (Hput : ∀ s' q', reps s' q' → timers q' = timers q → ∀ r : Z,
    ∃ s2, (t ← read_timer id; write_timer id (mk_timer false (tm_timeout t) (tm_handler t)) ;;
           ret r) s' = Ok r s2 ∧
      reps s2 (mk_tqueue (<[id := mk_timer false (tm_timeout t) (tm_handler t)]> (timers q'))
                 (TQ q') (expTQ q'))).
  { intros s' q' Hr' Hq' r.
    erewrite bind_ok by (unfold read_timer; rewrite (rp_timers _ _ Hr'), Hq', Ht; done).
    destruct (refines_put id (mk_timer false (tm_timeout t) (tm_handler t)) t s' q' Hr')
      as (s2 & R & Hr2); [by rewrite Hq'|].
    exists s2. split; [|done]. by erewrite bind_ok by exact R. }
  destruct (attached q id) eqn:Hat.
  - destruct (in_ring q id Hat) as (b & l1 & l2 & Hq).
    destruct (reps_delete s q b l1 id l2 Hr Hq) as (h' & R & Hr').
    erewrite bind_ok by (unfold when; by eapply detach_ring).
    destruct (Hput _ _ Hr' eq_refl 1) as (s2 & R2 & Hr2). exists s2. split; [|exact Hr2].
    pose proof (rp_ring s q b Hr) as Hl. rewrite Hq, fmap_app in Hl.
    erewrite bind_ok by (by apply on_cells_read, (attached_spec _ _ _ _ _ Hl)).
    erewrite bind_ok; [exact R2|]. by erewrite bind_ok by (apply on_cells_ok; exact R).
  - erewrite bind_ok by done.
    destruct (Hput s q Hr eq_refl 0) as (s2 & R2 & Hr2). exists s2. split; [|exact Hr2].
    assert (Hu : unattached (cells s) (inr id)).
    { apply Hr; [eauto|]. by apply not_linked. }
    by erewrite bind_ok by (by apply on_cells_read, unattached_spec).
Qed.

(** The test of the insertion loop: [t] goes after [c]. *)
Definition goes_after (tms : gmap K (timer H)) (t : timeval) (c : cell) (_ : ()) : bool * () :=
  match c with
  | inr k =>
      match tms !! k with
      | Some tc => (negb (timeval_diff t (tm_timeout tc) <? 0), ())
      | None => (true, ())
      end
  | inl _ => (true, ())
  end.

(** The insertion loop stops where [insert_before] inserts. *)
Lemma insert_before_scan (tms : gmap K (timer H)) id t l l' :
  insert_before tms id t l = Some l' →
  ∃ l1 l2, l = l1 ++ l2 ∧ l' = l1 ++ id :: l2 ∧
    scan (goes_after tms t) (timer_cells l) () = (timer_cells l1, timer_cells l2, ()).
Proof.
  revert l'. induction l as [|c l IH]; intros l'.
  { intros [= <-]. exists [], []. done. }
  rewrite fmap_cons. cbn [insert_before scan]. unfold goes_after at 1. destruct (tms !! c) as [tc|]; [|done].
  destruct (timeval_diff t (tm_timeout tc) <? 0); cbn [negb].
  - intros [= <-]. by exists [], (c :: l).
  - destruct (insert_before tms id t l) as [r|]; [|done]. intros [= <-].
    destruct (IH r eq_refl) as (l1 & l2 & -> & -> & Hs). exists (c :: l1), l2.
    split_and!; [done|done|]. by rewrite Hs.
Qed.

(** Linking a timer into the queue. *)
Lemma refines_link s q id t l :
  reps s q → attached q id = false → timers q !! id = Some t →
  insert_before (timers q) id (tm_timeout t) (TQ q) = Some l →
  ∃ s', (empty ← on_cells (list_empty TQ_head);
         if empty : bool then on_cells (list_add TQ_head (Some (inr id))) ;; ret () else
         tms ← gets tmrs;
         pos ← on_cells (list_foreach (λ c _,
                 curr ← timer_of tms c;
                 ret (negb (timeval_diff (tm_timeout t) (tm_timeout curr) <? 0), ())) TQ_head ());
         n ← on_cells (node pos.1);
         on_cells (list_add (prev n) (Some (inr id))) ;;
         ret ()) s = Ok () s' ∧
    reps s' (mk_tqueue (timers q) l (expTQ q)).
Proof.
  intros Hr Hat Ht Hi. destruct (insert_before_scan _ _ _ _ _ Hi) as (l1 & l2 & Hq & -> & Hs).
  apply not_linked in Hat. pose proof (rp_TQ _ _ Hr) as Hl.
  assert (Hc : is_Some (cells s !! inr id)) by (by eapply free_cell; eauto).
  assert (Hn : (inr id : cell) ∉ inl false :: timer_cells (TQ q)).
  { rewrite elem_of_cons. intros [?|Hin]; [done|]. revert Hin. apply not_timer_cell.
    rewrite elem_of_app in Hat. tauto. }
  erewrite bind_ok by (by apply on_cells_read, list_empty_spec).
  destruct (bool_decide _) eqn:He.
  - apply bool_decide_eq_true, fmap_nil_inv in He. rewrite He in Hl, Hn, Hq.
    symmetry in Hq. apply app_nil in Hq as [-> ->].
    destruct (list_add_spec _ _ _ _ Hl Hc Hn) as (h' & R & Hl' & T).
    eexists. split; [by erewrite bind_ok by (apply on_cells_ok; exact R)|].
    by apply (reps_insert s q false [] id []).
  - erewrite bind_ok by done.
    erewrite bind_ok.
    2:{ apply on_cells_read. eapply list_foreach_spec; [exact Hl| |exact Hs].
        intros c [] Hc'. apply list_elem_of_fmap in Hc' as (k & -> & Hk).
        rewrite (rp_timers _ _ Hr). unfold timer_of, bind, goes_after.
        destruct (rp_alive _ _ Hr k) as [tk ->]; [rewrite elem_of_app; by left|]. done. }
    cbn [fst]. rewrite Hq, fmap_app in Hl, Hn.
    assert (Hp : ∃ n, cells s !! hd (inl false) (timer_cells l2) = Some n ∧
      prev n = Some (List.last (timer_cells l1) (inl false))).
    { destruct l2 as [|y l2]; cbn [hd fmap list_fmap].
      - rewrite app_nil_r in Hl. rewrite (ring_head _ _ _ Hl). eauto.
      - rewrite (ring_node _ _ _ _ _ Hl). eauto. }
    destruct Hp as (n & Hn1 & Hn2). erewrite bind_ok by (by apply on_cells_read, node_ok).
    destruct (list_add_before _ _ _ _ _ Hl Hc Hn) as (h' & R & Hl' & T). rewrite Hn2.
    eexists. split; [by erewrite bind_ok by (apply on_cells_ok; exact R)|].
    rewrite <- fmap_app in T.
    apply (reps_insert s q false l1 id l2); [done|done|done|eauto|by rewrite fmap_app|done].
Qed.

(** The timer is stopped first when it is running. *)
Lemma refines_stop s q id t (u : bool) :
  reps s q → timers q !! id = Some t →
  ∃ s1 q1 t1, (if u then timer_remove id ;; ret () else ret ()) q = Ok () q1 ∧
    (if u then timer_remove_p id ;; ret () else ret ()) s = Ok () s1 ∧ reps s1 q1 ∧
    timers q1 !! id = Some t1 ∧ tm_timeout t1 = tm_timeout t ∧ tm_handler t1 = tm_handler t.
Proof.
  intros Hr Ht. destruct u; [|by exists s, q, t].
  destruct (timer_remove_spec q id t Ht) as [r R]. pose proof (refines_remove id s q Hr) as Hs.
  rewrite R in Hs. destruct Hs as (s1 & R1 & Hr1). eexists s1, _, _.
  split_and!; [by erewrite bind_ok by exact R|by erewrite bind_ok by exact R1|exact Hr1
    |simpl; by rewrite lookup_insert_eq|done|done].
Qed.

Lemma refines_add id : refines (timer_add_p id) (timer_add id).
Proof.
  intros s q Hr. unfold timer_add, timer_add_p, timer_get.
  destruct (timers q !! id) as [t|] eqn:Ht; [|by unfold bind; rewrite Ht].
  erewrite (bind_ok (λ q, _)) by by rewrite Ht.
  erewrite (bind_ok (read_timer id)) by (unfold read_timer; by rewrite (rp_timers _ _ Hr), Ht).
  destruct (tm_handler t) as [f|] eqn:Hh; [|done].
  destruct (refines_stop s q id t (tm_used t) Hr Ht) as (s1 & q1 & t1 & R & R1 & Hr1 & Ht1 & E1 & E2).
  erewrite bind_ok by exact R. erewrite (bind_ok (if tm_used t then _ else _)) by exact R1.
  erewrite (bind_ok (read_timer id)) by (unfold read_timer; by rewrite (rp_timers _ _ Hr1), Ht1).
  rewrite E1, E2.
  destruct (refines_put id (mk_timer true (tm_timeout t) (tm_handler t)) t1 s1 q1 Hr1 Ht1)
    as (s2 & R2 & Hr2).
  rewrite <- Hh. erewrite bind_ok by done. erewrite (bind_ok (write_timer _ _)) by exact R2.
  set (q2 := mk_tqueue _ _ _) in *. unfold timer_link.
  destruct (attached q2 id) eqn:Hat; [done|].
  destruct (insert_before _ _ _ _) as [l|] eqn:Hi; [|done].
  apply (refines_link s2 q2 id (mk_timer true (tm_timeout t) (tm_handler t)) l Hr2 Hat);
    [simpl; by rewrite lookup_insert_eq|done].
Qed.

Lemma refines_set_timeout id now ms :
  refines (timer_set_timeout_p id now ms) (timer_set_timeout id now ms).
Proof.
  intros s q Hr. unfold timer_set_timeout, timer_set_timeout_p.
  destruct (timers q !! id) as [t|] eqn:Ht; [|by unfold timer_get, bind; rewrite Ht].
  erewrite (bind_ok (timer_get id)) by (unfold timer_get; by rewrite Ht).
  erewrite (bind_ok (read_timer id)) by (unfold read_timer; by rewrite (rp_timers _ _ Hr), Ht).
  destruct (refines_stop s q id t (tm_used t) Hr Ht) as (s1 & q1 & t1 & R & R1 & Hr1 & Ht1 & _).
  erewrite bind_ok by exact R. erewrite (bind_ok (if tm_used t then _ else _)) by exact R1.
  erewrite (bind_ok (timer_get id)) by (unfold timer_get; by rewrite Ht1).
  erewrite (bind_ok (read_timer id)) by (unfold read_timer; by rewrite (rp_timers _ _ Hr1), Ht1).
  destruct (refines_put id (mk_timer (tm_used t1) (timeout_after now ms) (tm_handler t1)) t1 s1 q1
    Hr1 Ht1) as (s2 & R2 & Hr2).
  erewrite bind_ok by done. erewrite (bind_ok (write_timer _ _)) by exact R2.
  by apply refines_add.
Qed.

Lemma refines_pop : refines pop_expired_p pop_expired.
Proof.
  intros s q Hr. unfold pop_expired, pop_expired_p. pose proof (rp_exp _ _ Hr) as Hl.
  erewrite (bind_ok (on_cells (list_empty _))) by (by apply on_cells_read, list_empty_spec).
  destruct (expTQ q) as [|id r] eqn:Hq; [by exists s|]. rewrite fmap_cons in *.
  rewrite bool_decide_eq_false_2 by done.
  erewrite (bind_ok (on_cells (list_first _))) by (by eapply on_cells_read, list_first_spec).
  destruct (reps_delete s q true [] id r Hr Hq) as (h' & R & Hr').
  erewrite (bind_ok (on_cells (list_detach _))) by (by apply on_cells_ok).
  unfold with_ring in Hr'. simpl in Hr'. set (q1 := mk_tqueue (timers q) (TQ q) r) in *.
  destruct (timers q !! id) as [t|] eqn:Ht; [|by unfold timer_get, bind; simpl; rewrite Ht].
  erewrite (bind_ok (timer_get id)) by (unfold timer_get; simpl; by rewrite Ht).
  erewrite (bind_ok (read_timer id))
    by (unfold read_timer; rewrite (rp_timers _ _ Hr'); simpl; by rewrite Ht).
  destruct (refines_put id (mk_timer false (tm_timeout t) (tm_handler t)) t _ q1 Hr' Ht)
    as (s2 & R2 & Hr2).
  exists s2. split; [by erewrite bind_ok by exact R2|exact Hr2].
Qed.

(** One expired timer moves from the head of [TQ] to the tail of [expTQ]. *)
Lemma move_expired s q k r :
  reps s q → TQ q = k :: r →
  ∃ h1 h2, list_detach (Some (inr k)) (cells s) = Ok LIST_SUCCESS h1 ∧
    list_add_tail expTQ_head (Some (inr k)) h1 = Ok LIST_SUCCESS h2 ∧
    reps (mk_tmem h2 (tmrs s)) (mk_tqueue (timers q) r (expTQ q ++ [k])).
Proof.
  intros Hr Hq. destruct (reps_delete s q false [] k r Hr Hq) as (h1 & R1 & Hr1).
  set (q1 := with_ring false ([] ++ r) q) in *.
  assert (Hk : k ∉ TQ q1 ++ expTQ q1).
  { pose proof (rp_nodup _ _ Hr) as Hn. rewrite Hq in Hn. by apply NoDup_cons in Hn as [? _]. }
  assert (Ha : is_Some (timers q1 !! k)).
  { apply (rp_alive _ _ Hr). rewrite Hq. left. }
  pose proof (free_cell _ _ _ Hr1 Ha Hk) as Hc.
  destruct (list_add_tail_spec _ _ _ (inr k) (rp_exp _ _ Hr1) Hc) as (h2 & R2 & Hl2 & T2).
  { rewrite elem_of_cons. intros [?|Hin]; [done|]. revert Hin. apply not_timer_cell. set_solver. }
  exists h1, h2. split_and!; [done|done|].
  apply (reps_insert (mk_tmem h1 (tmrs s)) q1 true (expTQ q) k []);
    [done|by rewrite app_nil_r|done|done|by rewrite fmap_app|by rewrite app_nil_r].
Qed.

Lemma refines_collect now : refines (collect_expired_p now) (collect_expired now).
Proof.
  intros s q Hr. unfold collect_expired, collect_expired_p.
  destruct (expired_prefix (timers q) now (TQ q)) as [[e r]|] eqn:He; [|done].
  erewrite bind_ok by done. rewrite (rp_timers _ _ Hr).
  set (body := λ (c : cell) (_ : ()), _).
  set (J := λ (rem : list cell) (_ : ()) (h : heap), ∃ e1 e2 l, rem = timer_cells l ∧
    expired_prefix (timers q) now l = Some (e2, r) ∧ e = e1 ++ e2 ∧
    reps (mk_tmem h (tmrs s)) (mk_tqueue (timers q) l (expTQ q ++ e1))).
  set (Q := λ (_ : option cell) (_ : ()) (h : heap),
    reps (mk_tmem h (tmrs s)) (mk_tqueue (timers q) r (expTQ q ++ e))).
  destruct (list_foreach_safe_rule body (inl false) J Q) with (l := timer_cells (TQ q)) (acc := ())
    (h := cells s) as (p & b & h' & R & HQ).
  - intros rem acc h (e1 & e2 & l & -> & _ & _ & Hr'). exists []. apply Hr'.
  - intros x rr [] h (e1 & e2 & l & Hl & Hp & -> & Hr'). destruct l as [|k l]; [done|].
    rewrite fmap_cons in Hl. injection Hl as -> ->. cbn [expired_prefix] in Hp.
    unfold body, timer_of. destruct (timers q !! k) as [tk|] eqn:Hk; [|done].
    erewrite bind_ok by reflexivity.
    destruct (0 <? timeval_diff (tm_timeout tk) now).
    { injection Hp as <- <-. exists false, (), h. split; [done|]. unfold Q. by rewrite app_nil_r. }
    destruct (expired_prefix (timers q) now l) as [[e3 r3]|] eqn:Hp'; [|done].
    injection Hp as <- <-.
    destruct (move_expired _ _ k l Hr' eq_refl) as (h1 & h2 & R1 & R2 & Hr2).
    exists true, (), h2. split.
    { erewrite bind_ok by exact R1. by erewrite bind_ok by exact R2. }
    exists (e1 ++ [k]), e3, l. split_and!; [done|done|by rewrite <- app_assoc|].
    simpl in Hr2. by rewrite <- app_assoc in Hr2.
  - intros [] h (e1 & e2 & l & Hl & Hp & -> & Hr'). symmetry in Hl.
    apply fmap_nil_inv in Hl as ->. injection Hp as <- <-. unfold Q. by rewrite app_nil_r.
  - exists [], e, (TQ q). rewrite app_nil_r. split_and!; [done|done|done|by destruct s, q].
  - apply Hr.
  - exists (mk_tmem h' (tmrs s)). split; [|exact HQ].
    by erewrite bind_ok by (apply on_cells_ok; exact R).
Qed.

(** C29: on the intrusive lists of the source the timer queue does what [TimerQueue.v]
    says: from memory in which the rings of [TQ] and [expTQ] hold the timers of the
    two lists and every other timer is unattached, starting, stopping and expiring
    timers pointer by pointer returns what the functions on lists return, exits
    where they exit, and leaves memory that represents their result. *)
Theorem timer_queue_refined (id : K) (now : timeval) (msec : Z) (s : tmem) (q : tq) :
  reps s q →
  (∀ r q', timer_remove id q = Ok r q' → ∃ s', timer_remove_p id s = Ok r s' ∧ reps s' q') ∧
  (∀ q', timer_set_timeout id now msec q = Ok () q' →
     ∃ s', timer_set_timeout_p id now msec s = Ok () s' ∧ reps s' q') ∧
  (∀ c, timer_set_timeout id now msec q = Exit c → timer_set_timeout_p id now msec s = Exit c) ∧
  (∀ q', collect_expired now q = Ok () q' →
     ∃ s', collect_expired_p now s = Ok () s' ∧ reps s' q') ∧
  (∀ r q', pop_expired q = Ok r q' → ∃ s', pop_expired_p s = Ok r s' ∧ reps s' q').
Proof.
  intros Hr. pose proof (refines_remove id s q Hr) as H1.
  pose proof (refines_set_timeout id now msec s q Hr) as H2.
  pose proof (refines_collect now s q Hr) as H3. pose proof (refines_pop s q Hr) as H4.
  split_and!; intros * Hrun; rewrite Hrun in *; done.
Qed.
End rep.
