(* ===== verification/State.v ===== *)
(** * The state of the daemon

    The data of [aodvd]: the records for its C structures, the names of its
    timers and handlers, the globals as one record, and the primitive
    operations through which the other files read and write them.

    A [rt_table_t *] is the destination address of the entry it points to
    (an entry never changes its destination and the table holds at most one
    entry per destination, see [RtTable.v]); a [seek_list_t *] is the
    destination it seeks.  Dereferencing the address of an object that is
    not allocated is the undefined behaviour [UseAfterFree]. *)

From S2P Require Import Prelude.
From S2P Require Import Params.
From S2P Require Import Bytes.
From S2P Require Import TimerQueue.

#[local] Open Scope cm_scope.

(** ** Timers and handlers *)

(** The [struct timer] objects, named by the object they are embedded in. *)
Inductive timer_id :=
  | RtTimer (dest : Z)        (* rt->rt_timer *)
  | AckTimer (dest : Z)       (* rt->ack_timer *)
  | HelloTimer (dest : Z)     (* rt->hello_timer *)
  | SeekTimer (dest : Z)      (* seek_entry->seek_timer *)
  | RecTimer (orig id : Z)    (* rec->rec_timer *)
  | BlTimer (dest : Z)        (* bl->bl_timer *)
  | HelloSendTimer            (* hello_timer of aodv_hello.c *)
  | WorbTimer                 (* worb_timer of main.c *)
  | GcTimer                   (* PQ.garbage_collect_timer *)
  | RtLogTimer.               (* rt_log_timer of debug.c *)

#[export] Instance timer_id_eq_dec : EqDecision timer_id.
Proof. solve_decision. Defined.

#[export] Instance timer_id_countable : Countable timer_id.
Proof.
  refine (inj_countable'
    (λ t, match t with
          | RtTimer d => (0%nat, d, 0) | AckTimer d => (1%nat, d, 0)
          | HelloTimer d => (2%nat, d, 0) | SeekTimer d => (3%nat, d, 0)
          | RecTimer o i => (4%nat, o, i) | BlTimer d => (5%nat, d, 0)
          | HelloSendTimer => (6%nat, 0, 0) | WorbTimer => (7%nat, 0, 0)
          | GcTimer => (8%nat, 0, 0) | RtLogTimer => (9%nat, 0, 0)
          end)
    (λ p, match p with
          | (0%nat, d, _) => RtTimer d | (1%nat, d, _) => AckTimer d
          | (2%nat, d, _) => HelloTimer d | (3%nat, d, _) => SeekTimer d
          | (4%nat, o, i) => RecTimer o i | (5%nat, d, _) => BlTimer d
          | (6%nat, _, _) => HelloSendTimer | (7%nat, _, _) => WorbTimer
          | (8%nat, _, _) => GcTimer | _ => RtLogTimer
          end) _).
  by intros [].
Defined.

(** The functions that [timer_init] and [t->handler = ...] install. *)
Inductive handler :=
  | route_expire_timeout | route_delete_timeout | local_repair_timeout
  | rrep_ack_timeout | hello_timeout | route_discovery_timeout
  | rreq_record_timeout | rreq_blacklist_timeout
  | hello_send_h | wait_on_reboot_timeout | packet_queue_timeout
  | print_rt_table.

#[export] Instance handler_eq_dec : EqDecision handler.
Proof. solve_decision. Defined.

(** ** Structures *)

(** [struct dev_info] of [core/defs.h]. *)
Record dev_info := mk_dev {
  dev_enabled : bool;
  dev_sock : Z;
  dev_ifindex : Z;
  dev_ifname : list Z;  (* char ifname[IFNAMSIZ] *)
  dev_ipaddr : Z;
  dev_netmask : Z;
  dev_broadcast : Z
}.

(** [struct host_info] of [core/defs.h]. *)
Record host_info := mk_host {
  seqno : Z;  (* u_int32_t: the node's own sequence number *)
  bcast_time : timeval;
  fwd_time : timeval;
  rreq_id : Z;  (* u_int32_t *)
  nif : Z;
  devs : list dev_info  (* devs[MAX_NR_INTERFACES + 1] *)
}.

Definition set_seqno (v : Z) (r : host_info) : host_info :=
  mk_host v (bcast_time r) (fwd_time r) (rreq_id r) (nif r) (devs r).
Definition set_bcast_time (v : timeval) (r : host_info) : host_info :=
  mk_host (seqno r) v (fwd_time r) (rreq_id r) (nif r) (devs r).
Definition set_fwd_time (v : timeval) (r : host_info) : host_info :=
  mk_host (seqno r) (bcast_time r) v (rreq_id r) (nif r) (devs r).
Definition set_rreq_id (v : Z) (r : host_info) : host_info :=
  mk_host (seqno r) (bcast_time r) (fwd_time r) v (nif r) (devs r).

(** [struct rt_table] of [routing/routing_table.h].  Its three timers live in the
    timer queue under the names [RtTimer], [AckTimer] and [HelloTimer] of its
    destination. *)
Record rt_table_t := mk_rt {
  rt_dest_addr : Z;
  rt_dest_seqno : Z;  (* u_int32_t *)
  rt_ifindex : Z;  (* unsigned int *)
  rt_next_hop : Z;
  rt_hcnt : Z;  (* u_int8_t *)
  rt_flags : Z;  (* u_int16_t *)
  rt_state : Z;  (* u_int8_t: INVALID or VALID *)
  rt_last_hello_time : timeval;
  rt_hello_cnt : Z;  (* u_int8_t *)
  rt_hash : Z;  (* hash_value *)
  rt_nprec : Z;  (* int *)
  rt_precursors : list Z  (* neighbours, most recent first *)
}.

Definition set_rt_dest_seqno (v : Z) (r : rt_table_t) : rt_table_t :=
  mk_rt (rt_dest_addr r) v (rt_ifindex r) (rt_next_hop r) (rt_hcnt r) (rt_flags r)
    (rt_state r) (rt_last_hello_time r) (rt_hello_cnt r) (rt_hash r) (rt_nprec r)
    (rt_precursors r).
Definition set_rt_next_hop (v : Z) (r : rt_table_t) : rt_table_t :=
  mk_rt (rt_dest_addr r) (rt_dest_seqno r) (rt_ifindex r) v (rt_hcnt r)
    (rt_flags r) (rt_state r) (rt_last_hello_time r) (rt_hello_cnt r) (rt_hash r)
    (rt_nprec r) (rt_precursors r).
Definition set_rt_hcnt (v : Z) (r : rt_table_t) : rt_table_t :=
  mk_rt (rt_dest_addr r) (rt_dest_seqno r) (rt_ifindex r) (rt_next_hop r) v
    (rt_flags r) (rt_state r) (rt_last_hello_time r) (rt_hello_cnt r) (rt_hash r)
    (rt_nprec r) (rt_precursors r).
Definition set_rt_flags (v : Z) (r : rt_table_t) : rt_table_t :=
  mk_rt (rt_dest_addr r) (rt_dest_seqno r) (rt_ifindex r) (rt_next_hop r)
    (rt_hcnt r) v (rt_state r) (rt_last_hello_time r) (rt_hello_cnt r) (rt_hash r)
    (rt_nprec r) (rt_precursors r).
Definition set_rt_state (v : Z) (r : rt_table_t) : rt_table_t :=
  mk_rt (rt_dest_addr r) (rt_dest_seqno r) (rt_ifindex r) (rt_next_hop r)
    (rt_hcnt r) (rt_flags r) v (rt_last_hello_time r) (rt_hello_cnt r) (rt_hash r)
    (rt_nprec r) (rt_precursors r).
Definition set_rt_last_hello_time (v : timeval) (r : rt_table_t) : rt_table_t :=
  mk_rt (rt_dest_addr r) (rt_dest_seqno r) (rt_ifindex r) (rt_next_hop r)
    (rt_hcnt r) (rt_flags r) (rt_state r) v (rt_hello_cnt r) (rt_hash r)
    (rt_nprec r) (rt_precursors r).
Definition set_rt_hello_cnt (v : Z) (r : rt_table_t) : rt_table_t :=
  mk_rt (rt_dest_addr r) (rt_dest_seqno r) (rt_ifindex r) (rt_next_hop r)
    (rt_hcnt r) (rt_flags r) (rt_state r) (rt_last_hello_time r) v (rt_hash r)
    (rt_nprec r) (rt_precursors r).
Definition set_rt_nprec (v : Z) (r : rt_table_t) : rt_table_t :=
  mk_rt (rt_dest_addr r) (rt_dest_seqno r) (rt_ifindex r) (rt_next_hop r)
    (rt_hcnt r) (rt_flags r) (rt_state r) (rt_last_hello_time r) (rt_hello_cnt r)
    (rt_hash r) v (rt_precursors r).
Definition set_rt_precursors (v : list Z) (r : rt_table_t) : rt_table_t :=
  mk_rt (rt_dest_addr r) (rt_dest_seqno r) (rt_ifindex r) (rt_next_hop r)
    (rt_hcnt r) (rt_flags r) (rt_state r) (rt_last_hello_time r) (rt_hello_cnt r)
    (rt_hash r) (rt_nprec r) v.

(** [struct routing_table]. *)
Record routing_table := mk_table {
  num_entries : Z;  (* unsigned int *)
  num_active : Z;  (* unsigned int *)
  tbl : list (list rt_table_t)  (* tbl[RT_TABLESIZE] *)
}.

Definition set_num_entries (v : Z) (r : routing_table) : routing_table :=
  mk_table v (num_active r) (tbl r).
Definition set_num_active (v : Z) (r : routing_table) : routing_table :=
  mk_table (num_entries r) v (tbl r).
Definition set_tbl (v : list (list rt_table_t)) (r : routing_table) : routing_table :=
  mk_table (num_entries r) (num_active r) v.

(** [struct seek_list] of [routing/seek_list.h]; the daemon always passes NULL for
    [ipd].  The entry's timer is [SeekTimer] of its destination. *)
Record seek_list_t := mk_seek {
  sk_dest_addr : Z;
  sk_dest_seqno : Z;  (* u_int32_t *)
  sk_flags : Z;  (* u_int8_t *)
  sk_reqs : Z;  (* int *)
  sk_ttl : Z  (* int *)
}.

Definition set_sk_reqs (v : Z) (r : seek_list_t) : seek_list_t :=
  mk_seek (sk_dest_addr r) (sk_dest_seqno r) (sk_flags r) v (sk_ttl r).
Definition set_sk_ttl (v : Z) (r : seek_list_t) : seek_list_t :=
  mk_seek (sk_dest_addr r) (sk_dest_seqno r) (sk_flags r) (sk_reqs r) v.

(** [struct rreq_record] of [protocol/aodv_rreq.h]; its timer is [RecTimer]. *)
Record rreq_record := mk_rreq_record {
  rec_orig_addr : Z;
  rec_rreq_id : Z  (* u_int32_t *)
}.

(** [struct q_pkt] of [network/packet_queue.h]. *)
Record q_pkt := mk_q_pkt {
  qp_dest_addr : Z;
  qp_q_time : timeval;
  qp_packet_id : Z  (* uint32_t *)
}.

(** [struct packet_queue]; its timer is [GcTimer]. *)
Record packet_queue := mk_pq {
  pq_head : list q_pkt;  (* oldest first *)
  pq_len : Z  (* unsigned int *)
}.

(** ** Effects

    What the daemon hands to the kernel, in the order of the calls. *)

(** A rtnetlink route request, as [nl_kern_route] builds it. *)
Record nl_request := mk_nl_request {
  nl_type : Z; nl_flags : Z; nl_seq : Z; nl_len : Z;
  nl_scope : Z; nl_dst_len : Z;
  nl_attrs : list (Z * list Z)    (* attribute type, payload bytes *)
}.

Inductive event :=
  | EvSend (dev : nat) (dst ttl : Z) (payload : list Z)  (* sendto of an AODV message *)
  | EvRoute (r : nl_request)                             (* sendmsg on the rtnetlink socket *)
  | EvVerdict (packet_id verdict : Z).                   (* nfq_set_verdict *)

(** ** Environment and globals *)

(** The option variables of [core/main.c], fixed once the command line has been
    parsed ([wait_on_reboot] is not among them: a timer clears it). *)
Record options := mk_options {
  unidir_hack : bool;
  rreq_gratuitous : bool;
  expanding_ring_search : bool;
  local_repair : bool;
  receive_n_hellos : Z;
  hello_jittering : bool;
  optimized_hellos : bool;
  ratelimit : bool;
  llfeedback : bool;
  rt_log_interval : Z;
  active_route_timeout : Z;
  ttl_start : Z;
  delete_period : Z
}.

(** What the daemon gets from the system it runs on. *)
Record environment := mk_env {
  env_opts : options;
  env_clock : nat → timeval;  (* what the n-th gettimeofday returns *)
  env_jitter : nat → Z;  (* what the n-th hello_jitter computes from random() *)
  env_sys_ok : nat → bool;  (* whether the n-th socket call succeeds *)
  env_heap : Z;  (* route entries that malloc can provide *)
  (* the name of an interface, if it exists, after the n-th gettimeofday *)
  env_ifname : nat → Z → option (list Z)
}.

(** The globals of the daemon. *)
Record state := mk_state {
  env : environment;
  clock_reads : nat;
  jitter_reads : nat;
  sys_calls : nat;
  wait_on_reboot : bool;
  this_host : host_info;
  dev_indices : list Z;  (* dev_indices[MAX_NR_INTERFACES] *)
  tq : tqueue timer_id handler;
  rt_tbl : routing_table;
  seekhead : list seek_list_t;
  rreq_records : list rreq_record;
  rreq_blacklist : list Z;  (* destinations *)
  PQ : packet_queue;
  rreq_ratel : list timeval;  (* rreq_ratel[RREQ_RATELIMIT - 1] *)
  num_rreq : Z;
  rerr_ratel : list timeval;  (* rerr_ratel[RERR_RATELIMIT - 1] *)
  num_rerr : Z;
  send_buf : list Z;
  recv_buf : list Z;
  nfq_queue : bool;  (* the NFQUEUE handle is open *)
  rtnl_seq : Z;  (* rtnl.seq *)
  trace : list event  (* effects, most recent first *)
}.

Definition set_env (v : environment) (r : state) : state :=
  mk_state v (clock_reads r) (jitter_reads r) (sys_calls r) (wait_on_reboot r)
    (this_host r) (dev_indices r) (tq r) (rt_tbl r) (seekhead r) (rreq_records r)
    (rreq_blacklist r) (PQ r) (rreq_ratel r) (num_rreq r) (rerr_ratel r)
    (num_rerr r) (send_buf r) (recv_buf r) (nfq_queue r) (rtnl_seq r) (trace r).
Definition set_clock_reads (v : nat) (r : state) : state :=
  mk_state (env r) v (jitter_reads r) (sys_calls r) (wait_on_reboot r)
    (this_host r) (dev_indices r) (tq r) (rt_tbl r) (seekhead r) (rreq_records r)
    (rreq_blacklist r) (PQ r) (rreq_ratel r) (num_rreq r) (rerr_ratel r)
    (num_rerr r) (send_buf r) (recv_buf r) (nfq_queue r) (rtnl_seq r) (trace r).
Definition set_jitter_reads (v : nat) (r : state) : state :=
  mk_state (env r) (clock_reads r) v (sys_calls r) (wait_on_reboot r) (this_host r)
    (dev_indices r) (tq r) (rt_tbl r) (seekhead r) (rreq_records r)
    (rreq_blacklist r) (PQ r) (rreq_ratel r) (num_rreq r) (rerr_ratel r)
    (num_rerr r) (send_buf r) (recv_buf r) (nfq_queue r) (rtnl_seq r) (trace r).
Definition set_sys_calls (v : nat) (r : state) : state :=
  mk_state (env r) (clock_reads r) (jitter_reads r) v (wait_on_reboot r)
    (this_host r) (dev_indices r) (tq r) (rt_tbl r) (seekhead r) (rreq_records r)
    (rreq_blacklist r) (PQ r) (rreq_ratel r) (num_rreq r) (rerr_ratel r)
    (num_rerr r) (send_buf r) (recv_buf r) (nfq_queue r) (rtnl_seq r) (trace r).
Definition set_wait_on_reboot (v : bool) (r : state) : state :=
  mk_state (env r) (clock_reads r) (jitter_reads r) (sys_calls r) v (this_host r)
    (dev_indices r) (tq r) (rt_tbl r) (seekhead r) (rreq_records r)
    (rreq_blacklist r) (PQ r) (rreq_ratel r) (num_rreq r) (rerr_ratel r)
    (num_rerr r) (send_buf r) (recv_buf r) (nfq_queue r) (rtnl_seq r) (trace r).
Definition set_this_host (v : host_info) (r : state) : state :=
  mk_state (env r) (clock_reads r) (jitter_reads r) (sys_calls r)
    (wait_on_reboot r) v (dev_indices r) (tq r) (rt_tbl r) (seekhead r)
    (rreq_records r) (rreq_blacklist r) (PQ r) (rreq_ratel r) (num_rreq r)
    (rerr_ratel r) (num_rerr r) (send_buf r) (recv_buf r) (nfq_queue r)
    (rtnl_seq r) (trace r).
Definition set_dev_indices (v : list Z) (r : state) : state :=
  mk_state (env r) (clock_reads r) (jitter_reads r) (sys_calls r)
    (wait_on_reboot r) (this_host r) v (tq r) (rt_tbl r) (seekhead r)
    (rreq_records r) (rreq_blacklist r) (PQ r) (rreq_ratel r) (num_rreq r)
    (rerr_ratel r) (num_rerr r) (send_buf r) (recv_buf r) (nfq_queue r)
    (rtnl_seq r) (trace r).
Definition set_tq (v : tqueue timer_id handler) (r : state) : state :=
  mk_state (env r) (clock_reads r) (jitter_reads r) (sys_calls r)
    (wait_on_reboot r) (this_host r) (dev_indices r) v (rt_tbl r) (seekhead r)
    (rreq_records r) (rreq_blacklist r) (PQ r) (rreq_ratel r) (num_rreq r)
    (rerr_ratel r) (num_rerr r) (send_buf r) (recv_buf r) (nfq_queue r)
    (rtnl_seq r) (trace r).
Definition set_rt_tbl (v : routing_table) (r : state) : state :=
  mk_state (env r) (clock_reads r) (jitter_reads r) (sys_calls r)
    (wait_on_reboot r) (this_host r) (dev_indices r) (tq r) v (seekhead r)
    (rreq_records r) (rreq_blacklist r) (PQ r) (rreq_ratel r) (num_rreq r)
    (rerr_ratel r) (num_rerr r) (send_buf r) (recv_buf r) (nfq_queue r)
    (rtnl_seq r) (trace r).
Definition set_seekhead (v : list seek_list_t) (r : state) : state :=
  mk_state (env r) (clock_reads r) (jitter_reads r) (sys_calls r)
    (wait_on_reboot r) (this_host r) (dev_indices r) (tq r) (rt_tbl r) v
    (rreq_records r) (rreq_blacklist r) (PQ r) (rreq_ratel r) (num_rreq r)
    (rerr_ratel r) (num_rerr r) (send_buf r) (recv_buf r) (nfq_queue r)
    (rtnl_seq r) (trace r).
Definition set_rreq_records (v : list rreq_record) (r : state) : state :=
  mk_state (env r) (clock_reads r) (jitter_reads r) (sys_calls r)
    (wait_on_reboot r) (this_host r) (dev_indices r) (tq r) (rt_tbl r) (seekhead r)
    v (rreq_blacklist r) (PQ r) (rreq_ratel r) (num_rreq r) (rerr_ratel r)
    (num_rerr r) (send_buf r) (recv_buf r) (nfq_queue r) (rtnl_seq r) (trace r).
Definition set_rreq_blacklist (v : list Z) (r : state) : state :=
  mk_state (env r) (clock_reads r) (jitter_reads r) (sys_calls r)
    (wait_on_reboot r) (this_host r) (dev_indices r) (tq r) (rt_tbl r) (seekhead r)
    (rreq_records r) v (PQ r) (rreq_ratel r) (num_rreq r) (rerr_ratel r)
    (num_rerr r) (send_buf r) (recv_buf r) (nfq_queue r) (rtnl_seq r) (trace r).
Definition set_PQ (v : packet_queue) (r : state) : state :=
  mk_state (env r) (clock_reads r) (jitter_reads r) (sys_calls r)
    (wait_on_reboot r) (this_host r) (dev_indices r) (tq r) (rt_tbl r) (seekhead r)
    (rreq_records r) (rreq_blacklist r) v (rreq_ratel r) (num_rreq r)
    (rerr_ratel r) (num_rerr r) (send_buf r) (recv_buf r) (nfq_queue r)
    (rtnl_seq r) (trace r).
Definition set_rreq_ratel (v : list timeval) (r : state) : state :=
  mk_state (env r) (clock_reads r) (jitter_reads r) (sys_calls r)
    (wait_on_reboot r) (this_host r) (dev_indices r) (tq r) (rt_tbl r) (seekhead r)
    (rreq_records r) (rreq_blacklist r) (PQ r) v (num_rreq r) (rerr_ratel r)
    (num_rerr r) (send_buf r) (recv_buf r) (nfq_queue r) (rtnl_seq r) (trace r).
Definition set_num_rreq (v : Z) (r : state) : state :=
  mk_state (env r) (clock_reads r) (jitter_reads r) (sys_calls r)
    (wait_on_reboot r) (this_host r) (dev_indices r) (tq r) (rt_tbl r) (seekhead r)
    (rreq_records r) (rreq_blacklist r) (PQ r) (rreq_ratel r) v (rerr_ratel r)
    (num_rerr r) (send_buf r) (recv_buf r) (nfq_queue r) (rtnl_seq r) (trace r).
Definition set_rerr_ratel (v : list timeval) (r : state) : state :=
  mk_state (env r) (clock_reads r) (jitter_reads r) (sys_calls r)
    (wait_on_reboot r) (this_host r) (dev_indices r) (tq r) (rt_tbl r) (seekhead r)
    (rreq_records r) (rreq_blacklist r) (PQ r) (rreq_ratel r) (num_rreq r) v
    (num_rerr r) (send_buf r) (recv_buf r) (nfq_queue r) (rtnl_seq r) (trace r).
Definition set_num_rerr (v : Z) (r : state) : state :=
  mk_state (env r) (clock_reads r) (jitter_reads r) (sys_calls r)
    (wait_on_reboot r) (this_host r) (dev_indices r) (tq r) (rt_tbl r) (seekhead r)
    (rreq_records r) (rreq_blacklist r) (PQ r) (rreq_ratel r) (num_rreq r)
    (rerr_ratel r) v (send_buf r) (recv_buf r) (nfq_queue r) (rtnl_seq r) (trace r).
Definition set_send_buf (v : list Z) (r : state) : state :=
  mk_state (env r) (clock_reads r) (jitter_reads r) (sys_calls r)
    (wait_on_reboot r) (this_host r) (dev_indices r) (tq r) (rt_tbl r) (seekhead r)
    (rreq_records r) (rreq_blacklist r) (PQ r) (rreq_ratel r) (num_rreq r)
    (rerr_ratel r) (num_rerr r) v (recv_buf r) (nfq_queue r) (rtnl_seq r) (trace r).
Definition set_recv_buf (v : list Z) (r : state) : state :=
  mk_state (env r) (clock_reads r) (jitter_reads r) (sys_calls r)
    (wait_on_reboot r) (this_host r) (dev_indices r) (tq r) (rt_tbl r) (seekhead r)
    (rreq_records r) (rreq_blacklist r) (PQ r) (rreq_ratel r) (num_rreq r)
    (rerr_ratel r) (num_rerr r) (send_buf r) v (nfq_queue r) (rtnl_seq r) (trace r).
Definition set_nfq_queue (v : bool) (r : state) : state :=
  mk_state (env r) (clock_reads r) (jitter_reads r) (sys_calls r)
    (wait_on_reboot r) (this_host r) (dev_indices r) (tq r) (rt_tbl r) (seekhead r)
    (rreq_records r) (rreq_blacklist r) (PQ r) (rreq_ratel r) (num_rreq r)
    (rerr_ratel r) (num_rerr r) (send_buf r) (recv_buf r) v (rtnl_seq r) (trace r).
Definition set_rtnl_seq (v : Z) (r : state) : state :=
  mk_state (env r) (clock_reads r) (jitter_reads r) (sys_calls r)
    (wait_on_reboot r) (this_host r) (dev_indices r) (tq r) (rt_tbl r) (seekhead r)
    (rreq_records r) (rreq_blacklist r) (PQ r) (rreq_ratel r) (num_rreq r)
    (rerr_ratel r) (num_rerr r) (send_buf r) (recv_buf r) (nfq_queue r) v (trace r).
Definition set_trace (v : list event) (r : state) : state :=
  mk_state (env r) (clock_reads r) (jitter_reads r) (sys_calls r)
    (wait_on_reboot r) (this_host r) (dev_indices r) (tq r) (rt_tbl r) (seekhead r)
    (rreq_records r) (rreq_blacklist r) (PQ r) (rreq_ratel r) (num_rreq r)
    (rerr_ratel r) (num_rerr r) (send_buf r) (recv_buf r) (nfq_queue r)
    (rtnl_seq r) v.

Definition M (A : Type) : Type := CM state A.

Definition opts (s : state) : options := env_opts (env s).

(** ** Primitive operations *)

Definition gettimeofday : M timeval :=
  n ← gets clock_reads;
  e ← gets env;
  modify (set_clock_reads (S n)) ;;
  ret (env_clock e n).

(** The result of a [setsockopt] or [sendto] on an AODV socket. *)
Definition sys_call : M bool :=
  n ← gets sys_calls;
  e ← gets env;
  modify (set_sys_calls (S n)) ;;
  ret (env_sys_ok e n).

Definition emit (ev : event) : M () :=
  modify (λ s, set_trace (ev :: trace s) s).

(** A timer-queue operation on the daemon's queue. *)
Definition on_tq {A} (m : CM (tqueue timer_id handler) A) : M A := λ s,
  match m (tq s) with
  | Ok a q => Ok a (set_tq q s)
  | Exit c => Exit c
  | Ub u => Ub u
  end.

Definition set_timeout (id : timer_id) (msec : Z) : M () :=
  now ← gettimeofday; on_tq (timer_set_timeout id now msec).

(** [t->handler = h] *)
Definition set_handler (id : timer_id) (h : handler) : M () :=
  on_tq (t ← timer_get id;
         timer_put id (mk_timer (tm_used t) (tm_timeout t) (Some h))).

Definition timer_used (id : timer_id) : M bool :=
  on_tq (t ← timer_get id; ret (tm_used t)).

(** [t->timeout] *)
Definition timer_timeout_of (id : timer_id) : M timeval :=
  on_tq (t ← timer_get id; ret (tm_timeout t)).

(** Devices: [ifindex2devindex], [DEV_NR] and [DEV_IFINDEX]. *)

Fixpoint index_of (l : list Z) (x : Z) (i : nat) : option nat :=
  match l with
  | [] => None
  | y :: l' => if y =? x then Some i else index_of l' x (S i)
  end.

Definition ifindex2devindex (s : state) (ifindex : Z) : nat :=
  match index_of (take (Z.to_nat (nif (this_host s))) (dev_indices s)) ifindex 0 with
  | Some i => i
  | None => MAX_NR_INTERFACES
  end.

Definition no_dev : dev_info := mk_dev false 0 0 [] 0 0 0.

Definition DEV_NR (s : state) (n : nat) : dev_info :=
  default no_dev (devs (this_host s) !! n).

Definition DEV_IFINDEX (s : state) (ifindex : Z) : dev_info :=
  DEV_NR s (ifindex2devindex s ifindex).

(** [devfromsock] *)
Definition devfromsock (s : state) (sock : Z) : option dev_info :=
  search (λ d, dev_sock d =? sock) (take (Z.to_nat (nif (this_host s))) (devs (this_host s))).

(** The indices a [for (i = 0; i < MAX_NR_INTERFACES; i++)] loop visits when it
    skips the devices that are not enabled. *)
Definition enabled_devs (s : state) : list nat :=
  filter (λ i, dev_enabled (DEV_NR s i) = true) (seq 0 MAX_NR_INTERFACES).

(** The shared message buffers. *)

Definition send_load8 (off : Z) : M Z := λ s,
  match load8 (send_buf s) off with Some v => Ok v s | None => Ub SendBufOverflow end.

Definition send_store (f : list Z → option (list Z)) : M () := λ s,
  match f (send_buf s) with
  | Some b => Ok () (set_send_buf b s)
  | None => Ub SendBufOverflow
  end.

Definition send_store8 (off v : Z) : M () := send_store (λ b, store8 b off v).
Definition send_store32 (off v : Z) : M () := send_store (λ b, store32 b off v).

Definition recv_load8 (off : Z) : M Z := λ s,
  match load8 (recv_buf s) off with Some v => Ok v s | None => Ub RecvBufOverread end.

Definition recv_load32 (off : Z) : M Z := λ s,
  match load32 (recv_buf s) off with Some v => Ok v s | None => Ub RecvBufOverread end.

Definition recv_store (f : list Z → option (list Z)) : M () := λ s,
  match f (recv_buf s) with
  | Some b => Ok () (set_recv_buf b s)
  | None => Ub RecvBufOverread
  end.
