(* ===== verification/Frame.v ===== *)
(** * Frames: the globals an operation does not touch

    [frames g m]: whenever [m] returns, the part [g] of the state is what it
    was.  The rules follow the structure of a program, so that a frame is
    derived by [frame_go] from the frames of the operations it calls. *)

From S2P Require Import Prelude.
From S2P Require Import Params.
From S2P Require Import Bytes.
From S2P Require Import TimerQueue.
From S2P Require Import State.

#[local] Open Scope cm_scope.

Definition frames {A B} (g : state → B) (m : M A) : Prop :=
  ∀ s a s', m s = Ok a s' → g s' = g s.

Section rules.
Context {C : Type} (g : state → C).

Lemma frames_ret {A} (a : A) : frames g (ret a).
Proof. by intros s b s' [= _ <-]. Qed.

Lemma frames_bind {A B} (m : M A) (f : A → M B) :
  frames g m → (∀ a, frames g (f a)) → frames g (bind m f).
Proof.
  intros Hm Hf s b s'. unfold bind. destruct (m s) as [a s1| |] eqn:E; [|done|done].
  intros H. rewrite (Hf _ _ _ _ H). by eapply Hm.
Qed.

Lemma frames_gets {A} (f : state → A) : frames g (gets f).
Proof. by intros s b s' [= _ <-]. Qed.

Lemma frames_modify f : (∀ s, g (f s) = g s) → frames g (modify f).
Proof. intros Hf s b s' [= _ <-]. apply Hf. Qed.

Lemma frames_exit {A} c : frames g (@cexit state A c).
Proof. done. Qed.

Lemma frames_undefined {A} u : frames g (@undefined state A u).
Proof. done. Qed.

Lemma frames_when b m : frames g m → frames g (when b m).
Proof. intros Hm. destruct b; [done|apply frames_ret]. Qed.

Lemma frames_foreach {A B} (l : list A) (acc : B) body :
  (∀ a b, frames g (body a b)) → frames g (foreach l acc body).
Proof.
  intros Hb. revert acc. induction l as [|a l IH]; intros acc; [apply frames_ret|].
  simpl. by apply frames_bind.
Qed.

Lemma frames_on_tq {A} (m : CM (tqueue timer_id handler) A) :
  (∀ s q, g (set_tq q s) = g s) → frames g (on_tq m).
Proof.
  intros Hq s b s'. unfold on_tq. destruct (m (tq s)); [|done|done].
  intros [= _ <-]. apply Hq.
Qed.

Lemma frames_send_store f : (∀ s b, g (set_send_buf b s) = g s) → frames g (send_store f).
Proof.
  intros Hq s b s'. unfold send_store. destruct (f (send_buf s)); [|done].
  intros [= _ <-]. apply Hq.
Qed.

Lemma frames_recv_store f : (∀ s b, g (set_recv_buf b s) = g s) → frames g (recv_store f).
Proof.
  intros Hq s b s'. unfold recv_store. destruct (f (recv_buf s)); [|done].
  intros [= _ <-]. apply Hq.
Qed.

Lemma frames_send_load8 off : frames g (send_load8 off).
Proof. intros s b s'. unfold send_load8. by destruct (load8 _ _); intros [= _ <-]. Qed.
Lemma frames_recv_load8 off : frames g (recv_load8 off).
Proof. intros s b s'. unfold recv_load8. by destruct (load8 _ _); intros [= _ <-]. Qed.
Lemma frames_recv_load32 off : frames g (recv_load32 off).
Proof. intros s b s'. unfold recv_load32. by destruct (load32 _ _); intros [= _ <-]. Qed.

(** A frame as part of a postcondition. *)
Lemma wp_frame {A} E (m : M A) Q s :
  frames g m → wp E m Q s → wp E m (λ a s', Q a s' ∧ g s' = g s) s.
Proof.
  unfold wp. intros Hm. specialize (Hm s). destruct (m s) as [a s'| |]; [|done|done].
  intros HQ. split; [done|]. by eapply Hm.
Qed.
End rules.

(** One step of the derivation of a frame. *)
Ltac frame_step :=
  lazymatch goal with
  | |- frames _ (ret _) => apply frames_ret
  | |- frames _ (bind _ _) => apply frames_bind; [|intros ?]
  | |- frames _ (gets _) => apply frames_gets
  | |- frames _ (modify _) => apply frames_modify; intros ?; reflexivity
  | |- frames _ (cexit _) => apply frames_exit
  | |- frames _ (undefined _) => apply frames_undefined
  | |- frames _ (when _ _) => apply frames_when
  | |- frames _ (foreach _ _ _) => apply frames_foreach; intros ? ?
  | |- frames _ (on_tq _) => apply frames_on_tq; intros ? ?; reflexivity
  | |- frames _ (send_store _) => apply frames_send_store; intros ? ?; reflexivity
  | |- frames _ (recv_store _) => apply frames_recv_store; intros ? ?; reflexivity
  | |- frames _ (send_load8 _) => apply frames_send_load8
  | |- frames _ (recv_load8 _) => apply frames_recv_load8
  | |- frames _ (recv_load32 _) => apply frames_recv_load32
  | |- frames _ (send_store8 _ _) => unfold send_store8
  | |- frames _ (send_store32 _ _) => unfold send_store32
  | |- frames _ (if ?b then _ else _) => destruct b
  | |- frames _ (match ?x with _ => _ end) => destruct x
  | |- frames _ gettimeofday => unfold gettimeofday
  | |- frames _ sys_call => unfold sys_call
  | |- frames _ (emit _) => unfold emit
  | |- frames _ (set_timeout _ _) => unfold set_timeout
  | |- frames _ (set_handler _ _) => unfold set_handler
  | |- frames _ (timer_used _) => unfold timer_used
  | |- frames _ (timer_timeout_of _) => unfold timer_timeout_of
  | |- frames _ _ => solve [eauto with aodv]
  end.
Ltac frame_go := repeat frame_step.
