(* ===== verification/Nl.v ===== *)
(** * network/nl.c: route requests to the kernel

    [nl_kern_route] builds an rtnetlink request in a local buffer and sends
    it; every call of the daemon passes [AF_INET] and a NULL netmask.  The
    request is recorded with its header fields and attributes; the result of
    [sendmsg] is ignored by all callers. *)

From S2P Require Import Prelude.
From S2P Require Import Params.
From S2P Require Import Bytes.
From S2P Require Import TimerQueue.
From S2P Require Import State.
From S2P Require Import Frame.

#[local] Open Scope cm_scope.

(** linux/rtnetlink.h and linux/netlink.h *)
Definition RTM_NEWROUTE : Z := 24.
Definition RTM_DELROUTE : Z := 25.
Definition NLM_F_REQUEST : Z := 1.
Definition NLM_F_ACK : Z := 4.
Definition NLM_F_REPLACE : Z := 0x100.
Definition NLM_F_CREATE : Z := 0x400.
Definition RTA_DST : Z := 1.
Definition RTA_OIF : Z := 4.
Definition RTA_GATEWAY : Z := 5.
Definition RTA_PRIORITY : Z := 6.
Definition RT_SCOPE_UNIVERSE : Z := 0.
Definition RT_SCOPE_LINK : Z := 253.
Definition NLMSG_ALIGN (len : Z) : Z := Z.land (len + 3) (Z.lnot 3).
Definition NLMSG_LENGTH (len : Z) : Z := len + 16.
Definition RTA_LENGTH (len : Z) : Z := 4 + len.
Definition SIZEOF_RTMSG : Z := 12.
Definition ATTRBUF_SIZE : Z := 1024.

(** [prefix_length]: shifts of the mask until it is zero ([fuel] counts the
    remaining bits of the [unsigned int]). *)
Fixpoint prefix_length_loop (fuel : nat) (tmp prefix : Z) : Z :=
  match fuel with
  | O => prefix
  | S fuel' => if tmp =? 0 then prefix
               else prefix_length_loop fuel' (u32 (Z.shiftl tmp 1)) (prefix + 1)
  end.

Definition prefix_length (nm : Z) : Z := prefix_length_loop 32 (u32 nm) 0.

(** [addattr]: append an attribute and advance [nlmsg_len]. *)
Definition addattr (r : nl_request) (type : Z) (data : list Z) : nl_request :=
  mk_nl_request (nl_type r) (nl_flags r) (nl_seq r)
    (NLMSG_ALIGN (nl_len r) + RTA_LENGTH (Z.of_nat (length data)))
    (nl_scope r) (nl_dst_len r) (nl_attrs r ++ [(type, data)]).

Definition set_scope (sc : Z) (r : nl_request) : nl_request :=
  mk_nl_request (nl_type r) (nl_flags r) (nl_seq r) (nl_len r) sc (nl_dst_len r)
    (nl_attrs r).

(** [nl_send]: number the request and ask for an acknowledgement. *)
Definition nl_send (r : nl_request) : M () :=
  n ← gets rtnl_seq;
  modify (set_rtnl_seq (n + 1)) ;;
  emit (EvRoute (mk_nl_request (nl_type r) (Z.lor (nl_flags r) NLM_F_ACK) (n + 1)
                   (nl_len r) (nl_scope r) (nl_dst_len r) (nl_attrs r))).

Definition nl_kern_route (action flags index dst gw : Z) (nm : option Z) (metric : Z) : M () :=
  let req := mk_nl_request action (Z.lor NLM_F_REQUEST flags) 0
               (NLMSG_LENGTH SIZEOF_RTMSG) RT_SCOPE_LINK
               (match nm with None => 32 | Some m => prefix_length m end) [] in
  let req := addattr req RTA_DST (le_bytes32 dst) in
  let req := if dst =? gw then req
             else addattr (set_scope RT_SCOPE_UNIVERSE req) RTA_GATEWAY (le_bytes32 gw) in
  let req := if 0 <? index then addattr req RTA_OIF (le_bytes32 index) else req in
  let req := addattr req RTA_PRIORITY (le_bytes32 metric) in
  nl_send req.

Definition nl_send_add_route_msg (dest next_hop metric : Z) (ifindex : Z) : M () :=
  nl_kern_route RTM_NEWROUTE (Z.lor NLM_F_CREATE NLM_F_REPLACE) (int32 ifindex)
    dest next_hop None metric.

Definition nl_send_del_route_msg (dest next_hop metric : Z) : M () :=
  nl_kern_route RTM_DELROUTE 0 (-1) dest next_hop None metric.

(** ** Properties *)

Lemma has_lor x m : has (Z.lor x m) m = negb (m =? 0).
Proof.
  unfold has. f_equal. f_equal. rewrite Z.land_lor_distr_l, Z.land_diag.
  apply Z.bits_inj'. intros n _. rewrite Z.lor_spec, Z.land_spec. by destruct (Z.testbit m n), (Z.testbit x n).
Qed.

(** What [nl_kern_route] puts into a request. *)
Lemma kern_route_attrs index dst gw metric :
  let attrs := [(RTA_DST, le_bytes32 dst)]
               ++ (if dst =? gw then [] else [(RTA_GATEWAY, le_bytes32 gw)])
               ++ (if 0 <? index then [(RTA_OIF, le_bytes32 index)] else [])
               ++ [(RTA_PRIORITY, le_bytes32 metric)] in
  ((∃ v, (RTA_GATEWAY, v) ∈ attrs) ↔ dst ≠ gw) ∧ (length attrs <= 4)%nat.
Proof.
  cbv zeta. split; [|destruct (dst =? gw), (0 <? index); simpl; lia].
  destruct (Z.eqb_spec dst gw) as [->|Hne].
  - split; [|done]. intros [v Hv]. destruct (0 <? index); simpl in Hv;
      repeat (apply elem_of_cons in Hv as [[=]|Hv]); by apply not_elem_of_nil in Hv.
  - split; [done|]. intros _. exists (le_bytes32 gw). simpl. right. left.
Qed.

(** A route request is one message: it is numbered, asks for an acknowledgement,
    names the destination first, names a gateway exactly when the next hop is
    not the destination, and its length field is the length of its headers and
    attributes, which fit the buffer. *)
Theorem nl_kern_route_request (s : state) (action flags index dst gw metric : Z) (nm : option Z) :
  ∃ r s', nl_kern_route action flags index dst gw nm metric s = Ok () s' ∧
    trace s' = EvRoute r :: trace s ∧ rtnl_seq s' = rtnl_seq s + 1 ∧
    nl_type r = action ∧ nl_seq r = rtnl_seq s + 1 ∧ has (nl_flags r) NLM_F_ACK = true ∧
    head (nl_attrs r) = Some (RTA_DST, le_bytes32 dst) ∧
    ((∃ v, (RTA_GATEWAY, v) ∈ nl_attrs r) ↔ dst ≠ gw) ∧
    nl_len r = NLMSG_LENGTH SIZEOF_RTMSG + 8 * Z.of_nat (length (nl_attrs r)) ∧
    nl_len r <= NLMSG_LENGTH SIZEOF_RTMSG + ATTRBUF_SIZE.
Proof.
  destruct (kern_route_attrs index dst gw metric) as [Hgw _]. revert Hgw.
  unfold nl_kern_route, nl_send, bind, gets, modify, emit.
  destruct (dst =? gw), (0 <? index); intros Hgw; do 2 eexists;
    do 2 (split; [reflexivity|]); cbn [nl_flags addattr set_scope];
    rewrite has_lor; split_and!; done.
Qed.
