(* ===== verification/NlRecv.v ===== *)
(** * network/nl.c: what the kernel sends

    [nl_rt_callback] reads one message from the netlink socket and logs what it says.  It is
    written here for any way of logging: the daemon of [Daemon.v] runs it with one that does
    nothing, [NlCallback.v] with the log of [Debug.v].  The theorems: it ends whatever arrives,
    and on the messages that the kernel sends it logs what they say, without reading behind
    them. *)

From S2P Require Import Prelude.
From S2P Require Import Bytes.
From S2P Require Import Nl.

#[local] Open Scope cm_scope.

(** linux/netlink.h, linux/rtnetlink.h and linux/if_addr.h *)
Definition NLMSG_ERROR : Z := 2.
Definition RTM_NEWADDR : Z := 20.
Definition IFA_ADDRESS : Z := 1.
Definition NLMSGHDR_SIZE : Z := 16.
Definition IFADDRMSG_SIZE : Z := 8.
Definition RTATTR_SIZE : Z := 4.
(** [sizeof(struct nlmsgerr)] *)
Definition NLMSGERR_SIZE : Z := 20.
Definition NL_BUF_SIZE : nat := 256.

Definition align4 (n : Z) : Z := (n + 3) / 4 * 4.

(** What is logged. *)
Inductive nl_note :=
  | NlError (error type : Z)
  | NlAddress (ifindex addr : Z)
  | NlRoute.

(** ** The callback *)

Section callback.
Context {S : Type} (note : nl_note → CM S ()).

(** [buf] is what has been received; the rest of the buffer was not written. *)
Definition nl16 (buf : list Z) (off : Z) : CM S Z :=
  match load16 buf off with Some v => ret v | None => undefined Uninitialised end.
Definition nl32 (buf : list Z) (off : Z) : CM S Z :=
  match load32 buf off with Some v => ret v | None => undefined Uninitialised end.

(** The branch for an address: [memcpy] of [n] bytes at [off] to the four bytes of [ifaddr]. *)
Definition log_address (buf : list Z) (off n : Z) : CM S () :=
  if 4 <? n then undefined StringOverflow else
  if n <? 4 then undefined Uninitialised else
  ifaddr ← nl32 buf off;
  ifa_index ← nl32 buf (NLMSGHDR_SIZE + 4);
  note (NlAddress ifa_index ifaddr).

(** Every turn goes on by at least four bytes of what was received. *)
Fixpoint addr_loop (fuel : nat) (buf : list Z) (rta attrlen : Z) : CM S () :=
  match fuel with
  | O => undefined OutOfFuel
  | Datatypes.S fuel =>
      if attrlen <? RTATTR_SIZE then ret () else
      rta_len ← nl16 buf rta;
      if (rta_len <? RTATTR_SIZE) || (attrlen <? rta_len) then ret () else
      rta_type ← nl16 buf (rta + 2);
      when (rta_type =? IFA_ADDRESS) (log_address buf (rta + RTATTR_SIZE) (rta_len - RTATTR_SIZE)) ;;
      addr_loop fuel buf (rta + align4 rta_len) (attrlen - align4 rta_len)
  end.

(** [received] is what [recvfrom] has stored, [None] when it fails. *)
Definition nl_rt_callback (received : option (list Z)) : CM S () :=
  match received with
  | None | Some [] => ret ()
  | Some data =>
      let buf := take NL_BUF_SIZE data in
      nlmsg_type ← nl16 buf 4;
      if nlmsg_type =? NLMSG_ERROR then
        error ← nl32 buf NLMSGHDR_SIZE;
        when (negb (error =? 0))
          (type ← nl16 buf (NLMSGHDR_SIZE + 4 + 4); note (NlError error type))
      else if nlmsg_type =? RTM_NEWADDR then
        nlmsg_len ← nl32 buf 0;
        addr_loop (Datatypes.S (length buf)) buf (NLMSGHDR_SIZE + IFADDRMSG_SIZE)
          (int32 (nlmsg_len - NLMSGHDR_SIZE - IFADDRMSG_SIZE))
      else if nlmsg_type =? RTM_NEWROUTE then note NlRoute
      else ret ()
  end.
End callback.

(** ** Loads *)

Lemma load8_inside buf off v : load8 buf off = Some v → 0 <= off < Z.of_nat (length buf).
Proof.
  unfold load8. destruct (off <? 0) eqn:E; [done|]. apply Z.ltb_ge in E.
  intros H%lookup_lt_Some. lia.
Qed.
Lemma load16_inside buf off v : load16 buf off = Some v → 0 <= off < Z.of_nat (length buf) - 1.
Proof.
  unfold load16. destruct (load8 buf off) as [b0|] eqn:E0; [|done]. cbn.
  destruct (load8 buf (off + 1)) as [b1|] eqn:E1; [|done].
  apply load8_inside in E0, E1. lia.
Qed.
Lemma load16_past buf : load16 buf (Z.of_nat (length buf)) = None.
Proof.
  destruct (load16 buf _) as [v|] eqn:E; [|done]. apply load16_inside in E. lia.
Qed.

Lemma load8_at pre rest k :
  load8 (pre ++ rest) (Z.of_nat (length pre) + Z.of_nat k) = rest !! k.
Proof.
  unfold load8. rewrite (proj2 (Z.ltb_ge _ _)), lookup_app_r by lia. f_equal. lia.
Qed.
Lemma load16_at pre rest k b0 b1 :
  rest !! k = Some b0 → rest !! S k = Some b1 →
  load16 (pre ++ rest) (Z.of_nat (length pre) + Z.of_nat k) = Some (b0 + 2 ^ 8 * b1).
Proof.
  intros H0 H1. unfold load16. rewrite load8_at, H0. cbn [mbind option_bind].
  replace (Z.of_nat (length pre) + Z.of_nat k + 1) with (Z.of_nat (length pre) + Z.of_nat (S k)) by lia.
  by rewrite load8_at, H1.
Qed.

(** A word of [data], which lies in the buffer behind [pre]. *)
Lemma load8_shift pre data rest off :
  0 <= off < Z.of_nat (length data) →
  load8 (pre ++ data ++ rest) (Z.of_nat (length pre) + off) = load8 data off.
Proof.
  intros Ho. rewrite <- (Z2Nat.id off) by lia. rewrite load8_at. unfold load8.
  rewrite (proj2 (Z.ltb_ge _ _)), Nat2Z.id by lia. apply lookup_app_l. lia.
Qed.
Lemma load32_shift pre data rest off :
  0 <= off → off + 4 <= Z.of_nat (length data) →
  load32 (pre ++ data ++ rest) (Z.of_nat (length pre) + off) = load32 data off.
Proof. intros Ho Hl. unfold load32. by rewrite <- !Z.add_assoc, !load8_shift by lia. Qed.

Lemma word_value n : 0 <= n < 65536 → u8 n + 2 ^ 8 * u8 (n / 2 ^ 8) = n.
Proof.
  intros Hn. unfold u8. rewrite (Z.mod_small (n / 2 ^ 8)).
  - rewrite Z.add_comm, <- Z.div_mod; lia.
  - split; [apply Z.div_pos; lia|apply Z.div_lt_upper_bound; lia].
Qed.

Lemma align4_range n : n <= align4 n < n + 4.
Proof. unfold align4. pose proof (Z.div_mod (n + 3) 4). pose proof (Z.mod_pos_bound (n + 3) 4). lia. Qed.

(** ** Attributes *)

(** [struct rtattr] with its payload, padded to whole words. *)
Definition attr_len (payload : list Z) : Z := RTATTR_SIZE + Z.of_nat (length payload).
Definition attr_bytes (type : Z) (payload : list Z) : list Z :=
  [u8 (attr_len payload); u8 (attr_len payload / 2 ^ 8); u8 type; u8 (type / 2 ^ 8)] ++
  payload ++ replicate (Z.to_nat (align4 (attr_len payload) - attr_len payload)) 0.

Definition attrs_bytes (attrs : list (Z * list Z)) : list Z := attrs ≫= λ a, attr_bytes a.1 a.2.

Lemma attr_bytes_length type payload :
  Z.of_nat (length (attr_bytes type payload)) = align4 (attr_len payload).
Proof.
  pose proof (align4_range (attr_len payload)). unfold attr_bytes.
  rewrite !length_app, length_replicate. unfold attr_len, RTATTR_SIZE in *. cbn [length]. lia.
Qed.

Lemma attrs_count attrs : (length attrs <= length (attrs_bytes attrs))%nat.
Proof.
  induction attrs as [|a attrs IH]; [done|].
  change (attrs_bytes (a :: attrs)) with (attr_bytes a.1 a.2 ++ attrs_bytes attrs).
  rewrite length_app. unfold attr_bytes. cbn [app length]. lia.
Qed.

(** The header of an attribute in a message. *)
Lemma attr_loads pre type payload rest :
  0 <= type < 65536 → attr_len payload < 65536 →
  load16 (pre ++ attr_bytes type payload ++ rest) (Z.of_nat (length pre)) = Some (attr_len payload) ∧
  load16 (pre ++ attr_bytes type payload ++ rest) (Z.of_nat (length pre) + 2) = Some type.
Proof.
  intros Ht Hl. set (n := attr_len payload) in *.
  assert (0 <= n) by (unfold n, attr_len, RTATTR_SIZE; lia). split.
  - pose proof (load16_at pre (attr_bytes type payload ++ rest) 0 (u8 n) (u8 (n / 2 ^ 8))
      eq_refl eq_refl) as L. rewrite Z.add_0_r in L. rewrite L, word_value; [done|lia].
  - pose proof (load16_at pre (attr_bytes type payload ++ rest) 2 (u8 type)
      (u8 (type / 2 ^ 8)) eq_refl eq_refl) as L. rewrite word_value in L by lia. exact L.
Qed.

(** Its payload. *)
Lemma attr_payload pre type payload rest :
  (4 <= length payload)%nat →
  load32 (pre ++ attr_bytes type payload ++ rest) (Z.of_nat (length pre) + RTATTR_SIZE)
  = load32 payload 0.
Proof.
  intros Hl. unfold attr_bytes. rewrite <- !app_assoc.
  set (h := [_; _; _; _]). rewrite (app_assoc pre h).
  replace (Z.of_nat (length pre) + RTATTR_SIZE) with (Z.of_nat (length (pre ++ h)) + 0)
    by (rewrite length_app; unfold RTATTR_SIZE; cbn [length h]; lia).
  apply load32_shift; lia.
Qed.

(** ** It ends *)

Definition nl_ub (u : ub) : Prop := u = Uninitialised ∨ u = StringOverflow.

Section ends.
Context {S : Type} (note : nl_note → CM S ()) (I : S → Prop).
Context (note_keeps : ∀ x s, I s → wp nl_ub (note x) (λ _ s', I s') s).

(** A load of what may not have been received. *)
Lemma wp_nl16 buf off Q (s : S) : (∀ v, load16 buf off = Some v → Q v s) → wp nl_ub (nl16 buf off) Q s.
Proof. intros H. unfold nl16. destruct (load16 buf off) as [v|]; [by apply wp_ret, H|apply wp_ub; by left]. Qed.
Lemma wp_nl32 buf off Q (s : S) : (∀ v, Q v s) → wp nl_ub (nl32 buf off) Q s.
Proof. intros H. unfold nl32. destruct (load32 buf off) as [v|]; [apply wp_ret, H|apply wp_ub; by left]. Qed.

Lemma wp_log_address buf off n s : I s → wp nl_ub (log_address note buf off n) (λ _ s', I s') s.
Proof.
  intros Hs. unfold log_address. destruct (4 <? n); [apply wp_ub; by right|]. destruct (n <? 4); [apply wp_ub; by left|].
  apply wp_bind, wp_nl32. intros a. apply wp_bind, wp_nl32. intros idx. by apply note_keeps.
Qed.

Lemma addr_loop_ends fuel : ∀ buf rta attrlen s,
  (0 < fuel)%nat → 0 <= rta → Z.of_nat (length buf) < rta + 4 * Z.of_nat fuel → I s →
  wp nl_ub (addr_loop note fuel buf rta attrlen) (λ _ s', I s') s.
Proof.
  induction fuel as [|fuel IH]; intros buf rta attrlen s H0 Hr Hf Hs; [lia|]. cbn [addr_loop].
  destruct (attrlen <? RTATTR_SIZE); [by apply wp_ret|]. apply wp_bind, wp_nl16. intros len _.
  destruct (_ || _) eqn:Hb; [by apply wp_ret|]. apply orb_false_elim in Hb as [Hlen%Z.ltb_ge _].
  apply wp_bind, wp_nl16. intros type Ht%load16_inside. pose proof (align4_range len). unfold RTATTR_SIZE in Hlen.
  apply wp_bind. eapply (wp_mono _ _ (λ _ s', I s')).
  - apply wp_when; [intros _; by apply wp_log_address|done].
  - intros [] s1 Hs1. apply IH; [lia|lia|lia|done].
Qed.

(** Whatever has been received: the callback returns, or reads what was not received, or copies
    an address of the wrong length. *)
Lemma nl_rt_callback_keeps received s :
  I s → wp nl_ub (nl_rt_callback note received) (λ _ s', I s') s.
Proof.
  intros Hs. destruct received as [[|b data]|]; [by apply wp_ret| |by apply wp_ret]. cbn [nl_rt_callback].
  set (buf := take _ _). apply wp_bind, wp_nl16. intros type _. destruct (_ =? _).
  { apply wp_bind, wp_nl32. intros err. apply wp_when; [intros _|done]. apply wp_bind, wp_nl16. intros t _.
    by apply note_keeps. }
  destruct (_ =? _).
  { apply wp_bind, wp_nl32. intros len. apply addr_loop_ends; [lia|done|unfold NLMSGHDR_SIZE, IFADDRMSG_SIZE; lia|done]. }
  destruct (_ =? _); [by apply note_keeps|by apply wp_ret].
Qed.
End ends.

(** ** The messages of the kernel *)

(** An attribute of a message about an address; an address has four bytes, other attributes, such
    as the name of the interface, any number. *)
Definition ifa_ok (a : Z * list Z) : Prop :=
  0 <= a.1 < 65536 ∧ (a.1 = IFA_ADDRESS → length a.2 = 4%nat).

Definition newaddr_msg (hdr ifa : list Z) (attrs : list (Z * list Z)) : list Z :=
  le_bytes32 (24 + Z.of_nat (length (attrs_bytes attrs))) ++ [u8 RTM_NEWADDR; 0] ++ hdr ++ ifa
  ++ attrs_bytes attrs.

(** The addresses in it. *)
Definition ifa_addresses (attrs : list (Z * list Z)) : list Z :=
  omap (λ a, if a.1 =? IFA_ADDRESS then load32 a.2 0 else None) attrs.

(** The messages the kernel sends, with what they say: the answer to a request, an address of an
    interface, or any other one. *)
Inductive kernel_msg : list Z → list nl_note → Prop :=
  | km_error data error type :
      NLMSGHDR_SIZE + NLMSGERR_SIZE <= Z.of_nat (length data) → load16 data 4 = Some NLMSG_ERROR →
      load32 data NLMSGHDR_SIZE = Some error → load16 data (NLMSGHDR_SIZE + 8) = Some type →
      kernel_msg data (if error =? 0 then [] else [NlError error type])
  | km_newaddr hdr ifa attrs idx :
      length hdr = 10%nat → length ifa = 8%nat → load32 ifa 4 = Some idx → Forall ifa_ok attrs →
      (length (newaddr_msg hdr ifa attrs) <= NL_BUF_SIZE)%nat →
      kernel_msg (newaddr_msg hdr ifa attrs) (NlAddress idx <$> ifa_addresses attrs)
  | km_newroute data :
      NLMSGHDR_SIZE <= Z.of_nat (length data) → load16 data 4 = Some RTM_NEWROUTE →
      kernel_msg data [NlRoute]
  | km_other data type :
      NLMSGHDR_SIZE <= Z.of_nat (length data) → load16 data 4 = Some type →
      type ∉ [NLMSG_ERROR; RTM_NEWADDR; RTM_NEWROUTE] → kernel_msg data [].

Section messages.
Context {S : Type} (note : nl_note → CM S ()).

Abbreviation notes l := (foreach l () (λ x _, note x)).

Lemma nl16_run buf off v {B} (f : Z → CM S B) s : load16 buf off = Some v → bind (nl16 buf off) f s = f v s.
Proof. intros E. unfold nl16. by rewrite E. Qed.
Lemma nl32_run buf off v {B} (f : Z → CM S B) s : load32 buf off = Some v → bind (nl32 buf off) f s = f v s.
Proof. intros E. unfold nl32. by rewrite E. Qed.

Lemma load8_prefix n data off : 0 <= off < Z.of_nat n → load8 (take n data) off = load8 data off.
Proof. intros Ho. unfold load8. destruct (_ <? _); [done|]. apply lookup_take_lt. lia. Qed.
Lemma load16_prefix n data off : 0 <= off → off + 2 <= Z.of_nat n → load16 (take n data) off = load16 data off.
Proof. intros H0 H1. unfold load16. by rewrite !load8_prefix by lia. Qed.
Lemma load32_prefix n data off : 0 <= off → off + 4 <= Z.of_nat n → load32 (take n data) off = load32 data off.
Proof. intros H0 H1. unfold load32. by rewrite !load8_prefix by lia. Qed.

(** The attribute with an address. *)
Lemma log_address_run buf off idx a s :
  load32 buf off = Some a → load32 buf (NLMSGHDR_SIZE + 4) = Some idx →
  log_address note buf off 4 s = note (NlAddress idx a) s.
Proof.
  intros Ha Hi. unfold log_address. cbn [Z.ltb Z.compare Pos.compare Pos.compare_cont].
  by rewrite (nl32_run _ _ _ _ _ Ha), (nl32_run _ _ _ _ _ Hi).
Qed.

Lemma bind_ret_l {A B} (a : A) (f : A → CM S B) s : bind (ret a) f s = f a s.
Proof. done. Qed.

(** The loop over the attributes at the end of the message. *)
Lemma addr_loop_run idx attrs : ∀ pre fuel s,
  24 <= Z.of_nat (length pre) → load32 pre (NLMSGHDR_SIZE + 4) = Some idx → Forall ifa_ok attrs →
  Z.of_nat (length (attrs_bytes attrs)) < 256 → (length attrs < fuel)%nat →
  addr_loop note fuel (pre ++ attrs_bytes attrs) (Z.of_nat (length pre)) (Z.of_nat (length (attrs_bytes attrs))) s
  = notes (NlAddress idx <$> ifa_addresses attrs) s.
Proof.
  induction attrs as [|[type payload] attrs IH]; intros pre fuel s Hp Hidx Hok Hlt Hf;
    (destruct fuel as [|fuel]; [simpl in Hf; lia|]).
  { done. }
  apply Forall_cons in Hok as [(Ht & Ha) Hok]. cbn [fst snd] in *.
  set (n := attr_len payload). pose proof (align4_range n) as Hn.
  pose proof (attr_bytes_length type payload) as En. fold n in En.
  assert (Hn4 : 4 <= n) by (unfold n, attr_len, RTATTR_SIZE; lia).
  assert (E : attrs_bytes ((type, payload) :: attrs) = attr_bytes type payload ++ attrs_bytes attrs) by done.
  rewrite E, length_app in *. destruct (attr_loads pre type payload (attrs_bytes attrs)) as [L0 L2]; [lia|lia|].
  fold n in L0. cbn [addr_loop]. rewrite (proj2 (Z.ltb_ge _ RTATTR_SIZE)) by (unfold RTATTR_SIZE; lia).
  rewrite (nl16_run _ _ _ _ _ L0).
  rewrite (proj2 (Z.ltb_ge n _)), (proj2 (Z.ltb_ge _ n)) by (unfold RTATTR_SIZE; lia). cbn [orb].
  rewrite (nl16_run _ _ _ _ _ L2).
  assert (Hnext : ∀ s, addr_loop note fuel (pre ++ attr_bytes type payload ++ attrs_bytes attrs)
      (Z.of_nat (length pre) + align4 n)
      (Z.of_nat (length (attr_bytes type payload) + length (attrs_bytes attrs)) - align4 n) s
    = notes (NlAddress idx <$> ifa_addresses attrs) s).
  { intros s'. rewrite app_assoc.
    replace (Z.of_nat (length pre) + align4 n) with (Z.of_nat (length (pre ++ attr_bytes type payload)))
      by (rewrite length_app; lia).
    replace (_ - align4 n) with (Z.of_nat (length (attrs_bytes attrs))) by lia.
    apply IH; [rewrite length_app; lia| |done|lia|simpl in Hf; lia].
    rewrite <- Hidx. apply (load32_shift [] pre (attr_bytes type payload)); unfold NLMSGHDR_SIZE; lia. }
  unfold ifa_addresses. cbn [omap list_omap fst snd]. fold (ifa_addresses attrs).
  destruct (Z.eqb_spec type IFA_ADDRESS) as [Hty|]; cbn [when]; [|exact (Hnext s)].
  specialize (Ha Hty). destruct (load32_is_Some payload 0) as [v Hv]; [lia|lia|]. rewrite Hv. cbn [fmap list_fmap foreach].
  assert (Hn8 : n - RTATTR_SIZE = 4) by (unfold n, attr_len; rewrite Ha; lia). rewrite Hn8.
  unfold bind. rewrite (log_address_run _ _ idx v).
  - by destruct (note _ s) as [[] s'| |]; [apply Hnext| |].
  - by rewrite attr_payload by lia.
  - rewrite <- Hidx. apply (load32_shift [] pre (attr_bytes type payload ++ attrs_bytes attrs)); unfold NLMSGHDR_SIZE; lia.
Qed.

Lemma newaddr_run hdr ifa attrs idx s :
  length hdr = 10%nat → length ifa = 8%nat → load32 ifa 4 = Some idx → Forall ifa_ok attrs →
  (length (newaddr_msg hdr ifa attrs) <= NL_BUF_SIZE)%nat →
  nl_rt_callback note (Some (newaddr_msg hdr ifa attrs)) s = notes (NlAddress idx <$> ifa_addresses attrs) s.
Proof.
  intros Hh Hi Hidx Hok Hlen. set (buf := newaddr_msg hdr ifa attrs) in *.
  set (l4 := le_bytes32 (24 + Z.of_nat (length (attrs_bytes attrs)))). set (t2 := [u8 RTM_NEWADDR; 0]).
  assert (El : Z.of_nat (length buf) = 24 + Z.of_nat (length (attrs_bytes attrs))).
  { unfold buf, newaddr_msg. rewrite !length_app, Hh, Hi. simpl length. lia. }
  unfold NL_BUF_SIZE in Hlen.
  assert (H0 : load32 buf 0 = Some (Z.of_nat (length buf))).
  { rewrite El, <- (u32_small (24 + _)), <- le_value_u32 by lia. done. }
  assert (H4 : load16 buf 4 = Some RTM_NEWADDR) by done.
  set (pre := l4 ++ t2 ++ hdr ++ ifa).
  assert (Eb : buf = pre ++ attrs_bytes attrs) by (unfold buf, newaddr_msg, pre; by rewrite <- !app_assoc).
  assert (Hpl : length pre = 24%nat) by (unfold pre; rewrite !length_app, Hh, Hi; done).
  assert (Hpi : load32 pre (NLMSGHDR_SIZE + 4) = Some idx).
  { unfold pre. rewrite !app_assoc, <- (app_nil_r ifa).
    replace (NLMSGHDR_SIZE + 4) with (Z.of_nat (length ((l4 ++ t2) ++ hdr)) + 4) by (rewrite !length_app, Hh; done).
    rewrite load32_shift by lia. done. }
  unfold nl_rt_callback. destruct buf as [|b buf'] eqn:Ebuf; [cbn in El; lia|]. rewrite <- Ebuf in *. cbv zeta.
  rewrite take_ge by (unfold NL_BUF_SIZE; lia). rewrite (nl16_run _ _ _ _ _ H4).
  change (RTM_NEWADDR =? NLMSG_ERROR) with false. change (RTM_NEWADDR =? RTM_NEWADDR) with true. cbv iota.
  rewrite (nl32_run _ _ _ _ _ H0).
  replace (int32 _) with (Z.of_nat (length (attrs_bytes attrs))).
  - rewrite Eb at 2. change (NLMSGHDR_SIZE + IFADDRMSG_SIZE) with (Z.of_nat 24). rewrite <- Hpl.
    apply addr_loop_run; [lia|done|done|lia|]. pose proof (attrs_count attrs). lia.
  - unfold NLMSGHDR_SIZE, IFADDRMSG_SIZE. rewrite El.
    destruct (int32_cases (24 + Z.of_nat (length (attrs_bytes attrs)) - 16 - 8)) as [[-> _]|[_ ?]]; lia.
Qed.

(** On the messages of the kernel the callback logs what they say, and nothing else. *)
Lemma kernel_msg_run data l s : kernel_msg data l → nl_rt_callback note (Some data) s = notes l s.
Proof.
  assert (Hnil : ∀ d, NLMSGHDR_SIZE <= Z.of_nat (length d) →
    nl_rt_callback note (Some d) s = nl_rt_callback note (Some (hd 0 d :: tail d)) s).
  { intros [|b d] Hd; [unfold NLMSGHDR_SIZE in Hd; cbn in Hd; lia|done]. }
  assert (Hend : ∀ x, notes [x] s = note x s).
  { intros x. cbn [foreach]. unfold bind. by destruct (note x s) as [[] ?| |]. }
  intros [d error type Hl H4 He Ht|hdr ifa attrs idx Hh Hi Hx Ha Hlen|d Hl H4|d type Hl H4 Hn];
    [| by apply newaddr_run| |].
  all: rewrite Hnil by (unfold NLMSGERR_SIZE, NLMSGHDR_SIZE in *; lia); cbn [nl_rt_callback];
    replace (hd 0 d :: tail d) with d by (destruct d; [unfold NLMSGERR_SIZE, NLMSGHDR_SIZE in *; cbn in Hl; lia|done]).
  all: erewrite nl16_run; [|rewrite load16_prefix by (unfold NL_BUF_SIZE; lia); exact H4].
  - cbn [Z.eqb NLMSG_ERROR Pos.eqb]. erewrite nl32_run; [|rewrite load32_prefix by (unfold NL_BUF_SIZE, NLMSGHDR_SIZE; lia); exact He].
    destruct (error =? 0); [done|]. cbn [negb when].
    erewrite nl16_run; [|rewrite load16_prefix by (unfold NL_BUF_SIZE, NLMSGHDR_SIZE; lia); exact Ht]. by rewrite Hend.
  - by rewrite Hend.
  - rewrite !elem_of_cons, elem_of_nil in Hn. rewrite !(proj2 (Z.eqb_neq type _)) by tauto. done.
Qed.
End messages.

(** ** Without logging *)

Definition unlogged {S} (_ : nl_note) : CM S () := ret ().

Lemma unlogged_ends {S} received (s : S) :
  wp nl_ub (nl_rt_callback unlogged received) (λ _ s', s' = s) s.
Proof. by apply (nl_rt_callback_keeps unlogged (λ s', s' = s)). Qed.

Lemma unlogged_run {S} data l (s : S) :
  kernel_msg data l → nl_rt_callback unlogged (Some data) s = Ok () s.
Proof. intros Hd. rewrite (kernel_msg_run _ _ _ _ Hd). clear Hd. by induction l. Qed.
