(* ===== verification/RtTable.v ===== *)
(** * routing/routing_table.c: lookup, timeouts, invalidation, deletion

    The operations of the routing table that do not send AODV messages.
    [rt_table_insert] and [rt_table_update], which may end route discovery
    and break links, are in [RtUpdate.v].  The build modelled is the default
    [aodvd]: [NS_PORT] and [CONFIG_GATEWAY] are not defined. *)

From S2P Require Import Prelude.
From S2P Require Import Params.
From S2P Require Import Bytes.
From S2P Require Import TimerQueue.
From S2P Require Import State.
From S2P Require Import Frame.
From S2P Require Import Nl.

#[local] Open Scope cm_scope.

(** [seqno_incr(s)] *)
Definition seqno_incr (s : Z) : Z :=
  if s =? 0 then 0 else if s =? 0xFFFFFFFF then 1 else s + 1.

(** ** The hash table *)

(** [hashing]: the hash value is the address itself, the bucket its low bits. *)
Definition hash_index (addr : Z) : nat := Z.to_nat (Z.land addr RT_TABLEMASK).

Definition bucket (t : routing_table) (i : nat) : list rt_table_t :=
  default [] (tbl t !! i).

Definition rt_table_init : M () :=
  modify (set_rt_tbl (mk_table 0 0 (replicate RT_TABLESIZE []))).

(** The entry a [rt_table_t *] points to. *)
Definition rt_lookup (t : routing_table) (k : Z) : option rt_table_t :=
  search (λ e, rt_dest_addr e =? k) (bucket t (hash_index k)).

Definition rt_deref (k : Z) : M rt_table_t := λ s,
  match rt_lookup (rt_tbl s) k with
  | Some e => Ok e s
  | None => Ub UseAfterFree
  end.

(** A field access [rt->f]. *)
Definition rt_get {A} (k : Z) (f : rt_table_t → A) : M A := e ← rt_deref k; ret (f e).

Definition tbl_modify (t : routing_table) (k : Z) (f : rt_table_t → rt_table_t)
  : routing_table :=
  set_tbl (<[hash_index k :=
     modify_first (λ e, rt_dest_addr e =? k) f (bucket t (hash_index k))]> (tbl t)) t.

(** An assignment to fields of [*rt]. *)
Definition rt_modify (k : Z) (f : rt_table_t → rt_table_t) : M () :=
  rt_deref k ;; modify (λ s, set_rt_tbl (tbl_modify (rt_tbl s) k f) s).

(** [rt_table_find]: [None] is NULL. *)
Definition find_entry (t : routing_table) (dest_addr : Z) : option rt_table_t :=
  if num_entries t =? 0 then None
  else search (λ e, (rt_hash e =? dest_addr) && (dest_addr =? rt_dest_addr e))
         (bucket t (hash_index dest_addr)).

Definition rt_table_find (dest_addr : Z) : M (option Z) :=
  gets (λ s, rt_dest_addr <$> find_entry (rt_tbl s) dest_addr).

(** [rt_table_find_gateway] *)
Definition better_gateway (gw : option rt_table_t) (e : rt_table_t) : option rt_table_t :=
  if has (rt_flags e) RT_GATEWAY && (rt_state e =? VALID)
  then match gw with
       | None => Some e
       | Some g => if rt_hcnt e <? rt_hcnt g then Some e else gw
       end
  else gw.

Definition rt_table_find_gateway : M (option Z) :=
  gets (λ s, rt_dest_addr <$> foldl better_gateway None (concat (tbl (rt_tbl s)))).

(** The entries in the order in which the nested loops over the buckets
    visit them. *)
Definition rt_keys (s : state) : list Z := rt_dest_addr <$> concat (tbl (rt_tbl s)).

(** ** Precursors *)

Definition precursor_add (rt : Z) (addr : Z) : M () :=
  e ← rt_deref rt;
  if existsb (Z.eqb addr) (rt_precursors e) then ret ()
  else rt_modify rt (λ e, set_rt_nprec (rt_nprec e + 1)
                            (set_rt_precursors (addr :: rt_precursors e) e)).

Definition precursor_remove (rt : Z) (addr : Z) : M () :=
  e ← rt_deref rt;
  if existsb (Z.eqb addr) (rt_precursors e)
  then rt_modify rt (λ e, set_rt_nprec (rt_nprec e - 1)
         (set_rt_precursors (remove_first (Z.eqb addr) (rt_precursors e)) e))
  else ret ().

(** Every precursor is detached and counted off. *)
Definition precursor_list_destroy (rt : Z) : M () :=
  rt_modify rt (λ e, set_rt_nprec (rt_nprec e - Z.of_nat (length (rt_precursors e)))
                       (set_rt_precursors [] e)).

(** ** Timeouts *)

Definition rt_table_update_timeout (rt : Z) (lifetime : Z) : M () :=
  let lifetime := u32 lifetime in
  state ← rt_get rt rt_state;
  if state =? VALID then
    now ← gettimeofday;
    let new_timeout := timeval_add_msec now lifetime in
    old ← timer_timeout_of (RtTimer rt);
    when (timeval_diff old new_timeout <? 0) (set_timeout (RtTimer rt) lifetime)
  else set_timeout (RtTimer rt) lifetime.

Definition rt_is_valid (rt : Z) : M bool := rt_get rt (λ e, rt_state e =? VALID).

(** [rt_table_update_route_timeouts]; the pointers may be NULL. *)
Definition refresh_route (rt : Z) (inet : bool) : M () :=
  o ← gets opts;
  e ← rt_deref rt;
  hello_used ← timer_used (HelloTimer rt);
  when (llfeedback o || (inet && has (rt_flags e) RT_INET_DEST)
        || negb (rt_hcnt e =? 1) || hello_used)
    (rt_table_update_timeout rt (active_route_timeout o)) ;;
  next_hop_rt ← rt_table_find (rt_next_hop e);
  match next_hop_rt with
  | None => ret ()
  | Some nh =>
      n ← rt_deref nh;
      hello_used ← timer_used (HelloTimer rt);
      when ((rt_state n =? VALID) && negb (rt_dest_addr n =? rt_dest_addr e)
            && (llfeedback o || hello_used))
        (rt_table_update_timeout nh (active_route_timeout o))
  end.

Definition rt_table_update_route_timeouts (fwd_rt rev_rt : option Z) : M () :=
  match fwd_rt with
  | None => ret ()
  | Some f => v ← rt_is_valid f; when v (refresh_route f true)
  end ;;
  match rev_rt with
  | None => ret ()
  | Some r => v ← rt_is_valid r; when v (refresh_route r false)
  end.

(** ** Invalidation and deletion *)

Definition rt_table_invalidate (rt : Z) : M Z :=
  gettimeofday ;;
  e ← rt_deref rt;
  if rt_state e =? INVALID then ret (-1) else
  on_tq (timer_remove (RtTimer rt)) ;;
  on_tq (timer_remove (HelloTimer rt)) ;;
  on_tq (timer_remove (AckTimer rt)) ;;
  rt_modify rt (set_rt_state INVALID) ;;
  modify (λ s, set_rt_tbl (set_num_active (u32 (num_active (rt_tbl s) - 1)) (rt_tbl s)) s) ;;
  rt_modify rt (set_rt_hello_cnt 0) ;;
  rt_modify rt (λ e, set_rt_dest_seqno (seqno_incr (rt_dest_seqno e)) e) ;;
  rt_modify rt (set_rt_last_hello_time tv_zero) ;;
  e ← rt_deref rt;
  nl_send_del_route_msg (rt_dest_addr e) (rt_next_hop e) (rt_hcnt e) ;;
  o ← gets opts;
  (if has (rt_flags e) RT_REPAIR then
     set_handler (RtTimer rt) local_repair_timeout ;;
     set_timeout (RtTimer rt) (active_route_timeout o)
   else
     set_handler (RtTimer rt) route_delete_timeout ;;
     set_timeout (RtTimer rt) (delete_period o)) ;;
  ret 0.

(** [list_detach(&rt->l)] *)
Definition tbl_detach (t : routing_table) (k : Z) : routing_table :=
  set_tbl (<[hash_index k :=
     remove_first (λ e, rt_dest_addr e =? k) (bucket t (hash_index k))]> (tbl t)) t.

(** The entry is unlinked first and used until it is freed, so its fields are
    read before it leaves the table. *)
Definition rt_table_delete (rt : Z) : M () :=
  precursor_list_destroy rt ;;
  e ← rt_deref rt;
  modify (λ s, set_rt_tbl (tbl_detach (rt_tbl s) rt) s) ;;
  when (rt_state e =? VALID)
    (nl_send_del_route_msg (rt_dest_addr e) (rt_next_hop e) (rt_hcnt e) ;;
     modify (λ s, set_rt_tbl (set_num_active (u32 (num_active (rt_tbl s) - 1)) (rt_tbl s)) s)) ;;
  on_tq (timer_remove (RtTimer rt)) ;;
  on_tq (timer_remove (HelloTimer rt)) ;;
  on_tq (timer_remove (AckTimer rt)) ;;
  modify (λ s, set_rt_tbl (set_num_entries (u32 (num_entries (rt_tbl s) - 1)) (rt_tbl s)) s) ;;
  on_tq (timer_free (RtTimer rt)) ;;
  on_tq (timer_free (HelloTimer rt)) ;;
  on_tq (timer_free (AckTimer rt)).

Definition rt_table_destroy : M () :=
  keys ← gets rt_keys;
  foreach keys () (λ k _, rt_table_delete k).

(** ** Well-formed tables

    The hash table holds at most one entry per destination, each in the
    bucket of its hash, and [num_entries] counts them; the fields of an entry
    stay within their C types. *)

Record entry_ok (e : rt_table_t) : Prop := {
  ok_hash : rt_hash e = rt_dest_addr e;
  ok_seqno : 0 <= rt_dest_seqno e < 4294967296;
  ok_hcnt : 0 <= rt_hcnt e < 256;
  ok_state : rt_state e = INVALID ∨ rt_state e = VALID;
  ok_hello_cnt : 0 <= rt_hello_cnt e < 256;
  ok_nprec : rt_nprec e = Z.of_nat (length (rt_precursors e));
  ok_precs : NoDup (rt_precursors e)
}.

Record table_ok (t : routing_table) : Prop := {
  tbl_size : length (tbl t) = RT_TABLESIZE;
  tbl_count : num_entries t = Z.of_nat (length (concat (tbl t)));
  tbl_nodup i b : tbl t !! i = Some b → NoDup (rt_dest_addr <$> b);
  tbl_place i b e : tbl t !! i = Some b → e ∈ b → hash_index (rt_dest_addr e) = i;
  tbl_entry i b e : tbl t !! i = Some b → e ∈ b → entry_ok e
}.

(** [k] is a valid [rt_table_t *]. *)
Definition rt_live (t : routing_table) (k : Z) : Prop := is_Some (rt_lookup t k).

Lemma hash_index_lt k : (hash_index k < RT_TABLESIZE)%nat.
Proof.
  unfold hash_index, RT_TABLEMASK, RT_TABLESIZE.
  change 63 with (Z.ones 6). rewrite Z.land_ones by lia.
  pose proof (Z.mod_pos_bound k (2 ^ 6)). lia.
Qed.

Lemma bucket_lookup t k :
  table_ok t → tbl t !! hash_index k = Some (bucket t (hash_index k)).
Proof.
  intros Hok. unfold bucket.
  destruct (lookup_lt_is_Some_2 (tbl t) (hash_index k)) as [b Hb].
  { rewrite (tbl_size _ Hok). apply hash_index_lt. }
  by rewrite Hb.
Qed.

Lemma rt_lookup_dest t k e : rt_lookup t k = Some e → rt_dest_addr e = k.
Proof. intros [_ H]%search_Some. by apply Z.eqb_eq in H. Qed.

Lemma rt_lookup_ok t k e : table_ok t → rt_lookup t k = Some e → entry_ok e.
Proof.
  intros Hok [He _]%search_Some. eapply tbl_entry; [done|by apply bucket_lookup|done].
Qed.

Lemma rt_lookup_elem t e :
  table_ok t → e ∈ concat (tbl t) → rt_lookup t (rt_dest_addr e) = Some e.
Proof.
  intros Hok He. apply list_elem_of_In, in_concat in He as (b & Hb & He).
  apply list_elem_of_In in Hb, He. apply list_elem_of_lookup in Hb as [i Hi].
  pose proof (tbl_place _ Hok i b e Hi He) as Hidx.
  unfold rt_lookup, bucket. rewrite Hidx, Hi. simpl.
  pose proof (tbl_nodup _ Hok i b Hi) as Hnd. clear Hi Hidx.
  induction b as [|c b IH]; [by apply not_elem_of_nil in He|]. simpl.
  rewrite fmap_cons, NoDup_cons in Hnd. destruct Hnd as [Hc Hnd].
  destruct (rt_dest_addr c =? rt_dest_addr e) eqn:E.
  - apply Z.eqb_eq in E. apply elem_of_cons in He as [->|He]; [done|].
    destruct Hc. rewrite E. by apply list_elem_of_fmap_2.
  - apply IH; [|done]. apply elem_of_cons in He as [->|He]; [lia|done].
Qed.

Lemma elem_of_concat_lookup {A} (ll : list (list A)) i b x :
  ll !! i = Some b → x ∈ b → x ∈ concat ll.
Proof.
  intros Hi Hx. apply list_elem_of_In, in_concat. exists b.
  split; apply list_elem_of_In; [by eapply list_elem_of_lookup_2|done].
Qed.

Lemma elem_of_rt_keys s k :
  table_ok (rt_tbl s) → k ∈ rt_keys s ↔ rt_live (rt_tbl s) k.
Proof.
  intros Hok. unfold rt_keys. rewrite list_elem_of_fmap. split.
  - intros (e & -> & He). exists e. by apply rt_lookup_elem.
  - intros [e He]. exists e. split; [by rewrite (rt_lookup_dest _ _ _ He)|].
    apply search_Some in He as [He _].
    by eapply elem_of_concat_lookup; [apply bucket_lookup|].
Qed.

(** [rt_table_find] finds exactly the entry of the destination. *)
Lemma find_entry_lookup t k : table_ok t → find_entry t k = rt_lookup t k.
Proof.
  intros Hok. unfold find_entry, rt_lookup.
  pose proof (bucket_lookup t k Hok) as Hb.
  destruct (num_entries t =? 0) eqn:E.
  - apply Z.eqb_eq in E. rewrite (tbl_count _ Hok) in E.
    destruct (bucket t (hash_index k)) as [|e b]; [done|].
    assert (Hin : e ∈ concat (tbl t)) by (eapply elem_of_concat_lookup; [done|left]).
    destruct (concat (tbl t)); [by apply not_elem_of_nil in Hin|done].
  - apply search_ext. intros e He.
    rewrite (ok_hash _ (tbl_entry _ Hok _ _ _ Hb He)).
    rewrite (Z.eqb_sym k). by destruct (rt_dest_addr e =? k).
Qed.

(** *** Updates of one bucket *)

Lemma bucket_insert_eq t k b :
  table_ok t →
  bucket (set_tbl (<[hash_index k := b]> (tbl t)) t) (hash_index k) = b.
Proof.
  intros Hok. unfold bucket. simpl. rewrite list_lookup_insert_eq; [done|].
  rewrite (tbl_size _ Hok). apply hash_index_lt.
Qed.

Lemma bucket_insert_ne t i j b :
  i ≠ j → bucket (set_tbl (<[i := b]> (tbl t)) t) j = bucket t j.
Proof. intros Hne. unfold bucket. simpl. by rewrite list_lookup_insert_ne. Qed.

Lemma length_concat_insert {A} (ll : list (list A)) i b b' :
  ll !! i = Some b →
  (length (concat (<[i := b']> ll)) + length b = length (concat ll) + length b')%nat.
Proof.
  revert i. induction ll as [|c ll IH]; intros [|i] Hi; simplify_eq/=.
  - rewrite !length_app. lia.
  - rewrite !length_app. specialize (IH _ Hi). lia.
Qed.

(** Replacing the bucket of [k] by a well-formed one keeps the table
    well-formed once the counter is adjusted. *)
Lemma table_ok_bucket t k b n a :
  table_ok t → NoDup (rt_dest_addr <$> b) →
  (∀ e, e ∈ b → hash_index (rt_dest_addr e) = hash_index k) →
  (∀ e, e ∈ b → entry_ok e) →
  n + Z.of_nat (length (bucket t (hash_index k))) = num_entries t + Z.of_nat (length b) →
  table_ok (mk_table n a (<[hash_index k := b]> (tbl t))).
Proof.
  intros Hok Hnd Hpl He Hn. pose proof (bucket_lookup t k Hok) as Hb.
  split; simpl.
  - rewrite length_insert. apply Hok.
  - pose proof (length_concat_insert _ _ _ b Hb). rewrite (tbl_count _ Hok) in Hn. lia.
  - intros i c [(<- & <- & _)|[_ ?]]%list_lookup_insert_Some; [done|by eapply tbl_nodup].
  - intros i c e [(<- & <- & _)|[_ ?]]%list_lookup_insert_Some Hin;
      [by apply Hpl|by eapply tbl_place].
  - intros i c e [(<- & <- & _)|[_ ?]]%list_lookup_insert_Some Hin;
      [by apply He|by eapply tbl_entry].
Qed.

Lemma table_ok_num_active t a : table_ok t → table_ok (set_num_active a t).
Proof. by intros []. Qed.

Lemma rt_lookup_num_active t a k : rt_lookup (set_num_active a t) k = rt_lookup t k.
Proof. done. Qed.

(** A field assignment through a valid pointer. *)
Lemma rt_lookup_modify t k f j :
  table_ok t → (∀ e, rt_dest_addr (f e) = rt_dest_addr e) →
  rt_lookup (tbl_modify t k f) j
  = if decide (j = k) then f <$> rt_lookup t k else rt_lookup t j.
Proof.
  intros Hok Hf. unfold rt_lookup, tbl_modify.
  destruct (decide (hash_index j = hash_index k)) as [Hh|Hh].
  - rewrite Hh, bucket_insert_eq by done. case_decide as Hjk.
    + subst j. set (p := λ e : rt_table_t, rt_dest_addr e =? k).
      destruct (search p (bucket t (hash_index k))) as [e|] eqn:E.
      * simpl. apply search_modify_first_eq; [|done]. intros b. unfold p. by rewrite Hf.
      * simpl. assert (∀ e, e ∈ bucket t (hash_index k) → p e = false)
          by by apply search_None.
        clear E. induction (bucket t (hash_index k)) as [|c b IH]; [done|]. simpl.
        rewrite H by left. simpl. rewrite H by left. apply IH. intros e He. apply H.
        by right.
    + apply search_modify_first_ne; intros e; rewrite ?Hf; [|done].
      intros ->%Z.eqb_eq. apply Z.eqb_neq. done.
  - rewrite bucket_insert_ne by done. case_decide; [congruence|done].
Qed.

Lemma table_ok_modify t k f :
  table_ok t → (∀ e, rt_dest_addr (f e) = rt_dest_addr e) →
  (∀ e, rt_lookup t k = Some e → entry_ok e → entry_ok (f e)) →
  table_ok (tbl_modify t k f).
Proof.
  intros Hok Hf He. pose proof (bucket_lookup t k Hok) as Hb.
  apply table_ok_bucket; [done| | | |by rewrite length_modify_first].
  - change (rt_dest_addr <$> ?l) with (map rt_dest_addr l).
    rewrite map_modify_first by done. by eapply tbl_nodup.
  - intros e [?|(c & Hc & _ & ->)]%elem_of_modify_first; rewrite ?Hf;
      by eapply tbl_place.
  - intros e Hin. assert (Hin' := Hin).
    apply elem_of_modify_first in Hin as [?|(c & Hc & Hk & ->)]; [by eapply tbl_entry|].
    apply He; [|by eapply tbl_entry]. apply Z.eqb_eq in Hk as <-.
    apply rt_lookup_elem; [done|]. by eapply elem_of_concat_lookup.
Qed.

(** [list_detach] of an entry. *)
Lemma rt_lookup_detach t k j :
  table_ok t →
  rt_lookup (tbl_detach t k) j = if decide (j = k) then None else rt_lookup t j.
Proof.
  intros Hok. unfold rt_lookup, tbl_detach.
  destruct (decide (hash_index j = hash_index k)) as [Hh|Hh].
  - rewrite Hh, bucket_insert_eq by done.
    pose proof (tbl_nodup _ Hok _ _ (bucket_lookup t k Hok)) as Hnd.
    induction (bucket t (hash_index k)) as [|c b IH]; simpl; [by case_decide|].
    rewrite fmap_cons, NoDup_cons in Hnd. destruct Hnd as [Hc Hnd].
    destruct (rt_dest_addr c =? k) eqn:Ek.
    + apply Z.eqb_eq in Ek. rewrite Ek in *. case_decide as Hjk.
      * subst j. destruct (search _ b) as [e|] eqn:E; [|done].
        apply search_Some in E as [He E]. apply Z.eqb_eq in E.
        destruct Hc. rewrite <- E. by apply list_elem_of_fmap_2.
      * by rewrite (proj2 (Z.eqb_neq k j)) by congruence.
    + simpl. destruct (rt_dest_addr c =? j) eqn:Ej; [|auto].
      case_decide; [|done]. subst. congruence.
  - rewrite bucket_insert_ne by done. case_decide; [congruence|done].
Qed.

Lemma table_ok_detach t k :
  table_ok t → rt_live t k →
  table_ok (set_num_entries (num_entries t - 1) (tbl_detach t k)).
Proof.
  intros Hok [e He]. pose proof (bucket_lookup t k Hok) as Hb.
  apply search_Some in He as [He Hk].
  apply table_ok_bucket; [done| | | |].
  - change (rt_dest_addr <$> ?l) with (map rt_dest_addr l).
    apply NoDup_map_remove_first. by eapply tbl_nodup.
  - intros c Hc%elem_of_remove_first. by eapply tbl_place.
  - intros c Hc%elem_of_remove_first. by eapply tbl_entry.
  - rewrite (length_remove_first (λ e, rt_dest_addr e =? k) _ _ He Hk). lia.
Qed.

Lemma tbl_detach_absent t k : table_ok t → ¬ rt_live t k → tbl_detach t k = t.
Proof.
  intros Hok Hk. unfold tbl_detach. rewrite remove_first_None.
  - rewrite list_insert_id by by apply bucket_lookup. by destruct t.
  - by apply eq_None_not_Some.
Qed.

Lemma rt_live_modify t k f j :
  table_ok t → (∀ e, rt_dest_addr (f e) = rt_dest_addr e) →
  rt_live (tbl_modify t k f) j ↔ rt_live t j.
Proof.
  intros Hok Hf. unfold rt_live. rewrite rt_lookup_modify by done.
  case_decide; [subst|done]. by rewrite fmap_is_Some.
Qed.

(** No destination occurs twice in the table. *)
Lemma NoDup_fmap_concat {A} (f : A → Z) (h : Z → nat) (ll : list (list A)) : ∀ n,
  (∀ i b, ll !! i = Some b → NoDup (f <$> b)) →
  (∀ i b x, ll !! i = Some b → x ∈ b → h (f x) = (n + i)%nat) →
  NoDup (f <$> concat ll).
Proof.
  induction ll as [|b ll IH]; intros n Hnd Hh; [constructor|]. simpl. rewrite fmap_app.
  apply NoDup_app. split_and!.
  - by apply (Hnd 0%nat).
  - intros k (x & -> & Hx)%list_elem_of_fmap (y & Hxy & Hy)%list_elem_of_fmap.
    apply list_elem_of_In, in_concat in Hy as (c & Hc & Hy).
    apply list_elem_of_In in Hc, Hy. apply list_elem_of_lookup in Hc as [i Hi].
    pose proof (Hh 0%nat b x eq_refl Hx). pose proof (Hh (S i) c y Hi Hy).
    rewrite Hxy in *. lia.
  - apply (IH (S n)); [intros i c Hc; by apply (Hnd (S i))|].
    intros i c x Hc Hx. rewrite (Hh (S i) c x Hc Hx). lia.
Qed.

Lemma rt_keys_nodup s : table_ok (rt_tbl s) → NoDup (rt_keys s).
Proof.
  intros Hok. apply (NoDup_fmap_concat _ hash_index _ 0%nat).
  - intros i b. by apply tbl_nodup.
  - intros i b x Hi Hx. rewrite (tbl_place _ Hok _ _ _ Hi Hx). done.
Qed.

(** ** Frames *)

Section frames.
Context {C : Type} (g : state → C).

Lemma frames_rt_deref k : frames g (rt_deref k).
Proof.
  intros s a s'. unfold rt_deref. destruct (rt_lookup _ _); [|done]. by intros [= _ <-].
Qed.

Lemma frames_rt_get {A} k (f : rt_table_t → A) : frames g (rt_get k f).
Proof. apply frames_bind; [apply frames_rt_deref|]. intros e. apply frames_ret. Qed.

Lemma frames_rt_table_find d : frames g (rt_table_find d).
Proof. apply frames_gets. Qed.
End frames.
#[export] Hint Resolve frames_rt_deref frames_rt_get frames_rt_table_find : aodv.

(** The buckets, which determine every lookup. *)
Definition entries (s : state) : list (list rt_table_t) := tbl (rt_tbl s).

Lemma rt_lookup_entries s s' j :
  entries s' = entries s → rt_lookup (rt_tbl s') j = rt_lookup (rt_tbl s) j.
Proof. unfold entries, rt_lookup, bucket. by intros ->. Qed.

(** ** The table as a finite map *)

Definition rt_map (t : routing_table) : gmap Z rt_table_t :=
  list_to_map ((λ e, (rt_dest_addr e, e)) <$> concat (tbl t)).

Lemma rt_map_keys t :
  ((λ e, (rt_dest_addr e, e)) <$> concat (tbl t)).*1 = rt_dest_addr <$> concat (tbl t).
Proof. rewrite <- list_fmap_compose. by apply list_fmap_ext. Qed.

Lemma concat_keys_nodup t : table_ok t → NoDup (rt_dest_addr <$> concat (tbl t)).
Proof.
  intros Hok. apply (NoDup_fmap_concat _ hash_index _ 0%nat).
  - intros i b. by apply tbl_nodup.
  - intros i b x Hi Hx. by rewrite (tbl_place _ Hok _ _ _ Hi Hx).
Qed.

Lemma rt_map_lookup t k : table_ok t → rt_map t !! k = rt_lookup t k.
Proof.
  intros Hok. unfold rt_map. destruct (rt_lookup t k) as [e|] eqn:E.
  - apply elem_of_list_to_map; [rewrite rt_map_keys; by apply concat_keys_nodup|].
    apply list_elem_of_fmap. exists e. rewrite (rt_lookup_dest _ _ _ E). split; [done|].
    apply search_Some in E as [E _]. by eapply elem_of_concat_lookup; [apply bucket_lookup|].
  - apply not_elem_of_list_to_map. rewrite rt_map_keys. intros Hin.
    apply list_elem_of_fmap in Hin as (e & -> & He).
    by rewrite (rt_lookup_elem _ _ Hok He) in E.
Qed.

Lemma rt_map_size t : table_ok t → Z.of_nat (size (rt_map t)) = num_entries t.
Proof.
  intros Hok. unfold rt_map. rewrite map_size_list_to_map.
  - by rewrite length_fmap, (tbl_count _ Hok).
  - rewrite rt_map_keys. by apply concat_keys_nodup.
Qed.

(** ** Routes

    The part of an entry that says where packets go, without its precursors,
    flags and hello state. *)
Definition route_of (e : rt_table_t) : Z * Z * Z * Z * Z :=
  (rt_dest_addr e, rt_next_hop e, rt_hcnt e, rt_dest_seqno e, rt_state e).

Definition routes (s : state) : list (list (Z * Z * Z * Z * Z)) :=
  map (map route_of) (tbl (rt_tbl s)).

Lemma routes_lookup s s' k :
  routes s' = routes s →
  route_of <$> rt_lookup (rt_tbl s') k = route_of <$> rt_lookup (rt_tbl s) k.
Proof.
  unfold routes, rt_lookup, bucket. intros H.
  apply (f_equal (λ l, l !! hash_index k)) in H.
  change (map (map route_of) ?l) with (map route_of <$> l) in H.
  rewrite !list_lookup_fmap in H.
  assert (Hs : ∀ b b', map route_of b = map route_of b' →
    route_of <$> search (λ e, rt_dest_addr e =? k) b
    = route_of <$> search (λ e, rt_dest_addr e =? k) b').
  { induction b as [|e b IH]; intros [|e' b'] Hb; try done. injection Hb as H1 H2 H3 H4 H5 Hb.
    simpl. rewrite H1. destruct (rt_dest_addr e' =? k) eqn:E; [|by apply IH].
    simpl. unfold route_of. congruence. }
  destruct (tbl (rt_tbl s') !! _) as [b'|], (tbl (rt_tbl s) !! _) as [b|]; try done.
  simpl in *. apply Hs. congruence.
Qed.

Lemma frames_routes_modify k f :
  (∀ e, route_of (f e) = route_of e) → frames routes (rt_modify k f).
Proof.
  intros Hf. unfold rt_modify. apply frames_bind; [apply frames_rt_deref|]. intros e.
  apply frames_modify. intros s. unfold routes, tbl_modify, bucket. simpl.
  apply list_eq. intros i.
  change (map (map route_of) ?l) with (map route_of <$> l).
  rewrite !list_lookup_fmap. destruct (decide (i = hash_index k)) as [->|Hne].
  - destruct (tbl (rt_tbl s) !! hash_index k) as [b|] eqn:E.
    + rewrite list_lookup_insert_eq by by eapply lookup_lt_Some.
      simpl. f_equal. by apply map_modify_first.
    + rewrite list_insert_ge by by apply lookup_ge_None. by rewrite E.
  - by rewrite list_lookup_insert_ne.
Qed.
