(* ===== verification/Inv.v ===== *)
(** * The invariant of the daemon and the pointer discipline

    [inv] is the invariant of the globals between two statements of the
    daemon: the routing table is well-formed, the timer queue is well-formed
    and holds exactly the timers of the objects that are allocated, each with
    a handler made for it, and every buffer and counter is within its bounds.

    [safe md ks m res] is the judgement the operations are checked with: run
    in a state that satisfies the invariant, with every pointer of [ks] valid,
    [m] keeps the invariant, never uses freed memory, never follows a NULL
    pointer, never corrupts a list and never runs out of fuel; the pointers
    [res a] of its result are valid afterwards, and no pointer to a route
    entry becomes dangling.  Only the two message buffers may be overrun. *)

From S2P Require Import Prelude.
From S2P Require Import Params.
From S2P Require Import Bytes.
From S2P Require Import TimerQueue.
From S2P Require Import State.
From S2P Require Import Frame.
From S2P Require Import Nl.
From S2P Require Import RtTable.

#[local] Open Scope cm_scope.

(** ** Invariant *)

(** The object a timer is embedded in is allocated. *)
Definition timer_owned (s : state) (id : timer_id) : Prop :=
  match id with
  | RtTimer d | AckTimer d | HelloTimer d => rt_live (rt_tbl s) d
  | SeekTimer d => d ∈ sk_dest_addr <$> seekhead s
  | RecTimer o i => mk_rreq_record o i ∈ rreq_records s
  | BlTimer d => d ∈ rreq_blacklist s
  | HelloSendTimer | WorbTimer | GcTimer | RtLogTimer => True
  end.

(** The handlers written for a timer: the casts of their [void *] argument
    are to the type of the timer's owner. *)
Definition fits (h : handler) (id : timer_id) : bool :=
  match h, id with
  | route_expire_timeout, RtTimer _ | route_delete_timeout, RtTimer _
  | local_repair_timeout, RtTimer _ | rrep_ack_timeout, AckTimer _
  | hello_timeout, HelloTimer _ | route_discovery_timeout, SeekTimer _
  | rreq_record_timeout, RecTimer _ _ | rreq_blacklist_timeout, BlTimer _
  | hello_send_h, HelloSendTimer | wait_on_reboot_timeout, WorbTimer
  | packet_queue_timeout, GcTimer | print_rt_table, RtLogTimer => true
  | _, _ => false
  end.

(** The timers that are global variables: they have no handler before the
    service they belong to starts. *)
Definition static_timer (id : timer_id) : bool :=
  match id with
  | HelloSendTimer | WorbTimer | GcTimer | RtLogTimer => true
  | _ => false
  end.

Record timers_ok (own : timer_id → Prop) (q : tqueue timer_id handler) : Prop := {
  to_wf : tq_wf q;
  to_owned id : is_Some (timers q !! id) ↔ own id;
  to_fits id t h : timers q !! id = Some t → tm_handler t = Some h → fits h id = true;
  to_handler id t : timers q !! id = Some t → static_timer id = false → is_Some (tm_handler t)
}.

Record inv (s : state) : Prop := {
  inv_table : table_ok (rt_tbl s);
  inv_heap : Z.of_nat (length (concat (tbl (rt_tbl s)))) <= env_heap (env s) < 4294967296;
  inv_timers : timers_ok (timer_owned s) (tq s);
  inv_seek : NoDup (sk_dest_addr <$> seekhead s);
  inv_records : NoDup (rreq_records s);
  inv_blacklist : NoDup (rreq_blacklist s);
  inv_pq : pq_len (PQ s) = Z.of_nat (length (pq_head (PQ s)));
  inv_pq_max : pq_len (PQ s) <= MAX_QUEUE_LENGTH;
  inv_rreq_ratel : length (rreq_ratel s) = (RREQ_RATELIMIT - 1)%nat;
  inv_num_rreq : 0 <= num_rreq s <= Z.of_nat (RREQ_RATELIMIT - 1);
  inv_rerr_ratel : length (rerr_ratel s) = (RERR_RATELIMIT - 1)%nat;
  inv_num_rerr : 0 <= num_rerr s <= Z.of_nat (RERR_RATELIMIT - 1);
  inv_send : length (send_buf s) = Z.to_nat SEND_BUF_SIZE;
  inv_recv : length (recv_buf s) = Z.to_nat RECV_BUF_SIZE;
  inv_recv_bytes : bytes_ok (recv_buf s);
  inv_seqno : 0 <= seqno (this_host s) < 4294967296
}.

(** The undefined behaviours that a message or a table size may trigger. *)
Definition buf_ub (u : ub) : Prop := u = SendBufOverflow ∨ u = RecvBufOverread.

(** ** What every operation leaves alone *)

(** [Quiet] operations do not touch the seek list either. *)
Inductive mode := Quiet | Full.

Definition linked (s : state) (id : timer_id) : Prop := id ∈ TQ (tq s) ++ expTQ (tq s).

Record ext (md : mode) (s s' : state) : Prop := {
  ext_env : env s' = env s;
  ext_devs : devs (this_host s') = devs (this_host s);
  ext_nif : nif (this_host s') = nif (this_host s);
  ext_indices : dev_indices s' = dev_indices s;
  ext_rt k : rt_live (rt_tbl s) k → rt_live (rt_tbl s') k;
  ext_gc : linked s GcTimer → linked s' GcTimer;
  ext_exp : (length (expTQ (tq s')) <= length (expTQ (tq s)))%nat;
  ext_log : linked s' RtLogTimer → linked s RtLogTimer;
  ext_own_seqno : seqno (this_host s) ≠ 0 → seqno (this_host s') ≠ 0;
  ext_seek : md = Quiet → seekhead s' = seekhead s
}.

#[export] Instance ext_preorder md : PreOrder (ext md).
Proof.
  split.
  - intros s. by split.
  - intros s1 s2 s3 [] []. split; try congruence; eauto; [lia|].
    intros Hq. rewrite <- (ext_seek0 Hq). auto.
Qed.

Lemma ext_quiet md s s' : ext Quiet s s' → ext md s s'.
Proof. intros []. split; auto. Qed.

Definition live_all (s : state) (ks : list Z) : Prop := Forall (rt_live (rt_tbl s)) ks.

Lemma live_all_ext md s s' ks : ext md s s' → live_all s ks → live_all s' ks.
Proof. intros He Hl. eapply Forall_impl; [exact Hl|]. apply He. Qed.

(** ** The judgement *)

Definition safe {A} (md : mode) (ks : list Z) (m : M A) (res : A → list Z) : Prop :=
  ∀ s, inv s → live_all s ks →
    wp buf_ub m (λ a s', inv s' ∧ ext md s s' ∧ live_all s' (res a)) s.

(** The result carries no pointer. *)
Abbreviation nop := (λ _, []).

Section rules.
Context (md : mode).

Lemma safe_ret {A} ks (a : A) res : res a ⊆ ks → safe md ks (ret a) res.
Proof.
  intros Hr s Hi Hl. split_and!; [done|done|].
  unfold live_all in *. rewrite Forall_forall in *. auto.
Qed.

Lemma safe_bind {A B} ks (m : M A) (f : A → M B) res res' :
  safe md ks m res → (∀ a, safe md (res a ++ ks) (f a) res') →
  safe md ks (bind m f) res'.
Proof.
  intros Hm Hf s Hi Hl. apply wp_bind. eapply wp_mono; [by apply Hm|].
  intros a s' (Hi' & He & Hr). eapply wp_mono.
  { apply Hf; [done|]. apply Forall_app. split; [done|by eapply live_all_ext]. }
  intros b s'' (? & ? & ?). split_and!; [done|by etransitivity|done].
Qed.

(** A [safe] program as the rest of a computation that started in [s]. *)
Lemma wp_safe {A} ks (m : M A) res s s' :
  safe md ks m res → inv s' → ext md s s' → live_all s' ks →
  wp buf_ub m (λ a s'', inv s'' ∧ ext md s s'' ∧ live_all s'' (res a ++ ks)) s'.
Proof.
  intros Hm Hi He Hl. eapply wp_mono; [by apply Hm|].
  intros a s'' (? & ? & ?). split_and!; [done|by etransitivity|].
  apply Forall_app. split; [done|by eapply live_all_ext].
Qed.

Lemma wp_safe_end {A} ks (m : M A) res s s' :
  safe md ks m res → inv s' → ext md s s' → live_all s' ks →
  wp buf_ub m (λ a s'', inv s'' ∧ ext md s s'' ∧ live_all s'' (res a)) s'.
Proof.
  intros Hm Hi He Hl. eapply wp_mono; [by apply (wp_safe ks _ res s)|].
  intros a s'' (? & ? & [? ?]%Forall_app). done.
Qed.

Lemma safe_weaken {A} ks ks' (m : M A) res :
  safe md ks' m res → ks' ⊆ ks → safe md ks m res.
Proof.
  intros Hm Hk s Hi Hl. apply Hm; [done|].
  unfold live_all in *. rewrite Forall_forall in *. auto.
Qed.

Lemma safe_drop {A} ks (m : M A) res : safe md ks m res → safe md ks m nop.
Proof.
  intros Hm s Hi Hl. eapply wp_mono; [by apply Hm|].
  intros a s' (? & ? & ?). split_and!; [done|done|constructor].
Qed.

Lemma safe_gets {A} ks (f : state → A) : safe md ks (gets f) nop.
Proof. intros s Hi Hl. split_and!; [done|done|constructor]. Qed.

Lemma safe_exit {A} ks c res : safe md ks (@cexit state A c) res.
Proof. by intros s Hi Hl. Qed.

Lemma safe_when ks b m : safe md ks m nop → safe md ks (when b m) nop.
Proof. intros Hm. destruct b; [done|]. apply safe_ret, list_subseteq_nil. Qed.

(** A write to globals on which the invariant does not depend. *)
Lemma safe_modify ks f :
  (∀ s, inv s → inv (f s) ∧ ext md s (f s)) → safe md ks (modify f) nop.
Proof. intros Hf s Hi Hl. destruct (Hf s Hi). split_and!; [done|done|constructor]. Qed.

Lemma safe_foreach {A B} ks (l : list A) (acc : B) body :
  (∀ a b, a ∈ l → safe md ks (body a b) nop) →
  safe md ks (foreach l acc body) nop.
Proof.
  intros Hb s Hi Hl.
  eapply wp_mono; [eapply (wp_foreach _ (λ _ s', inv s' ∧ ext md s s')); [done|]|].
  - intros a b s' Ha [Hi' He]. eapply wp_mono.
    { apply Hb; [done|done|]. by eapply live_all_ext. }
    intros c s'' (? & ? & _). split; [done|by etransitivity].
  - intros a s' [? ?]. split_and!; [done|done|constructor].
Qed.

Lemma safe_keys {B} ks (f : list Z → M B) res :
  (∀ l, safe md (l ++ ks) (f l) res) → safe md ks (bind (gets rt_keys) f) res.
Proof.
  intros Hf s Hi Hl. apply wp_bind, wp_gets. apply Hf; [done|].
  apply Forall_app. split; [|done]. apply Forall_forall. intros k Hk.
  apply elem_of_rt_keys; [apply Hi|done].
Qed.

(** *** Routing table *)

Lemma safe_deref {B} ks k (f : rt_table_t → M B) res :
  k ∈ ks → (∀ e, entry_ok e → rt_dest_addr e = k → safe md ks (f e) res) →
  safe md ks (bind (rt_deref k) f) res.
Proof.
  intros Hk Hf s Hi Hl. apply wp_bind. unfold wp, rt_deref.
  destruct (proj1 (Forall_forall _ _) Hl k Hk) as [e He]. rewrite He.
  apply Hf; [|by apply rt_lookup_dest in He|done|done].
  eapply rt_lookup_ok; [apply Hi|done].
Qed.

Lemma safe_rt_get {A} ks k (g : rt_table_t → A) : k ∈ ks → safe md ks (rt_get k g) nop.
Proof. intros Hk. apply safe_deref; [done|]. intros e _ _. apply safe_ret, list_subseteq_nil. Qed.

Lemma safe_rt_find ks d :
  safe md ks (rt_table_find d) (λ o, option_list o).
Proof.
  intros s Hi Hl. split_and!; [done|done|].
  rewrite find_entry_lookup by apply Hi.
  destruct (rt_lookup _ d) as [e|] eqn:E; simpl; [|constructor].
  constructor; [|constructor]. rewrite (rt_lookup_dest _ _ _ E). by exists e.
Qed.

Lemma safe_set_rt ks (f : routing_table → routing_table) :
  (∀ s, inv s → live_all s ks →
    table_ok (f (rt_tbl s)) ∧
    (∀ j, rt_live (f (rt_tbl s)) j ↔ rt_live (rt_tbl s) j) ∧
    length (concat (tbl (f (rt_tbl s)))) = length (concat (tbl (rt_tbl s)))) →
  safe md ks (modify (λ s, set_rt_tbl (f (rt_tbl s)) s)) nop.
Proof.
  intros Hf s Hi Hl. destruct (Hf s Hi Hl) as (Hok & Hlive & Hlen).
  unfold wp, modify. split_and!; [| |constructor].
  - destruct Hi as [? ? [? Hown ? ?]]. split; simpl; try done; [by rewrite Hlen|].
    split; [done| |done|done]. intros id. rewrite Hown.
    destruct id; simpl; try done; by rewrite Hlive.
  - split; simpl; try done. intros k. by rewrite Hlive.
Qed.

Lemma safe_rt_modify ks k f :
  k ∈ ks → (∀ e, rt_dest_addr (f e) = rt_dest_addr e) →
  (∀ e, entry_ok e → entry_ok (f e)) → safe md ks (rt_modify k f) nop.
Proof.
  intros Hk Hf He. apply safe_deref; [done|]. intros _ _ _.
  apply (safe_set_rt _ (λ t, tbl_modify t k f)). intros s Hi Hl. split_and!.
  - apply table_ok_modify; [apply Hi|done|auto].
  - intros j. apply rt_live_modify; [apply Hi|done].
  - pose proof (length_concat_insert (tbl (rt_tbl s)) (hash_index k) _
      (modify_first (λ e, rt_dest_addr e =? k) f (bucket (rt_tbl s) (hash_index k)))
      (bucket_lookup _ _ (inv_table _ Hi))) as Hlen.
    rewrite length_modify_first in Hlen. simpl. lia.
Qed.

Lemma safe_num_active ks g :
  safe md ks (modify (λ s, set_rt_tbl
    (set_num_active (g (num_active (rt_tbl s))) (rt_tbl s)) s)) nop.
Proof.
  apply (safe_set_rt _ (λ t, set_num_active (g (num_active t)) t)).
  intros s Hi _. split_and!; [|done|done]. apply table_ok_num_active, Hi.
Qed.

Lemma safe_num_active_incr ks :
  safe md ks (modify (λ s, set_rt_tbl
    (set_num_active (u32 (num_active (rt_tbl s) + 1)) (rt_tbl s)) s)) nop.
Proof. apply (safe_num_active _ (λ n, u32 (n + 1))). Qed.

Lemma safe_num_active_decr ks :
  safe md ks (modify (λ s, set_rt_tbl
    (set_num_active (u32 (num_active (rt_tbl s) - 1)) (rt_tbl s)) s)) nop.
Proof. apply (safe_num_active _ (λ n, u32 (n - 1))). Qed.
End rules.

(** ** Timers *)

(** A timer operation keeps the collector's timer pending and adds nothing to
    the list of expired timers; only the handler of the logging timer starts
    that timer. *)
Record tq_ext (q q' : tqueue timer_id handler) : Prop := {
  te_gc : GcTimer ∈ TQ q ++ expTQ q → GcTimer ∈ TQ q' ++ expTQ q';
  te_exp : (length (expTQ q') <= length (expTQ q))%nat;
  te_log : RtLogTimer ∈ TQ q' ++ expTQ q' → RtLogTimer ∈ TQ q ++ expTQ q
}.

#[export] Instance tq_ext_preorder : PreOrder tq_ext.
Proof. split; [by intros q; split|]. intros q1 q2 q3 [] []. split; [auto|lia|auto]. Qed.

Lemma tq_ext_same q q' : TQ q' = TQ q → expTQ q' = expTQ q → tq_ext q q'.
Proof. intros HT HX. split; rewrite ?HT, ?HX; done. Qed.

Lemma timers_ok_put own q id t t' (l1 l2 : list timer_id) :
  timers_ok own q → timers q !! id = Some t →
  (∀ h, tm_handler t' = Some h → fits h id = true) →
  (is_Some (tm_handler t) → is_Some (tm_handler t')) →
  tq_wf (mk_tqueue (<[id := t']> (timers q)) l1 l2) →
  timers_ok own (mk_tqueue (<[id := t']> (timers q)) l1 l2).
Proof.
  intros [Hwf Hown Hfit Hsome] Ht Ht' Hh' Hwf'. split; [done| | |].
  - intros k. simpl. rewrite <- Hown. destruct (decide (k = id)) as [->|].
    + rewrite lookup_insert_eq, Ht. split; eauto.
    + by rewrite lookup_insert_ne.
  - intros k u h. simpl. intros [[<- <-]|[_ ?]]%lookup_insert_Some; eauto.
  - intros k u. simpl. intros [[<- <-]|[_ ?]]%lookup_insert_Some; eauto.
Qed.

Lemma timers_ok_remove own q id :
  timers_ok own q → own id → id ≠ GcTimer →
  ∃ r q', timer_remove id q = Ok r q' ∧ timers_ok own q' ∧ tq_ext q q' ∧
    (∀ k, k ∈ TQ q' ++ expTQ q' ↔ k ≠ id ∧ k ∈ TQ q ++ expTQ q).
Proof.
  intros Hok Hid Hgc. destruct (proj2 (to_owned _ _ Hok id) Hid) as [t Ht].
  destruct (timer_remove_spec q id t Ht) as [r Hr]. eexists r, _.
  split; [exact Hr|]. split_and!.
  - eapply timers_ok_put; [done|done|intros h Hh; by eapply (to_fits _ _ Hok id t)|done|].
    apply tq_wf_remove; [apply Hok|done].
  - split; simpl; [| |]; rewrite ?elem_of_app, ?list_elem_of_filter; [|apply length_filter|];
      intuition congruence.
  - intros k. simpl. by rewrite <- filter_app, list_elem_of_filter.
Qed.

Lemma timers_ok_set_timeout own q id now ms :
  timers_ok own q → own id →
  wp buf_ub (timer_set_timeout id now ms)
    (λ _ q', timers_ok own q' ∧ (id ≠ RtLogTimer → tq_ext q q') ∧ id ∈ TQ q' ∧
      (GcTimer ∈ TQ q ++ expTQ q → GcTimer ∈ TQ q' ++ expTQ q') ∧
      (length (expTQ q') <= length (expTQ q))%nat ∧
      (∀ k, k ∈ TQ q' ++ expTQ q' → k = id ∨ k ∈ TQ q ++ expTQ q)) q.
Proof.
  intros Hok Hid. destruct (proj2 (to_owned _ _ Hok id) Hid) as [t Ht].
  destruct (tm_handler t) as [h|] eqn:Hh.
  - destruct (timer_set_timeout_spec q id t h now ms (to_wf _ _ Hok) Ht Hh)
      as (l & Hrun & Hwf & Hl). unfold wp. rewrite Hrun.
    assert (Hgc : GcTimer ∈ TQ q ++ expTQ q → GcTimer ∈ l ++ filter (λ k, k ≠ id) (expTQ q)).
    { rewrite !elem_of_app, list_elem_of_filter, Hl. destruct (decide (GcTimer = id)); tauto. }
    split_and!.
    + eapply timers_ok_put; [done|done| |done|done]. simpl. intros h' [= <-].
      by eapply to_fits.
    + intros Hne. split; [exact Hgc|apply length_filter|]. simpl.
      rewrite !elem_of_app, list_elem_of_filter, Hl. intuition congruence.
    + simpl. rewrite Hl. by left.
    + done.
    + simpl. apply length_filter.
    + simpl. intros k. rewrite !elem_of_app, list_elem_of_filter, Hl. tauto.
  - assert (Hu : tm_used t = false).
    { destruct (tm_used t) eqn:Hu; [|done].
      destruct (wf_handler _ (to_wf _ _ Hok) id t Ht Hu). congruence. }
    unfold wp, timer_set_timeout, bind, timer_get, timer_put, modify, ret.
    rewrite Ht, Hu. rewrite Ht. simpl.
    unfold timer_add, bind, timer_get. simpl. rewrite lookup_insert_eq. simpl.
    by rewrite Hh.
Qed.

Lemma timers_ok_fresh own q id h :
  timers_ok own q → ¬ own id → fits h id = true →
  ∃ q', timer_init id h q = Ok () q' ∧
    timers_ok (λ k, k = id ∨ own k) q' ∧ tq_ext q q' ∧
    TQ q' = TQ q ∧ expTQ q' = expTQ q.
Proof.
  intros [Hwf Hown Hfit Hsome] Hid Hh.
  assert (Hn : timers q !! id = None).
  { destruct (timers q !! id) eqn:E; [|done]. destruct Hid. apply Hown. eauto. }
  assert (Hnl : id ∉ TQ q ++ expTQ q).
  { intros Hin. destruct (wf_linked _ Hwf id Hin) as (t & ? & _). congruence. }
  unfold timer_init. rewrite (proj2 (attached_false q id) Hnl).
  eexists. split; [done|]. split_and!; [|by apply tq_ext_same|done|done]. split; simpl.
  - destruct Hwf as [W1 W2 W3 W4 W5]. split; simpl.
    + done.
    + intros k Hk. rewrite lookup_insert_ne by congruence. auto.
    + intros k t [[<- <-]|[_ ?]]%lookup_insert_Some Hu; [done|eauto].
    + intros k t [[<- <-]|[_ ?]]%lookup_insert_Some Hu; [done|eauto].
    + rewrite due_insert_ne; [done|]. rewrite elem_of_app in Hnl. tauto.
  - intros k. rewrite <- Hown. destruct (decide (k = id)) as [->|].
    + rewrite lookup_insert_eq. split; eauto.
    + rewrite lookup_insert_ne by done. tauto.
  - intros k t h' [[<- <-]|[_ ?]]%lookup_insert_Some; [|eauto]. simpl. by intros [= <-].
  - intros k t [[<- <-]|[_ ?]]%lookup_insert_Some; [by eexists|eauto].
Qed.

Lemma timers_ok_free own q id :
  timers_ok own q → id ∉ TQ q ++ expTQ q →
  ∃ q', timer_free id q = Ok () q' ∧
    timers_ok (λ k, k ≠ id ∧ own k) q' ∧ TQ q' = TQ q ∧ expTQ q' = expTQ q.
Proof.
  intros [Hwf Hown Hfit Hsome] Hnl.
  unfold timer_free. rewrite (proj2 (attached_false q id) Hnl).
  eexists. split; [done|]. split_and!; [|done|done]. split; simpl.
  - destruct Hwf as [W1 W2 W3 W4 W5]. split; simpl.
    + done.
    + intros k Hk. rewrite lookup_delete_ne by congruence. auto.
    + intros k t [_ ?]%lookup_delete_Some Hu. eauto.
    + intros k t [_ ?]%lookup_delete_Some Hu. eauto.
    + rewrite elem_of_app in Hnl. replace (due (delete id (timers q)) <$> TQ q)
        with (due (timers q) <$> TQ q); [done|].
      apply list_fmap_ext. intros i x Hx. unfold due.
      rewrite lookup_delete_ne; [done|]. intros ->. apply Hnl. left.
      by eapply list_elem_of_lookup_2.
  - intros k. rewrite <- Hown. destruct (decide (k = id)) as [->|].
    + rewrite lookup_delete_eq. split; [by intros []|tauto].
    + rewrite lookup_delete_ne by done. tauto.
  - intros k t h' [_ ?]%lookup_delete_Some. eauto.
  - intros k t [_ ?]%lookup_delete_Some. eauto.
Qed.

(** An update of the timer queue alone. *)
Lemma inv_set_tq s q :
  inv s → timers_ok (timer_owned s) q → inv (set_tq q s).
Proof. intros [] Hq. by split. Qed.

Lemma ext_set_tq md s q : tq_ext (tq s) q → ext md s (set_tq q s).
Proof. intros []. by split. Qed.

Lemma timers_ok_iff own own' q :
  (∀ id, own id ↔ own' id) → timers_ok own q → timers_ok own' q.
Proof. intros Ho []. split; [done| |done|done]. intros id. by rewrite <- Ho. Qed.

(** Every pointer set [ks] under which the timer's owner is allocated. *)
Definition owned_by (ks : list Z) (id : timer_id) : Prop :=
  ∀ s, live_all s ks → timer_owned s id.

Lemma owned_by_rt ks k : k ∈ ks → owned_by ks (RtTimer k).
Proof. intros Hk s Hl. by apply (proj1 (Forall_forall _ _) Hl). Qed.
Lemma owned_by_ack ks k : k ∈ ks → owned_by ks (AckTimer k).
Proof. intros Hk s Hl. by apply (proj1 (Forall_forall _ _) Hl). Qed.
Lemma owned_by_hello ks k : k ∈ ks → owned_by ks (HelloTimer k).
Proof. intros Hk s Hl. by apply (proj1 (Forall_forall _ _) Hl). Qed.
Lemma owned_by_gc ks : owned_by ks GcTimer. Proof. done. Qed.
Lemma owned_by_hello_send ks : owned_by ks HelloSendTimer. Proof. done. Qed.
Lemma owned_by_worb ks : owned_by ks WorbTimer. Proof. done. Qed.
Lemma owned_by_log ks : owned_by ks RtLogTimer. Proof. done. Qed.
#[export] Hint Resolve owned_by_rt owned_by_ack owned_by_hello owned_by_gc
  owned_by_hello_send owned_by_worb owned_by_log : aodv.

Section timer_rules.
Context (md : mode).

Lemma safe_on_tq {A} ks (m : CM (tqueue timer_id handler) A) :
  (∀ s, inv s → live_all s ks →
    wp buf_ub m (λ _ q', timers_ok (timer_owned s) q' ∧ tq_ext (tq s) q') (tq s)) →
  safe md ks (on_tq m) nop.
Proof.
  intros Hm s Hi Hl. specialize (Hm s Hi Hl). unfold wp, on_tq in *.
  destruct (m (tq s)) as [a q| |]; [|done|done]. destruct Hm.
  split_and!; [by apply inv_set_tq|by apply ext_set_tq|constructor].
Qed.

Lemma safe_gettimeofday ks : safe md ks gettimeofday nop.
Proof. intros s Hi Hl. split_and!; [by destruct Hi|by split|constructor]. Qed.

Lemma safe_timer_remove ks id :
  owned_by ks id → id ≠ GcTimer → safe md ks (on_tq (timer_remove id)) nop.
Proof.
  intros Ho Hgc. apply safe_on_tq. intros s Hi Hl.
  destruct (timers_ok_remove _ _ id (inv_timers _ Hi) (Ho s Hl) Hgc)
    as (r & q' & Hr & ? & ? & _). unfold wp. by rewrite Hr.
Qed.

Lemma wp_set_timeout s id ms :
  inv s → timer_owned s id → id ≠ RtLogTimer →
  wp buf_ub (set_timeout id ms) (λ _ s', inv s' ∧ ext md s s' ∧ linked s' id ∧
    ∀ k, linked s' k → k = id ∨ linked s k) s.
Proof.
  intros Hi Ho Hlog. unfold set_timeout, wp, gettimeofday, bind, gets, modify, ret, on_tq.
  set (s1 := set_clock_reads _ s).
  pose proof (timers_ok_set_timeout _ (tq s1) id (env_clock (env s) (clock_reads s)) ms
    (inv_timers _ Hi) Ho) as Hw.
  unfold wp in Hw. destruct (timer_set_timeout _ _ _ _) as [[] q| |]; [|done|done].
  destruct Hw as (Hok & Hx & Hin & _ & _ & Hk). split_and!.
  - apply inv_set_tq; [by destruct Hi|done].
  - transitivity s1; [by split|by apply ext_set_tq, Hx].
  - unfold linked. rewrite elem_of_app. by left.
  - exact Hk.
Qed.

Lemma safe_set_timeout ks id ms :
  owned_by ks id → id ≠ RtLogTimer → safe md ks (set_timeout id ms) nop.
Proof.
  intros Ho Hlog s Hi Hl. eapply wp_mono; [apply wp_set_timeout; auto|].
  intros _ s' (? & ? & _). split_and!; [done|done|constructor].
Qed.

(** Reads of a timer, and [t->handler = h]. *)
Lemma safe_timer_read {A} ks id (g : timer handler → A) :
  owned_by ks id → safe md ks (on_tq (t ← timer_get id; ret (g t))) nop.
Proof.
  intros Ho. apply safe_on_tq. intros s Hi Hl.
  destruct (proj2 (to_owned _ _ (inv_timers _ Hi) id) (Ho s Hl)) as [t Ht].
  unfold wp, bind, timer_get. rewrite Ht. simpl. split; [apply Hi|done].
Qed.

Lemma safe_set_handler ks id h :
  owned_by ks id → fits h id = true → safe md ks (set_handler id h) nop.
Proof.
  intros Ho Hh. apply safe_on_tq. intros s Hi Hl.
  pose proof (inv_timers _ Hi) as Hok.
  destruct (proj2 (to_owned _ _ Hok id) (Ho s Hl)) as [t Ht].
  unfold wp, bind, timer_get. rewrite Ht. simpl. split; [|by apply tq_ext_same].
  apply (timers_ok_put _ _ _ t); [done|done|by intros h' [= <-]|by eexists|].
  destruct (to_wf _ _ Hok) as [W1 W2 W3 W4 W5]. split; simpl.
  - done.
  - intros k Hk. destruct (decide (k = id)) as [->|].
    + rewrite lookup_insert_eq. destruct (W2 _ Hk) as (t' & ? & ?).
      simplify_eq. eauto.
    + rewrite lookup_insert_ne by done. auto.
  - intros k t' [[<- <-]|[_ ?]]%lookup_insert_Some Hu; [|eauto]. simpl in Hu. eauto.
  - intros k t' [[<- <-]|[_ ?]]%lookup_insert_Some Hu; [simpl; eauto|eauto].
  - erewrite list_fmap_ext; [exact W5|]. intros i x _. by eapply due_insert_same.
Qed.
End timer_rules.

(** ** Automation *)

#[export] Hint Resolve safe_gets safe_exit safe_rt_get safe_rt_find safe_num_active_incr
  safe_num_active_decr
  safe_gettimeofday safe_timer_remove safe_set_timeout safe_timer_read safe_set_handler
  : aodv.

(** Membership in a list of pointers. *)
Ltac elem :=
  first [ assumption
        | apply list_elem_of_here
        | apply list_elem_of_further; elem
        | apply elem_of_app; first [left; elem | right; elem] ].
#[export] Hint Extern 1 (_ ∈ _) => elem : aodv.
#[export] Hint Extern 1 (_ ≠ GcTimer) => done : aodv.
#[export] Hint Extern 1 (_ ≠ RtLogTimer) => done : aodv.
#[export] Hint Extern 1 (fits _ _ = true) => reflexivity : aodv.

(** An update of globals that the invariant does not mention. *)
Ltac irrelevant :=
  apply safe_modify; let s := fresh "s" in let Hi := fresh "Hi" in
  intros s Hi; split; [by destruct Hi | by split].

Ltac safe_leaf :=
  first [ lazymatch goal with |- safe _ _ (modify _) _ => irrelevant end
        | solve [eauto with aodv] ].

(** One step of the derivation of a [safe] judgement, directed by the program. *)
Ltac safe_step :=
  lazymatch goal with
  | |- safe _ _ (bind (rt_deref _) _) _ => apply safe_deref; [elem|intros ? ? ?]
  | |- safe _ _ (bind (gets rt_keys) _) _ => apply safe_keys; intros ?
  | |- safe _ _ (bind _ _) _ =>
      first [ eapply safe_bind; [safe_leaf|intros ?; cbn [app]]
            | eapply (safe_bind _ _ _ _ nop); [|intros ?; cbn [app]] ]
  | |- safe _ _ (ret _) _ => apply safe_ret; apply list_subseteq_nil
  | |- safe _ _ (when _ _) _ => apply safe_when
  | |- safe _ _ (if ?b then _ else _) _ => destruct b eqn:?
  | |- safe _ (option_list ?o ++ _) (match ?o with _ => _ end) _ =>
      destruct o; cbn [option_list app]
  | |- safe _ _ (match ?x with _ => _ end) _ => destruct x
  | |- safe _ _ (foreach _ _ _) _ => apply safe_foreach; intros ? ? ?
  | |- safe _ _ _ _ => safe_leaf
  end.
Ltac safe_go := repeat safe_step.

(** Symbolic execution of a [safe] call in a computation that started in [s]
    and has reached a state [s1] with [inv s1] and [ext md s s1]. *)
Ltac live := unfold live_all; repeat (apply Forall_cons; split);
  eauto using Forall_nil_2, ext_rt.
Ltac wp_call ks s' Hi He :=
  apply wp_bind; eapply wp_mono;
  [ eapply (wp_safe _ ks _ nop); [|eassumption|eassumption|first [eassumption|live]]
  | intros ? s' (Hi & He & ?) ].

(** ** Operations of nl.c and routing_table.c *)

Section rt_ops.
Context (md : mode).

Lemma safe_emit ks ev : safe md ks (emit ev) nop.
Proof. irrelevant. Qed.

Lemma safe_sys_call ks : safe md ks sys_call nop.
Proof.
  unfold sys_call. safe_go.
Qed.

Lemma safe_nl_kern_route ks a f i d g nm m : safe md ks (nl_kern_route a f i d g nm m) nop.
Proof.
  unfold nl_kern_route, nl_send, emit. safe_go.
Qed.

Lemma safe_nl_add ks d n m i : safe md ks (nl_send_add_route_msg d n m i) nop.
Proof. apply safe_nl_kern_route. Qed.
Lemma safe_nl_del ks d n m : safe md ks (nl_send_del_route_msg d n m) nop.
Proof. apply safe_nl_kern_route. Qed.
End rt_ops.
#[export] Hint Resolve safe_emit safe_sys_call safe_nl_add safe_nl_del : aodv.

(** Field assignments that keep an entry within its types. *)
Lemma seqno_incr_range n : 0 <= n < 4294967296 → 0 <= seqno_incr n < 4294967296.
Proof. unfold seqno_incr. repeat case_match; lia. Qed.

Lemma NoDup_remove_first_eqb a (l : list Z) : NoDup l → NoDup (remove_first (Z.eqb a) l).
Proof.
  intros Hnd. rewrite <- (map_id (remove_first _ l)). apply NoDup_map_remove_first.
  by rewrite map_id.
Qed.

Lemma existsb_eqb_elem a (l : list Z) : existsb (Z.eqb a) l = true ↔ a ∈ l.
Proof.
  rewrite existsb_exists. split.
  - intros (b & Hb & ->%Z.eqb_eq). by apply list_elem_of_In.
  - intros Ha. exists a. split; [by apply list_elem_of_In|apply Z.eqb_refl].
Qed.

Ltac entry := let e := fresh "e" in let H := fresh "H" in
  intros e H; destruct H; split; simpl in *;
  try done; try lia; try (by left); try (by right);
  try apply u8_range; try apply u32_range; try (by apply seqno_incr_range); try apply NoDup_nil_2.

Section rt_ops2.
Context (md : mode).

Lemma safe_set_state ks k v :
  v = INVALID ∨ v = VALID → k ∈ ks → safe md ks (rt_modify k (set_rt_state v)) nop.
Proof. intros Hv Hk. apply safe_rt_modify; [done|done|entry]. Qed.

Lemma safe_flags_or ks k v :
  k ∈ ks → safe md ks (rt_modify k (λ e, set_rt_flags (Z.lor (rt_flags e) v) e)) nop.
Proof. intros Hk. apply safe_rt_modify; [done|done|entry]. Qed.

Lemma safe_flags_and ks k v :
  k ∈ ks → safe md ks (rt_modify k (λ e, set_rt_flags (Z.land (rt_flags e) v) e)) nop.
Proof. intros Hk. apply safe_rt_modify; [done|done|entry]. Qed.

Lemma safe_set_seqno ks k v :
  0 <= v < 4294967296 → k ∈ ks → safe md ks (rt_modify k (set_rt_dest_seqno v)) nop.
Proof. intros Hv Hk. apply safe_rt_modify; [done|done|entry]. Qed.

Lemma safe_incr_seqno ks k :
  k ∈ ks →
  safe md ks (rt_modify k (λ e, set_rt_dest_seqno (seqno_incr (rt_dest_seqno e)) e)) nop.
Proof. intros Hk. apply safe_rt_modify; [done|done|entry]. Qed.

Lemma safe_set_hello_cnt ks k v :
  0 <= v < 256 → k ∈ ks → safe md ks (rt_modify k (set_rt_hello_cnt v)) nop.
Proof. intros Hv Hk. apply safe_rt_modify; [done|done|entry]. Qed.

Lemma safe_incr_hello_cnt ks k :
  k ∈ ks →
  safe md ks (rt_modify k (λ e, set_rt_hello_cnt (u8 (rt_hello_cnt e + 1)) e)) nop.
Proof. intros Hk. apply safe_rt_modify; [done|done|entry]. Qed.

Lemma safe_set_last_hello ks k v :
  k ∈ ks → safe md ks (rt_modify k (set_rt_last_hello_time v)) nop.
Proof. intros Hk. apply safe_rt_modify; [done|done|entry]. Qed.

Lemma safe_precursor_list_destroy ks k :
  k ∈ ks → safe md ks (precursor_list_destroy k) nop.
Proof. intros Hk. apply safe_rt_modify; [done|done|entry]. Qed.
End rt_ops2.
#[export] Hint Resolve safe_set_state safe_flags_or safe_flags_and safe_set_seqno safe_incr_seqno
  safe_set_hello_cnt safe_incr_hello_cnt safe_set_last_hello safe_precursor_list_destroy
  : aodv.
#[export] Hint Resolve ok_seqno : aodv.
#[export] Hint Extern 1 (_ <= _ < _) => lia : aodv.
#[export] Hint Extern 1 (_ = INVALID ∨ _ = VALID) => solve [by left | by right] : aodv.

Section rt_ops3.
Context (md : mode).

(** A test of an entry followed by an assignment to it. *)
Lemma safe_rt_test ks k (b : rt_table_t → bool) f :
  k ∈ ks → (∀ e, rt_dest_addr (f e) = rt_dest_addr e) →
  (∀ e, b e = true → entry_ok e → entry_ok (f e)) →
  safe md ks (e ← rt_deref k; if b e then rt_modify k f else ret ()) nop.
Proof.
  intros Hk Hf Hb s Hi Hl.
  destruct (proj1 (Forall_forall _ _) Hl k Hk) as [e He].
  apply wp_bind. unfold wp at 1, rt_deref. rewrite He. destruct (b e) eqn:Hbe.
  - set (f' := λ e', if b e' then f e' else e').
    assert (Hsame : wp buf_ub (rt_modify k f')
      (λ _ s', inv s' ∧ ext md s s' ∧ live_all s' []) s).
    { apply (safe_rt_modify md ks); [done| | |done|done]; intros e'; unfold f'.
      - by destruct (b e').
      - intros ?. destruct (b e') eqn:?; auto. }
    unfold wp, rt_modify, bind, rt_deref, modify in *. rewrite He in *.
    replace (tbl_modify (rt_tbl s) k f) with (tbl_modify (rt_tbl s) k f'); [done|].
    unfold tbl_modify. f_equal. f_equal.
    unfold rt_lookup in He. revert He. generalize (bucket (rt_tbl s) (hash_index k)).
    intros l. induction l as [|c l IH]; simpl; [done|].
    destruct (rt_dest_addr c =? k); [intros [= ->]; unfold f'; by rewrite Hbe|].
    intros He. by rewrite IH.
  - split_and!; [done|done|constructor].
Qed.

Lemma safe_precursor_add ks k a : k ∈ ks → safe md ks (precursor_add k a) nop.
Proof.
  intros Hk. unfold precursor_add.
  set (f := λ e, set_rt_nprec (rt_nprec e + 1) (set_rt_precursors (a :: rt_precursors e) e)).
  assert (H : safe md ks (e ← rt_deref k;
    if negb (existsb (Z.eqb a) (rt_precursors e)) then rt_modify k f else ret ()) nop).
  { apply safe_rt_test; [done|done|]. intros e Hb He. apply negb_true_iff in Hb.
    destruct He. split; simpl; try done; [lia|]. apply NoDup_cons. split; [|done].
    rewrite <- existsb_eqb_elem. congruence. }
  intros s Hi Hl. specialize (H s Hi Hl). unfold wp, bind in *.
  destruct (rt_deref k s) as [e s'| |]; [|done|done].
  by destruct (existsb (Z.eqb a) (rt_precursors e)).
Qed.

Lemma safe_precursor_remove ks k a : k ∈ ks → safe md ks (precursor_remove k a) nop.
Proof.
  intros Hk. apply safe_rt_test; [done|done|]. intros e Hb He.
  apply existsb_eqb_elem in Hb. destruct He as [? ? ? ? ? Hn ?]. split; simpl; try done.
  - rewrite Hn, (length_remove_first (Z.eqb a) _ a Hb) by apply Z.eqb_refl. lia.
  - by apply NoDup_remove_first_eqb.
Qed.

Lemma safe_rt_table_update_timeout ks k l :
  k ∈ ks → safe md ks (rt_table_update_timeout k l) nop.
Proof. intros Hk. unfold rt_table_update_timeout, timer_timeout_of. safe_go. Qed.

Lemma safe_rt_is_valid ks k : k ∈ ks → safe md ks (rt_is_valid k) nop.
Proof. intros Hk. unfold rt_is_valid. safe_go. Qed.
End rt_ops3.
#[export] Hint Resolve safe_precursor_add safe_precursor_remove
  safe_rt_table_update_timeout safe_rt_is_valid : aodv.

Section rt_ops4.
Context (md : mode).

Lemma safe_refresh_route ks k b : k ∈ ks → safe md ks (refresh_route k b) nop.
Proof. intros Hk. unfold refresh_route, timer_used. safe_go. Qed.

Lemma safe_update_route_timeouts ks f r :
  option_list f ⊆ ks → option_list r ⊆ ks →
  safe md ks (rt_table_update_route_timeouts f r) nop.
Proof.
  intros Hf Hr. unfold rt_table_update_route_timeouts.
  assert (∀ k, k ∈ option_list f → k ∈ ks) by auto.
  assert (∀ k, k ∈ option_list r → k ∈ ks) by auto.
  destruct f as [f|], r as [r|]; safe_go;
    apply safe_refresh_route; set_solver.
Qed.

Lemma safe_rt_table_invalidate ks k : k ∈ ks → safe md ks (rt_table_invalidate k) nop.
Proof. intros Hk. unfold rt_table_invalidate. safe_go. Qed.
End rt_ops4.
#[export] Hint Resolve safe_refresh_route safe_rt_table_invalidate : aodv.

(** ** Deletion of a route *)

Lemma on_tq_ok {A} (m : CM (tqueue timer_id handler) A) s a q :
  m (tq s) = Ok a q → on_tq m s = Ok a (set_tq q s).
Proof. unfold on_tq. by intros ->. Qed.

(** What deleting the route to [k] leaves. *)
Record deleted (k : Z) (s s' : state) : Prop := {
  del_env : env s' = env s;
  del_host : this_host s' = this_host s;
  del_indices : dev_indices s' = dev_indices s;
  del_rt j : rt_lookup (rt_tbl s') j
             = if decide (j = k) then None else rt_lookup (rt_tbl s) j;
  del_count : num_entries (rt_tbl s') = num_entries (rt_tbl s) - 1;
  del_tq : tq_ext (tq s) (tq s');
  del_seek : seekhead s' = seekhead s
}.

(** The three timers of an entry are unlinked and freed with it. *)
Lemma free_rt_timers s k :
  timers_ok (timer_owned s) (tq s) → rt_live (rt_tbl s) k →
  ∃ q1 q2 q3 q4 q5 q6 r1 r2 r3,
    timer_remove (RtTimer k) (tq s) = Ok r1 q1 ∧
    timer_remove (HelloTimer k) q1 = Ok r2 q2 ∧
    timer_remove (AckTimer k) q2 = Ok r3 q3 ∧
    timer_free (RtTimer k) q3 = Ok () q4 ∧
    timer_free (HelloTimer k) q4 = Ok () q5 ∧
    timer_free (AckTimer k) q5 = Ok () q6 ∧
    tq_ext (tq s) q6 ∧
    timers_ok (λ id, id ≠ AckTimer k ∧ id ≠ HelloTimer k ∧ id ≠ RtTimer k ∧
                     timer_owned s id) q6.
Proof.
  intros Hok Hk.
  destruct (timers_ok_remove _ _ (RtTimer k) Hok Hk) as (r1 & q1 & R1 & O1 & E1 & N1); [done|].
  destruct (timers_ok_remove _ _ (HelloTimer k) O1 Hk) as (r2 & q2 & R2 & O2 & E2 & N2); [done|].
  destruct (timers_ok_remove _ _ (AckTimer k) O2 Hk) as (r3 & q3 & R3 & O3 & E3 & N3); [done|].
  destruct (timers_ok_free _ _ (RtTimer k) O3) as (q4 & R4 & O4 & T4 & X4).
  { rewrite N3, N2, N1. tauto. }
  destruct (timers_ok_free _ _ (HelloTimer k) O4) as (q5 & R5 & O5 & T5 & X5).
  { rewrite T4, X4, N3, N2. tauto. }
  destruct (timers_ok_free _ _ (AckTimer k) O5) as (q6 & R6 & O6 & T6 & X6).
  { rewrite T5, X5, T4, X4, N3. tauto. }
  exists q1, q2, q3, q4, q5, q6, r1, r2, r3. split_and!; try done.
  transitivity q3; [by transitivity q1; [|transitivity q2]|].
  apply tq_ext_same; congruence.
Qed.

Lemma rt_table_delete_tail s k :
  inv s → rt_live (rt_tbl s) k →
  ∃ s', (e ← rt_deref k;
    modify (λ s, set_rt_tbl (tbl_detach (rt_tbl s) k) s) ;;
    when (rt_state e =? VALID)
      (nl_send_del_route_msg (rt_dest_addr e) (rt_next_hop e) (rt_hcnt e) ;;
       modify (λ s, set_rt_tbl (set_num_active (u32 (num_active (rt_tbl s) - 1)) (rt_tbl s)) s)) ;;
    on_tq (timer_remove (RtTimer k)) ;;
    on_tq (timer_remove (HelloTimer k)) ;;
    on_tq (timer_remove (AckTimer k)) ;;
    modify (λ s, set_rt_tbl (set_num_entries (u32 (num_entries (rt_tbl s) - 1)) (rt_tbl s)) s) ;;
    on_tq (timer_free (RtTimer k)) ;;
    on_tq (timer_free (HelloTimer k)) ;;
    on_tq (timer_free (AckTimer k))) s = Ok () s' ∧ inv s' ∧ deleted k s s'.
Proof.
  intros Hi Hk. pose proof (inv_table _ Hi) as Htab. destruct (Hk) as [e He].
  destruct (free_rt_timers s k (inv_timers _ Hi) Hk)
    as (q1 & q2 & q3 & q4 & q5 & q6 & r1 & r2 & r3 & R1 & R2 & R3 & R4 & R5 & R6 & HE & HO).
  assert (Hcnt : 1 <= num_entries (rt_tbl s)).
  { rewrite (tbl_count _ Htab). apply search_Some in He as [He _].
    pose proof (elem_of_concat_lookup _ _ _ _ (bucket_lookup _ k Htab) He) as Hin.
    destruct (concat (tbl (rt_tbl s))); [by apply not_elem_of_nil in Hin|simpl; lia]. }
  assert (Hdet := table_ok_detach _ k Htab Hk).
  assert (Hlen := tbl_count _ Hdet). simpl in Hlen.
  assert (Hcount := tbl_count _ Htab). pose proof (inv_heap _ Hi) as Hheap.
  assert (Hu : u32 (num_entries (rt_tbl s) - 1) = num_entries (rt_tbl s) - 1)
    by (apply u32_small; lia).
  set (fin a n tr := set_rtnl_seq n (set_trace tr (set_tq q6 (set_rt_tbl
    (mk_table (u32 (num_entries (rt_tbl s) - 1)) a (tbl (tbl_detach (rt_tbl s) k))) s)))).
  assert (Hfin : ∀ a n tr, inv (fin a n tr) ∧ deleted k s (fin a n tr)).
  { intros a n tr. unfold fin. rewrite Hu.
    assert (Hlk : ∀ j, rt_lookup (mk_table (num_entries (rt_tbl s) - 1) a
        (tbl (tbl_detach (rt_tbl s) k))) j
      = if decide (j = k) then None else rt_lookup (rt_tbl s) j)
      by (intros j; by rewrite <- rt_lookup_detach).
    split; [|by split].
    destruct Hi. split; simpl; try done;
      [apply (table_ok_num_active _ a Hdet)|lia|].
    eapply timers_ok_iff; [|exact HO]. intros id. simpl.
    destruct id; simpl; try (by intuition congruence); unfold rt_live; rewrite Hlk;
      (case_decide as Hd; [subst; split; [intuition congruence|by intros []]|
       split; [tauto|intros ?; split_and!; congruence || done]]). }
  erewrite bind_ok by (unfold rt_deref; by rewrite He). erewrite bind_ok by done.
  destruct (rt_state e =? VALID).
  all: erewrite bind_ok by done.
  all: erewrite bind_ok by (apply on_tq_ok; exact R1).
  all: erewrite bind_ok by (apply on_tq_ok; exact R2).
  all: erewrite bind_ok by (apply on_tq_ok; exact R3).
  all: erewrite bind_ok by done.
  all: erewrite bind_ok by (apply on_tq_ok; exact R4).
  all: erewrite bind_ok by (apply on_tq_ok; exact R5).
  all: erewrite on_tq_ok by exact R6.
  - eexists. split; [reflexivity|].
    apply (Hfin (u32 (num_active (rt_tbl s) - 1)) (rtnl_seq s + 1) _).
  - eexists. split; [reflexivity|].
    apply (Hfin (num_active (rt_tbl s)) (rtnl_seq s) (trace s)).
Qed.

(** ** The effect of the table operations on the entries *)

(** Only the entry of [k] changes, to [e']. *)
Definition updated (k : Z) (e' : rt_table_t) (s s' : state) : Prop :=
  rt_lookup (rt_tbl s') k = Some e' ∧
  ∀ j, j ≠ k → rt_lookup (rt_tbl s') j = rt_lookup (rt_tbl s) j.

(** [eff k e e' m]: [m] is safe, turns the entry [e] of [k] into [e'] and leaves
    the other entries alone. *)
Definition eff {A} (k : Z) (e e' : rt_table_t) (m : M A) : Prop :=
  ∀ s, inv s → rt_lookup (rt_tbl s) k = Some e →
    wp buf_ub m (λ _ s', inv s' ∧ ext Quiet s s' ∧ updated k e' s s') s.

Lemma eff_bind {A B} k e e1 e2 (m : M A) (f : A → M B) :
  eff k e e1 m → (∀ a, eff k e1 e2 (f a)) → eff k e e2 (bind m f).
Proof.
  intros Hm Hf s Hi He. apply wp_bind. eapply wp_mono; [by apply Hm|].
  intros a s1 (Hi1 & Hx1 & Hk1 & Hj1). eapply wp_mono; [by apply Hf|].
  intros b s2 (Hi2 & Hx2 & Hk2 & Hj2).
  split_and!; [done|by etransitivity|]. split; [done|]. intros j Hj. by rewrite Hj2, Hj1.
Qed.

Lemma eff_deref {B} k e e' (f : rt_table_t → M B) :
  eff k e e' (f e) → eff k e e' (bind (rt_deref k) f).
Proof.
  intros Hf s Hi He. eapply wp_run; [unfold rt_deref; by rewrite He|]. by apply Hf.
Qed.

Lemma eff_get {B C} k e e' (g : rt_table_t → C) (f : C → M B) :
  eff k e e' (f (g e)) → eff k e e' (bind (rt_get k g) f).
Proof.
  intros Hf s Hi He. eapply wp_run; [unfold rt_get, bind, rt_deref; by rewrite He|].
  by apply Hf.
Qed.

Lemma eff_frame {A} k e (m : M A) :
  safe Quiet [k] m nop → frames rt_tbl m → eff k e e m.
Proof.
  intros Hm Hf s Hi He. eapply wp_mono; [apply (wp_frame rt_tbl); [done|apply Hm; [done|]]|].
  - constructor; [by exists e|constructor].
  - intros a s' ((? & ? & _) & Ht). split_and!; [done|done|]. unfold updated. by rewrite Ht.
Qed.

Lemma eff_ret {A} k e (a : A) : eff k e e (ret a).
Proof. intros s Hi He. by split_and!. Qed.

Lemma eff_modify k e f :
  (∀ e, rt_dest_addr (f e) = rt_dest_addr e) → (∀ e, entry_ok e → entry_ok (f e)) →
  eff k e (f e) (rt_modify k f).
Proof.
  intros Hf Hok s Hi He.
  pose proof (safe_rt_modify Quiet [k] k f ltac:(elem) Hf Hok s Hi) as Hs.
  assert (Hl : live_all s [k]) by (constructor; [by exists e|constructor]).
  specialize (Hs Hl). unfold wp, rt_modify, bind, rt_deref, modify in *. rewrite He in *.
  destruct Hs as (? & ? & _). split_and!; [done|done|]. split; simpl.
  - rewrite rt_lookup_modify by (done || apply Hi). by rewrite decide_True, He.
  - intros j Hj. rewrite rt_lookup_modify by (done || apply Hi). by rewrite decide_False.
Qed.

Lemma eff_num_active k e g :
  eff k e e (modify (λ s, set_rt_tbl (set_num_active (g (num_active (rt_tbl s))) (rt_tbl s)) s)).
Proof.
  intros s Hi He. assert (Hl : live_all s [k]) by (constructor; [by exists e|constructor]).
  destruct (safe_num_active Quiet [k] g s Hi Hl) as (? & ? & _). by split_and!.
Qed.

Lemma frames_nl_del d n m : frames rt_tbl (nl_send_del_route_msg d n m).
Proof. unfold nl_send_del_route_msg, nl_kern_route, nl_send. frame_go. Qed.
Lemma frames_nl_add d n m i : frames rt_tbl (nl_send_add_route_msg d n m i).
Proof. unfold nl_send_add_route_msg, nl_kern_route, nl_send. frame_go. Qed.
#[export] Hint Resolve frames_nl_del frames_nl_add : aodv.

(** An operation that does not touch the table. *)
Ltac eff_leaf := apply eff_frame; [safe_leaf|frame_go].

(** The fields of a route that has become invalid. *)
Definition invalidated (e : rt_table_t) : rt_table_t :=
  set_rt_last_hello_time tv_zero (set_rt_dest_seqno (seqno_incr (rt_dest_seqno e))
    (set_rt_hello_cnt 0 (set_rt_state INVALID e))).

Lemma rt_table_invalidate_eff k e :
  rt_state e ≠ INVALID → eff k e (invalidated e) (rt_table_invalidate k).
Proof.
  intros He. unfold rt_table_invalidate.
  eapply eff_bind; [eff_leaf|intros _]. apply eff_deref.
  rewrite (proj2 (Z.eqb_neq _ _) He).
  do 3 (eapply eff_bind; [eff_leaf|intros _]).
  eapply eff_bind; [apply eff_modify; [done|entry]|intros _].
  eapply eff_bind; [apply (eff_num_active _ _ (λ n, u32 (n - 1)))|intros _].
  do 3 (eapply eff_bind; [apply eff_modify; [done|entry]|intros _]).
  apply eff_deref. eapply eff_bind; [eff_leaf|intros _].
  eapply eff_bind; [eff_leaf|intros o].
  eapply eff_bind; [|intros _; apply eff_ret].
  destruct (has _ _); (eapply eff_bind; [eff_leaf|intros _]); eff_leaf.
Qed.

Definition without_precursors (e : rt_table_t) : rt_table_t :=
  set_rt_nprec (rt_nprec e - Z.of_nat (length (rt_precursors e))) (set_rt_precursors [] e).

Lemma precursor_list_destroy_eff k e :
  eff k e (without_precursors e) (precursor_list_destroy k).
Proof. apply eff_modify; [done|entry]. Qed.

(** Deleting a route removes its entry and nothing else. *)
Lemma rt_table_delete_run s k :
  inv s → rt_live (rt_tbl s) k →
  ∃ s', rt_table_delete k s = Ok () s' ∧ inv s' ∧
    (∀ j, rt_lookup (rt_tbl s') j
          = if decide (j = k) then None else rt_lookup (rt_tbl s) j) ∧
    env s' = env s ∧ tq_ext (tq s) (tq s') ∧
    (seqno (this_host s) ≠ 0 → seqno (this_host s') ≠ 0) ∧
    num_entries (rt_tbl s') = num_entries (rt_tbl s) - 1 ∧
    devs (this_host s') = devs (this_host s) ∧ nif (this_host s') = nif (this_host s).
Proof.
  intros Hi [e Hk]. unfold rt_table_delete.
  assert (R1 : ∃ s1, precursor_list_destroy k s = Ok () s1 ∧
    num_entries (rt_tbl s1) = num_entries (rt_tbl s)).
  { unfold precursor_list_destroy, rt_modify, bind, rt_deref. rewrite Hk. by eexists. }
  destruct R1 as (s1 & R1 & Hn1).
  destruct (wp_ok _ _ _ _ _ _ (precursor_list_destroy_eff k e s Hi Hk) R1)
    as (Hi1 & He & Hk1 & Ho1).
  destruct (rt_table_delete_tail s1 k Hi1) as (s2 & R2 & Hi2 & Hd); [by eexists|].
  exists s2. split; [by erewrite bind_ok by exact R1|]. split; [done|].
  destruct Hd, He. unfold linked in *. split_and!.
  - intros j. rewrite del_rt0. case_decide; [done|auto].
  - congruence.
  - destruct del_tq0. split; [auto|lia|auto].
  - rewrite del_host0. auto.
  - by rewrite del_count0, Hn1.
  - congruence.
  - congruence.
Qed.
