(* ===== verification/Total.v ===== *)
(** * Operations that return

    [safe] allows an operation to exit and to overrun a message buffer.
    [total b ks m]: run with the invariant, the pointers [ks] valid and the room
    [b], [m] returns.  [None] asks for no room.  [Some n] asks for room for [n]
    more routes: memory for their entries, a table small enough for a RERR with
    all its destinations to fit in the send buffer, and not both the option for
    unidirectional links and that for optimized hellos, with which an operation
    may send hello messages with extensions of any length.  The judgement is derived from the structure of the program,
    like [safe], on which it relies for the states between two operations. *)

From S2P Require Import Prelude.
From S2P Require Import Params.
From S2P Require Import Bytes.
From S2P Require Import TimerQueue.
From S2P Require Import State.
From S2P Require Import Frame.
From S2P Require Import Nl.
From S2P Require Import RtTable.
From S2P Require Import Inv.

#[local] Open Scope cm_scope.

(** The number of entries in the routing table. *)
Definition rt_count (s : state) : nat := length (concat (tbl (rt_tbl s))).

(** Room for [n] more routes; at most [MAX_REPORTED] destinations and that of the
    lost neighbour go into one RERR. *)
Definition MAX_REPORTED : Z := 100.

Definition has_room (n : nat) (s : state) : Prop :=
  Z.of_nat (rt_count s + n) <= MAX_REPORTED ∧
  Z.of_nat (rt_count s + n) <= env_heap (env s) ∧
  (optimized_hellos (opts s) = false ∨ unidir_hack (opts s) = false).

Definition room (b : option nat) (s : state) : Prop :=
  match b with None => True | Some n => has_room n s end.

(** At most [n] routes have been added, and no wait after a reboot begun. *)
Definition grows (n : nat) (s s' : state) : Prop :=
  env s' = env s ∧ (wait_on_reboot s = false → wait_on_reboot s' = false) ∧
  (rt_count s' <= rt_count s + n)%nat.

Definition total {A} (b : option nat) (ks : list Z) (m : M A) : Prop :=
  ∀ s, inv s → live_all s ks → room b s →
    ∃ a s', m s = Ok a s' ∧ grows (default 0%nat b) s s'.

(** The operation returns. *)
Definition returns {A} (m : M A) (s : state) : Prop := ∃ a s', m s = Ok a s'.

(** The room of the operations before the last. *)
Definition base (b : option nat) : option nat :=
  match b with None => None | Some _ => Some 0%nat end.

Lemma grows_refl n s : grows n s s.
Proof. split_and!; [done|done|lia]. Qed.

Lemma grows_trans n1 n2 s s1 s2 : grows n1 s s1 → grows n2 s1 s2 → grows (n1 + n2) s s2.
Proof. intros (? & ? & ?) (? & ? & ?). split_and!; [congruence|auto|lia]. Qed.

Lemma grows_le n1 n2 s s' : grows n1 s s' → (n1 <= n2)%nat → grows n2 s s'.
Proof. intros (? & ? & ?) ?. split_and!; [done|done|lia]. Qed.

Lemma has_room_le n1 n2 s : has_room n2 s → (n1 <= n2)%nat → has_room n1 s.
Proof. intros (? & ? & ?) ?. split_and!; [lia|lia|done]. Qed.

Lemma has_room_grows n1 n2 s s' : has_room (n1 + n2) s → grows n1 s s' → has_room n2 s'.
Proof.
  intros (? & ? & ?) (He & _ & ?). unfold has_room, opts in *. rewrite He.
  split_and!; [lia|lia|done].
Qed.

(** A change elsewhere. *)
Lemma grows_same n s s' :
  (env s', wait_on_reboot s', rt_tbl s') = (env s, wait_on_reboot s, rt_tbl s) → grows n s s'.
Proof.
  intros [= He Hw Ht]. unfold grows, rt_count. rewrite Ht, Hw. split_and!; [done|done|lia].
Qed.

(** ** Rules *)

Lemma total_returns {A} b ks (m : M A) s :
  total b ks m → inv s → live_all s ks → room b s → returns m s.
Proof. intros Hm Hi Hl Hr. destruct (Hm s Hi Hl Hr) as (a & s' & ? & _). by exists a, s'. Qed.

Lemma total_unit b ks (m : M ()) s :
  total b ks m → inv s → live_all s ks → room b s →
  ∃ s', m s = Ok () s' ∧ grows (default 0%nat b) s s'.
Proof.
  intros Hm Hi Hl Hr. destruct (Hm s Hi Hl Hr) as ([] & s' & ? & ?). by exists s'.
Qed.

(** The operation returns, with at most [n] more routes. *)
Definition completes {A} (n : nat) (m : M A) (s : state) : Prop :=
  ∃ a s', m s = Ok a s' ∧ grows n s s'.

Lemma completes_returns {A} n (m : M A) s : completes n m s → returns m s.
Proof. intros (a & s' & ? & _). by exists a, s'. Qed.

Lemma completes_le {A} n1 n2 (m : M A) s : completes n1 m s → (n1 <= n2)%nat → completes n2 m s.
Proof. intros (a & s' & ? & ?) ?. exists a, s'. split; [done|by eapply grows_le]. Qed.

Lemma completes_ret {A} n (a : A) s : completes n (ret a) s.
Proof. exists a, s. split; [done|apply grows_refl]. Qed.

Lemma completes_then {A B} n1 n2 (m : M A) (f : A → M B) s a s1 :
  m s = Ok a s1 → grows n1 s s1 → completes n2 (f a) s1 → completes (n1 + n2) (bind m f) s.
Proof.
  intros R1 G1 (c & s2 & R2 & G2). exists c, s2. split; [unfold bind; by rewrite R1|].
  by eapply grows_trans.
Qed.

Lemma completes_run {A B} n (m : M A) (f : A → M B) s a s1 :
  m s = Ok a s1 → (env s1, wait_on_reboot s1, rt_tbl s1) = (env s, wait_on_reboot s, rt_tbl s) →
  completes n (f a) s1 → completes n (bind m f) s.
Proof. intros R1 E1. by apply (completes_then 0); [|apply grows_same]. Qed.

Lemma total_completes {A} b ks (m : M A) s :
  total b ks m → inv s → live_all s ks → room b s → completes (default 0%nat b) m s.
Proof. intros Hm Hi Hl Hr. by apply Hm. Qed.

(** A specification of an operation that returns. *)
Lemma wp_returned {A} E (m : M A) Q s :
  returns m s → wp E m Q s → ∃ a s', m s = Ok a s' ∧ Q a s'.
Proof.
  intros (a & s' & Hrun) Hw. exists a, s'. split; [done|]. by eapply wp_ok.
Qed.

Lemma wp_returned_unit E (m : M ()) (Q : state → Prop) s :
  returns m s → wp E m (λ _ s', Q s') s → ∃ s', m s = Ok () s' ∧ Q s'.
Proof. intros Hr Hw. destruct (wp_returned _ _ _ _ Hr Hw) as ([] & s' & ? & ?). by exists s'. Qed.

Lemma wp_returned_val {A} E (m : M A) a (Q : state → Prop) s :
  returns m s → wp E m (λ r s', r = a ∧ Q s') s → ∃ s', m s = Ok a s' ∧ Q s'.
Proof. intros Hr Hw. destruct (wp_returned _ _ _ _ Hr Hw) as (? & s' & ? & -> & ?). by exists s'. Qed.

(** The state in which a [safe] operation returns. *)
Lemma total_safe {A} md b ks (m : M A) res s :
  total b ks m → safe md ks m res → inv s → live_all s ks → room b s →
  ∃ a s', m s = Ok a s' ∧ inv s' ∧ ext md s s' ∧ live_all s' (res a ++ ks) ∧
    grows (default 0%nat b) s s'.
Proof.
  intros Hm Hs Hi Hl Hr. destruct (Hm s Hi Hl Hr) as (a & s' & Hrun & Hg).
  exists a, s'. split; [done|].
  destruct (wp_ok _ _ _ _ _ _ (wp_safe md ks m res s s Hs Hi ltac:(done) Hl) Hrun)
    as (? & ? & ?). done.
Qed.

(** The same, with a frame. *)
Lemma total_frame {A B} (g : state → B) md b ks (m : M A) s :
  total b ks m → safe md ks m nop → frames g m → inv s → live_all s ks → room b s →
  ∃ a s', m s = Ok a s' ∧ inv s' ∧ ext md s s' ∧ grows (default 0%nat b) s s' ∧ g s' = g s.
Proof.
  intros Hm Hs Hf Hi Hl Hr.
  destruct (total_safe md b ks m nop s Hm Hs Hi Hl Hr) as (a & s' & Hrun & ? & ? & _ & ?).
  exists a, s'. split_and!; [done|done|done|done|]. by eapply Hf.
Qed.

Lemma total_ret {A} b ks (a : A) : total b ks (ret a).
Proof. intros s _ _ _. do 2 eexists. split; [done|apply grows_refl]. Qed.

Lemma total_gets {A} b ks (f : state → A) : total b ks (gets f).
Proof. intros s _ _ _. do 2 eexists. split; [done|apply grows_refl]. Qed.

Lemma total_modify b ks f :
  (∀ s, (env (f s), wait_on_reboot (f s), rt_tbl (f s))
        = (env s, wait_on_reboot s, rt_tbl s)) → total b ks (modify f).
Proof. intros Hf s _ _ _. do 2 eexists. split; [done|]. apply grows_same, Hf. Qed.

Lemma total_num_active b ks g :
  total b ks (modify (λ s, set_rt_tbl (set_num_active (g s) (rt_tbl s)) s)).
Proof. intros s _ _ _. do 2 eexists. split; [done|]. by split_and!; [| |apply Nat.le_add_r]. Qed.

Lemma total_weaken {A} b ks ks' (m : M A) : total b ks' m → ks' ⊆ ks → total b ks m.
Proof.
  intros Hm Hk s Hi Hl. apply Hm; [done|].
  unfold live_all in *. rewrite Forall_forall in *. auto.
Qed.

(** Less room, or none, is enough. *)
Lemma total_free {A} b ks (m : M A) : total None ks m → total b ks m.
Proof.
  intros Hm s Hi Hl _. destruct (Hm s Hi Hl I) as (a & s' & Hrun & Hg).
  exists a, s'. split; [done|]. eapply grows_le; [done|simpl; lia].
Qed.

Lemma total_more {A} n1 n2 ks (m : M A) :
  total (Some n1) ks m → (n1 <= n2)%nat → total (Some n2) ks m.
Proof.
  intros Hm Hn s Hi Hl Hr. destruct (Hm s Hi Hl) as (a & s' & Hrun & Hg).
  { by eapply has_room_le. }
  exists a, s'. split; [done|]. by eapply grows_le.
Qed.

Lemma room_base b s : room b s → room (base b) s.
Proof. destruct b; [|done]. intros Hr. eapply has_room_le; [exact Hr|lia]. Qed.

Lemma room_after b s s' : room b s → grows 0 s s' → room b s'.
Proof. destruct b; [|done]. apply (has_room_grows 0). Qed.

Lemma total_bind {A B} md b ks (m : M A) (f : A → M B) res :
  safe md ks m res → total (base b) ks m → (∀ a, total b (res a ++ ks) (f a)) →
  total b ks (bind m f).
Proof.
  intros Hs Hm Hf s Hi Hl Hr.
  destruct (total_safe md _ ks m res s Hm Hs Hi Hl (room_base _ _ Hr))
    as (a & s1 & Hrun & Hi1 & _ & Hl1 & Hg1).
  assert (Hg : grows 0 s s1) by by destruct b.
  destruct (Hf a s1 Hi1 Hl1 (room_after _ _ _ Hr Hg)) as (c & s2 & Hrun2 & Hg2).
  exists c, s2. split; [unfold bind; by rewrite Hrun|]. exact (grows_trans 0 _ _ _ _ Hg Hg2).
Qed.

Lemma total_when b ks c m : total b ks m → total b ks (when c m).
Proof. intros Hm. destruct c; [done|apply total_ret]. Qed.

Lemma total_foreach {A B} md b ks (l : list A) (acc : B) body :
  (∀ a c, a ∈ l → safe md ks (body a c) nop) →
  (∀ a c, a ∈ l → total (base b) ks (body a c)) → total b ks (foreach l acc body).
Proof.
  revert acc. induction l as [|a l IH]; intros acc Hs Ht; [apply total_ret|]. cbn [foreach].
  eapply total_bind; [apply Hs; by left|apply Ht; by left|]. intros c. cbn [app].
  apply IH; intros; [apply Hs|apply Ht]; by right.
Qed.

Lemma total_deref {B} b ks k (f : rt_table_t → M B) :
  k ∈ ks → (∀ e, entry_ok e → rt_dest_addr e = k → total b ks (f e)) →
  total b ks (bind (rt_deref k) f).
Proof.
  intros Hk Hf s Hi Hl. destruct (proj1 (Forall_forall _ _) Hl k Hk) as [e He].
  unfold bind, rt_deref. rewrite He. apply Hf; [|by apply rt_lookup_dest in He|done|done].
  eapply rt_lookup_ok; [apply Hi|done].
Qed.

Lemma total_rt_get {A} b ks k (g : rt_table_t → A) : k ∈ ks → total b ks (rt_get k g).
Proof. intros Hk. apply total_deref; [done|]. intros e _ _. apply total_ret. Qed.

Lemma total_rt_modify b ks k f : k ∈ ks → total b ks (rt_modify k f).
Proof.
  intros Hk. apply total_deref; [done|]. intros e _ _ s Hi _ _. do 2 eexists. split; [done|].
  split_and!; [done|done|]. unfold rt_count. simpl.
  pose proof (length_concat_insert (tbl (rt_tbl s)) (hash_index k) _
    (modify_first (λ e, rt_dest_addr e =? k) f (bucket (rt_tbl s) (hash_index k)))
    (bucket_lookup _ _ (inv_table _ Hi))) as Hlen.
  rewrite length_modify_first in Hlen. lia.
Qed.

Lemma total_keys {B} b ks (f : list Z → M B) :
  (∀ l, total b (l ++ ks) (f l)) → total b ks (bind (gets rt_keys) f).
Proof.
  intros Hf s Hi Hl. apply Hf; [done|]. apply Forall_app. split; [|done].
  apply Forall_forall. intros k Hk. apply elem_of_rt_keys; [apply Hi|done].
Qed.

Lemma total_rt_find b ks d : total b ks (rt_table_find d).
Proof. apply total_gets. Qed.

(** A lookup, and what is done when there is no entry. *)
Lemma total_find_or {B} b ks d (f : option Z → M B) :
  total b (d :: ks) (f (Some d)) →
  (∀ s, inv s → live_all s ks → room b s → ¬ rt_live (rt_tbl s) d →
    ∃ a s', f None s = Ok a s' ∧ grows (default 0%nat b) s s') →
  total b ks (bind (rt_table_find d) f).
Proof.
  intros Hsome Hnone s Hi Hl Hr. unfold bind, rt_table_find, gets.
  rewrite find_entry_lookup by apply Hi.
  destruct (rt_lookup (rt_tbl s) d) as [e|] eqn:E; simpl.
  - rewrite (rt_lookup_dest _ _ _ E). apply Hsome; [done| |done].
    constructor; [by exists e|done].
  - apply Hnone; [done|done|done|]. unfold rt_live. rewrite E. by intros [].
Qed.

(** *** Timers *)

Lemma total_on_tq {A} b ks (m : CM (tqueue timer_id handler) A) :
  (∀ s, inv s → live_all s ks → ∃ a q, m (tq s) = Ok a q) → total b ks (on_tq m).
Proof.
  intros Hm s Hi Hl _. destruct (Hm s Hi Hl) as (a & q & Hq). do 2 eexists.
  split; [by apply on_tq_ok|]. by apply grows_same.
Qed.

Lemma total_timer_remove b ks id : owned_by ks id → total b ks (on_tq (timer_remove id)).
Proof.
  intros Ho. apply total_on_tq. intros s Hi Hl.
  destruct (proj2 (to_owned _ _ (inv_timers _ Hi) id) (Ho s Hl)) as [t Ht].
  destruct (timer_remove_spec (tq s) id t Ht) as [r Hr]. by do 2 eexists.
Qed.

Lemma total_timer_read {A} b ks id (g : timer handler → A) :
  owned_by ks id → total b ks (on_tq (t ← timer_get id; ret (g t))).
Proof.
  intros Ho. apply total_on_tq. intros s Hi Hl.
  destruct (proj2 (to_owned _ _ (inv_timers _ Hi) id) (Ho s Hl)) as [t Ht].
  unfold bind, timer_get. rewrite Ht. by do 2 eexists.
Qed.

Lemma total_set_handler b ks id h : owned_by ks id → total b ks (set_handler id h).
Proof.
  intros Ho. apply total_on_tq. intros s Hi Hl.
  destruct (proj2 (to_owned _ _ (inv_timers _ Hi) id) (Ho s Hl)) as [t Ht].
  unfold bind, timer_get. rewrite Ht. by do 2 eexists.
Qed.

Lemma total_gettimeofday b ks : total b ks gettimeofday.
Proof. intros s _ _ _. do 2 eexists. split; [done|]. by apply grows_same. Qed.

(** Starting a timer that has a handler does not end the process; the timer of
    an object always has one. *)
Lemma set_timeout_armed s id ms t h :
  inv s → timers (tq s) !! id = Some t → tm_handler t = Some h →
  ∃ q n, set_timeout id ms s = Ok () (set_tq q (set_clock_reads n s)).
Proof.
  intros Hi Ht Hth. pose proof (to_wf _ _ (inv_timers _ Hi)) as Hwf.
  unfold set_timeout, bind, gettimeofday, gets, modify, ret.
  destruct (timer_set_timeout_spec (tq s) id t h (env_clock (env s) (clock_reads s)) ms
              Hwf Ht Hth) as (l & Hrun & _).
  eexists _, _. apply on_tq_ok. exact Hrun.
Qed.

Lemma set_timeout_run s id ms :
  inv s → timer_owned s id → static_timer id = false →
  ∃ q n, set_timeout id ms s = Ok () (set_tq q (set_clock_reads n s)).
Proof.
  intros Hi Ho Hst. destruct (inv_timers _ Hi) as [_ Hown _ Hh].
  destruct (proj2 (Hown id) Ho) as [t Ht]. destruct (Hh id t Ht Hst) as [h Hth].
  by eapply set_timeout_armed.
Qed.

Lemma total_set_timeout b ks id ms :
  owned_by ks id → static_timer id = false → total b ks (set_timeout id ms).
Proof.
  intros Ho Hst s Hi Hl _. destruct (set_timeout_run s id ms Hi (Ho s Hl) Hst) as (q & n & H).
  exists (), (set_tq q (set_clock_reads n s)). split; [done|]. by apply grows_same.
Qed.

(** ** Automation *)

#[export] Hint Resolve total_ret total_gets total_modify total_rt_get total_rt_modify
  total_rt_find total_timer_remove total_timer_read total_set_handler total_gettimeofday
  total_num_active total_set_timeout : aodv.
#[export] Hint Extern 1 (static_timer _ = false) => reflexivity : aodv.
#[export] Hint Extern 1 (∀ s, (env _, wait_on_reboot _, rt_tbl _) = _) => intros ?; reflexivity : aodv.

Ltac total_leaf := cbn [base]; solve [eauto with aodv].

(** One step of the derivation of a [total] judgement, directed by the program. *)
Ltac total_step :=
  lazymatch goal with
  | |- total _ _ (bind (rt_deref _) _) => apply total_deref; [elem|intros ? ? ?]
  | |- total _ _ (bind (gets rt_keys) _) => apply total_keys; intros ?
  | |- total _ _ (bind _ _) =>
      first [ eapply (total_bind Full); [safe_leaf|total_leaf|intros ?; cbn [app]]
            | eapply (total_bind Full _ _ _ _ nop); [safe_go| |intros ?; cbn [app]] ]
  | |- total _ _ (ret _) => apply total_ret
  | |- total _ _ (when _ _) => apply total_when
  | |- total _ _ (if ?b then _ else _) => destruct b eqn:?
  | |- total _ (option_list ?o ++ _) (match ?o with _ => _ end) =>
      destruct o; cbn [option_list app]
  | |- total _ _ (match ?x with _ => _ end) => destruct x
  | |- total _ _ (foreach _ _ _) => apply (total_foreach Full); intros ? ? ?; [safe_go|]
  | |- total _ _ _ => total_leaf
  end.
Ltac total_go := repeat total_step.

(** ** Operations of nl.c and routing_table.c *)

Lemma total_emit b ks ev : total b ks (emit ev).
Proof. by apply total_modify. Qed.

Lemma total_nl_kern_route b ks a f i d g nm m : total b ks (nl_kern_route a f i d g nm m).
Proof. 
  intros s _ _ _. unfold nl_kern_route, nl_send. do 2 eexists. split; [done|].
  by apply grows_same.
Qed.

Lemma total_nl_add b ks d n m i : total b ks (nl_send_add_route_msg d n m i).
Proof. apply total_nl_kern_route. Qed.
Lemma total_nl_del b ks d n m : total b ks (nl_send_del_route_msg d n m).
Proof. apply total_nl_kern_route. Qed.
#[export] Hint Resolve total_emit total_nl_add total_nl_del : aodv.

Lemma total_rt_table_update_timeout b ks k l : k ∈ ks → total b ks (rt_table_update_timeout k l).
Proof. intros Hk. unfold rt_table_update_timeout, timer_timeout_of. total_go. Qed.
Lemma total_rt_is_valid b ks k : k ∈ ks → total b ks (rt_is_valid k).
Proof. intros Hk. unfold rt_is_valid. total_go. Qed.
Lemma total_precursor_list_destroy b ks k : k ∈ ks → total b ks (precursor_list_destroy k).
Proof. intros Hk. unfold precursor_list_destroy. total_go. Qed.
#[export] Hint Resolve total_rt_table_update_timeout total_rt_is_valid
  total_precursor_list_destroy : aodv.

Lemma total_refresh_route b ks k c : k ∈ ks → total b ks (refresh_route k c).
Proof. intros Hk. unfold refresh_route, timer_used. total_go. Qed.
#[export] Hint Resolve total_refresh_route : aodv.

Lemma total_update_route_timeouts b ks f r :
  option_list f ⊆ ks → option_list r ⊆ ks → total b ks (rt_table_update_route_timeouts f r).
Proof.
  intros Hf Hr. unfold rt_table_update_route_timeouts.
  destruct f as [f|], r as [r|]; cbn [option_list] in *;
    try (assert (f ∈ ks) by set_solver); try (assert (r ∈ ks) by set_solver); total_go.
Qed.

(** Invalidating a route never fails. *)
Lemma total_rt_table_invalidate b ks k : k ∈ ks → total b ks (rt_table_invalidate k).
Proof. intros Hk. unfold rt_table_invalidate. total_go. Qed.
#[export] Hint Resolve total_rt_table_invalidate : aodv.

Lemma total_sys_call b ks : total b ks sys_call.
Proof. unfold sys_call. total_go. Qed.
Lemma total_precursor_add b ks k a : k ∈ ks → total b ks (precursor_add k a).
Proof. intros Hk. unfold precursor_add. total_go. Qed.
#[export] Hint Resolve total_sys_call total_precursor_add total_update_route_timeouts : aodv.
