(* ===== verification/PacketQueue.v ===== *)
(** * network/packet_queue.c and network/nfqueue.c: buffered data packets

    Packets that wait for a route are held by the kernel's NFQUEUE; the
    daemon keeps their ids and answers each with a verdict. *)

From S2P Require Import Prelude.
From S2P Require Import Params.
From S2P Require Import Bytes.
From S2P Require Import TimerQueue.
From S2P Require Import State.
From S2P Require Import Frame.
From S2P Require Import Nl.
From S2P Require Import RtTable.
From S2P Require Import Inv.
From S2P Require Import Total.

#[local] Open Scope cm_scope.

(** [nfqueue_set_packet_verdict] (its result is ignored by the queue). *)
Definition nfqueue_set_packet_verdict (packet_id verdict : Z) : M () :=
  q ← gets nfq_queue;
  when q (emit (EvVerdict packet_id verdict)).

Definition packet_queue_init : M () :=
  modify (set_PQ (mk_pq [] 0)) ;;
  on_tq (timer_init GcTimer packet_queue_timeout) ;;
  set_timeout GcTimer GARBAGE_COLLECT_TIME.

Definition packet_queue_destroy : M () :=
  q ← gets (λ s, pq_head (PQ s));
  foreach q () (λ qp _,
    modify (λ s, set_PQ (mk_pq (tail (pq_head (PQ s))) (pq_len (PQ s))) s) ;;
    nfqueue_set_packet_verdict (qp_packet_id qp) NF_DROP) ;;
  modify (λ s, set_PQ (mk_pq (pq_head (PQ s)) 0) s).

Definition packet_queue_add (packet_id dest_addr : Z) : M () :=
  pq ← gets PQ;
  match pq_head pq with
  | qp :: rest =>
      when (MAX_QUEUE_LENGTH <=? pq_len pq)
        (modify (set_PQ (mk_pq rest (pq_len pq))) ;;
         nfqueue_set_packet_verdict (qp_packet_id qp) NF_DROP ;;
         modify (λ s, set_PQ (mk_pq (pq_head (PQ s)) (u32 (pq_len (PQ s) - 1))) s))
  | [] => ret ()
  end ;;
  now ← gettimeofday;
  modify (λ s, set_PQ (mk_pq (pq_head (PQ s) ++ [mk_q_pkt dest_addr now packet_id])
                             (u32 (pq_len (PQ s) + 1))) s).

(** A [list_foreach_safe] loop that detaches the packets selected by [p],
    answers each with [verdict] and counts them: [kept] are the packets before
    the current position, [todo] the ones from it on. *)
Fixpoint drain_loop (p : q_pkt → bool) (verdict : Z) (kept todo : list q_pkt) (count : Z)
  : M Z :=
  match todo with
  | [] => ret count
  | qp :: rest =>
      if p qp then
        modify (λ s, set_PQ (mk_pq (kept ++ rest) (pq_len (PQ s))) s) ;;
        nfqueue_set_packet_verdict (qp_packet_id qp) verdict ;;
        modify (λ s, set_PQ (mk_pq (pq_head (PQ s)) (u32 (pq_len (PQ s) - 1))) s) ;;
        drain_loop p verdict kept rest (count + 1)
      else drain_loop p verdict (kept ++ [qp]) rest count
  end.

Definition drain (p : q_pkt → bool) (verdict : Z) : M Z :=
  q ← gets (λ s, pq_head (PQ s)); drain_loop p verdict [] q 0.

(** The refresh of the route over which packets are released. *)
Definition refresh_released (rt verdict : Z) : M () :=
  valid ← rt_is_valid rt;
  when (valid && negb (verdict =? PQ_DROP))
    (o ← gets opts;
     rt_table_update_timeout rt (active_route_timeout o) ;;
     nh ← rt_get rt rt_next_hop;
     next_hop_rt ← rt_table_find nh;
     match next_hop_rt with
     | None => ret ()
     | Some n =>
         e ← rt_deref n;
         d ← rt_get rt rt_dest_addr;
         when ((rt_state e =? VALID) && negb (rt_dest_addr e =? d))
           (rt_table_update_timeout n (active_route_timeout o))
     end).

Definition packet_queue_set_verdict (dest_addr verdict : Z) : M Z :=
  rt ← (if verdict =? PQ_DROP then ret None
        else
          inet_rt ← (if verdict =? PQ_ENC_SEND then rt_table_find dest_addr else ret None);
          rt ← rt_table_find dest_addr;
          match rt, inet_rt with
          | None, Some i => nh ← rt_get i rt_next_hop; rt_table_find nh
          | _, _ => ret rt
          end);
  if negb (verdict =? PQ_DROP) && bool_decide (rt = None) then ret (-1) else
  count ← drain (λ qp, qp_dest_addr qp =? dest_addr)
            (if verdict =? PQ_DROP then NF_DROP else NF_ACCEPT);
  match rt with
  | Some rt => refresh_released rt verdict
  | None => ret ()
  end ;;
  ret count.

Definition packet_queue_garbage_collect : M Z :=
  now ← gettimeofday;
  drain (λ qp, negb (timeval_diff now (qp_q_time qp) <=? MAX_QUEUE_TIME)) NF_DROP.

(** The handler of the queue's timer. *)
Definition packet_queue_timeout_h : M () :=
  packet_queue_garbage_collect ;;
  set_timeout GcTimer GARBAGE_COLLECT_TIME.

(** [nl_send_no_route_found_msg] of nl.c drops the packets of a destination. *)
Definition nl_send_no_route_found_msg (dest : Z) : M Z :=
  packet_queue_set_verdict dest PQ_DROP.

(** ** What the loops over the queue do *)

(** The verdict events of the packets [l], most recent first. *)
Definition verdict_events (s : state) (verdict : Z) (l : list q_pkt) : list event :=
  if nfq_queue s then reverse ((λ qp, EvVerdict (qp_packet_id qp) verdict) <$> l) else [].

Definition selected (p : q_pkt → bool) (l : list q_pkt) : list q_pkt :=
  filter (λ qp, p qp = true) l.
Definition unselected (p : q_pkt → bool) (l : list q_pkt) : list q_pkt :=
  filter (λ qp, p qp = false) l.

(** The state after the packets selected by [p] have left the queue. *)
Definition drained (p : q_pkt → bool) (verdict : Z) (s : state) : state :=
  let q := pq_head (PQ s) in
  set_trace (verdict_events s verdict (selected p q) ++ trace s)
    (set_PQ (mk_pq (unselected p q) (Z.of_nat (length (unselected p q)))) s).

Lemma length_selected p l : (length (selected p l) + length (unselected p l) = length l)%nat.
Proof.
  induction l as [|a l IH]; [done|]. unfold selected, unselected in *.
  rewrite !filter_cons. destruct (p a) eqn:E; simpl; repeat case_decide; simpl; lia || congruence.
Qed.

Lemma verdict_run i v s :
  nfqueue_set_packet_verdict i v s
  = Ok () (set_trace ((if nfq_queue s then [EvVerdict i v] else []) ++ trace s) s).
Proof.
  unfold nfqueue_set_packet_verdict, bind, gets. destruct s; simpl.
  by destruct nfq_queue.
Qed.

Lemma drain_loop_run p verdict todo : ∀ kept count s,
  pq_head (PQ s) = kept ++ todo →
  pq_len (PQ s) = Z.of_nat (length (kept ++ todo)) →
  Z.of_nat (length (kept ++ todo)) < 4294967296 →
  drain_loop p verdict kept todo count s
  = Ok (count + Z.of_nat (length (selected p todo)))
      (set_trace (verdict_events s verdict (selected p todo) ++ trace s)
        (set_PQ (mk_pq (kept ++ unselected p todo)
                       (Z.of_nat (length (kept ++ unselected p todo)))) s)).
Proof.
  induction todo as [|qp todo IH]; intros kept count s Hq Hlen Hmax; simpl.
  - unfold selected, unselected, verdict_events. simpl. rewrite app_nil_r in *.
    rewrite Z.add_0_r. unfold ret. f_equal.
    destruct s as [? ? ? ? ? ? ? ? ? ? ? ? pq]; destruct pq; simpl in *. subst.
    by destruct nfq_queue.
  - rewrite length_app in Hmax, Hlen. simpl in Hmax, Hlen.
    unfold selected, unselected in *. rewrite !filter_cons.
    destruct (p qp) eqn:Hp.
    + rewrite decide_True, decide_False by done.
      set (s1 := set_trace (verdict_events s verdict [qp] ++ trace s)
                   (set_PQ (mk_pq (kept ++ todo) (Z.of_nat (length (kept ++ todo)))) s)).
      transitivity (drain_loop p verdict kept todo (count + 1) s1).
      { unfold bind, modify. rewrite verdict_run. simpl.
        assert (Hu : u32 (pq_len (PQ s) - 1) = Z.of_nat (length (kept ++ todo))).
        { rewrite length_app. rewrite u32_small; lia. }
        rewrite Hu. unfold s1, verdict_events. simpl. by destruct (nfq_queue s). }
      rewrite IH; [|done|done|simpl; rewrite length_app; lia].
      f_equal; [simpl; lia|]. unfold s1, verdict_events. simpl.
      destruct (nfq_queue s); [|done]. rewrite reverse_singleton, reverse_cons, <- app_assoc. done.
    + rewrite decide_False, decide_True by congruence.
      rewrite IH; rewrite <- ?app_assoc; simpl; try done; rewrite ?length_app; simpl; lia.
Qed.

(** [drain] removes exactly the selected packets, in order, with one verdict
    for each, and counts them. *)
Lemma drain_run p verdict s :
  inv s →
  drain p verdict s
  = Ok (Z.of_nat (length (selected p (pq_head (PQ s))))) (drained p verdict s).
Proof.
  intros Hi. unfold drain, bind, gets.
  pose proof (inv_pq _ Hi) as Hlen. pose proof (inv_pq_max _ Hi) as Hmax.
  rewrite drain_loop_run; simpl; [done|done|done|]. unfold MAX_QUEUE_LENGTH in *. lia.
Qed.

Lemma inv_drained p verdict s : inv s → inv (drained p verdict s).
Proof.
  intros Hi. pose proof (length_selected p (pq_head (PQ s))).
  destruct Hi. split; simpl in *; try done. lia.
Qed.

Section safe.
Context (md : mode).

Lemma safe_set_verdict_nf ks i v : safe md ks (nfqueue_set_packet_verdict i v) nop.
Proof. unfold nfqueue_set_packet_verdict. safe_go. Qed.

Lemma safe_drain ks p v : safe md ks (drain p v) nop.
Proof.
  intros s Hi Hl. unfold wp. rewrite drain_run by done.
  split_and!; [by apply inv_drained|by split|constructor].
Qed.

Lemma safe_packet_queue_add ks i d : safe md ks (packet_queue_add i d) nop.
Proof.
  intros s Hi Hl. unfold wp, packet_queue_add, bind, gets.
  pose proof (inv_pq _ Hi) as Hlen. pose proof (inv_pq_max _ Hi) as Hmax.
  unfold MAX_QUEUE_LENGTH in *.
  destruct (pq_head (PQ s)) as [|qp rest] eqn:Hh; simpl in *.
  - split_and!; [|by split|constructor]. destruct Hi. split; simpl; try done.
    + rewrite Hh. simpl. rewrite Hlen. done.
    + rewrite Hlen. done.
  - unfold when. destruct (512 <=? pq_len (PQ s)) eqn:Hge.
    all: unfold nfqueue_set_packet_verdict, when, emit, modify, ret, gets, bind; simpl.
    2:{ split_and!; [|by split|constructor]. destruct Hi. split; simpl; try done.
        - rewrite Hh, u32_small by lia. rewrite !length_app. simpl. lia.
        - rewrite u32_small by lia. unfold MAX_QUEUE_LENGTH. lia. }
    destruct (nfq_queue s); simpl; rewrite (u32_small (_ - 1)) by lia.
    all: split_and!; [|by split|constructor]; destruct Hi; split; simpl; try done;
      rewrite u32_small by lia; rewrite ?length_app; simpl; unfold MAX_QUEUE_LENGTH; lia.
Qed.
End safe.
#[export] Hint Resolve safe_set_verdict_nf safe_drain safe_packet_queue_add : aodv.

Lemma safe_refresh_released md ks k v : k ∈ ks → safe md ks (refresh_released k v) nop.
Proof. intros Hk. unfold refresh_released. safe_go. Qed.
#[export] Hint Resolve safe_refresh_released : aodv.

(** The lookup of the route of a destination whose packets get a verdict. *)
Lemma safe_verdict_route md ks d v :
  safe md ks (if v =? PQ_DROP then ret None
    else
      inet_rt ← (if v =? PQ_ENC_SEND then rt_table_find d else ret None);
      rt ← rt_table_find d;
      match rt, inet_rt with
      | None, Some i => nh ← rt_get i rt_next_hop; rt_table_find nh
      | _, _ => ret rt
      end) option_list.
Proof.
  destruct (v =? PQ_DROP); [apply safe_ret, list_subseteq_nil|].
  apply (safe_bind _ _ _ _ option_list).
  { destruct (v =? PQ_ENC_SEND); [apply safe_rt_find|apply safe_ret, list_subseteq_nil]. }
  intros inet. eapply safe_bind; [apply safe_rt_find|]. intros rt.
  destruct rt as [rt|], inet as [i|]; cbn [option_list app].
  1,2: apply safe_ret; set_solver.
  - safe_step. apply safe_rt_find.
  - apply safe_ret, list_subseteq_nil.
Qed.

Section safe2.
Context (md : mode).

Lemma safe_packet_queue_set_verdict ks d v :
  safe md ks (packet_queue_set_verdict d v) nop.
Proof.
  unfold packet_queue_set_verdict.
  eapply safe_bind; [apply safe_verdict_route|]. intros rt. safe_go.
Qed.

Lemma safe_garbage_collect ks : safe md ks packet_queue_garbage_collect nop.
Proof. unfold packet_queue_garbage_collect. safe_go. Qed.
End safe2.
#[export] Hint Resolve safe_packet_queue_set_verdict safe_garbage_collect : aodv.

Section safe3.
Context (md : mode).

Lemma safe_packet_queue_timeout ks : safe md ks packet_queue_timeout_h nop.
Proof. unfold packet_queue_timeout_h. safe_go. Qed.

Lemma safe_no_route_found ks d : safe md ks (nl_send_no_route_found_msg d) nop.
Proof. apply safe_packet_queue_set_verdict. Qed.
End safe3.
#[export] Hint Resolve safe_packet_queue_timeout safe_no_route_found : aodv.

(** ** Return *)

Lemma total_drain b ks p v : total b ks (drain p v).
Proof. intros s Hi _ _. do 2 eexists. split; [by apply drain_run|]. by apply grows_same. Qed.

Lemma total_set_verdict_nf b ks i v : total b ks (nfqueue_set_packet_verdict i v).
Proof. unfold nfqueue_set_packet_verdict. total_go. Qed.

Lemma total_refresh_released b ks k v : k ∈ ks → total b ks (refresh_released k v).
Proof. intros Hk. unfold refresh_released. total_go. Qed.
#[export] Hint Resolve total_drain total_set_verdict_nf total_refresh_released : aodv.

Lemma total_packet_queue_add b ks i d : total b ks (packet_queue_add i d).
Proof.
  intros s _ _ _. unfold packet_queue_add, bind, gets.
  destruct (pq_head (PQ s)) as [|qp rest]; [|destruct (MAX_QUEUE_LENGTH <=? pq_len (PQ s))];
    cbn [when]; unfold modify, ret; try rewrite verdict_run;
    do 2 eexists; (split; [reflexivity|by apply grows_same]).
Qed.

Lemma total_packet_queue_set_verdict b ks d v : total b ks (packet_queue_set_verdict d v).
Proof.
  unfold packet_queue_set_verdict.
  eapply (total_bind Full); [apply safe_verdict_route| |intros rt; total_go].
  destruct (v =? PQ_DROP); [apply total_ret|].
  eapply (total_bind Full _ _ _ _ option_list).
  { destruct (v =? PQ_ENC_SEND); [apply safe_rt_find|apply safe_ret, list_subseteq_nil]. }
  { total_go. }
  intros inet. eapply (total_bind Full); [apply safe_rt_find|total_go|].
  intros rt. destruct rt as [rt|], inet as [i|]; cbn [option_list app]; total_go.
Qed.
#[export] Hint Resolve total_packet_queue_add total_packet_queue_set_verdict : aodv.

Lemma total_no_route_found b ks d : total b ks (nl_send_no_route_found_msg d).
Proof. apply total_packet_queue_set_verdict. Qed.
#[export] Hint Resolve total_no_route_found : aodv.

(** ** Properties *)

(** What a queue shows to the outside: its packets and the daemon's effects. *)
Definition queue_view (s : state) : list q_pkt * list event := (pq_head (PQ s), trace s).

Lemma set_verdict_route s d v :
  inv s → v ≠ PQ_DROP → rt_live (rt_tbl s) d →
  (if v =? PQ_DROP then ret None
   else
     inet_rt ← (if v =? PQ_ENC_SEND then rt_table_find d else ret None);
     rt ← rt_table_find d;
     match rt, inet_rt with
     | None, Some i => nh ← rt_get i rt_next_hop; rt_table_find nh
     | _, _ => ret rt
     end) s = Ok (Some d) s.
Proof.
  intros Hi Hv [e He]. rewrite (proj2 (Z.eqb_neq _ _) Hv).
  assert (Hf : rt_table_find d s = Ok (Some d) s).
  { unfold rt_table_find, gets. rewrite find_entry_lookup by apply Hi. rewrite He. simpl.
    by rewrite (rt_lookup_dest _ _ _ He). }
  unfold bind. destruct (v =? PQ_ENC_SEND); [rewrite !Hf|unfold ret at 1; rewrite Hf]; done.
Qed.

(** It returns and touches neither the queue nor the outside. *)
Lemma refresh_released_run s d v :
  inv s → rt_live (rt_tbl s) d →
  ∃ a s', refresh_released d v s = Ok a s' ∧ queue_view s' = queue_view s.
Proof.
  intros Hi Hd. unfold refresh_released. eapply (wp_returned buf_ub).
  - apply (total_returns None [d]); [total_go|done|live|done].
  - eapply wp_mono; [apply (wp_frame queue_view); [unfold rt_is_valid, rt_table_update_timeout;
      frame_go|apply (wp_safe_end Full [d] _ nop s); [safe_go|done|done|live]]|].
    by intros a s' [_ ?].
Qed.

(** The packets of [d] and what becomes of them. *)
Lemma set_verdict_spec (s : state) (d v : Z) :
  inv s → v = PQ_DROP ∨ (v = PQ_SEND ∨ v = PQ_ENC_SEND) ∧ rt_live (rt_tbl s) d →
  let mine := filter (λ qp, (qp_dest_addr qp =? d) = true) (pq_head (PQ s)) in
  let nfv := if v =? PQ_DROP then NF_DROP else NF_ACCEPT in
  ∃ s', packet_queue_set_verdict d v s = Ok (Z.of_nat (length mine)) s' ∧
    pq_head (PQ s') = filter (λ qp, (qp_dest_addr qp =? d) = false) (pq_head (PQ s)) ∧
    trace s' = (if nfq_queue s
                then reverse ((λ qp, EvVerdict (qp_packet_id qp) nfv) <$> mine) else [])
               ++ trace s.
Proof.
  intros Hi Hv mine nfv. unfold packet_queue_set_verdict.
  set (p := λ qp : q_pkt, qp_dest_addr qp =? d).
  pose proof (drain_run p nfv s Hi) as Hd.
  assert (Hi' := inv_drained p nfv s Hi).
  destruct Hv as [->|[Hv Hl]].
  - erewrite bind_ok by done. change (negb (PQ_DROP =? PQ_DROP)) with false. cbn [andb].
    erewrite bind_ok by exact Hd.
    by eexists.
  - assert (Hne : v ≠ PQ_DROP) by (destruct Hv as [->| ->]; done).
    erewrite bind_ok by (by apply set_verdict_route).
    rewrite bool_decide_eq_false_2 by done. rewrite andb_false_r.
    erewrite bind_ok by exact Hd.
    destruct (refresh_released_run (drained p nfv s) d v Hi' Hl) as (a & s' & Hrun & Hq).
    injection Hq as Hq1 Hq2. eexists. split_and!; [|by rewrite Hq1|by rewrite Hq2].
    by erewrite bind_ok by exact Hrun.
Qed.

(** C15: releasing or dropping the packets of a destination takes exactly the
    packets buffered for it out of the queue, oldest first, with one verdict
    for each (accept, or drop), keeps the others in order, and returns how
    many there were. *)
Theorem set_verdict_exact (s : state) (d v : Z) :
  inv s → v = PQ_DROP ∨ (v = PQ_SEND ∨ v = PQ_ENC_SEND) ∧ rt_live (rt_tbl s) d →
  let mine := filter (λ qp, (qp_dest_addr qp =? d) = true) (pq_head (PQ s)) in
  let nfv := if v =? PQ_DROP then NF_DROP else NF_ACCEPT in
  ∃ s', packet_queue_set_verdict d v s = Ok (Z.of_nat (length mine)) s' ∧
    pq_head (PQ s') = filter (λ qp, (qp_dest_addr qp =? d) = false) (pq_head (PQ s)) ∧
    trace s' = (if nfq_queue s
                then reverse ((λ qp, EvVerdict (qp_packet_id qp) nfv) <$> mine) else [])
               ++ trace s.
Proof. apply set_verdict_spec. Qed.

(** A queued packet goes to the tail of the queue; when the queue is full,
    the oldest packet leaves it with a drop verdict, so that the queue never
    holds more than [MAX_QUEUE_LENGTH] packets. *)
Theorem packet_queue_add_bounded (s : state) (id d : Z) :
  inv s →
  let q := pq_head (PQ s) in
  let full := Z.of_nat (length q) =? MAX_QUEUE_LENGTH in
  ∃ now s', packet_queue_add id d s = Ok () s' ∧
    pq_head (PQ s') = (if full then tail q else q) ++ [mk_q_pkt d now id] ∧
    trace s' = (if full && nfq_queue s
                then [EvVerdict (default 0 (qp_packet_id <$> head q)) NF_DROP] else [])
               ++ trace s ∧
    (length (pq_head (PQ s')) <= Z.to_nat MAX_QUEUE_LENGTH)%nat.
Proof.
  intros Hi q full. pose proof (inv_pq _ Hi) as Hlen. pose proof (inv_pq_max _ Hi) as Hmax.
  exists (env_clock (env s) (clock_reads s)). unfold full, q, MAX_QUEUE_LENGTH in *.
  unfold packet_queue_add, bind, gets. destruct (pq_head (PQ s)) as [|qp rest] eqn:Hh.
  - eexists. split; [done|]. simpl. rewrite Hh. split_and!; [done|done|simpl; lia].
  - unfold when, MAX_QUEUE_LENGTH. rewrite Hlen.
    assert (Hb : (512 <=? Z.of_nat (length (qp :: rest)))
                 = (Z.of_nat (length (qp :: rest)) =? 512)).
    { apply eq_true_iff_eq. rewrite Z.leb_le, Z.eqb_eq. lia. }
    rewrite Hb. destruct (Z.of_nat (length (qp :: rest)) =? 512) eqn:Hf.
    + unfold modify. rewrite verdict_run. simpl. eexists. split; [done|]. simpl.
      split_and!; [done|by destruct (nfq_queue s)|].
      apply Z.eqb_eq in Hf. simpl in Hf. rewrite length_app. simpl. lia.
    + eexists. split; [done|]. simpl. rewrite Hh. split_and!; [done|done|].
      apply Z.eqb_neq in Hf. simpl in *. rewrite length_app. simpl. lia.
Qed.

(** The garbage collector drops exactly the packets that have waited more
    than [MAX_QUEUE_TIME] milliseconds. *)
Theorem garbage_collect_exact (s : state) :
  inv s →
  let now := env_clock (env s) (clock_reads s) in
  let old qp := MAX_QUEUE_TIME <? timeval_diff now (qp_q_time qp) in
  ∃ s', packet_queue_garbage_collect s
        = Ok (Z.of_nat (length (filter (λ qp, old qp = true) (pq_head (PQ s))))) s' ∧
    pq_head (PQ s') = filter (λ qp, old qp = false) (pq_head (PQ s)) ∧
    trace s' = (if nfq_queue s
                then reverse ((λ qp, EvVerdict (qp_packet_id qp) NF_DROP) <$>
                       filter (λ qp, old qp = true) (pq_head (PQ s))) else []) ++ trace s.
Proof.
  intros Hi now old. unfold packet_queue_garbage_collect.
  erewrite bind_ok by done. set (s1 := set_clock_reads _ s).
  assert (Hi1 : inv s1) by by destruct Hi.
  fold now.
  set (p := λ qp, negb (timeval_diff now (qp_q_time qp) <=? MAX_QUEUE_TIME)).
  assert (Hold : ∀ qp, p qp = old qp).
  { intros qp. unfold p, old. by rewrite Z.leb_antisym, negb_involutive. }
  assert (Hsel : selected p (pq_head (PQ s)) = filter (λ qp, old qp = true) (pq_head (PQ s)))
    by (apply list_filter_iff; intros qp; by rewrite Hold).
  assert (Hun : unselected p (pq_head (PQ s)) = filter (λ qp, old qp = false) (pq_head (PQ s)))
    by (apply list_filter_iff; intros qp; by rewrite Hold).
  eexists. split; [|split].
  - rewrite drain_run by done. simpl. by rewrite Hsel.
  - simpl. by rewrite Hun.
  - simpl. unfold verdict_events. simpl. by rewrite Hsel.
Qed.
