(* ===== verification/SeekList.v ===== *)
(** * routing/seek_list.c: the destinations under route discovery *)

From S2P Require Import Prelude.
From S2P Require Import Params.
From S2P Require Import Bytes.
From S2P Require Import TimerQueue.
From S2P Require Import State.
From S2P Require Import Frame.
From S2P Require Import Nl.
From S2P Require Import RtTable.
From S2P Require Import Inv.
From S2P Require Import Total.

#[local] Open Scope cm_scope.

Definition seek_lookup (l : list seek_list_t) (dest_addr : Z) : option seek_list_t :=
  search (λ e, sk_dest_addr e =? dest_addr) l.

Definition seek_list_insert (dest_addr dest_seqno ttl flags : Z) : M Z :=
  on_tq (timer_init (SeekTimer dest_addr) route_discovery_timeout) ;;
  modify (λ s, set_seekhead
    (mk_seek dest_addr dest_seqno (u8 flags) 0 ttl :: seekhead s) s) ;;
  ret dest_addr.

(** [seek_list_remove]; [None] is NULL. *)
Definition seek_list_remove (entry : option Z) : M bool :=
  match entry with
  | None => ret false
  | Some d =>
      modify (λ s, set_seekhead (remove_first (λ e, sk_dest_addr e =? d) (seekhead s)) s) ;;
      on_tq (timer_remove (SeekTimer d)) ;;
      on_tq (timer_free (SeekTimer d)) ;;
      ret true
  end.

Definition seek_list_find (dest_addr : Z) : M (option Z) :=
  gets (λ s, sk_dest_addr <$> seek_lookup (seekhead s) dest_addr).

Definition seek_deref (d : Z) : M seek_list_t := λ s,
  match seek_lookup (seekhead s) d with
  | Some e => Ok e s
  | None => Ub UseAfterFree
  end.

Definition seek_modify (d : Z) (f : seek_list_t → seek_list_t) : M () :=
  seek_deref d ;;
  modify (λ s, set_seekhead (modify_first (λ e, sk_dest_addr e =? d) f (seekhead s)) s).

(** ** Specifications *)

Lemma seek_lookup_dest l d e : seek_lookup l d = Some e → sk_dest_addr e = d.
Proof. intros [_ H]%search_Some. by apply Z.eqb_eq in H. Qed.

Lemma seek_lookup_elem l d : is_Some (seek_lookup l d) ↔ d ∈ sk_dest_addr <$> l.
Proof.
  rewrite list_elem_of_fmap. split.
  - intros [e He]. exists e. split; [by rewrite (seek_lookup_dest _ _ _ He)|].
    by apply search_Some in He as [? _].
  - intros (e & -> & He). eapply search_is_Some; [done|]. by apply Z.eqb_refl.
Qed.

Lemma seek_lookup_None l d : seek_lookup l d = None ↔ d ∉ sk_dest_addr <$> l.
Proof. by rewrite <- seek_lookup_elem, <- eq_None_not_Some. Qed.

(** A destination is inserted at most once. *)
Lemma seek_list_insert_run s d sq ttl fl :
  inv s → d ∉ sk_dest_addr <$> seekhead s →
  ∃ s', seek_list_insert d sq ttl fl s = Ok d s' ∧ inv s' ∧ ext Full s s' ∧
    seekhead s' = mk_seek d sq (u8 fl) 0 ttl :: seekhead s ∧ grows 0 s s'.
Proof.
  intros Hi Hd.
  destruct (timers_ok_fresh _ _ (SeekTimer d) route_discovery_timeout
    (inv_timers _ Hi)) as (q & Hq & Hok & Hext & _); [done|done|].
  unfold seek_list_insert. erewrite bind_ok by (apply on_tq_ok; exact Hq).
  eexists. split; [reflexivity|]. simpl. split_and!; [| |done|by apply grows_same].
  - destruct Hi. split; simpl; try done; [|by apply NoDup_cons].
    eapply timers_ok_iff; [|exact Hok]. intros id. destruct id; simpl; try intuition congruence.
    rewrite elem_of_cons. intuition congruence.
  - destruct Hext. by split.
Qed.

Lemma seek_list_insert_spec s d sq ttl fl :
  inv s → d ∉ sk_dest_addr <$> seekhead s →
  wp buf_ub (seek_list_insert d sq ttl fl) (λ r s', r = d ∧ inv s' ∧ ext Full s s' ∧
    seekhead s' = mk_seek d sq (u8 fl) 0 ttl :: seekhead s) s.
Proof.
  intros Hi Hd. destruct (seek_list_insert_run s d sq ttl fl Hi Hd) as (s' & Hrun & ? & ? & ? & _).
  unfold wp. by rewrite Hrun.
Qed.

Lemma elem_of_remove_seek l d j :
  NoDup (sk_dest_addr <$> l) →
  j ∈ sk_dest_addr <$> remove_first (λ e, sk_dest_addr e =? d) l
  ↔ j ≠ d ∧ j ∈ sk_dest_addr <$> l.
Proof.
  induction l as [|e l IH]; intros Hnd; cbn [remove_first].
  - split; [by intros ?%not_elem_of_nil|by intros [_ ?%not_elem_of_nil]].
  - rewrite fmap_cons in Hnd |- *. apply NoDup_cons in Hnd as [He Hnd].
    destruct (sk_dest_addr e =? d) eqn:E.
    + apply Z.eqb_eq in E. rewrite elem_of_cons. subst d.
      split; [|tauto]. intros Hj. split; [|tauto]. by intros ->.
    + rewrite fmap_cons, !elem_of_cons, IH by done. apply Z.eqb_neq in E.
      intuition congruence.
Qed.

(** The removal of an entry returns, and concerns the seek list and its timers
    alone. *)
Lemma seek_list_remove_run s d :
  inv s → d ∈ (sk_dest_addr <$> seekhead s) →
  ∃ s', seek_list_remove (Some d) s = Ok true s' ∧ inv s' ∧ ext Full s s' ∧
    seekhead s' = remove_first (λ e, sk_dest_addr e =? d) (seekhead s) ∧
    (PQ s', trace s', nfq_queue s') = (PQ s, trace s, nfq_queue s) ∧ grows 0 s s'.
Proof.
  intros Hi Hd.
  destruct (timers_ok_remove _ _ (SeekTimer d) (inv_timers _ Hi) Hd)
    as (r & q & Hq & Hok & [He Hx Hlg] & Hn); [done|].
  destruct (timers_ok_free _ _ (SeekTimer d) Hok) as (q' & Hq' & Hok' & HT & HX).
  { rewrite Hn. tauto. }
  unfold seek_list_remove. erewrite bind_ok by done.
  erewrite bind_ok by (apply on_tq_ok; exact Hq).
  erewrite bind_ok by (apply on_tq_ok; exact Hq').
  eexists. split; [reflexivity|]. simpl. split_and!; [| |done|done|by apply grows_same].
  - pose proof (inv_seek _ Hi) as Hnd. destruct Hi. split; simpl; try done.
    + eapply timers_ok_iff; [|exact Hok']. intros id.
      destruct id; simpl; try intuition congruence.
      rewrite elem_of_remove_seek by done. intuition congruence.
    + by apply NoDup_map_remove_first.
  - split; simpl; try done; unfold linked; simpl; rewrite ?HT, ?HX; [done|lia|done].
Qed.

Lemma seek_list_remove_spec s d :
  inv s → d ∈ sk_dest_addr <$> seekhead s →
  wp buf_ub (seek_list_remove (Some d)) (λ r s', r = true ∧ inv s' ∧ ext Full s s' ∧
    seekhead s' = remove_first (λ e, sk_dest_addr e =? d) (seekhead s)) s.
Proof.
  intros Hi Hd. destruct (seek_list_remove_run s d Hi Hd) as (s' & Hrun & ? & ? & ? & _).
  unfold wp. by rewrite Hrun.
Qed.

Lemma seek_list_find_ok s d :
  d ∈ (sk_dest_addr <$> seekhead s) → seek_list_find d s = Ok (Some d) s.
Proof.
  intros [x Hx]%seek_lookup_elem. unfold seek_list_find, gets. rewrite Hx.
  cbn [fmap option_fmap option_map]. by rewrite (seek_lookup_dest _ _ _ Hx).
Qed.
