(* ===== verification/Socket.v ===== *)
(** * network/aodv_socket.c: message buffers and sending

    Messages under construction live in the one global [send_buf]: a message
    pointer that a [*_create] function returns is the start of that buffer,
    and building a second message overwrites the first. *)

From S2P Require Import Prelude.
From S2P Require Import Params.
From S2P Require Import Bytes.
From S2P Require Import TimerQueue.
From S2P Require Import State.
From S2P Require Import Frame.
From S2P Require Import Nl.
From S2P Require Import RtTable.
From S2P Require Import Inv.
From S2P Require Import Total.

#[local] Open Scope cm_scope.

Definition aodv_socket_new_msg : M () :=
  modify (set_send_buf (replicate (Z.to_nat SEND_BUF_SIZE) 0)).

(** [memcpy(send_buf, aodv_msg, size)] from the receive buffer. *)
Definition aodv_socket_queue_msg (size : Z) : M () := λ s,
  if (size <? 0) || (SEND_BUF_SIZE <? size) then Ub SendBufOverflow
  else let n := Z.to_nat size in
       Ok () (set_send_buf (take n (recv_buf s) ++ drop n (send_buf s)) s).

(** The sliding window of the last [RATELIMIT - 1] transmissions: [None] when
    the message must be dropped, the new window otherwise. *)
Definition rate_limit (limit : nat) (w : list timeval) (num : Z) (now : timeval)
  : option (list timeval * Z) :=
  if num =? Z.of_nat (limit - 1) then
    if timeval_diff now (default tv_zero (w !! 0%nat)) <? 1000 then None
    else Some (<[Z.to_nat (num - 1) := now]>
                 (take (Z.to_nat (num - 1)) (drop 1 w) ++ drop (Z.to_nat (num - 1)) w), num)
  else Some (<[Z.to_nat num := now]> w, num + 1).

(** The [if (ratelimit)] block: [false] when the message is dropped. *)
Definition ratelimit_check (type : Z) : M bool :=
  o ← gets opts;
  if ratelimit o then
    now ← gettimeofday;
    if type =? AODV_RREQ then
      w ← gets rreq_ratel; n ← gets num_rreq;
      match rate_limit RREQ_RATELIMIT w n now with
      | None => ret false
      | Some (w', n') => modify (set_rreq_ratel w') ;; modify (set_num_rreq n') ;; ret true
      end
    else if type =? AODV_RERR then
      w ← gets rerr_ratel; n ← gets num_rerr;
      match rate_limit RERR_RATELIMIT w n now with
      | None => ret false
      | Some (w', n') => modify (set_rerr_ratel w') ;; modify (set_num_rerr n') ;; ret true
      end
    else ret true
  else ret true.

(** [sendto(dev->sock, send_buf, len, ...)] *)
Definition sendto (dev : nat) (dst len ttl : Z) : M () :=
  buf ← gets send_buf;
  if (len <? 0) || (SEND_BUF_SIZE <? len) then undefined SendBufOverflow else
  ok ← sys_call;
  when ok (emit (EvSend dev dst ttl (take (Z.to_nat len) buf))).

(** [aodv_socket_send] of the message in the send buffer; [dev] is an index
    into [this_host.devs]. *)
Definition aodv_socket_send (dst len ttl : Z) (dev : nat) : M () :=
  let ttl := u8 ttl in
  type ← send_load8 0;
  worb ← gets wait_on_reboot;
  if worb && (type =? AODV_RREP) then ret () else
  ok ← sys_call;
  if negb ok then ret () else
  pass ← ratelimit_check type;
  if negb pass then ret () else
  if dst =? AODV_BROADCAST then
    now ← gettimeofday;
    modify (λ s, set_this_host (set_bcast_time now (this_host s)) s) ;;
    sendto dev dst len ttl
  else sendto dev dst len ttl.

(** A broadcast on every enabled interface. *)
Definition send_on_all (dst len ttl : Z) : M () :=
  l ← gets enabled_devs;
  foreach l () (λ i _, aodv_socket_send dst len ttl i).

(** ** Writing a message *)

Lemma SEND_BUF_SIZE_eq : SEND_BUF_SIZE = 812.
Proof. done. Qed.

Lemma send_store_ok f s b :
  f (send_buf s) = Some b → send_store f s = Ok () (set_send_buf b s).
Proof. unfold send_store. by intros ->. Qed.

Lemma store8_fits b off v :
  length b = Z.to_nat SEND_BUF_SIZE → 0 <= off < SEND_BUF_SIZE →
  ∃ b', store8 b off v = Some b' ∧ length b' = Z.to_nat SEND_BUF_SIZE.
Proof.
  intros Hb Ho. eexists. split; [apply store8_Some; rewrite Hb; lia|by rewrite length_insert].
Qed.

Lemma store32_fits b off v :
  length b = Z.to_nat SEND_BUF_SIZE → 0 <= off → off + 4 <= SEND_BUF_SIZE →
  ∃ b', store32 b off v = Some b' ∧ length b' = Z.to_nat SEND_BUF_SIZE.
Proof.
  intros Hb Ho Hl. destruct (store32_is_Some b off v) as [b' Hb']; [done|rewrite Hb; lia|].
  exists b'. split; [done|]. by rewrite (store32_length _ _ _ _ Hb').
Qed.

(** ** Safety *)

Lemma inv_send_buf md s b :
  inv s → length b = Z.to_nat SEND_BUF_SIZE → inv (set_send_buf b s) ∧ ext md s (set_send_buf b s).
Proof. intros Hi Hb. split; [by destruct Hi|by split]. Qed.

Lemma rate_limit_spec limit w num now w' num' :
  length w = (limit - 1)%nat → 0 <= num <= Z.of_nat (limit - 1) → (2 <= limit)%nat →
  rate_limit limit w num now = Some (w', num') →
  length w' = (limit - 1)%nat ∧ 0 <= num' <= Z.of_nat (limit - 1).
Proof.
  unfold rate_limit. intros Hw Hn Hl. destruct (num =? _) eqn:E.
  - case_match; [done|]. intros [= <- <-]. split; [|done].
    apply Z.eqb_eq in E. rewrite length_insert, length_app, length_take, !length_drop. lia.
  - intros [= <- <-]. rewrite length_insert. apply Z.eqb_neq in E. lia.
Qed.

Section safe.
Context (md : mode).

Lemma safe_new_msg ks : safe md ks aodv_socket_new_msg nop.
Proof.
  apply safe_modify. intros s Hi. apply inv_send_buf; [done|]. by rewrite length_replicate.
Qed.

Lemma safe_send_load8 ks off : safe md ks (send_load8 off) nop.
Proof.
  intros s Hi Hl. unfold wp, send_load8. destruct (load8 _ off); [|by left].
  split_and!; [done|done|constructor].
Qed.

Lemma safe_send_store ks f :
  (∀ b b', f b = Some b' → length b' = length b) → safe md ks (send_store f) nop.
Proof.
  intros Hf s Hi Hl. unfold wp, send_store. destruct (f (send_buf s)) as [l|] eqn:E; [|by left].
  apply Hf in E. rewrite (inv_send _ Hi) in E.
  destruct (inv_send_buf md s l Hi E). split_and!; [done|done|constructor].
Qed.

Lemma safe_send_store8 ks off v : safe md ks (send_store8 off v) nop.
Proof. apply safe_send_store. intros b b'. apply store8_length. Qed.
Lemma safe_send_store32 ks off v : safe md ks (send_store32 off v) nop.
Proof. apply safe_send_store. intros b b'. apply store32_length. Qed.
Lemma safe_send_store_bytes ks off l :
  safe md ks (send_store (λ b, store_bytes b off l)) nop.
Proof. apply safe_send_store. intros b b'. apply store_bytes_length. Qed.

Lemma safe_recv_load8 ks off : safe md ks (recv_load8 off) nop.
Proof.
  intros s Hi Hl. unfold wp, recv_load8. destruct (load8 _ off); [|by right].
  split_and!; [done|done|constructor].
Qed.

Lemma safe_recv_load32 ks off : safe md ks (recv_load32 off) nop.
Proof.
  intros s Hi Hl. unfold wp, recv_load32. destruct (load32 _ off); [|by right].
  split_and!; [done|done|constructor].
Qed.

Lemma safe_recv_store ks f :
  (∀ b b', bytes_ok b → f b = Some b' → length b' = length b ∧ bytes_ok b') →
  safe md ks (recv_store f) nop.
Proof.
  intros Hf s Hi Hl. unfold wp, recv_store. destruct (f (recv_buf s)) as [l|] eqn:E; [|by right].
  apply Hf in E as [E1 E2]; [|apply Hi]. rewrite (inv_recv _ Hi) in E1.
  split_and!; [by destruct Hi|by split|constructor].
Qed.

Lemma safe_recv_store8 ks off v : safe md ks (recv_store (λ b, store8 b off v)) nop.
Proof.
  apply safe_recv_store. intros b b' Hb Hs.
  split; [by eapply store8_length|by eapply bytes_ok_store8].
Qed.
Lemma safe_recv_store32 ks off v : safe md ks (recv_store (λ b, store32 b off v)) nop.
Proof.
  apply safe_recv_store. intros b b' Hb Hs.
  split; [by eapply store32_length|by eapply bytes_ok_store_bytes].
Qed.

Lemma safe_queue_msg ks size : safe md ks (aodv_socket_queue_msg size) nop.
Proof.
  intros s Hi Hl. unfold wp, aodv_socket_queue_msg.
  destruct ((size <? 0) || (SEND_BUF_SIZE <? size)) eqn:E; [by left|].
  destruct (inv_send_buf md s (take (Z.to_nat size) (recv_buf s)
    ++ drop (Z.to_nat size) (send_buf s)) Hi).
  { rewrite length_app, length_take, length_drop, (inv_send _ Hi), (inv_recv _ Hi).
    unfold SEND_BUF_SIZE in *. lia. }
  split_and!; [done|done|constructor].
Qed.

Lemma safe_window_rreq ks now :
  safe md ks (w ← gets rreq_ratel; n ← gets num_rreq;
    match rate_limit RREQ_RATELIMIT w n now with
    | None => ret false
    | Some (w', n') => modify (set_rreq_ratel w') ;; modify (set_num_rreq n') ;; ret true
    end) nop.
Proof.
  intros s Hi Hl. unfold wp, bind, gets, modify, ret.
  destruct (rate_limit _ _ _ _) as [[w n]|] eqn:E; split_and!; try done; try apply Forall_nil_2.
  - apply rate_limit_spec in E as [? ?]; [|apply Hi|apply Hi|unfold RREQ_RATELIMIT; lia].
    by destruct Hi.
Qed.

Lemma safe_window_rerr ks now :
  safe md ks (w ← gets rerr_ratel; n ← gets num_rerr;
    match rate_limit RERR_RATELIMIT w n now with
    | None => ret false
    | Some (w', n') => modify (set_rerr_ratel w') ;; modify (set_num_rerr n') ;; ret true
    end) nop.
Proof.
  intros s Hi Hl. unfold wp, bind, gets, modify, ret.
  destruct (rate_limit _ _ _ _) as [[w n]|] eqn:E; split_and!; try done; try apply Forall_nil_2.
  - apply rate_limit_spec in E as [? ?]; [|apply Hi|apply Hi|unfold RERR_RATELIMIT; lia].
    by destruct Hi.
Qed.

Lemma safe_ratelimit_check ks t : safe md ks (ratelimit_check t) nop.
Proof.
  unfold ratelimit_check. safe_step. safe_step; [|safe_go]. safe_step.
  safe_step; [apply safe_window_rreq|]. safe_step; [apply safe_window_rerr|safe_go].
Qed.
End safe.
#[export] Hint Resolve safe_new_msg safe_send_load8 safe_send_store8 safe_send_store32
  safe_send_store_bytes safe_recv_load8 safe_recv_load32 safe_recv_store8
  safe_recv_store32 safe_queue_msg safe_ratelimit_check : aodv.

Section safe2.
Context (md : mode).

Lemma safe_sendto ks dev dst len ttl : safe md ks (sendto dev dst len ttl) nop.
Proof.
  unfold sendto. safe_go.
  intros s Hi Hl. by left.
Qed.
End safe2.
#[export] Hint Resolve safe_sendto : aodv.

Section safe3.
Context (md : mode).

Lemma safe_socket_send ks dst len ttl dev : safe md ks (aodv_socket_send dst len ttl dev) nop.
Proof. unfold aodv_socket_send. safe_go. Qed.
End safe3.
#[export] Hint Resolve safe_socket_send : aodv.

Lemma safe_send_on_all md ks dst len ttl : safe md ks (send_on_all dst len ttl) nop.
Proof. unfold send_on_all. safe_go. Qed.
#[export] Hint Resolve safe_send_on_all : aodv.

(** ** Return *)

(** An access inside the buffers. *)
Lemma total_send_load8 b ks off : 0 <= off < SEND_BUF_SIZE → total b ks (send_load8 off).
Proof.
  intros Ho s Hi _ _. unfold send_load8.
  destruct (load8_is_Some (send_buf s) off) as [v Hv].
  { rewrite (inv_send _ Hi). lia. }
  rewrite Hv. do 2 eexists. split; [done|apply grows_refl].
Qed.

Lemma total_send_store b ks f :
  (∀ buf, length buf = Z.to_nat SEND_BUF_SIZE → is_Some (f buf)) → total b ks (send_store f).
Proof.
  intros Hf s Hi _ _. destruct (Hf _ (inv_send _ Hi)) as [buf Hb].
  do 2 eexists. split; [by apply send_store_ok|]. by apply grows_same.
Qed.

Lemma total_send_store8 b ks off v : 0 <= off < SEND_BUF_SIZE → total b ks (send_store8 off v).
Proof.
  intros Ho. apply total_send_store. intros buf Hb.
  destruct (store8_fits buf off v Hb Ho) as (b' & ? & _). by eexists.
Qed.

Lemma total_send_store32 b ks off v :
  0 <= off <= SEND_BUF_SIZE - 4 → total b ks (send_store32 off v).
Proof.
  intros Ho. apply total_send_store. intros buf Hb.
  destruct (store32_fits buf off v Hb) as (b' & ? & _); [lia|lia|]. by eexists.
Qed.

Lemma total_recv_load8 b ks off : 0 <= off < RECV_BUF_SIZE → total b ks (recv_load8 off).
Proof.
  intros Ho s Hi _ _. unfold recv_load8.
  destruct (load8_is_Some (recv_buf s) off) as [v Hv].
  { rewrite (inv_recv _ Hi). lia. }
  rewrite Hv. do 2 eexists. split; [done|apply grows_refl].
Qed.

Lemma total_recv_load32 b ks off :
  0 <= off <= RECV_BUF_SIZE - 4 → total b ks (recv_load32 off).
Proof.
  intros Ho s Hi _ _. unfold recv_load32.
  destruct (load32_is_Some (recv_buf s) off) as [v Hv];
    [lia|rewrite (inv_recv _ Hi); lia|].
  rewrite Hv. do 2 eexists. split; [done|apply grows_refl].
Qed.

Lemma total_recv_store8 b ks off v :
  0 <= off < RECV_BUF_SIZE → total b ks (recv_store (λ b, store8 b off v)).
Proof.
  intros Ho s Hi _ _. unfold recv_store.
  destruct (store8_fits (recv_buf s) off v (inv_recv _ Hi) Ho) as (buf & -> & _).
  do 2 eexists. split; [done|]. by apply grows_same.
Qed.

Lemma total_recv_store32 b ks off v :
  0 <= off <= RECV_BUF_SIZE - 4 → total b ks (recv_store (λ b, store32 b off v)).
Proof.
  intros Ho s Hi _ _. unfold recv_store. change RECV_BUF_SIZE with SEND_BUF_SIZE in Ho.
  destruct (store32_fits (recv_buf s) off v (inv_recv _ Hi)) as (buf & -> & _); [lia|lia|].
  do 2 eexists. split; [done|]. by apply grows_same.
Qed.

Lemma total_new_msg b ks : total b ks aodv_socket_new_msg.
Proof. by apply total_modify. Qed.

Lemma total_queue_msg b ks size :
  0 <= size <= SEND_BUF_SIZE → total b ks (aodv_socket_queue_msg size).
Proof.
  intros Hs s _ _ _. unfold aodv_socket_queue_msg.
  rewrite (proj2 (orb_false_iff _ _)) by (split; apply Z.ltb_ge; lia).
  do 2 eexists. split; [done|]. by apply grows_same.
Qed.

Lemma total_ratelimit_check b ks type : total b ks (ratelimit_check type).
Proof.
  intros s _ _ _. unfold ratelimit_check. erewrite bind_ok by done.
  destruct (ratelimit (opts s)); [|do 2 eexists; split; [reflexivity|by apply grows_same]].
  erewrite bind_ok by done. unfold bind, gets, modify, ret.
  destruct (type =? AODV_RREQ); [|destruct (type =? AODV_RERR)];
    try destruct (rate_limit _ _ _ _) as [[w n]|];
    do 2 eexists; (split; [reflexivity|by apply grows_same]).
Qed.
#[export] Hint Resolve total_send_load8 total_send_store8 total_send_store32 total_recv_load8
  total_recv_load32 total_recv_store8 total_recv_store32 total_new_msg total_queue_msg
  total_ratelimit_check : aodv.

(** The offsets of the fields of a message. *)
Ltac in_buffer :=
  unfold RECV_BUF_SIZE, SEND_BUF_SIZE, RECV_BUF_SIZE, AODV_MSG_MAX_SIZE, RREQ_SIZE, RREP_SIZE,
    RERR_SIZE, RERR_UDEST_SIZE in *; lia.
#[export] Hint Extern 2 (0 <= _ <= _) => in_buffer : aodv.
#[export] Hint Extern 2 (0 <= _ < _) => in_buffer : aodv.

Lemma total_sendto b ks dev dst len ttl :
  0 <= len <= SEND_BUF_SIZE → total b ks (sendto dev dst len ttl).
Proof.
  intros Hl. unfold sendto.
  rewrite (proj2 (orb_false_iff _ _)) by (split; apply Z.ltb_ge; lia). total_go.
Qed.
#[export] Hint Resolve total_sendto : aodv.

Lemma total_socket_send b ks dst len ttl dev :
  0 <= len <= SEND_BUF_SIZE → total b ks (aodv_socket_send dst len ttl dev).
Proof. intros Hl. unfold aodv_socket_send. total_go. Qed.
#[export] Hint Resolve total_socket_send : aodv.

Lemma total_send_on_all b ks dst len ttl :
  0 <= len <= SEND_BUF_SIZE → total b ks (send_on_all dst len ttl).
Proof. intros Hl. unfold send_on_all. total_go. Qed.
#[export] Hint Resolve total_send_on_all : aodv.

(** ** Rate limiting *)

(** The limiter run on a sequence of transmission times: the times at which a
    message passes, in order. *)
Fixpoint rate_limit_run (limit : nat) (w : list timeval) (num : Z) (times : list timeval)
  : list timeval :=
  match times with
  | [] => []
  | t :: ts =>
      match rate_limit limit w num t with
      | None => rate_limit_run limit w num ts
      | Some (w', num') => t :: rate_limit_run limit w' num' ts
      end
  end.

(** The window holds the last [num] messages of the history [h]. *)
Definition window_of (limit : nat) (h w : list timeval) (num : Z) : Prop :=
  length w = (limit - 1)%nat ∧ num = Z.of_nat (min (limit - 1) (length h)) ∧
  take (Z.to_nat num) w = drop (length h - Z.to_nat num) h.

Lemma window_step limit h w num t w' num' :
  (2 <= limit)%nat → window_of limit h w num →
  rate_limit limit w num t = Some (w', num') → window_of limit (h ++ [t]) w' num'.
Proof.
  intros Hlim (Hw & Hn & Ht). unfold rate_limit, window_of.
  rewrite length_app. simpl length. destruct (num =? _) eqn:E.
  - destruct (_ <? 1000); [done|]. intros [= <- <-]. apply Z.eqb_eq in E.
    assert (Hnat : Z.to_nat num = (limit - 1)%nat) by lia.
    replace (Z.to_nat (num - 1)) with (limit - 2)%nat by lia. rewrite Hnat in *.
    set (l := take (limit - 2) (drop 1 w)).
    assert (Hl : length l = (limit - 2)%nat)
      by (unfold l; rewrite length_take, length_drop; lia).
    split_and!; [rewrite length_insert, length_app, length_drop; lia|lia|].
    rewrite insert_app_r_alt by lia. rewrite Hl, Nat.sub_diag.
    destruct (drop (limit - 2) w) as [|x r] eqn:Hd.
    { apply (f_equal length) in Hd. rewrite length_drop in Hd. simpl in Hd. lia. }
    assert (Hr : r = []).
    { apply (f_equal length) in Hd. rewrite length_drop in Hd. simpl in Hd.
      apply nil_length_inv. lia. }
    subst r. simpl. rewrite take_ge by (rewrite length_app; simpl; lia).
    replace (length h + 1 - (limit - 1))%nat with (S (length h - (limit - 1)))%nat by lia.
    rewrite drop_app_le by lia. f_equal.
    rewrite take_ge in Ht by lia. unfold l. rewrite Ht.
    rewrite drop_drop. rewrite take_ge by (rewrite length_drop; lia).
    f_equal. lia.
  - intros [= <- <-]. apply Z.eqb_neq in E.
    assert (Hlt : (length h < limit - 1)%nat) by lia.
    rewrite length_insert. split_and!; [lia|lia|].
    replace (Z.to_nat (num + 1)) with (S (length h)) by lia.
    replace (Z.to_nat num) with (length h) in * by lia.
    rewrite Nat.sub_diag in Ht. rewrite drop_0 in Ht.
    rewrite (take_S_r _ _ t) by (apply list_lookup_insert_eq; lia).
    rewrite take_insert_ge by lia. rewrite Ht.
    replace (length h + 1 - S (length h))%nat with 0%nat by lia. done.
Qed.

Lemma window_full limit h w num t w' num' :
  (2 <= limit)%nat → window_of limit h w num → (limit - 1 <= length h)%nat →
  rate_limit limit w num t = Some (w', num') →
  ∃ t0, h !! (length h - (limit - 1))%nat = Some t0 ∧ 1000 <= timeval_diff t t0.
Proof.
  intros Hlim (Hw & Hn & Ht) Hh. unfold rate_limit.
  rewrite (proj2 (Z.eqb_eq _ _)) by lia. destruct (_ <? 1000) eqn:E; [done|]. intros _.
  assert (Hnat : Z.to_nat num = (limit - 1)%nat) by lia. rewrite Hnat in Ht.
  destruct w as [|t0 w]; [simpl in Hw; lia|]. simpl in E. apply Z.ltb_ge in E.
  exists t0. split; [|done].
  apply (f_equal (λ l, l !! 0%nat)) in Ht. rewrite lookup_drop, Nat.add_0_r in Ht.
  rewrite <- Ht. rewrite lookup_take_lt by lia. done.
Qed.

Lemma rate_limit_run_spaced limit times : ∀ h w num,
  (2 <= limit)%nat → window_of limit h w num →
  (∀ i t t', h !! i = Some t → h !! (i + (limit - 1))%nat = Some t' →
     1000 <= timeval_diff t' t) →
  ∀ i t t', (h ++ rate_limit_run limit w num times) !! i = Some t →
    (h ++ rate_limit_run limit w num times) !! (i + (limit - 1))%nat = Some t' →
    1000 <= timeval_diff t' t.
Proof.
  induction times as [|t ts IH]; intros h w num Hlim Hwin Hh.
  - simpl. rewrite app_nil_r. done.
  - simpl. destruct (rate_limit limit w num t) as [[w' num']|] eqn:E; [|by apply IH].
    replace (h ++ t :: rate_limit_run limit w' num' ts)
      with ((h ++ [t]) ++ rate_limit_run limit w' num' ts) by by rewrite <- app_assoc.
    apply IH; [done|by eapply window_step|].
    intros i a b Ha Hb. destruct (decide (i + (limit - 1) < length h)%nat) as [Hlt|Hge].
    + rewrite lookup_app_l in Ha, Hb by lia. by eapply Hh.
    + assert (Heq : (i + (limit - 1))%nat = length h).
      { apply lookup_lt_Some in Hb. rewrite length_app in Hb. simpl in Hb. lia. }
      rewrite Heq, lookup_app_r, Nat.sub_diag in Hb by lia. simplify_eq/=.
      destruct (window_full limit h w num b w' num' Hlim Hwin ltac:(lia) E) as (t0 & Ht0 & Hd).
      rewrite lookup_app_l in Ha by lia.
      replace (length h - (limit - 1))%nat with i in Ht0 by lia. congruence.
Qed.

(** C14: the rate limiter lets at most [RATELIMIT - 1] messages pass in any
    second: of the messages that pass, each is sent at least 1000 ms after the
    one [RATELIMIT - 1] places before it. *)
Theorem rate_limit_spacing (limit : nat) (times : list timeval) (i : nat) (t t' : timeval) :
  (2 <= limit)%nat →
  let sent := rate_limit_run limit (replicate (limit - 1) tv_zero) 0 times in
  sent !! i = Some t → sent !! (i + (limit - 1))%nat = Some t' →
  1000 <= timeval_diff t' t.
Proof.
  intros Hlim sent. apply (rate_limit_run_spaced limit times [] _ 0 Hlim); [|done].
  split_and!; [by rewrite length_replicate|simpl; lia|done].
Qed.

(** ** Reading a received message *)

Definition recv32 (s : state) (off : Z) : Z := default 0 (load32 (recv_buf s) off).
Definition recv8 (s : state) (off : Z) : Z := default 0 (load8 (recv_buf s) off).

Lemma recv_load32_ok s off :
  inv s → 0 <= off <= 808 → recv_load32 off s = Ok (recv32 s off) s.
Proof.
  intros Hi Ho. unfold recv_load32, recv32.
  destruct (load32_is_Some (recv_buf s) off) as [v ->]; [lia| |done].
  rewrite (inv_recv _ Hi). change RECV_BUF_SIZE with 812. lia.
Qed.

Lemma recv_load8_ok s off :
  inv s → 0 <= off < 812 → recv_load8 off s = Ok (recv8 s off) s.
Proof.
  intros Hi Ho. unfold recv_load8, recv8.
  destruct (load8_is_Some (recv_buf s) off) as [v ->]; [|done].
  rewrite (inv_recv _ Hi). change RECV_BUF_SIZE with 812. lia.
Qed.
