(* ===== verification/Rerr.v ===== *)
(** * protocol/aodv_rerr.c and neighbor_link_break of aodv_neighbor.c

    A RERR under construction is the content of the send buffer: byte 0 the
    type, byte 1 the [n] bit (bit 7), byte 3 [dest_count], then
    [dest_count] pairs of an address and a sequence number in network
    order. *)

From S2P Require Import Prelude.
From S2P Require Import Params.
From S2P Require Import Bytes.
From S2P Require Import TimerQueue.
From S2P Require Import State.
From S2P Require Import Frame.
From S2P Require Import Nl.
From S2P Require Import RtTable.
From S2P Require Import Inv.
From S2P Require Import Total.
From S2P Require Import Socket.

#[local] Open Scope cm_scope.

(** [RERR_CALC_SIZE] *)
Definition RERR_CALC_SIZE (dest_count : Z) : Z :=
  RERR_SIZE + (dest_count - 1) * RERR_UDEST_SIZE.

Definition rerr_create (flags dest_addr dest_seqno : Z) : M () :=
  aodv_socket_new_msg ;;
  send_store8 0 AODV_RERR ;;
  send_store8 1 (if has flags RERR_NODELETE then 2 ^ 7 else 0) ;;
  send_store8 2 0 ;;
  send_store32 4 dest_addr ;;
  send_store32 8 (htonl dest_seqno) ;;
  send_store8 3 1.

(** [rerr->dest_count] of the message in the send buffer. *)
Definition rerr_dest_count : M Z := send_load8 3.

Definition rerr_add_udest (udest udest_seqno : Z) : M () :=
  n ← rerr_dest_count;
  send_store32 (RERR_CALC_SIZE n) udest ;;
  send_store32 (RERR_CALC_SIZE n + 4) (htonl udest_seqno) ;;
  send_store8 3 (n + 1).

(** The locals of the two functions that collect unreachable destinations:
    whether the RERR has been created, and the unicast destination (0 when
    it must be broadcast). *)
Record rerr_acc := mk_rerr_acc { acc_created : bool; acc_unicast : Z }.

(** The common part of [neighbor_link_break] and [rerr_process]: include the
    route [rt], which has precursors, as an unreachable destination. *)
Definition rerr_include (flags : Z) (rt : Z) (acc : rerr_acc) : M rerr_acc :=
  e ← rt_deref rt;
  if negb (acc_created acc) then
    rerr_create flags (rt_dest_addr e) (rt_dest_seqno e) ;;
    ret (mk_rerr_acc true
           (if rt_nprec e =? 1 then default 0 (head (rt_precursors e)) else acc_unicast acc))
  else
    rerr_add_udest (rt_dest_addr e) (rt_dest_seqno e) ;;
    ret (mk_rerr_acc true
           (if negb (acc_unicast acc =? 0)
               && existsb (λ p, negb (p =? acc_unicast acc)) (rt_precursors e)
            then 0 else acc_unicast acc)).

(** The transmission at the end of both functions. *)
Definition rerr_transmit (acc : rerr_acc) : M () :=
  when (acc_created acc)
    (rt_u ← rt_table_find (acc_unicast acc);
     n ← rerr_dest_count;
     match rt_u with
     | Some u =>
         if (n =? 1) && negb (acc_unicast acc =? 0) then
           ifi ← rt_get u rt_ifindex;
           dev ← gets (λ s, ifindex2devindex s ifi);
           aodv_socket_send (acc_unicast acc) (RERR_CALC_SIZE n) 1 dev
         else when (0 <? n) (send_on_all AODV_BROADCAST (RERR_CALC_SIZE n) 1)
     | None => when (0 <? n) (send_on_all AODV_BROADCAST (RERR_CALC_SIZE n) 1)
     end).

(** The body of the loop of [neighbor_link_break] over the table. *)
Definition link_break_entry (rt : Z) (rt_u : Z) (acc : rerr_acc) : M rerr_acc :=
  e ← rt_deref rt;
  u ← rt_deref rt_u;
  if (rt_state u =? VALID) && (rt_next_hop u =? rt_dest_addr e)
     && negb (rt_dest_addr u =? rt_dest_addr e) then
    if has (rt_flags e) RT_REPAIR && (rt_hcnt u <=? MAX_REPAIR_TTL) then
      rt_modify rt_u (λ u, set_rt_flags (Z.lor (rt_flags u) RT_REPAIR) u) ;;
      rt_table_invalidate rt_u ;;
      ret acc
    else
      rt_table_invalidate rt_u ;;
      nprec ← rt_get rt_u rt_nprec;
      acc ← (if negb (nprec =? 0) then rerr_include 0 rt_u acc else ret acc);
      precursor_list_destroy rt_u ;;
      ret acc
  else ret acc.

(** The part of [neighbor_link_break] for the entry of the neighbour itself. *)
Definition link_break_self (rt : Z) : M rerr_acc :=
  rt_table_invalidate rt ;;
  e ← rt_deref rt;
  acc ← (if negb (rt_nprec e =? 0) && negb (has (rt_flags e) RT_REPAIR)
         then rerr_include 0 rt (mk_rerr_acc false 0)
         else ret (mk_rerr_acc false 0));
  when (negb (has (rt_flags e) RT_REPAIR)) (precursor_list_destroy rt) ;;
  ret acc.

Definition neighbor_link_break (rt : Z) : M () :=
  e ← rt_deref rt;
  if negb (rt_hcnt e =? 1) then ret () else
  acc ← link_break_self rt;
  keys ← gets rt_keys;
  acc ← foreach keys acc (link_break_entry rt);
  rerr_transmit acc.

(** ** rerr_process *)

(** One turn of the loop over the unreachable destinations of a received
    RERR: [off] is the offset of the destination in the receive buffer, [n]
    the received no-delete bit. *)
Definition rerr_process_udest (n : bool) (ip_src off : Z) (acc : rerr_acc) : M rerr_acc :=
  udest_addr ← recv_load32 off;
  raw_seqno ← recv_load32 (off + 4);
  let rerr_dest_seqno := ntohl raw_seqno in
  rt ← rt_table_find udest_addr;
  match rt with
  | None => ret acc
  | Some rt =>
      e ← rt_deref rt;
      if (rt_state e =? VALID) && (rt_next_hop e =? ip_src) then
        (if n then ret () else rt_table_invalidate rt ;; ret ()) ;;
        rt_modify rt (set_rt_dest_seqno rerr_dest_seqno) ;;
        e ← rt_deref rt;
        acc ← (if negb (rt_nprec e =? 0) && negb (has (rt_flags e) RT_REPAIR)
               then rerr_include (if n then RERR_NODELETE else 0) rt acc
               else ret acc);
        st ← rt_get rt rt_state;
        when (st =? INVALID) (precursor_list_destroy rt) ;;
        ret acc
      else ret acc
  end.

(** The [while (rerr->dest_count)] loop, which counts [dest_count] down in
    the received message. *)
Definition rerr_process (rerrlen ip_src : Z) : M () :=
  count ← recv_load8 3;
  if rerrlen <? RERR_CALC_SIZE count then ret () else
  flags ← recv_load8 1;
  acc ← foreach (seq 0 (Z.to_nat count)) (mk_rerr_acc false 0) (λ i acc,
    acc ← rerr_process_udest (Z.testbit flags 7) ip_src
            (4 + Z.of_nat i * RERR_UDEST_SIZE) acc;
    recv_store (λ b, store8 b 3 (count - Z.of_nat i - 1)) ;;
    ret acc);
  rerr_transmit acc.

(** ** Safety *)

Lemma ntohl_range v : 0 <= ntohl v < 4294967296.
Proof. apply htonl_range. Qed.
#[export] Hint Resolve ntohl_range : aodv.

Section safe.
Context (md : mode).

Lemma safe_rerr_create ks f d n : safe md ks (rerr_create f d n) nop.
Proof. unfold rerr_create. safe_go. Qed.

Lemma safe_rerr_dest_count ks : safe md ks rerr_dest_count nop.
Proof. unfold rerr_dest_count. safe_go. Qed.
End safe.
#[export] Hint Resolve safe_rerr_create safe_rerr_dest_count : aodv.

Section safe2.
Context (md : mode).

Lemma safe_rerr_add_udest ks d n : safe md ks (rerr_add_udest d n) nop.
Proof. unfold rerr_add_udest. safe_go. Qed.
End safe2.
#[export] Hint Resolve safe_rerr_add_udest : aodv.

Section safe3.
Context (md : mode).

Lemma safe_rerr_include ks f k acc : k ∈ ks → safe md ks (rerr_include f k acc) nop.
Proof. intros Hk. unfold rerr_include. safe_go. Qed.

Lemma safe_rerr_transmit ks acc : safe md ks (rerr_transmit acc) nop.
Proof.
  unfold rerr_transmit. apply safe_when. eapply safe_bind; [apply safe_rt_find|].
  intros [u|]; cbn [option_list app]; safe_go.
Qed.
End safe3.
#[export] Hint Resolve safe_rerr_include safe_rerr_transmit : aodv.

Section safe4.
Context (md : mode).

Lemma safe_link_break_entry ks rt u acc :
  rt ∈ ks → u ∈ ks → safe md ks (link_break_entry rt u acc) nop.
Proof. intros Hk Hu. unfold link_break_entry. safe_go. Qed.

Lemma safe_rerr_process_udest ks n src off acc :
  safe md ks (rerr_process_udest n src off acc) nop.
Proof.
  unfold rerr_process_udest. do 2 safe_step. eapply safe_bind; [apply safe_rt_find|].
  intros [u|]; cbn [option_list app]; safe_go.
Qed.
End safe4.
#[export] Hint Resolve safe_link_break_entry safe_rerr_process_udest : aodv.

Section safe5.
Context (md : mode).

Lemma safe_neighbor_link_break ks k : k ∈ ks → safe md ks (neighbor_link_break k) nop.
Proof. intros Hk. unfold neighbor_link_break, link_break_self. safe_go. Qed.

Lemma safe_rerr_process ks len src : safe md ks (rerr_process len src) nop.
Proof. unfold rerr_process. safe_go. Qed.
End safe5.
#[export] Hint Resolve safe_neighbor_link_break safe_rerr_process : aodv.

(** ** Building a RERR *)

(** The [i]-th destination of the RERR in a buffer. *)
Definition udest_at (buf : list Z) (i : nat) : option Z :=
  load32 buf (4 + Z.of_nat i * RERR_UDEST_SIZE).

(** The functions that build a RERR create it with the first unreachable
    destination and then add the others. *)
Definition rerr_build (flags : Z) (first : Z * Z) (rest : list (Z * Z)) : M () :=
  rerr_create flags first.1 first.2 ;;
  foreach rest () (λ u _, rerr_add_udest u.1 u.2).

(** The buffer holds a RERR with the destinations [l]. *)
Definition rerr_holds (buf : list Z) (l : list (Z * Z)) : Prop :=
  load8 buf 0 = Some AODV_RERR ∧ load8 buf 3 = Some (Z.of_nat (length l)) ∧
  ∀ i a n, l !! i = Some (a, n) →
    udest_at buf i = Some (u32 a) ∧
    ntohl <$> load32 buf (4 + Z.of_nat i * RERR_UDEST_SIZE + 4) = Some (u32 n).

Lemma rerr_create_run s flags d n :
  ∃ b, rerr_create flags d n s = Ok () (set_send_buf b s) ∧
    length b = Z.to_nat SEND_BUF_SIZE ∧ rerr_holds b [(d, n)].
Proof.
  set (b0 := replicate (Z.to_nat SEND_BUF_SIZE) 0).
  assert (L0 : length b0 = Z.to_nat SEND_BUF_SIZE) by apply length_replicate.
  destruct (store8_fits b0 0 AODV_RERR L0) as (b1 & S1 & L1); [done|].
  destruct (store8_fits b1 1 (if has flags RERR_NODELETE then 2 ^ 7 else 0) L1)
    as (b2 & S2 & L2); [done|].
  destruct (store8_fits b2 2 0 L2) as (b3 & S3 & L3); [done|].
  destruct (store32_fits b3 4 d L3) as (b4 & S4 & L4); [done|done|].
  destruct (store32_fits b4 8 (htonl n) L4) as (b5 & S5 & L5); [done|done|].
  destruct (store8_fits b5 3 1 L5) as (b6 & S6 & L6); [done|].
  exists b6. split_and!; [|done|].
  - unfold rerr_create, aodv_socket_new_msg, bind, modify, send_store8, send_store32.
    rewrite (send_store_ok _ _ b1) by done. rewrite (send_store_ok _ _ b2) by done.
    rewrite (send_store_ok _ _ b3) by done. rewrite (send_store_ok _ _ b4) by done.
    rewrite (send_store_ok _ _ b5) by done. rewrite (send_store_ok _ _ b6) by done. done.
  - split_and!.
    + load_simp. done.
    + load_simp. done.
    + intros [|i] a m; [|done]. simpl. intros [= <- <-]. unfold udest_at.
      change (4 + Z.of_nat 0 * RERR_UDEST_SIZE) with 4. change (4 + 4) with 8.
      load_simp. split; [done|]. simpl. by rewrite ntohl_u32_htonl.
Qed.

(** Adding a destination to a RERR that has room for it. *)
Lemma rerr_add_udest_run s l d n :
  length (send_buf s) = Z.to_nat SEND_BUF_SIZE → rerr_holds (send_buf s) l →
  (1 <= length l <= 100)%nat →
  ∃ b, rerr_add_udest d n s = Ok () (set_send_buf b s) ∧
    length b = Z.to_nat SEND_BUF_SIZE ∧ rerr_holds b (l ++ [(d, n)]).
Proof.
  intros L0 (Ht & Hc & Hl) Hlen. set (k := Z.of_nat (length l)) in *.
  assert (Hoff : RERR_CALC_SIZE k = 4 + k * RERR_UDEST_SIZE).
  { unfold RERR_CALC_SIZE, RERR_SIZE, RERR_UDEST_SIZE. lia. }
  assert (Hk : 1 <= k <= 100) by lia. unfold RERR_UDEST_SIZE in *.
  destruct (store32_fits (send_buf s) (4 + k * 8) d L0) as (b1 & S1 & L1);
    [lia|rewrite SEND_BUF_SIZE_eq; lia|].
  destruct (store32_fits b1 (4 + k * 8 + 4) (htonl n) L1) as (b2 & S2 & L2);
    [lia|rewrite SEND_BUF_SIZE_eq; lia|].
  destruct (store8_fits b2 3 (k + 1) L2) as (b3 & S3 & L3); [done|].
  exists b3. split_and!; [|done|split_and!].
  - unfold rerr_add_udest, bind, rerr_dest_count, send_load8, send_store8, send_store32.
    rewrite Hc. cbv beta iota. rewrite Hoff.
    rewrite (send_store_ok _ _ b1) by done. rewrite (send_store_ok _ _ b2) by done.
    rewrite (send_store_ok _ _ b3) by done. done.
  - by rewrite (load8_store8_ne _ _ _ _ 0 S3), (load8_store32_ne _ _ _ _ 0 S2),
      (load8_store32_ne _ _ _ _ 0 S1) by lia.
  - rewrite (load8_store8_eq _ _ _ _ S3), length_app. simpl. f_equal.
    rewrite u8_small by lia. lia.
  - intros i a m Hi. unfold udest_at, RERR_UDEST_SIZE in *.
    rewrite !(load32_store8_ne _ _ _ _ _ S3) by lia.
    destruct (decide (i < length l)%nat) as [Hlt|Hge].
    + rewrite lookup_app_l in Hi by done.
      rewrite !(load32_store32_ne _ _ _ _ _ S2), !(load32_store32_ne _ _ _ _ _ S1) by lia.
      by apply Hl.
    + rewrite lookup_app_r in Hi by lia. apply list_lookup_singleton_Some in Hi as [Hi [= <- <-]].
      replace (Z.of_nat i) with k by lia.
      rewrite (load32_store32_ne _ _ _ _ (4 + k * 8) S2) by lia.
      rewrite (load32_store32_eq _ _ _ _ S1), (load32_store32_eq _ _ _ _ S2).
      split; [done|]. simpl. by rewrite ntohl_u32_htonl.
Qed.

Lemma rerr_add_loop rest : ∀ s l,
  length (send_buf s) = Z.to_nat SEND_BUF_SIZE → rerr_holds (send_buf s) l →
  (1 <= length l)%nat → (length l + length rest <= 101)%nat →
  ∃ b, foreach rest () (λ u _, rerr_add_udest u.1 u.2) s = Ok () (set_send_buf b s) ∧
    length b = Z.to_nat SEND_BUF_SIZE ∧ rerr_holds b (l ++ rest).
Proof.
  induction rest as [|[d n] rest IH]; intros s l Hb Hl H1 Hlen.
  - exists (send_buf s). rewrite app_nil_r. by split; [destruct s|].
  - simpl in Hlen. destruct (rerr_add_udest_run s l d n Hb Hl) as (b & Hrun & Lb & Hh); [lia|].
    cbn [foreach]. rewrite (bind_ok _ _ _ _ _ Hrun).
    destruct (IH (set_send_buf b s) (l ++ [(d, n)])) as (b' & Hrun' & Lb' & Hh');
      [done|done|rewrite length_app; lia|rewrite length_app; simpl; lia|].
    exists b'. split_and!; [exact Hrun'|done|]. by rewrite <- app_assoc in Hh'.
Qed.

(** ** Return *)

Lemma total_rerr_create b ks f d n : total b ks (rerr_create f d n).
Proof.
  intros s _ _ _. destruct (rerr_create_run s f d n) as (buf & Hrun & _).
  do 2 eexists. split; [exact Hrun|]. by apply grows_same.
Qed.
Lemma total_rerr_dest_count b ks : total b ks rerr_dest_count.
Proof. unfold rerr_dest_count. total_go. Qed.
#[export] Hint Resolve total_rerr_create total_rerr_dest_count : aodv.

(** A RERR for one destination: its count is one. *)
Lemma total_rerr_single {B} b ks fl d n (f : Z → M B) :
  total b ks (f 1) → total b ks (rerr_create fl d n ;; c ← rerr_dest_count; f c).
Proof.
  intros Hf s Hi Hl Hr.
  destruct (rerr_create_run s fl d n) as (buf & Hrun & Hlen & _ & Hc & _).
  destruct (inv_send_buf Quiet s buf Hi Hlen) as [Hi1 Hx1].
  erewrite bind_ok by exact Hrun.
  erewrite bind_ok by (unfold rerr_dest_count, send_load8; simpl send_buf; by rewrite Hc).
  destruct (Hf (set_send_buf buf s) Hi1) as (a & s' & R & G);
    [by eapply live_all_ext|by destruct b|]. exists a, s'. split; [exact R|exact G].
Qed.

(** The RERR under construction, if any, has at most [n] destinations. *)
Definition reported (acc : rerr_acc) (n : nat) (s : state) : Prop :=
  acc_created acc = true → ∃ l, rerr_holds (send_buf s) l ∧ (1 <= length l <= n)%nat.

(** [m] returns; it takes the locals [acc] with at most [n] destinations to [acc']
    of its result, with at most [n']. *)
Definition reporting {A} (ks : list Z) (n n' : nat) (acc : rerr_acc) (m : M A)
    (acc' : A → rerr_acc) : Prop :=
  ∀ s, inv s → live_all s ks → reported acc n s →
    ∃ a s', m s = Ok a s' ∧ inv s' ∧ ext Quiet s s' ∧ grows 0 s s' ∧ reported (acc' a) n' s'.

Lemma reporting_bind {A B} ks n1 n2 n3 acc (m : M A) (f : A → M B) acc1 acc2 :
  reporting ks n1 n2 acc m acc1 → (∀ a, reporting ks n2 n3 (acc1 a) (f a) acc2) →
  reporting ks n1 n3 acc (bind m f) acc2.
Proof.
  intros Hm Hf s Hi Hl Hr. destruct (Hm s Hi Hl Hr) as (a & s1 & R1 & Hi1 & X1 & G1 & Hr1).
  destruct (Hf a s1 Hi1 (live_all_ext _ _ _ _ X1 Hl) Hr1) as (c & s2 & R2 & Hi2 & X2 & G2 & Hr2).
  exists c, s2. split; [unfold bind; by rewrite R1|].
  split_and!; [done|by etransitivity|exact (grows_trans 0 0 _ _ _ G1 G2)|done].
Qed.

(** An operation that does not touch the message. *)
Lemma reporting_quiet {A} ks n acc (m : M A) :
  total None ks m → safe Quiet ks m nop → frames send_buf m →
  reporting ks n n acc m (λ _, acc).
Proof.
  intros Ht Hs Hf s Hi Hl Hr.
  destruct (total_safe Quiet None ks m nop s Ht Hs Hi Hl I)
    as (a & s' & Hrun & Hi' & Hx & _ & Hg).
  exists a, s'. split_and!; [done|done|done|done|]. unfold reported.
  by rewrite (Hf _ _ _ Hrun).
Qed.

Lemma reporting_ret {A} ks n n' acc (a : A) acc' :
  acc' a = acc → (n <= n')%nat → reporting ks n n' acc (ret a) acc'.
Proof.
  intros Ha Hn s Hi _ Hr. exists a, s. split_and!; [done|done|done|apply grows_refl|].
  rewrite Ha. intros Hc. destruct (Hr Hc) as (l & ? & ?). exists l. split; [done|lia].
Qed.

Lemma reporting_deref {B} ks n n' acc k (f : rt_table_t → M B) acc' :
  k ∈ ks → (∀ e, reporting ks n n' acc (f e) acc') →
  reporting ks n n' acc (bind (rt_deref k) f) acc'.
Proof.
  intros Hk Hf s Hi Hl Hr. destruct (proj1 (Forall_forall _ _) Hl k Hk) as [e He].
  destruct (Hf e s Hi Hl Hr) as (a & s' & ? & ?). exists a, s'.
  unfold bind, rt_deref. by rewrite He.
Qed.

Lemma reporting_find_or {B} ks n n' acc d (f : option Z → M B) acc' :
  reporting (d :: ks) n n' acc (f (Some d)) acc' → reporting ks n n' acc (f None) acc' →
  reporting ks n n' acc (bind (rt_table_find d) f) acc'.
Proof.
  intros Hsome Hnone s Hi Hl Hr. unfold rt_table_find. erewrite bind_ok by done.
  rewrite find_entry_lookup by apply Hi.
  destruct (rt_lookup (rt_tbl s) d) as [e|] eqn:He; simpl; [|by apply Hnone].
  rewrite (rt_lookup_dest _ _ _ He). apply Hsome; [done| |done].
  constructor; [by exists e|done].
Qed.

Lemma reporting_include ks n f k acc :
  k ∈ ks → (n <= 100)%nat → reporting ks n (S n) acc (rerr_include f k acc) (λ acc', acc').
Proof.
  intros Hk Hn. apply reporting_deref; [done|]. intros e s Hi Hl Hr.
  destruct (acc_created acc) eqn:Hc; cbn [negb].
  - destruct (Hr Hc) as (l & Hh & Hlen).
    destruct (rerr_add_udest_run s l (rt_dest_addr e) (rt_dest_seqno e) (inv_send _ Hi) Hh)
      as (b & Hrun & Hb & Hh'); [lia|].
    destruct (inv_send_buf Quiet s b Hi Hb). do 2 eexists.
    split; [by erewrite bind_ok by exact Hrun|].
    split_and!; [done|done|by apply grows_same|]. intros _. eexists. split; [exact Hh'|].
    rewrite length_app. simpl. lia.
  - destruct (rerr_create_run s f (rt_dest_addr e) (rt_dest_seqno e)) as (b & Hrun & Hb & Hh').
    destruct (inv_send_buf Quiet s b Hi Hb). do 2 eexists.
    split; [by erewrite bind_ok by exact Hrun|].
    split_and!; [done|done|by apply grows_same|]. intros _. eexists. split; [exact Hh'|].
    simpl. lia.
Qed.

Lemma reporting_foreach {A} ks (l : list A) (body : A → rerr_acc → M rerr_acc) : ∀ n acc,
  (∀ a acc n, a ∈ l → (n <= 100)%nat →
     reporting ks n (S n) acc (body a acc) (λ acc', acc')) →
  (n + length l <= 101)%nat →
  reporting ks n (n + length l) acc (foreach l acc body) (λ acc', acc').
Proof.
  induction l as [|a l IH]; intros n acc Hb Hn; simpl in Hn |- *.
  - apply reporting_ret; [done|lia].
  - eapply reporting_bind; [apply Hb; [by left|lia]|]. intros acc1.
    replace (n + S (length l))%nat with (S n + length l)%nat by lia.
    apply IH; [|lia]. intros. apply Hb; [by right|done].
Qed.

(** The transmission of a RERR that fits in the buffer. *)
Lemma rerr_transmit_total s acc :
  inv s → reported acc 101 s →
  ∃ s', rerr_transmit acc s = Ok () s' ∧ grows 0 s s'.
Proof.
  intros Hi Hr. unfold rerr_transmit. destruct (acc_created acc) eqn:Hc; cbn [when].
  2:{ eexists. split; [done|apply grows_refl]. }
  destruct (Hr Hc) as (l & (_ & Hn & _) & Hlen).
  unfold rt_table_find. erewrite bind_ok by done.
  erewrite (bind_ok _ _ s (Z.of_nat (length l)) s)
    by (unfold rerr_dest_count, send_load8; by rewrite Hn).
  assert (Hsize : 0 <= RERR_CALC_SIZE (Z.of_nat (length l)) <= SEND_BUF_SIZE)
    by (unfold RERR_CALC_SIZE; in_buffer).
  destruct (find_entry (rt_tbl s) (acc_unicast acc)) as [e|] eqn:He; cbn [fmap option_fmap option_map].
  - assert (Hl : live_all s [rt_dest_addr e]).
    { rewrite find_entry_lookup in He by apply Hi.
      constructor; [|constructor]. rewrite (rt_lookup_dest _ _ _ He). by exists e. }
    apply (total_unit None [rt_dest_addr e]); [total_go|done|done|done].
  - apply (total_unit None []); [total_go|done|constructor|done].
Qed.

Lemma reporting_invalidate ks n acc k :
  k ∈ ks → reporting ks n n acc (rt_table_invalidate k) (λ _, acc).
Proof.
  intros Hk. apply reporting_quiet; [total_go|safe_go|].
  unfold rt_table_invalidate, rt_modify, nl_send_del_route_msg, nl_kern_route, nl_send. frame_go.
Qed.

Lemma reporting_rt_modify ks n acc k f :
  k ∈ ks → safe Quiet ks (rt_modify k f) nop →
  reporting ks n n acc (rt_modify k f) (λ _, acc).
Proof.
  intros Hk Hs. apply reporting_quiet; [total_go|done|unfold rt_modify; frame_go].
Qed.

Lemma reporting_destroy ks n acc k :
  k ∈ ks → reporting ks n n acc (precursor_list_destroy k) (λ _, acc).
Proof. intros Hk. apply reporting_rt_modify; [done|]. apply safe_precursor_list_destroy. done. Qed.

Lemma reporting_link_break_entry ks rt u acc n :
  rt ∈ ks → u ∈ ks → (n <= 100)%nat →
  reporting ks n (S n) acc (link_break_entry rt u acc) (λ acc', acc').
Proof.
  intros Hr Hu Hn. do 2 (apply reporting_deref; [done|intros ?]).
  destruct (_ && _ && _); [|apply reporting_ret; [done|lia]].
  destruct (_ && _).
  - eapply reporting_bind; [apply reporting_rt_modify; [done|safe_go]|intros ?].
    eapply reporting_bind; [by apply reporting_invalidate|intros ?].
    apply reporting_ret; [done|lia].
  - eapply reporting_bind; [by apply reporting_invalidate|intros ?].
    eapply reporting_bind; [apply reporting_quiet; [total_go|safe_go|frame_go]|intros np].
    eapply (reporting_bind _ _ (S n) _ _ _ _ (λ acc', acc')).
    { destruct (negb _); [by apply reporting_include|apply reporting_ret; [done|lia]]. }
    intros acc'. eapply reporting_bind; [by apply reporting_destroy|intros ?].
    apply reporting_ret; [done|lia].
Qed.

Lemma reporting_link_break_self ks rt n :
  rt ∈ ks → (n <= 100)%nat →
  reporting ks n (S n) (mk_rerr_acc false 0) (link_break_self rt) (λ acc', acc').
Proof.
  intros Hr Hn. eapply reporting_bind; [by apply reporting_invalidate|intros ?].
  apply reporting_deref; [done|intros e].
  eapply (reporting_bind _ _ (S n) _ _ _ _ (λ acc', acc')).
  { destruct (_ && _); [by apply reporting_include|apply reporting_ret; [done|lia]]. }
  intros acc'. eapply (reporting_bind _ _ (S n) _ _ _ _ (λ _, acc')).
  - destruct (negb _); [by apply reporting_destroy|apply reporting_ret; [done|lia]].
  - intros ?. apply reporting_ret; [done|lia].
Qed.

(** A link break reports at most the neighbour and every route of the table. *)
Lemma total_neighbor_link_break ks k : k ∈ ks → total (Some 0%nat) ks (neighbor_link_break k).
Proof.
  intros Hk. unfold neighbor_link_break. apply total_deref; [done|intros e _ He].
  destruct (negb _); [apply total_ret|]. intros s Hi Hl (Hn & _).
  destruct (reporting_link_break_self ks k 0 Hk ltac:(lia) s Hi Hl ltac:(done))
    as (acc & s1 & R1 & Hi1 & X1 & G1 & Hr1).
  erewrite bind_ok by exact R1. erewrite bind_ok by done.
  assert (Hlen : length (rt_keys s1) = rt_count s1) by apply length_fmap.
  pose proof (proj2 (proj2 G1)) as Hc. unfold MAX_REPORTED in Hn.
  destruct (reporting_foreach (rt_keys s1 ++ ks) (rt_keys s1) (link_break_entry k) 1 acc)
    with (s := s1) as (acc2 & s2 & R2 & Hi2 & X2 & G2 & Hr2); [| |done| |done|].
  - intros u acc' n Hu Hn'. apply reporting_link_break_entry; [elem|set_solver|done].
  - lia.
  - apply Forall_app. split; [|by eapply live_all_ext].
    apply Forall_forall. intros j Hj. by apply elem_of_rt_keys; [apply Hi1|].
  - erewrite bind_ok by exact R2. destruct (rerr_transmit_total s2 acc2 Hi2) as (s3 & R3 & G3).
    { intros Hcr. destruct (Hr2 Hcr) as (l & ? & ?). exists l. split; [done|lia]. }
    exists (), s3. split; [done|].
    exact (grows_trans 0 0 _ _ _ (grows_trans 0 0 _ _ _ G1 G2) G3).
Qed.
#[export] Hint Resolve total_neighbor_link_break : aodv.

(** ** Link breaks *)

Lemma frames_socket_send dst len ttl dev : frames rt_tbl (aodv_socket_send dst len ttl dev).
Proof. unfold aodv_socket_send, ratelimit_check, sendto. frame_go. Qed.
#[export] Hint Resolve frames_socket_send : aodv.

Lemma frames_send_on_all dst len ttl : frames rt_tbl (send_on_all dst len ttl).
Proof. unfold send_on_all. frame_go. Qed.
#[export] Hint Resolve frames_send_on_all : aodv.

Lemma frames_rerr_include f k acc : frames rt_tbl (rerr_include f k acc).
Proof.
  unfold rerr_include, rerr_create, rerr_add_udest, rerr_dest_count, aodv_socket_new_msg.
  frame_go.
Qed.
Lemma frames_rerr_transmit acc : frames rt_tbl (rerr_transmit acc).
Proof. unfold rerr_transmit, rerr_dest_count, rt_table_find, rt_get. frame_go. Qed.
#[export] Hint Resolve frames_rerr_include frames_rerr_transmit : aodv.

(** The route [e] to [j] goes through the neighbour [k]. *)
Definition uses_hop (k j : Z) (e : rt_table_t) : bool :=
  (rt_state e =? VALID) && (rt_next_hop e =? k) && negb (j =? k).

(** What [link_break_entry] makes of an entry. *)
Definition broken (k j : Z) (rep : bool) (e : rt_table_t) : rt_table_t :=
  if uses_hop k j e then
    if rep && (rt_hcnt e <=? MAX_REPAIR_TTL)
    then invalidated (set_rt_flags (Z.lor (rt_flags e) RT_REPAIR) e)
    else without_precursors (invalidated e)
  else e.

Lemma broken_unused k j rep e : uses_hop k j (broken k j rep e) = false.
Proof.
  unfold broken. destruct (uses_hop k j e) eqn:E; [|done].
  destruct (rep && _); done.
Qed.

Lemma link_break_entry_eff rt er j e acc s :
  inv s → rt_lookup (rt_tbl s) rt = Some er → rt_lookup (rt_tbl s) j = Some e →
  wp buf_ub (link_break_entry rt j acc) (λ _ s', inv s' ∧ ext Quiet s s' ∧
    updated j (broken rt j (has (rt_flags er) RT_REPAIR) e) s s') s.
Proof.
  intros Hi Hr He. unfold link_break_entry, broken, uses_hop.
  eapply wp_run; [unfold rt_deref; by rewrite Hr|].
  eapply wp_run; [unfold rt_deref; by rewrite He|].
  rewrite (rt_lookup_dest _ _ _ Hr), (rt_lookup_dest _ _ _ He).
  destruct ((rt_state e =? VALID) && _ && _) eqn:Hu; [|by split_and!].
  assert (Hst : rt_state e ≠ INVALID).
  { apply andb_true_iff in Hu as [Hu _]. apply andb_true_iff in Hu as [Hu _].
    apply Z.eqb_eq in Hu. rewrite Hu. done. }
  destruct (has _ _ && _).
  - revert s Hi He Hr. intros s Hi He _. revert s Hi He.
    change (eff j e (invalidated (set_rt_flags (Z.lor (rt_flags e) RT_REPAIR) e))
      (rt_modify j (λ u, set_rt_flags (Z.lor (rt_flags u) RT_REPAIR) u) ;;
       rt_table_invalidate j ;; ret acc)).
    eapply eff_bind; [apply eff_modify; [done|entry]|intros _].
    eapply eff_bind; [by apply rt_table_invalidate_eff|intros _]. apply eff_ret.
  - clear Hr. revert s Hi He.
    change (eff j e (without_precursors (invalidated e))
      (rt_table_invalidate j ;; nprec ← rt_get j rt_nprec;
       acc ← (if negb (nprec =? 0) then rerr_include 0 j acc else ret acc);
       precursor_list_destroy j ;; ret acc)).
    eapply eff_bind; [by apply rt_table_invalidate_eff|intros _]. apply eff_get.
    eapply eff_bind.
    { apply eff_frame; [safe_go|frame_go]. }
    intros acc'. eapply eff_bind; [apply precursor_list_destroy_eff|intros _]. apply eff_ret.
Qed.

(** The loop over the table: every entry is visited once. *)
Lemma link_break_loop rt er keys : ∀ acc s,
  inv s → rt_lookup (rt_tbl s) rt = Some er → rt_state er = INVALID →
  live_all s keys → NoDup keys →
  wp buf_ub (foreach keys acc (link_break_entry rt)) (λ _ s', inv s' ∧ ext Quiet s s' ∧
    ∀ j, rt_lookup (rt_tbl s') j
         = (if decide (j ∈ keys) then broken rt j (has (rt_flags er) RT_REPAIR) else id)
             <$> rt_lookup (rt_tbl s) j) s.
Proof.
  induction keys as [|k keys IH]; intros acc s Hi Hr Hst Hl Hnd.
  - split_and!; [done|done|]. intros j. by rewrite option_fmap_id.
  - apply Forall_cons in Hl as [[e He] Hl]. apply NoDup_cons in Hnd as [Hk Hnd].
    simpl. apply wp_bind. eapply wp_mono; [by apply link_break_entry_eff|].
    intros acc1 s1 (Hi1 & Hx1 & He1 & Ho1).
    assert (Hr1 : rt_lookup (rt_tbl s1) rt = Some er).
    { destruct (decide (rt = k)) as [->|Hne]; [|by rewrite Ho1].
      rewrite He1. f_equal. simplify_eq. unfold broken, uses_hop. by rewrite Hst. }
    eapply wp_mono; [apply IH; [done|done|done|by eapply live_all_ext|done]|].
    intros acc2 s2 (Hi2 & Hx2 & Hj2). split_and!; [done|by etransitivity|].
    intros j. rewrite Hj2. destruct (decide (j = k)) as [->|Hne].
    + rewrite He1, He. rewrite decide_False by done. rewrite decide_True by left. done.
    + rewrite Ho1 by done.
      destruct (decide (j ∈ keys)); [rewrite decide_True by (by right)|
        rewrite decide_False by (rewrite elem_of_cons; tauto)]; done.
Qed.

(** The entry of the lost neighbour itself. *)
Definition lost_neighbor (e : rt_table_t) : rt_table_t :=
  let e1 := if rt_state e =? INVALID then e else invalidated e in
  if has (rt_flags e1) RT_REPAIR then e1 else without_precursors e1.

Lemma lost_neighbor_fields e :
  rt_state (lost_neighbor e) = INVALID ∧ rt_flags (lost_neighbor e) = rt_flags e ∧
  (rt_state e = VALID → rt_dest_seqno (lost_neighbor e) = seqno_incr (rt_dest_seqno e)).
Proof.
  unfold lost_neighbor. destruct (rt_state e =? INVALID) eqn:Hst; simpl;
    destruct (has _ _); simpl; try done; apply Z.eqb_eq in Hst; by rewrite Hst.
Qed.

Lemma lost_neighbor_eff k e : eff k e (lost_neighbor e) (link_break_self k).
Proof.
  unfold link_break_self. set (e1 := if rt_state e =? INVALID then e else invalidated e).
  eapply (eff_bind _ _ e1).
  { unfold e1. destruct (rt_state e =? INVALID) eqn:Hst.
    - unfold rt_table_invalidate. eapply eff_bind; [eff_leaf|intros _].
      apply eff_deref. rewrite Hst. apply eff_ret.
    - apply rt_table_invalidate_eff. by apply Z.eqb_neq. }
  intros _. apply eff_deref. eapply eff_bind; [apply eff_frame; [safe_go|frame_go]|].
  intros acc. eapply eff_bind; [|intros _; apply eff_ret].
  unfold lost_neighbor. fold e1. destruct (has (rt_flags e1) RT_REPAIR); simpl.
  - apply eff_ret.
  - apply precursor_list_destroy_eff.
Qed.

Lemma neighbor_link_break_spec s k e :
  inv s → rt_lookup (rt_tbl s) k = Some e → rt_hcnt e = 1 →
  wp buf_ub (neighbor_link_break k) (λ _ s', inv s' ∧ ext Quiet s s' ∧
    ∀ j, rt_lookup (rt_tbl s') j =
      if decide (j = k) then Some (lost_neighbor e)
      else broken k j (has (rt_flags e) RT_REPAIR) <$> rt_lookup (rt_tbl s) j) s.
Proof.
  intros Hi He Hh. unfold neighbor_link_break.
  eapply wp_run; [unfold rt_deref; by rewrite He|]. rewrite Hh. simpl.
  apply wp_bind. eapply wp_mono; [by apply lost_neighbor_eff|].
  intros acc s1 (Hi1 & Hx1 & He1 & Ho1). apply wp_bind, wp_gets, wp_bind.
  destruct (lost_neighbor_fields e) as (Hst & Hfl & _).
  eapply wp_mono; [apply (link_break_loop k (lost_neighbor e)); [done|done|done| |]|].
  { apply Forall_forall. intros j Hj. by apply elem_of_rt_keys; [apply Hi1|]. }
  { apply rt_keys_nodup, Hi1. }
  intros acc2 s2 (Hi2 & Hx2 & Hj2). rewrite Hfl in Hj2.
  eapply wp_mono; [apply (wp_frame rt_tbl); [apply frames_rerr_transmit|]|].
  { apply (wp_safe_end Quiet [] _ nop s); [apply safe_rerr_transmit|done| |constructor].
    by etransitivity. }
  intros _ s3 ((Hi3 & Hx3 & _) & Ht). split_and!; [done|done|]. intros j. rewrite Ht, Hj2.
  destruct (decide (j = k)) as [->|Hne].
  - rewrite He1. case_decide; [|done]. simpl. f_equal. unfold broken, uses_hop.
    by rewrite Hst.
  - rewrite Ho1 by done. case_decide as Hin; [done|].
    destruct (rt_lookup (rt_tbl s) j) as [ej|] eqn:Hej; [|done]. destruct Hin.
    apply elem_of_rt_keys; [apply Hi1|]. exists ej. by rewrite Ho1.
Qed.

(** C7: when the link to a neighbour breaks, no valid route uses it as its next
    hop any more: the neighbour's entry and every entry routed through it are
    invalidated, each with its sequence number incremented; the routes through
    other neighbours are exactly as before.  The operation returns when the
    destinations to report fit in a RERR. *)
Theorem link_break_invalidates (s : state) (k : Z) (e : rt_table_t) :
  inv s → rt_lookup (rt_tbl s) k = Some e → rt_hcnt e = 1 →
  (has_room 0 s → returns (neighbor_link_break k) s) ∧
  wp buf_ub (neighbor_link_break k) (λ _ s',
    (∀ j ej, rt_lookup (rt_tbl s') j = Some ej → rt_state ej = VALID → rt_next_hop ej ≠ k) ∧
    (∀ j ej, rt_lookup (rt_tbl s) j = Some ej → rt_state ej = VALID → rt_next_hop ej = k →
      ∃ ej', rt_lookup (rt_tbl s') j = Some ej' ∧ rt_state ej' = INVALID ∧
             rt_dest_seqno ej' = seqno_incr (rt_dest_seqno ej)) ∧
    (∀ j ej, rt_lookup (rt_tbl s) j = Some ej → j ≠ k → rt_next_hop ej ≠ k →
      rt_lookup (rt_tbl s') j = Some ej)) s.
Proof.
  intros Hi He Hh. split.
  { intros Hr. apply (total_returns (Some 0%nat) [k]); [|done|apply Forall_singleton; by exists e|done].
    apply total_neighbor_link_break. left. }
  eapply wp_mono; [by apply neighbor_link_break_spec|].
  intros _ s' (_ & _ & Hj). destruct (lost_neighbor_fields e) as (Hst & _ & Hsq).
  set (rep := has (rt_flags e) RT_REPAIR) in *.
  split_and!; intros j ej Hl; pose proof (Hj j) as Hjj; case_decide as Hjk;
    try subst j.
  - intros Hv. rewrite Hl in Hjj. simplify_eq. rewrite Hst in Hv. done.
  - intros Hv Hnk. rewrite Hl in Hjj. symmetry in Hjj.
    apply fmap_Some in Hjj as (e0 & _ & ->).
    pose proof (broken_unused k j rep e0) as Hb. unfold uses_hop in Hb.
    rewrite Hv, Hnk, !Z.eqb_refl, (proj2 (Z.eqb_neq j k)) in Hb by done. discriminate.
  - intros Hv _. simplify_eq. eauto.
  - intros Hv Hnk. rewrite Hl in Hjj. eexists. split; [exact Hjj|].
    unfold broken, uses_hop. rewrite Hv, Hnk, !Z.eqb_refl, (proj2 (Z.eqb_neq j k)) by done.
    simpl. by destruct (rep && _).
  - done.
  - intros _ Hnk. rewrite Hjj, Hl. simpl. unfold broken, uses_hop.
    by rewrite (proj2 (Z.eqb_neq _ _) Hnk), andb_false_r.
Qed.

(** ** Received RERRs *)

(** What a listed destination's entry becomes. *)
Definition rerr_updated (n : bool) (src sq : Z) (e : rt_table_t) : rt_table_t :=
  if (rt_state e =? VALID) && (rt_next_hop e =? src) then
    let e1 := set_rt_dest_seqno sq (if n then e else invalidated e) in
    if rt_state e1 =? INVALID then without_precursors e1 else e1
  else e.

Lemma rerr_update_eff n src sq e k acc :
  0 <= sq < 4294967296 →
  eff k e (rerr_updated n src sq e)
    (e ← rt_deref k;
     if (rt_state e =? VALID) && (rt_next_hop e =? src) then
       (if n then ret () else rt_table_invalidate k ;; ret ()) ;;
       rt_modify k (set_rt_dest_seqno sq) ;;
       e ← rt_deref k;
       acc ← (if negb (rt_nprec e =? 0) && negb (has (rt_flags e) RT_REPAIR)
              then rerr_include (if n then RERR_NODELETE else 0) k acc
              else ret acc);
       st ← rt_get k rt_state;
       when (st =? INVALID) (precursor_list_destroy k) ;;
       ret acc
     else ret acc).
Proof.
  intros Hsq. apply eff_deref. unfold rerr_updated.
  destruct (rt_state e =? VALID) eqn:Hv; [|apply eff_ret].
  destruct (rt_next_hop e =? src); [|apply eff_ret]. simpl.
  apply Z.eqb_eq in Hv.
  eapply (eff_bind _ _ (if n then e else invalidated e)).
  { destruct n; [apply eff_ret|]. eapply eff_bind; [|intros _; apply eff_ret].
    apply rt_table_invalidate_eff. by rewrite Hv. }
  intros _. eapply eff_bind; [apply eff_modify; [done|entry]|intros _].
  set (e1 := set_rt_dest_seqno sq _).
  apply eff_deref. eapply eff_bind; [apply eff_frame; [safe_go|frame_go]|intros acc'].
  apply eff_get. eapply eff_bind; [|intros _; apply eff_ret].
  change (rt_state (if n then e else invalidated e)) with (rt_state e1).
  destruct (rt_state e1 =? INVALID); [apply precursor_list_destroy_eff|apply eff_ret].
Qed.

Lemma rerr_process_udest_spec s n src off acc a raw :
  inv s → load32 (recv_buf s) off = Some a → load32 (recv_buf s) (off + 4) = Some raw →
  wp buf_ub (rerr_process_udest n src off acc) (λ _ s', inv s' ∧ ext Quiet s s' ∧
    ∀ j, rt_lookup (rt_tbl s') j
         = if decide (j = a) then rerr_updated n src (ntohl raw) <$> rt_lookup (rt_tbl s) j
           else rt_lookup (rt_tbl s) j) s.
Proof.
  intros Hi Ha Hraw. unfold rerr_process_udest.
  eapply wp_run; [unfold recv_load32; by rewrite Ha|].
  eapply wp_run; [unfold recv_load32; by rewrite Hraw|].
  unfold rt_table_find. apply wp_bind, wp_gets. rewrite find_entry_lookup by apply Hi.
  destruct (rt_lookup (rt_tbl s) a) as [e|] eqn:He; simpl.
  - rewrite (rt_lookup_dest _ _ _ He).
    eapply wp_mono; [apply (rerr_update_eff n src (ntohl raw) e a acc (ntohl_range _)); done|].
    intros acc' s' (Hi' & Hx' & Ha' & Ho'). split_and!; [done|done|].
    intros j. case_decide; [subst; by rewrite He|by apply Ho'].
  - split_and!; [done|done|]. intros j. case_decide; [subst; by rewrite He|done].
Qed.

Lemma frames_invalidate k : frames recv_buf (rt_table_invalidate k).
Proof.
  unfold rt_table_invalidate, rt_modify, nl_send_del_route_msg, nl_kern_route, nl_send. frame_go.
Qed.

Lemma frames_rerr_process_udest n src off acc :
  frames recv_buf (rerr_process_udest n src off acc).
Proof.
  unfold rerr_process_udest, rt_table_find, precursor_list_destroy, rt_modify, rerr_include,
    rerr_create, rerr_add_udest, rerr_dest_count, aodv_socket_new_msg, rt_get.
  pose proof frames_invalidate. frame_go.
Qed.

(** The route [e] is valid and goes through the sender of the RERR. *)
Definition via (src : Z) (e : rt_table_t) : bool :=
  (rt_state e =? VALID) && (rt_next_hop e =? src).

Lemma rerr_updated_other n src sq e : via src e = false → rerr_updated n src sq e = e.
Proof. unfold via, rerr_updated. by intros ->. Qed.

Lemma rerr_updated_deleted src sq e : via src (rerr_updated false src sq e) = false.
Proof.
  unfold rerr_updated. fold (via src e). destruct (via src e) eqn:E; [|done]. done.
Qed.

Definition rerr_body (n : bool) (src count : Z) (i : nat) (acc : rerr_acc) : M rerr_acc :=
  acc ← rerr_process_udest n src (4 + Z.of_nat i * RERR_UDEST_SIZE) acc;
  recv_store (λ b, store8 b 3 (count - Z.of_nat i - 1)) ;;
  ret acc.

(** The update of the route to a listed destination. *)
Lemma reporting_rerr_update ks (n : bool) src sq k acc m :
  k ∈ ks → 0 <= sq < 4294967296 → (m <= 100)%nat →
  reporting ks m (S m) acc
    (e ← rt_deref k;
     if (rt_state e =? VALID) && (rt_next_hop e =? src) then
       (if n then ret () else rt_table_invalidate k ;; ret ()) ;;
       rt_modify k (set_rt_dest_seqno sq) ;;
       e ← rt_deref k;
       acc ← (if negb (rt_nprec e =? 0) && negb (has (rt_flags e) RT_REPAIR)
              then rerr_include (if n then RERR_NODELETE else 0) k acc
              else ret acc);
       st ← rt_get k rt_state;
       when (st =? INVALID) (precursor_list_destroy k) ;;
       ret acc
     else ret acc) (λ acc', acc').
Proof.
  intros Hk Hsq Hm. apply reporting_deref; [done|intros e1].
  destruct (_ && _); [|apply reporting_ret; [done|lia]].
  eapply (reporting_bind _ _ m _ _ _ _ (λ _, acc)).
  { destruct n; [apply reporting_ret; [done|lia]|].
    eapply reporting_bind; [by apply reporting_invalidate|intros ?].
    apply reporting_ret; [done|lia]. }
  intros ?. eapply reporting_bind; [apply reporting_rt_modify; [done|safe_go]|intros ?].
  apply reporting_deref; [done|intros e2].
  eapply (reporting_bind _ _ (S m) _ _ _ _ (λ acc', acc')).
  { destruct (_ && _); [by apply reporting_include|apply reporting_ret; [done|lia]]. }
  intros acc'.
  eapply reporting_bind; [apply reporting_quiet; [total_go|safe_go|frame_go]|intros ?].
  eapply (reporting_bind _ _ (S m) _ _ _ _ (λ _, acc')).
  { destruct (_ =? _); [by apply reporting_destroy|apply reporting_ret; [done|lia]]. }
  intros ?. apply reporting_ret; [done|lia].
Qed.

Lemma reporting_rerr_body ks n src count i acc m :
  (i < 101)%nat → (m <= 100)%nat →
  reporting ks m (S m) acc (rerr_body n src count i acc) (λ acc', acc').
Proof.
  intros Hlt Hm. set (off := 4 + Z.of_nat i * RERR_UDEST_SIZE).
  assert (Hoff : 0 <= off <= RECV_BUF_SIZE - 8) by (unfold off; in_buffer).
  eapply (reporting_bind _ _ (S m) _ _ _ _ (λ acc', acc')).
  - fold off. unfold rerr_process_udest.
    do 2 (eapply reporting_bind; [apply reporting_quiet; [total_go|safe_go|frame_go]|intros ?]).
    apply reporting_find_or; [|apply reporting_ret; [done|lia]].
    apply reporting_rerr_update; [left|apply ntohl_range|done].
  - intros acc'.
    eapply reporting_bind; [apply reporting_quiet; [total_go|safe_go|frame_go]|intros ?].
    apply reporting_ret; [done|lia].
Qed.

Lemma rerr_body_spec s n src count i acc :
  inv s →
  wp buf_ub (rerr_body n src count i acc) (λ _ s', inv s' ∧ ext Quiet s s' ∧
    (∀ i, udest_at (recv_buf s') i = udest_at (recv_buf s) i) ∧
    ∃ sq, ∀ j, rt_lookup (rt_tbl s') j
      = (if decide (udest_at (recv_buf s) i = Some j) then rerr_updated n src sq else id)
          <$> rt_lookup (rt_tbl s) j) s.
Proof.
  intros Hi. unfold rerr_body. set (off := 4 + Z.of_nat i * RERR_UDEST_SIZE).
  destruct (load32 (recv_buf s) off) as [a|] eqn:Ha.
  2:{ unfold wp, rerr_process_udest, bind, recv_load32. rewrite Ha. by right. }
  destruct (load32 (recv_buf s) (off + 4)) as [raw|] eqn:Hr.
  2:{ unfold wp, rerr_process_udest, bind, recv_load32. rewrite Ha. simpl. rewrite Hr.
      by right. }
  assert (Hu : udest_at (recv_buf s) i = Some a) by exact Ha.
  apply wp_bind. eapply wp_mono.
  { apply (wp_frame recv_buf); [apply frames_rerr_process_udest|].
    by apply (rerr_process_udest_spec s n src off acc a raw). }
  intros acc1 s1 ((Hi1 & Hx1 & Hj1) & Hb1). apply wp_bind. unfold wp at 1, recv_store.
  destruct (store8 (recv_buf s1) 3 _) as [b|] eqn:Hst; [|by right].
  apply wp_ret. split_and!.
  - destruct (Hi1). split; simpl; try done;
      [by rewrite (store8_length _ _ _ _ Hst)|by eapply bytes_ok_store8].
  - transitivity s1; [done|by split].
  - intros i'. unfold udest_at. simpl. rewrite <- Hb1.
    eapply load32_store8_ne; [done|]. unfold RERR_UDEST_SIZE. lia.
  - exists (ntohl raw). intros j. simpl. rewrite Hj1.
    destruct (decide (j = a)) as [->|Hne]; [by rewrite (decide_True _ _ Hu)|].
    rewrite (decide_False (P := _ = Some j)) by congruence. by rewrite option_fmap_id.
Qed.

Lemma rerr_loop_spec n src count l : ∀ acc s,
  inv s →
  wp buf_ub (foreach l acc (rerr_body n src count)) (λ _ s', inv s' ∧ ext Quiet s s' ∧
    (∀ j, rt_lookup (rt_tbl s) j = None → rt_lookup (rt_tbl s') j = None) ∧
    (∀ j e, rt_lookup (rt_tbl s) j = Some e → via src e = false →
       rt_lookup (rt_tbl s') j = Some e) ∧
    (∀ j, (∀ i, i ∈ l → udest_at (recv_buf s) i ≠ Some j) →
       rt_lookup (rt_tbl s') j = rt_lookup (rt_tbl s) j) ∧
    (n = false → ∀ i j e', i ∈ l → udest_at (recv_buf s) i = Some j →
       rt_lookup (rt_tbl s') j = Some e' → via src e' = false)) s.
Proof.
  induction l as [|i l IH]; intros acc s Hi.
  - split_and!; try done. by intros _ i j e' ?%not_elem_of_nil.
  - cbn [foreach]. apply wp_bind. eapply wp_mono; [by apply rerr_body_spec|].
    intros acc1 s1 (Hi1 & Hx1 & Hu1 & sq & Hj1).
    eapply wp_mono; [by apply IH|]. intros acc2 s2 (Hi2 & Hx2 & Hz2 & Hv2 & Hn2 & Hd2).
    split_and!; [done|by etransitivity| | | |].
    + intros j He. apply Hz2. by rewrite Hj1, He.
    + intros j e He Hv. apply Hv2; [|done]. rewrite Hj1, He.
      case_decide; simpl; [by rewrite rerr_updated_other|done].
    + intros j Hn. rewrite Hn2.
      2:{ intros i' Hi'. rewrite Hu1. apply Hn. by right. }
      rewrite Hj1, decide_False by (apply Hn; left). by rewrite option_fmap_id.
    + intros -> i' j e' Hin Hu He'. apply elem_of_cons in Hin as [->|Hin].
      2:{ eapply Hd2; [done|done| |done]. by rewrite Hu1. }
      destruct (rt_lookup (rt_tbl s) j) as [e|] eqn:He.
      * specialize (Hj1 j). rewrite decide_True, He in Hj1 by done. simpl in Hj1.
        pose proof (rerr_updated_deleted src sq e) as Hdel.
        rewrite (Hv2 _ _ Hj1 Hdel) in He'. by simplify_eq.
      * rewrite Hz2 in He'; [done|]. by rewrite Hj1, He.
Qed.

Lemma rerr_process_completes s len src count flags :
  inv s → load8 (recv_buf s) 3 = Some count → load8 (recv_buf s) 1 = Some flags →
  RERR_CALC_SIZE count <= len <= RECV_BUF_SIZE → completes 0 (rerr_process len src) s.
Proof.
  intros Hi Hc Hf Hlen. unfold rerr_process.
  assert (Hcnt : 0 <= count <= 101).
  { pose proof (load8_range _ _ _ (inv_recv_bytes _ Hi) Hc). unfold RERR_CALC_SIZE in Hlen.
    in_buffer. }
  eapply completes_run; [unfold recv_load8; by rewrite Hc|done|].
  rewrite (proj2 (Z.ltb_ge _ _) (proj1 Hlen)).
  eapply completes_run; [unfold recv_load8; by rewrite Hf|done|].
  destruct (reporting_foreach [] (seq 0 (Z.to_nat count))
    (rerr_body (Z.testbit flags 7) src count) 0 (mk_rerr_acc false 0))
    with (s := s) as (acc & s1 & R1 & Hi1 & _ & G1 & Hr1); [| |done|constructor|done|].
  - intros i acc m Hin%elem_of_seq Hm. apply reporting_rerr_body; [lia|done].
  - rewrite length_seq. lia.
  - apply (completes_then 0 0 _ _ _ _ _ R1 G1).
    destruct (rerr_transmit_total s1 acc Hi1) as (s2 & R2 & G2).
    { intros Hcr. destruct (Hr1 Hcr) as (l & ? & Hl). rewrite length_seq in Hl.
      exists l. split; [done|lia]. }
    by exists (), s2.
Qed.

(** C11: a RERR from [src] changes nothing but the listed destinations whose
    valid route goes through [src]; without the no-delete bit, no listed
    destination keeps a valid route through [src].  The message is processed to
    its end whatever the table holds. *)
Theorem rerr_process_scope (s : state) (len src count flags : Z) :
  inv s → load8 (recv_buf s) 3 = Some count → load8 (recv_buf s) 1 = Some flags →
  RERR_CALC_SIZE count <= len →
  (len <= RECV_BUF_SIZE → returns (rerr_process len src) s) ∧
  wp buf_ub (rerr_process len src) (λ _ s',
    (∀ j e, rt_lookup (rt_tbl s) j = Some e →
       rt_state e ≠ VALID ∨ rt_next_hop e ≠ src ∨
       (∀ i, (i < Z.to_nat count)%nat → udest_at (recv_buf s) i ≠ Some j) →
       rt_lookup (rt_tbl s') j = Some e) ∧
    (Z.testbit flags 7 = false → ∀ i j e', (i < Z.to_nat count)%nat →
       udest_at (recv_buf s) i = Some j → rt_lookup (rt_tbl s') j = Some e' →
       rt_state e' = VALID → rt_next_hop e' ≠ src)) s.
Proof.
  intros Hi Hc Hf Hlen. split; [intros Hmax; by eapply (completes_returns 0), rerr_process_completes|].
  unfold rerr_process.
  eapply wp_run; [unfold recv_load8; by rewrite Hc|].
  rewrite (proj2 (Z.ltb_ge _ _) Hlen).
  eapply wp_run; [unfold recv_load8; by rewrite Hf|].
  apply wp_bind. eapply wp_mono; [by apply (rerr_loop_spec (Z.testbit flags 7) src count)|].
  intros acc s1 (Hi1 & Hx1 & _ & Hv & Hn & Hd).
  eapply wp_mono; [apply (wp_frame rt_tbl); [apply frames_rerr_transmit|]|].
  { apply (safe_rerr_transmit Quiet []); [done|constructor]. }
  intros _ s2 [_ Ht]. rewrite Ht. unfold via in *. split.
  - intros j e He [Hst|[Hnh|Hno]].
    + apply Hv; [done|]. by rewrite (proj2 (Z.eqb_neq _ _) Hst).
    + apply Hv; [done|]. by rewrite (proj2 (Z.eqb_neq _ _) Hnh), andb_false_r.
    + rewrite Hn; [done|]. intros i Hin%elem_of_seq. apply Hno. lia.
  - intros Hb i j e' Hlt Hu He' Hst Hnh.
    assert (Hin : i ∈ seq 0 (Z.to_nat count)) by (apply elem_of_seq; lia).
    pose proof (Hd Hb i j e' Hin Hu He') as Hf'. by rewrite Hst, Hnh, !Z.eqb_refl in Hf'.
Qed.

(** ** Encoding of RERRs *)

(** C19: a RERR with up to 101 unreachable destinations is built within the send
    buffer, and what a receiver reads from it are exactly the destinations
    and sequence numbers that were put in, in order. *)
Theorem rerr_roundtrip (s : state) (flags : Z) (first : Z * Z) (rest : list (Z * Z)) :
  (length rest <= 100)%nat →
  ∃ s', rerr_build flags first rest s = Ok () s' ∧
    load8 (send_buf s') 3 = Some (Z.of_nat (S (length rest))) ∧
    ∀ i a n, (first :: rest) !! i = Some (a, n) →
      udest_at (send_buf s') i = Some (u32 a) ∧
      ntohl <$> load32 (send_buf s') (4 + Z.of_nat i * RERR_UDEST_SIZE + 4) = Some (u32 n).
Proof.
  intros Hlen. destruct first as [d n]. unfold rerr_build.
  destruct (rerr_create_run s flags d n) as (b & Hrun & Lb & Hh).
  rewrite (bind_ok _ _ _ _ _ Hrun).
  destruct (rerr_add_loop rest (set_send_buf b s) [(d, n)]) as (b' & Hrun' & _ & _ & Hc & Hu);
    [done|done|simpl; lia|simpl; lia|].
  eexists. split; [exact Hrun'|]. done.
Qed.

(** Nothing bounds the number of destinations: a RERR for 102 destinations
    is written past the end of the send buffer. *)
Theorem rerr_build_overflow (s : state) (flags : Z) (first : Z * Z) (rest : list (Z * Z)) :
  (length rest = 101)%nat → rerr_build flags first rest s = Ub SendBufOverflow.
Proof.
  intros Hlen. destruct first as [d n].
  destruct (exists_last (l := rest)) as (r & [d' n'] & ->); [by intros ->|].
  rewrite length_app in Hlen. simpl in Hlen. unfold rerr_build.
  destruct (rerr_create_run s flags d n) as (b & Hrun & Lb & Hh).
  rewrite (bind_ok _ _ _ _ _ Hrun), foreach_app.
  destruct (rerr_add_loop r (set_send_buf b s) [(d, n)]) as (b' & Hrun' & Lb' & _ & Hc & _);
    [done|done|simpl; lia|simpl; lia|].
  rewrite (bind_ok _ _ _ _ _ Hrun'). cbn [foreach].
  unfold rerr_add_udest, bind, rerr_dest_count, send_load8, send_store32, send_store.
  simpl send_buf. rewrite Hc.
  assert (Hst : store32 b' (RERR_CALC_SIZE (Z.of_nat (length ([(d, n)] ++ r)))) d' = None).
  { unfold store32, le_bytes32, store_bytes, store8. rewrite Lb'.
    rewrite (proj2 (andb_false_iff _ _)); [done|]. right. apply Z.ltb_ge.
    unfold RERR_CALC_SIZE, RERR_SIZE, RERR_UDEST_SIZE. rewrite SEND_BUF_SIZE_eq. simpl. lia. }
  simpl in Hst |- *. by rewrite Hst.
Qed.
