(* ===== verification/RtUpdate.v ===== *)
(** * routing/routing_table.c: insertion and update of routes *)

From S2P Require Import Prelude.
From S2P Require Import Params.
From S2P Require Import Bytes.
From S2P Require Import TimerQueue.
From S2P Require Import State.
From S2P Require Import Frame.
From S2P Require Import Nl.
From S2P Require Import RtTable.
From S2P Require Import Inv.
From S2P Require Import Total.
From S2P Require Import PacketQueue.
From S2P Require Import SeekList.
From S2P Require Import Socket.
From S2P Require Import Rerr.

#[local] Open Scope cm_scope.

(** [if (rt->state == VALID && seek_list_remove(seek_list_find(dest)))]: the
    packets that waited for the route are released. *)
Definition release_packets (rt : Z) : M () :=
  e ← rt_deref rt;
  if rt_state e =? VALID then
    entry ← seek_list_find (rt_dest_addr e);
    found ← seek_list_remove entry;
    when found
      (packet_queue_set_verdict (rt_dest_addr e)
         (if has (rt_flags e) RT_INET_DEST then PQ_ENC_SEND else PQ_SEND) ;; ret ())
  else ret ().

(** [list_add(&rt_tbl.tbl[index], &rt->l)] with [num_entries++]. *)
Definition tbl_add (t : routing_table) (e : rt_table_t) : routing_table :=
  let i := hash_index (rt_dest_addr e) in
  mk_table (u32 (num_entries t + 1)) (num_active t) (<[i := e :: bucket t i]> (tbl t)).

(** The result is [None] (NULL) when the destination is already in the table. *)
Definition rt_table_insert (dest_addr next hops seqno life st flags ifindex : Z)
  : M (option Z) :=
  let hops := u8 hops in
  let life := u32 life in
  exists_ ← gets (λ s, existsb (λ e, rt_dest_addr e =? dest_addr)
                         (bucket (rt_tbl s) (hash_index dest_addr)));
  if exists_ then ret None else
  n ← gets (λ s, Z.of_nat (length (concat (tbl (rt_tbl s)))));
  limit ← gets (λ s, env_heap (env s));
  if limit <=? n then cexit (-1) else
  on_tq (timer_init (RtTimer dest_addr) route_expire_timeout) ;;
  on_tq (timer_init (AckTimer dest_addr) rrep_ack_timeout) ;;
  on_tq (timer_init (HelloTimer dest_addr) hello_timeout) ;;
  modify (λ s, set_rt_tbl (tbl_add (rt_tbl s)
    (mk_rt dest_addr seqno ifindex next hops flags st tv_zero 0 dest_addr 0 [])) s) ;;
  o ← gets opts;
  life ← (if st =? INVALID then
            if has flags RT_REPAIR then
              set_handler (RtTimer dest_addr) local_repair_timeout ;;
              ret (active_route_timeout o)
            else
              set_handler (RtTimer dest_addr) route_delete_timeout ;;
              ret (delete_period o)
          else
            modify (λ s, set_rt_tbl
              (set_num_active (u32 (num_active (rt_tbl s) + 1)) (rt_tbl s)) s) ;;
            nl_send_add_route_msg dest_addr next hops ifindex ;;
            ret life);
  when (negb (u32 life =? 0)) (set_timeout (RtTimer dest_addr) (u32 life)) ;;
  release_packets dest_addr ;;
  ret (Some dest_addr).

Definition rt_table_update (rt next hops seqno lifetime st flags : Z) : M () :=
  let hops := u8 hops in
  e ← rt_deref rt;
  flags ← (if (rt_state e =? INVALID) && (st =? VALID) then
             modify (λ s, set_rt_tbl
               (set_num_active (u32 (num_active (rt_tbl s) + 1)) (rt_tbl s)) s) ;;
             let flags := if has (rt_flags e) RT_REPAIR
                          then Z.land flags (Z.lnot RT_REPAIR) else flags in
             nl_send_add_route_msg (rt_dest_addr e) next hops (rt_ifindex e) ;;
             ret flags
           else
             when (negb (rt_next_hop e =? 0) && negb (rt_next_hop e =? next))
               (nl_send_add_route_msg (rt_dest_addr e) next hops (rt_ifindex e)) ;;
             ret flags);
  when ((1 <? hops) && (rt_hcnt e =? 1))
    (rt_modify rt (λ e, set_rt_hello_cnt 0 (set_rt_last_hello_time tv_zero e)) ;;
     on_tq (timer_remove (HelloTimer rt)) ;;
     neighbor_link_break rt) ;;
  rt_modify rt (λ e, set_rt_hcnt hops (set_rt_next_hop next
                      (set_rt_dest_seqno seqno (set_rt_flags flags e)))) ;;
  set_handler (RtTimer rt) route_expire_timeout ;;
  e ← rt_deref rt;
  when (negb (has (rt_flags e) RT_INET_DEST)) (rt_table_update_timeout rt lifetime) ;;
  rt_modify rt (set_rt_state st) ;;
  release_packets rt.

(** ** Insertion into the table *)

Lemma existsb_dest_live t d :
  table_ok t →
  existsb (λ e, rt_dest_addr e =? d) (bucket t (hash_index d)) = true ↔ rt_live t d.
Proof.
  intros Hok. rewrite existsb_exists. split.
  - intros (e & He & Hd). apply list_elem_of_In in He. by eapply search_is_Some.
  - intros [e [He Hd]%search_Some]. exists e. by split; [apply list_elem_of_In|].
Qed.

Lemma rt_lookup_add t e j :
  table_ok t →
  rt_lookup (tbl_add t e) j = if decide (j = rt_dest_addr e) then Some e else rt_lookup t j.
Proof.
  intros Hok. set (k := rt_dest_addr e).
  assert (Heq : ∀ i, bucket (tbl_add t e) i
    = bucket (set_tbl (<[hash_index k := e :: bucket t (hash_index k)]> (tbl t)) t) i)
    by done.
  unfold rt_lookup. rewrite Heq.
  destruct (decide (hash_index j = hash_index k)) as [Hh|Hh].
  - rewrite Hh, bucket_insert_eq by done. simpl. fold k. case_decide as Hjk.
    + subst j. by rewrite Z.eqb_refl.
    + by rewrite (proj2 (Z.eqb_neq k j)) by congruence.
  - rewrite bucket_insert_ne by done. case_decide; [congruence|done].
Qed.

Lemma table_ok_add t e :
  table_ok t → entry_ok e → ¬ rt_live t (rt_dest_addr e) →
  Z.of_nat (length (concat (tbl t))) < 4294967295 → table_ok (tbl_add t e).
Proof.
  intros Hok He Hn Hlen. pose proof (tbl_count _ Hok) as Hc.
  pose proof (bucket_lookup t (rt_dest_addr e) Hok) as Hb.
  apply table_ok_bucket; [done| | | |].
  - rewrite fmap_cons. apply NoDup_cons. split; [|by eapply tbl_nodup].
    intros (c & Hc' & Hin)%list_elem_of_fmap. apply Hn. rewrite Hc'.
    exists c. apply rt_lookup_elem; [done|]. by eapply elem_of_concat_lookup.
  - intros c [->|Hin]%elem_of_cons; [done|by eapply tbl_place].
  - intros c [->|Hin]%elem_of_cons; [done|by eapply tbl_entry].
  - rewrite u32_small by lia. simpl. lia.
Qed.

Lemma length_tbl_add t e :
  table_ok t →
  length (concat (tbl (tbl_add t e))) = S (length (concat (tbl t))).
Proof.
  intros Hok.
  pose proof (length_concat_insert (tbl t) _ _ (e :: bucket t (hash_index (rt_dest_addr e)))
    (bucket_lookup t (rt_dest_addr e) Hok)) as Hl. simpl in *. lia.
Qed.

(** The three timers of a new entry. *)
Lemma init_rt_timers s d :
  timers_ok (timer_owned s) (tq s) → ¬ rt_live (rt_tbl s) d →
  ∃ q1 q2 q3,
    timer_init (RtTimer d) route_expire_timeout (tq s) = Ok () q1 ∧
    timer_init (AckTimer d) rrep_ack_timeout q1 = Ok () q2 ∧
    timer_init (HelloTimer d) hello_timeout q2 = Ok () q3 ∧ tq_ext (tq s) q3 ∧
    timers_ok (λ id, id = HelloTimer d ∨ id = AckTimer d ∨ id = RtTimer d
                     ∨ timer_owned s id) q3.
Proof.
  intros Hok Hd.
  destruct (timers_ok_fresh _ _ (RtTimer d) route_expire_timeout Hok)
    as (q1 & R1 & O1 & _ & T1 & X1); [done|done|].
  destruct (timers_ok_fresh _ _ (AckTimer d) rrep_ack_timeout O1)
    as (q2 & R2 & O2 & _ & T2 & X2); [by intros [|]|done|].
  destruct (timers_ok_fresh _ _ (HelloTimer d) hello_timeout O2)
    as (q3 & R3 & O3 & _ & T3 & X3); [by intros [|[|]]|done|].
  exists q1, q2, q3. split_and!; [done|done|done| |done].
  apply tq_ext_same; congruence.
Qed.

(** ** Safety *)

Lemma safe_release_packets ks k : k ∈ ks → safe Full ks (release_packets k) nop.
Proof.
  intros Hk. unfold release_packets. safe_step. safe_step; [|safe_go].
  intros s Hi Hl. unfold seek_list_find. apply wp_bind, wp_gets.
  destruct (seek_lookup (seekhead s) (rt_dest_addr e)) as [x|] eqn:E; simpl.
  - pose proof (seek_lookup_dest _ _ _ E) as Hx. rewrite Hx. apply wp_bind.
    eapply wp_mono; [apply seek_list_remove_spec; [done|]|].
    { apply seek_lookup_elem. eauto. }
    intros r s' (-> & Hi' & He & _).
    apply (wp_safe_end _ ks); [safe_go|done|done|by eapply live_all_ext].
  - split_and!; [done|done|constructor].
Qed.
#[export] Hint Resolve safe_release_packets : aodv.

(** *** Return *)

Lemma total_release_packets b ks k : k ∈ ks → total b ks (release_packets k).
Proof.
  intros Hk. unfold release_packets. apply total_deref; [done|intros e _ He].
  destruct (rt_state e =? VALID); [|apply total_ret]. intros s Hi Hl Hr.
  unfold seek_list_find. erewrite bind_ok by done.
  destruct (seek_lookup (seekhead s) (rt_dest_addr e)) as [x|] eqn:E; simpl.
  - rewrite (seek_lookup_dest _ _ _ E).
    destruct (seek_list_remove_run s (rt_dest_addr e) Hi) as (s1 & R1 & Hi1 & Hx1 & _ & _ & G1).
    { apply seek_lookup_elem. eauto. }
    erewrite bind_ok by exact R1. cbn [when].
    edestruct (total_packet_queue_set_verdict None ks (rt_dest_addr e)) as (c & s2 & R2 & G2);
      [exact Hi1|by eapply live_all_ext|done|].
    exists (), s2. split; [by erewrite bind_ok by exact R2|].
    eapply grows_le; [exact (grows_trans 0 0 _ _ _ G1 G2)|lia].
  - exists (), s. split; [done|apply grows_refl].
Qed.
#[export] Hint Resolve total_release_packets : aodv.

(** *** Frames *)

Lemma frames_drain_gen {B} (g : state → B) p v :
  (∀ q s, g (set_PQ q s) = g s) → (∀ tr s, g (set_trace tr s) = g s) → frames g (drain p v).
Proof.
  intros HP Ht.
  assert (Hv : ∀ i, frames g (nfqueue_set_packet_verdict i v)).
  { intros i. unfold nfqueue_set_packet_verdict, emit.
    apply frames_bind; [apply frames_gets|intros q]. by apply frames_when, frames_modify. }
  assert (Hl : ∀ todo kept count, frames g (drain_loop p v kept todo count)).
  { induction todo as [|qp todo IH]; intros kept count; cbn [drain_loop]; [apply frames_ret|].
    destruct (p qp); [|apply IH].
    repeat (apply frames_bind; [by first [apply Hv|apply frames_modify]|intros ?]). apply IH. }
  unfold drain. apply frames_bind; [apply frames_gets|]. intros q. apply Hl.
Qed.

Lemma frames_drain p v : frames entries (drain p v).
Proof. by apply frames_drain_gen. Qed.
Lemma frames_seek_drain p v : frames seekhead (drain p v).
Proof. by apply frames_drain_gen. Qed.
#[export] Hint Resolve frames_drain frames_seek_drain : aodv.

Lemma frames_rt_table_update_timeout k l : frames entries (rt_table_update_timeout k l).
Proof. unfold rt_table_update_timeout. frame_go. Qed.
#[export] Hint Resolve frames_rt_table_update_timeout : aodv.

Lemma frames_set_verdict d v : frames entries (packet_queue_set_verdict d v).
Proof. unfold packet_queue_set_verdict, refresh_released, rt_is_valid. frame_go. Qed.
#[export] Hint Resolve frames_set_verdict : aodv.

Lemma frames_seek_set_verdict d v : frames seekhead (packet_queue_set_verdict d v).
Proof.
  unfold packet_queue_set_verdict, refresh_released, rt_is_valid, rt_table_update_timeout. frame_go.
Qed.

Lemma frames_release_packets k : frames entries (release_packets k).
Proof. unfold release_packets, seek_list_find, seek_list_remove. frame_go. Qed.
#[export] Hint Resolve frames_release_packets : aodv.

Lemma frames_entries_nl_add d n m i : frames entries (nl_send_add_route_msg d n m i).
Proof. unfold nl_send_add_route_msg, nl_kern_route, nl_send. frame_go. Qed.
#[export] Hint Resolve frames_entries_nl_add : aodv.

(** The state in which the new entry and its timers have been added. *)
Lemma insert_entry s d next hops sq st flags ifi :
  inv s → ¬ rt_live (rt_tbl s) d → 0 <= sq < 4294967296 → st = INVALID ∨ st = VALID →
  Z.of_nat (rt_count s) < env_heap (env s) →
  let e := mk_rt d sq ifi next (u8 hops) flags st tv_zero 0 d 0 [] in
  ∃ q1 q2 q3,
    timer_init (RtTimer d) route_expire_timeout (tq s) = Ok () q1 ∧
    timer_init (AckTimer d) rrep_ack_timeout q1 = Ok () q2 ∧
    timer_init (HelloTimer d) hello_timeout q2 = Ok () q3 ∧
    let s1 := set_rt_tbl (tbl_add (rt_tbl s) e) (set_tq q3 s) in
    inv s1 ∧ ext Full s s1 ∧ rt_live (rt_tbl s1) d ∧ grows 1 s s1.
Proof.
  intros Hi Hd Hsq Hst Hheap e. pose proof (inv_table _ Hi) as Htab.
  unfold rt_count in Hheap. pose proof (inv_heap _ Hi) as Hh.
  destruct (init_rt_timers s d (inv_timers _ Hi) Hd) as (q1 & q2 & q3 & R1 & R2 & R3 & HE & HO).
  exists q1, q2, q3. split_and!; [done|done|done|]. intros s1.
  assert (He : entry_ok e) by (split; simpl; try done; [apply u8_range|apply NoDup_nil_2]).
  assert (Hlk := λ j, rt_lookup_add (rt_tbl s) e j Htab).
  assert (Hlen := length_tbl_add (rt_tbl s) e Htab).
  split_and!.
  - assert (Hok : table_ok (tbl_add (rt_tbl s) e)) by (apply table_ok_add; [done|done|done|lia]).
    destruct Hi. split; simpl in *; try done; [rewrite Hlen; lia|].
    eapply timers_ok_iff; [|exact HO]. intros id. unfold s1.
    destruct id; simpl; try (by intuition congruence); unfold rt_live; rewrite Hlk; simpl;
      (case_decide as Hd'; [subst; split; [eauto|auto]|
       split; [intuition congruence|auto]]).
  - destruct HE. split; try done. intros k Hk. unfold rt_live. simpl. rewrite Hlk.
    by case_decide.
  - unfold rt_live. simpl. rewrite Hlk. by rewrite decide_True.
  - split_and!; [done|done|]. unfold rt_count. simpl rt_tbl. lia.
Qed.

(** A destination that is not in the table gets an entry; the other entries
    do not change. *)
Lemma rt_table_insert_full s d next hops sq life st flags ifi :
  inv s → ¬ rt_live (rt_tbl s) d → 0 <= sq < 4294967296 → st = INVALID ∨ st = VALID →
  wp buf_ub (rt_table_insert d next hops sq life st flags ifi)
    (λ r s', (r = Some d ∧ inv s' ∧ ext Full s s' ∧ rt_live (rt_tbl s') d) ∧
      entries s' = tbl (tbl_add (rt_tbl s)
        (mk_rt d sq ifi next (u8 hops) flags st tv_zero 0 d 0 []))) s.
Proof.
  intros Hi Hd Hsq Hst. unfold rt_table_insert. apply wp_bind, wp_gets.
  destruct (existsb _ _) eqn:Hex.
  { destruct Hd. apply existsb_dest_live; [apply Hi|done]. }
  do 2 apply wp_bind, wp_gets. destruct (_ <=? _) eqn:Hheap; [done|]. apply Z.leb_gt in Hheap.
  destruct (insert_entry s d next hops sq st flags ifi Hi Hd Hsq Hst Hheap)
    as (q1 & q2 & q3 & R1 & R2 & R3 & Hi1 & He1 & Hd1 & _).
  eapply wp_run; [apply on_tq_ok; exact R1|]. eapply wp_run; [apply on_tq_ok; exact R2|].
  eapply wp_run; [apply on_tq_ok; exact R3|]. apply wp_bind, wp_modify.
  set (e := mk_rt d sq ifi next (u8 hops) flags st tv_zero 0 d 0 []) in *.
  set (s1 := set_rt_tbl (tbl_add (rt_tbl s) e) (set_tq q3 s)) in *.
  lazymatch goal with |- wp ?E ?m ?Q _ => change (wp E m Q s1) end.
  change (tbl (tbl_add (rt_tbl s) e)) with (entries s1). apply wp_frame; [frame_go|].
  apply wp_bind, wp_gets. wp_call [d] s2 Hi2 He2; [safe_go|].
  wp_call [d] s3 Hi3 He3; [safe_go|]. wp_call [d] s4 Hi4 He4; [safe_go|].
  apply wp_ret. split_and!; [done|done|done|]. by apply Forall_singleton.
Qed.

(** The insertion returns as long as there is memory for the entry. *)
Lemma rt_table_insert_run s d next hops sq life st flags ifi :
  inv s → ¬ rt_live (rt_tbl s) d → 0 <= sq < 4294967296 → st = INVALID ∨ st = VALID →
  Z.of_nat (rt_count s) < env_heap (env s) →
  ∃ s', rt_table_insert d next hops sq life st flags ifi s = Ok (Some d) s' ∧
    inv s' ∧ ext Full s s' ∧ rt_live (rt_tbl s') d ∧ grows 1 s s'.
Proof.
  intros Hi Hd Hsq Hst Hheap.
  assert (Hrun : ∃ r s', rt_table_insert d next hops sq life st flags ifi s = Ok r s' ∧
    grows 1 s s').
  { unfold rt_table_insert. erewrite bind_ok by done. destruct (existsb _ _) eqn:Hex.
    { destruct Hd. apply existsb_dest_live; [apply Hi|done]. }
    erewrite bind_ok by done. erewrite bind_ok by done.
    fold (rt_count s). rewrite (proj2 (Z.leb_gt _ _) Hheap).
    destruct (insert_entry s d next hops sq st flags ifi Hi Hd Hsq Hst Hheap)
      as (q1 & q2 & q3 & R1 & R2 & R3 & Hi1 & He1 & Hd1 & G1).
    erewrite bind_ok by (apply on_tq_ok; exact R1).
    erewrite bind_ok by (apply on_tq_ok; exact R2).
    erewrite bind_ok by (apply on_tq_ok; exact R3). erewrite bind_ok by done.
    lazymatch goal with |- ∃ r s', ?m _ = _ ∧ _ =>
      assert (Ht : total None [d] m) by total_go end.
    destruct (Ht _ Hi1 (proj2 (Forall_singleton _ _) Hd1) I) as (r & s2 & R & G2).
    exists r, s2. split; [exact R|]. exact (grows_trans 1 0 _ _ _ G1 G2). }
  destruct Hrun as (r & s' & Hrun & HG). pose proof (wp_ok _ _ _ _ _ _
    (rt_table_insert_full s d next hops sq life st flags ifi Hi Hd Hsq Hst) Hrun)
    as ((-> & ? & ? & ?) & _).
  by exists s'.
Qed.

(** The new entry. *)
Lemma rt_table_insert_route s d next hops sq life st flags ifi :
  inv s → ¬ rt_live (rt_tbl s) d → 0 <= sq < 4294967296 → st = INVALID ∨ st = VALID →
  wp buf_ub (rt_table_insert d next hops sq life st flags ifi) (λ r s',
    r = Some d ∧ inv s' ∧ ext Full s s' ∧
    rt_lookup (rt_tbl s') d
      = Some (mk_rt d sq ifi next (u8 hops) flags st tv_zero 0 d 0 [])) s.
Proof.
  intros Hi Hd Hsq Hst. eapply wp_mono; [by apply rt_table_insert_full|].
  intros r s' ((-> & Hi' & Hx & _) & Hent). set (e := mk_rt _ _ _ _ _ _ _ _ _ _ _ _) in *.
  split_and!; [done|done|done|]. transitivity (rt_lookup (tbl_add (rt_tbl s) e) d).
  - unfold entries in Hent. unfold rt_lookup, bucket. by rewrite Hent.
  - rewrite rt_lookup_add by apply Hi. by rewrite decide_True.
Qed.

Lemma rt_table_insert_new s d next hops sq life st flags ifi :
  inv s → ¬ rt_live (rt_tbl s) d → 0 <= sq < 4294967296 → st = INVALID ∨ st = VALID →
  wp buf_ub (rt_table_insert d next hops sq life st flags ifi)
    (λ r s', r = Some d ∧ inv s' ∧ ext Full s s' ∧ rt_live (rt_tbl s') d) s.
Proof.
  intros. eapply wp_mono; [by apply rt_table_insert_full|]. by intros r s' [? _].
Qed.

Lemma safe_rt_table_update ks k next hops sq life st flags :
  k ∈ ks → 0 <= sq < 4294967296 → st = INVALID ∨ st = VALID →
  safe Full ks (rt_table_update k next hops sq life st flags) nop.
Proof.
  intros Hk Hsq Hst. unfold rt_table_update. safe_go.
  all: apply safe_rt_modify; [done|done|entry].
Qed.
#[export] Hint Resolve safe_rt_table_update : aodv.

Lemma total_rt_table_update ks k next hops sq life st flags :
  k ∈ ks → 0 <= sq < 4294967296 → st = INVALID ∨ st = VALID →
  total (Some 0%nat) ks (rt_table_update k next hops sq life st flags).
Proof. intros Hk Hsq Hst.
  unfold rt_table_update. total_go. all: apply safe_rt_modify; [done|done|entry].
Qed.
#[export] Hint Resolve total_rt_table_update : aodv.

(** ** The routing table refines a finite map *)

(** C10: the hash table implements a finite map from destinations to entries:
    lookup, assignment to an entry, removal and insertion are the map's
    lookup, [alter], [delete] and insertion, and [num_entries] is its size. *)
Theorem table_refines_map (t : routing_table) (k : Z) (f : rt_table_t → rt_table_t)
    (e : rt_table_t) :
  table_ok t → (∀ x, rt_dest_addr (f x) = rt_dest_addr x) →
  (∀ x, entry_ok x → entry_ok (f x)) →
  entry_ok e → rt_map t !! rt_dest_addr e = None → num_entries t < 4294967295 →
  find_entry t k = rt_map t !! k ∧
  rt_map (tbl_modify t k f) = alter f k (rt_map t) ∧
  rt_map (tbl_detach t k) = delete k (rt_map t) ∧
  rt_map (tbl_add t e) = <[rt_dest_addr e := e]> (rt_map t) ∧
  num_entries t = Z.of_nat (size (rt_map t)).
Proof.
  intros Hok Hf Hfe He Hn Hlen. rewrite rt_map_lookup in Hn by done.
  assert (Hnl : ¬ rt_live t (rt_dest_addr e)) by (unfold rt_live; rewrite Hn; by intros []).
  pose proof (tbl_count _ Hok) as Hc. split_and!.
  - rewrite rt_map_lookup by done. by apply find_entry_lookup.
  - apply map_eq. intros j. rewrite rt_map_lookup by (apply table_ok_modify; auto).
    rewrite rt_lookup_modify by done. case_decide as Hj; [subst j|].
    + by rewrite lookup_alter_eq, rt_map_lookup.
    + by rewrite lookup_alter_ne, rt_map_lookup by done.
  - apply map_eq. intros j. destruct (decide (rt_live t k)) as [Hk|Hk].
    + change (rt_map (tbl_detach t k))
        with (rt_map (set_num_entries (num_entries t - 1) (tbl_detach t k))).
      rewrite rt_map_lookup by by apply table_ok_detach.
      change (rt_lookup (set_num_entries _ ?t') j) with (rt_lookup t' j).
      rewrite rt_lookup_detach by done. case_decide as Hj; [subst j|].
      * by rewrite lookup_delete_eq.
      * by rewrite lookup_delete_ne, rt_map_lookup by done.
    + rewrite tbl_detach_absent, delete_id; [done| |done|done].
      rewrite rt_map_lookup by done. by apply eq_None_not_Some.
  - apply map_eq. intros j. rewrite rt_map_lookup by (apply table_ok_add; done || lia).
    rewrite rt_lookup_add by done. case_decide as Hj; [subst j|].
    + by rewrite lookup_insert_eq.
    + by rewrite lookup_insert_ne, rt_map_lookup by done.
  - by rewrite rt_map_size.
Qed.


Lemma release_packets_run s d e :
  inv s → rt_lookup (rt_tbl s) d = Some e → rt_state e = VALID →
  d ∈ (sk_dest_addr <$> seekhead s) →
  let mine := filter (λ qp, (qp_dest_addr qp =? d) = true) (pq_head (PQ s)) in
  ∃ s', release_packets d s = Ok () s' ∧
    (∀ j, j ∈ (sk_dest_addr <$> seekhead s') ↔ j ≠ d ∧ j ∈ (sk_dest_addr <$> seekhead s)) ∧
    pq_head (PQ s') = filter (λ qp, (qp_dest_addr qp =? d) = false) (pq_head (PQ s)) ∧
    trace s' = (if nfq_queue s
                then reverse ((λ qp, EvVerdict (qp_packet_id qp) NF_ACCEPT) <$> mine) else [])
               ++ trace s.
Proof.
  intros Hi He Hv Hd mine. unfold release_packets.
  erewrite bind_ok by (unfold rt_deref; by rewrite He).
  rewrite Hv, (rt_lookup_dest _ _ _ He), Z.eqb_refl.
  erewrite bind_ok by (by apply seek_list_find_ok).
  destruct (seek_list_remove_run s d Hi Hd) as (s1 & Hrun1 & Hi1 & Hx1 & Hs1 & Hf & _).
  injection Hf as Hf1 Hf2 Hf3. erewrite bind_ok by exact Hrun1. cbn [when].
  set (v := if has _ _ then _ else _).
  assert (Hv' : v ≠ PQ_DROP ∧ (v = PQ_SEND ∨ v = PQ_ENC_SEND))
    by (unfold v; destruct (has _ _); split; auto; discriminate).
  destruct Hv' as [Hv1 Hv2].
  destruct (set_verdict_spec s1 d v Hi1) as (s2 & Hrun2 & Hq & Htr).
  { right. split; [done|]. apply Hx1. by eexists. }
  exists s2. erewrite bind_ok by exact Hrun2.
  rewrite (frames_seek_set_verdict d v _ _ _ Hrun2), Hq, Htr, Hf1, Hf2, Hf3.
  rewrite (proj2 (Z.eqb_neq _ _) Hv1). split_and!; [done| |done|done].
  intros j. by rewrite Hs1, elem_of_remove_seek by apply Hi.
Qed.

(** C16: when a route becomes valid, the search for its destination ends, and every
    packet that waited for it is released, oldest first; the packets for other
    destinations stay in the queue. *)
Theorem release_packets_correct (s : state) (d : Z) (e : rt_table_t) :
  inv s → rt_lookup (rt_tbl s) d = Some e → rt_state e = VALID →
  d ∈ (sk_dest_addr <$> seekhead s) →
  let mine := filter (λ qp, (qp_dest_addr qp =? d) = true) (pq_head (PQ s)) in
  ∃ s', release_packets d s = Ok () s' ∧
    (¬ d ∈ (sk_dest_addr <$> seekhead s')) ∧
    pq_head (PQ s') = filter (λ qp, (qp_dest_addr qp =? d) = false) (pq_head (PQ s)) ∧
    trace s' = (if nfq_queue s
                then reverse ((λ qp, EvVerdict (qp_packet_id qp) NF_ACCEPT) <$> mine) else [])
               ++ trace s.
Proof.
  intros Hi He Hv Hd mine. destruct (release_packets_run s d e Hi He Hv Hd) as (s' & R & Hs & ? & ?).
  exists s'. split_and!; [done| |done|done]. rewrite Hs. tauto.
Qed.

(** [rt_table_insert] returns NULL and does nothing when the destination has
    an entry; otherwise it ends the process when there is no memory for an
    entry, and adds the entry with the given next hop, hop count, sequence
    number, state and flags when there is, leaving the other routes as they
    were. *)
Theorem rt_table_insert_correct (s : state) (d next hops sq life st flags ifi : Z) :
  inv s → 0 <= sq < 4294967296 → st = INVALID ∨ st = VALID →
  let insert := rt_table_insert d next hops sq life st flags ifi in
  (rt_live (rt_tbl s) d → insert s = Ok None s) ∧
  (¬ rt_live (rt_tbl s) d → env_heap (env s) <= Z.of_nat (rt_count s) →
     insert s = Exit (-1)) ∧
  (¬ rt_live (rt_tbl s) d → Z.of_nat (rt_count s) < env_heap (env s) →
     ∃ s', insert s = Ok (Some d) s' ∧
       rt_lookup (rt_tbl s') d
         = Some (mk_rt d sq ifi next (u8 hops) flags st tv_zero 0 d 0 []) ∧
       (∀ j, j ≠ d → rt_lookup (rt_tbl s') j = rt_lookup (rt_tbl s) j) ∧
       num_entries (rt_tbl s') = num_entries (rt_tbl s) + 1).
Proof.
  intros Hi Hsq Hst insert. pose proof (inv_table _ Hi) as Htab. split_and!.
  - intros Hd. unfold insert, rt_table_insert, bind, gets.
    by rewrite (proj2 (existsb_dest_live _ _ Htab) Hd).
  - intros Hd Hh. unfold insert, rt_table_insert, bind, gets. destruct (existsb _ _) eqn:Hex.
    { destruct Hd. by apply existsb_dest_live. }
    fold (rt_count s). by rewrite (proj2 (Z.leb_le _ _) Hh).
  - intros Hd Hh.
    destruct (rt_table_insert_run s d next hops sq life st flags ifi Hi Hd Hsq Hst Hh)
      as (s' & Hrun & Hi' & _). exists s'. split; [done|].
    destruct (wp_ok _ _ _ _ _ _
      (rt_table_insert_full s d next hops sq life st flags ifi Hi Hd Hsq Hst) Hrun) as [_ He].
    set (e := mk_rt _ _ _ _ _ _ _ _ _ _ _ _) in *.
    assert (Hlk : ∀ j, rt_lookup (rt_tbl s') j = rt_lookup (tbl_add (rt_tbl s) e) j).
    { intros j. unfold entries in He. unfold rt_lookup, bucket. by rewrite He. }
    split_and!.
    + rewrite Hlk, rt_lookup_add by done. by rewrite decide_True.
    + intros j Hj. rewrite Hlk, rt_lookup_add by done. by rewrite decide_False.
    + rewrite (tbl_count _ (inv_table _ Hi')), (tbl_count _ Htab). unfold entries in He.
      rewrite He, length_tbl_add by done. lia.
Qed.

(** The other routes after an update: when a neighbour becomes a route of
    several hops, its link counts as broken. *)
Definition update_others (k hops : Z) (e : rt_table_t) (j : Z) (ej : rt_table_t) : rt_table_t :=
  if (1 <? u8 hops) && (rt_hcnt e =? 1)
  then broken k j (has (rt_flags e) RT_REPAIR) ej else ej.

Lemma eff_entries {A} k e (m : M A) :
  safe Full [k] m nop → frames entries m →
  ∀ s, inv s → rt_lookup (rt_tbl s) k = Some e →
    wp buf_ub m (λ _ s', inv s' ∧
      ∀ j, rt_lookup (rt_tbl s') j = rt_lookup (rt_tbl s) j) s.
Proof.
  intros Hm Hf s Hi He. eapply wp_mono; [apply (wp_frame entries); [done|apply Hm; [done|]]|].
  - constructor; [by exists e|constructor].
  - intros a s' ((? & ? & _) & Ht). split; [done|]. intros j. by apply rt_lookup_entries.
Qed.

(** The first part of [rt_table_update], up to the link break. *)
Lemma update_link_break s k hops e :
  inv s → rt_lookup (rt_tbl s) k = Some e →
  wp buf_ub (when ((1 <? u8 hops) && (rt_hcnt e =? 1))
    (rt_modify k (λ e, set_rt_hello_cnt 0 (set_rt_last_hello_time tv_zero e)) ;;
     on_tq (timer_remove (HelloTimer k)) ;;
     neighbor_link_break k))
    (λ _ s', inv s' ∧ (∃ e', rt_lookup (rt_tbl s') k = Some e') ∧
      ∀ j, j ≠ k → rt_lookup (rt_tbl s') j = update_others k hops e j <$> rt_lookup (rt_tbl s) j) s.
Proof.
  intros Hi He. unfold update_others. destruct ((1 <? u8 hops) && (rt_hcnt e =? 1)) eqn:Hb.
  2:{ split_and!; [done|eauto|]. intros j _. by rewrite option_fmap_id. }
  apply andb_true_iff in Hb as [_ Hh%Z.eqb_eq].
  apply wp_bind. eapply wp_mono.
  { apply (eff_modify k e (λ e, set_rt_hello_cnt 0 (set_rt_last_hello_time tv_zero e)));
      [done|entry|done|done]. }
  intros _ s1 (Hi1 & _ & He1 & Ho1). apply wp_bind. eapply wp_mono.
  { apply (eff_frame k); [safe_leaf|frame_go|done|exact He1]. }
  intros _ s2 (Hi2 & _ & He2 & Ho2).
  eapply wp_mono; [by apply (neighbor_link_break_spec s2 k); [|exact He2|]|].
  intros _ s3 (Hi3 & _ & Hj3). split_and!; [done| |].
  - rewrite Hj3, decide_True by done. eauto.
  - intros j Hj. rewrite Hj3, decide_False by done. simpl. by rewrite Ho2, Ho1.
Qed.

Lemma rt_table_update_effect s k next hops sq life st flags e :
  inv s → rt_lookup (rt_tbl s) k = Some e → 0 <= sq < 4294967296 →
  st = INVALID ∨ st = VALID →
  wp buf_ub (rt_table_update k next hops sq life st flags) (λ _ s',
    inv s' ∧
    (∃ e', rt_lookup (rt_tbl s') k = Some e' ∧ rt_next_hop e' = next ∧
       rt_hcnt e' = u8 hops ∧ rt_dest_seqno e' = sq ∧ rt_state e' = st) ∧
    ∀ j, j ≠ k →
      rt_lookup (rt_tbl s') j = update_others k hops e j <$> rt_lookup (rt_tbl s) j) s.
Proof.
  intros Hi He Hsq Hst. unfold rt_table_update.
  eapply wp_run; [unfold rt_deref; by rewrite He|]. apply wp_bind. eapply wp_mono.
  { apply (eff_entries k e); [safe_go|frame_go|done|done]. }
  intros fl s1 (Hi1 & Ho1). rewrite <- Ho1 in He. apply wp_bind.
  eapply wp_mono; [by apply update_link_break|].
  intros _ s2 (Hi2 & (e2 & He2) & Ho2). apply wp_bind.
  set (f := λ e, set_rt_hcnt (u8 hops) (set_rt_next_hop next
              (set_rt_dest_seqno sq (set_rt_flags fl e)))).
  eapply wp_mono; [apply (eff_modify k e2 f); [done|entry|done|done]|].
  intros _ s3 (Hi3 & _ & He3 & Ho3). apply wp_bind.
  eapply wp_mono; [apply (eff_entries k (f e2)); [safe_go|frame_go|done|done]|].
  intros _ s4 (Hi4 & Ho4). rewrite <- Ho4 in He3.
  eapply wp_run; [unfold rt_deref; by rewrite He3|]. apply wp_bind.
  eapply wp_mono; [apply (eff_entries k (f e2)); [safe_go|frame_go|done|done]|].
  intros _ s5 (Hi5 & Ho5). rewrite <- Ho5 in He3. apply wp_bind.
  eapply wp_mono; [apply (eff_modify k (f e2) (set_rt_state st)); [done|entry|done|done]|].
  intros _ s6 (Hi6 & _ & He6 & Ho6).
  eapply wp_mono; [apply (eff_entries k (set_rt_state st (f e2))); [safe_go|frame_go|done|done]|].
  intros _ s7 (Hi7 & Ho7). split_and!; [done| |].
  - exists (set_rt_state st (f e2)). rewrite Ho7. by split_and!.
  - intros j Hj. by rewrite Ho7, Ho6, Ho5, Ho4, Ho3, Ho2, Ho1 by done.
Qed.

(** [rt_table_update] installs the given next hop, hop count, sequence number
    and state in the entry; the other routes do not change, except that when
    a neighbour becomes reachable only over several hops every valid route
    through it is invalidated.  With the table small enough for a RERR the
    operation returns. *)
Theorem rt_table_update_correct (s : state) (k next hops sq life st flags : Z)
    (e : rt_table_t) :
  inv s → rt_lookup (rt_tbl s) k = Some e → 0 <= sq < 4294967296 →
  st = INVALID ∨ st = VALID →
  (has_room 0 s → returns (rt_table_update k next hops sq life st flags) s) ∧
  wp buf_ub (rt_table_update k next hops sq life st flags) (λ _ s',
    (∃ e', rt_lookup (rt_tbl s') k = Some e' ∧ rt_next_hop e' = next ∧
       rt_hcnt e' = u8 hops ∧ rt_dest_seqno e' = sq ∧ rt_state e' = st) ∧
    ∀ j, j ≠ k →
      rt_lookup (rt_tbl s') j = update_others k hops e j <$> rt_lookup (rt_tbl s) j) s.
Proof.
  intros Hi He Hsq Hst. split.
  - intros Hr. apply (total_returns (Some 0%nat) [k]);
      [total_go|done|apply Forall_singleton; by exists e|done].
  - eapply wp_mono; [by apply rt_table_update_effect|]. intros _ s' (_ & ? & ?). done.
Qed.
