(* ===== verification/Rrep.v ===== *)
(** * protocol/aodv_hello.c and protocol/aodv_rrep.c

    A RREP in a buffer: byte 0 the type, byte 1 the bits [a] (6) and [r] (7),
    byte 2 the prefix size, byte 3 the hop count, then the destination, its
    sequence number, the originator and the lifetime, four bytes each. *)

From S2P Require Import Prelude.
From S2P Require Import Params.
From S2P Require Import Bytes.
From S2P Require Import TimerQueue.
From S2P Require Import State.
From S2P Require Import Frame.
From S2P Require Import Nl.
From S2P Require Import RtTable.
From S2P Require Import Inv.
From S2P Require Import Total.
From S2P Require Import PacketQueue.
From S2P Require Import SeekList.
From S2P Require Import Socket.
From S2P Require Import Rerr.
From S2P Require Import RtUpdate.

#[local] Open Scope cm_scope.

Definition rrep_create (flags prefix hcnt dest_addr dest_seqno orig_addr life : Z) : M () :=
  aodv_socket_new_msg ;;
  send_store8 0 AODV_RREP ;;
  send_store8 2 (Z.land prefix 31) ;;
  send_store8 3 hcnt ;;
  send_store32 4 dest_addr ;;
  send_store32 8 (htonl dest_seqno) ;;
  send_store32 12 orig_addr ;;
  send_store32 16 (htonl life) ;;
  send_store8 1 ((if has flags RREP_REPAIR then 2 ^ 7 else 0)
                 + (if has flags RREP_ACK then 2 ^ 6 else 0)).

Definition rrep_ack_create : M () :=
  aodv_socket_new_msg ;; send_store8 0 AODV_RREP_ACK.

(** [rrep_add_ext] and [rreq_add_ext]: an extension header and its data at
    [offset] of the message; [None] is NULL. *)
Definition add_ext (size type offset : Z) (data : list Z) : M (option Z) :=
  if offset <? size then ret None else
  send_store8 offset type ;;
  send_store8 (offset + 1) (Z.of_nat (length data)) ;;
  send_store (λ b, store_bytes b (offset + AODV_EXT_HDR_SIZE) data) ;;
  ret (Some offset).

Definition rrep_add_ext := add_ext RREP_SIZE.
Definition rreq_add_ext := add_ext RREQ_SIZE.

(** [rrep_add_hello_ext] returns the new offset. *)
Definition rrep_add_hello_ext (offset interval : Z) : M Z :=
  send_store8 (RREP_SIZE + offset) RREP_HELLO_INTERVAL_EXT ;;
  send_store8 (RREP_SIZE + offset + 1) 4 ;;
  send_store32 (RREP_SIZE + offset + AODV_EXT_HDR_SIZE) interval ;;
  ret (offset + (AODV_EXT_HDR_SIZE + 4)).

(** ** Hello messages *)

Definition hello_jitter : M Z :=
  o ← gets opts;
  if hello_jittering o then
    n ← gets jitter_reads;
    e ← gets env;
    modify (set_jitter_reads (S n)) ;;
    ret (env_jitter e n)
  else ret 0.

Definition hello_stop : M () := on_tq (timer_remove HelloSendTimer) ;; ret ().

(** The loop that fills the neighbour-set extension at [ext]: every address is
    copied to the same place, the start of the extension's data. *)
Definition hello_neighbor_set (ext : Z) : M () :=
  keys ← gets rt_keys;
  foreach keys () (λ k _,
    used ← timer_used (HelloTimer k);
    when used
      (d ← rt_get k rt_dest_addr;
       send_store32 (ext + AODV_EXT_HDR_SIZE) d ;;
       len ← send_load8 (ext + 1);
       send_store8 (ext + 1) (len + 4))).

(** The loop body of [hello_send] for interface [i]; the locals [ext] and
    [msg_size] keep their values from one interface to the next. *)
Definition hello_send_on (i : nat) (acc : option Z * Z) : M (option Z * Z) :=
  h ← gets this_host;
  dev ← gets (λ s, DEV_NR s i);
  o ← gets opts;
  rrep_create 0 0 0 (dev_ipaddr dev) (seqno h) (dev_ipaddr dev)
    (ALLOWED_HELLO_LOSS * HELLO_INTERVAL) ;;
  acc ← (if unidir_hack o then
           ext ← match acc.1 with
                 | Some e => len ← send_load8 (e + 1); ret (e + AODV_EXT_HDR_SIZE + len)
                 | None => ret RREP_SIZE
                 end;
           send_store8 ext RREP_HELLO_NEIGHBOR_SET_EXT ;;
           send_store8 (ext + 1) 0 ;;
           hello_neighbor_set ext ;;
           len ← send_load8 (ext + 1);
           ret (Some ext, if negb (len =? 0) then RREP_SIZE + (AODV_EXT_HDR_SIZE + len)
                          else acc.2)
         else ret acc);
  aodv_socket_send AODV_BROADCAST acc.2 1 i ;;
  ret acc.

Definition hello_send : M () :=
  now ← gettimeofday;
  o ← gets opts;
  h ← gets this_host;
  if optimized_hellos o && (active_route_timeout o <? timeval_diff now (fwd_time h))
  then hello_stop
  else
    let time_diff := timeval_diff now (bcast_time h) in
    jitter ← hello_jitter;
    if HELLO_INTERVAL <=? time_diff then
      l ← gets enabled_devs;
      foreach l (None, RREP_SIZE) hello_send_on ;;
      set_timeout HelloSendTimer (HELLO_INTERVAL + jitter)
    else if HELLO_INTERVAL - time_diff + jitter <? 0 then
      set_timeout HelloSendTimer (HELLO_INTERVAL - time_diff - jitter)
    else
      set_timeout HelloSendTimer (HELLO_INTERVAL - time_diff + jitter).

Definition hello_start : M () :=
  used ← timer_used HelloSendTimer;
  if used then ret () else
  now ← gettimeofday;
  modify (λ s, set_this_host (set_fwd_time now (this_host s)) s) ;;
  on_tq (timer_init HelloSendTimer hello_send_h) ;;
  hello_send.

Definition hello_update_timeout (rt : Z) (now : timeval) (time : Z) : M () :=
  set_timeout (HelloTimer rt) (time + HELLO_DELAY) ;;
  rt_modify rt (set_rt_last_hello_time now).

(** The locals that the extensions of a hello message set. *)
Record hello_acc := mk_hello_acc { acc_interval : Z; acc_flags : Z }.

(** The [for] loop over the addresses of a neighbour-set extension. *)
Definition hello_neighbors (ifindex data len : Z) (acc : hello_acc) : M hello_acc :=
  foreach (seq 0 (Z.to_nat ((len + 3) / 4))) acc (λ j acc,
    a ← recv_load32 (data + 4 * Z.of_nat j);
    my ← gets (λ s, dev_ipaddr (DEV_IFINDEX s ifindex));
    ret (if a =? my
         then mk_hello_acc (acc_interval acc) (Z.land (acc_flags acc) (Z.lnot RT_UNIDIR))
         else acc)).

(** The [while (rreplen > RREP_SIZE)] loop over the extensions at [off].  Every
    turn advances [off] by at least two, so [RECV_BUF_SIZE] turns either end
    the loop or leave the receive buffer. *)
Fixpoint hello_ext_loop (fuel : nat) (ifindex rreplen off : Z) (acc : hello_acc)
  : M hello_acc :=
  match fuel with
  | O => undefined OutOfFuel
  | S fuel =>
      if rreplen <=? RREP_SIZE then ret acc else
      type ← recv_load8 off;
      len ← recv_load8 (off + 1);
      let next acc := hello_ext_loop fuel ifindex (rreplen - (AODV_EXT_HDR_SIZE + len))
                        (off + AODV_EXT_HDR_SIZE + len) acc in
      if type =? RREP_HELLO_INTERVAL_EXT then
        acc ← (if len =? 4 then
                 v ← recv_load32 (off + AODV_EXT_HDR_SIZE);
                 ret (mk_hello_acc (ntohl v) (acc_flags acc))
               else ret acc);
        next acc
      else if type =? RREP_HELLO_NEIGHBOR_SET_EXT then
        acc ← hello_neighbors ifindex (off + AODV_EXT_HDR_SIZE) len acc;
        next acc
      else ret acc
  end.

Definition ext_fuel : nat := Z.to_nat RECV_BUF_SIZE.

Definition hello_process (rreplen ifindex : Z) : M () :=
  now ← gettimeofday;
  hello_dest ← recv_load32 4;
  raw_seqno ← recv_load32 8;
  let hello_seqno := ntohl raw_seqno in
  o ← gets opts;
  rt ← rt_table_find hello_dest;
  flags ← match rt with
          | Some k => f ← rt_get k rt_flags; ret (u8 f)
          | None => ret 0
          end;
  let flags := if unidir_hack o then Z.lor flags RT_UNIDIR else flags in
  acc ← hello_ext_loop ext_fuel ifindex rreplen RREP_SIZE
          (mk_hello_acc HELLO_INTERVAL flags);
  let flags := acc_flags acc in
  let hello_interval := acc_interval acc in
  let state := if negb (receive_n_hellos o =? 0) then INVALID else VALID in
  let timeout := u32 (ALLOWED_HELLO_LOSS * hello_interval + ROUTE_TIMEOUT_SLACK) in
  let update k := hello_update_timeout k now (u32 (ALLOWED_HELLO_LOSS * hello_interval)) in
  match rt with
  | None =>
      rt ← rt_table_insert hello_dest hello_dest 1 hello_seqno timeout state flags ifindex;
      match rt with
      | None => undefined NullDeref
      | Some k => rt_modify k (set_rt_hello_cnt 1) ;; update k
      end
  | Some k =>
      e ← rt_deref k;
      if has flags RT_UNIDIR && (rt_state e =? VALID) && (1 <? rt_hcnt e) then update k
      else if negb (receive_n_hellos o =? 0)
              && (rt_hello_cnt e <? receive_n_hellos o - 1) then
        (if timeval_diff now (rt_last_hello_time e)
              <? u32 (hello_interval + hello_interval / 2)
         then rt_modify k (λ e, set_rt_hello_cnt (u8 (rt_hello_cnt e + 1)) e)
         else rt_modify k (set_rt_hello_cnt 1)) ;;
        rt_modify k (set_rt_last_hello_time now)
      else
        rt_table_update k hello_dest 1 hello_seqno timeout VALID flags ;;
        update k
  end.

(** ** Route replies *)

Definition rrep_ack_process (ip_src : Z) : M () :=
  rt ← rt_table_find ip_src;
  match rt with
  | None => ret ()
  | Some k => on_tq (timer_remove (AckTimer k)) ;; ret ()
  end.

(** [if (!llfeedback && optimized_hellos) hello_start();] *)
Definition hello_start_if_optimized : M () :=
  o ← gets opts;
  when (negb (llfeedback o) && optimized_hellos o) hello_start.

(** The test of [rrep_send] for a unidirectional link; the flag [RREP_ACK] it
    computes is never stored in the message. *)
Definition rrep_check_unidir (rev : Z) : M () :=
  o ← gets opts;
  r ← rt_deref rev;
  if ((rt_state r =? VALID) && has (rt_flags r) RT_UNIDIR)
     || ((rt_hcnt r =? 1) && unidir_hack o) then
    neighbor ← rt_table_find (rt_next_hop r);
    match neighbor with
    | None => ret ()
    | Some n =>
        valid ← rt_is_valid n;
        used ← timer_used (AckTimer n);
        when (valid && negb used)
          (rt_modify n (λ e, set_rt_flags (Z.lor (rt_flags e) RT_UNIDIR) e) ;;
           on_tq (timer_remove (HelloTimer n)) ;;
           neighbor_link_break n ;;
           set_timeout (AckTimer n) NEXT_HOP_WAIT)
    end
  else ret ().

(** [rrep_send] of the message in the send buffer. *)
Definition rrep_send (rev_rt fwd_rt : option Z) (size : Z) : M () :=
  match rev_rt with
  | None => ret ()
  | Some rev =>
      rrep_check_unidir rev ;;
      r ← rt_deref rev;
      dev ← gets (λ s, ifindex2devindex s (rt_ifindex r));
      aodv_socket_send (rt_next_hop r) size MAXTTL dev ;;
      match fwd_rt with
      | None => ret ()
      | Some fwd =>
          precursor_add fwd (rt_next_hop r) ;;
          fnext ← rt_get fwd rt_next_hop;
          precursor_add rev fnext
      end ;;
      hello_start_if_optimized
  end.

(** [rrep_forward] of the message in the receive buffer. *)
Definition rrep_forward (size : Z) (rev_rt fwd_rt : option Z) (ttl : Z) : M () :=
  match fwd_rt, rev_rt with
  | Some fwd, Some rev =>
      aodv_socket_queue_msg size ;;
      f ← rt_deref fwd;
      r ← rt_deref rev;
      send_store8 3 (rt_hcnt f) ;;
      dev ← gets (λ s, ifindex2devindex s (rt_ifindex r));
      aodv_socket_send (rt_next_hop r) size ttl dev ;;
      precursor_add fwd (rt_next_hop r) ;;
      fnext ← rt_get fwd rt_next_hop;
      precursor_add rev fnext ;;
      o ← gets opts;
      rt_table_update_timeout rev (active_route_timeout o)
  | _, _ => ret ()
  end.

(** The [while ((len - extlen) > SIZE)] loops over the extensions of a RREQ or
    RREP.  [extlen] is [unsigned int], so the difference is computed modulo
    2^32; the extensions are only logged. *)
Fixpoint ext_loop (fuel : nat) (size len extlen off : Z) : M () :=
  match fuel with
  | O => undefined OutOfFuel
  | S fuel =>
      if u32 (len - extlen) <=? size then ret () else
      recv_load8 off ;;
      elen ← recv_load8 (off + 1);
      ext_loop fuel size len (u32 (extlen + (AODV_EXT_HDR_SIZE + elen)))
        (off + AODV_EXT_HDR_SIZE + elen)
  end.

(** The NO DELETE RERR sent when a repaired route got longer. *)
Definition rrep_repair_rerr (fwd pre_repair_hcnt pre_repair_flags : Z) : M () :=
  f ← rt_deref fwd;
  when (has pre_repair_flags RT_REPAIR && (pre_repair_hcnt <? rt_hcnt f))
    (rerr_create RERR_NODELETE (rt_dest_addr f) (rt_dest_seqno f) ;;
     n ← rerr_dest_count;
     dev ← gets (λ s, ifindex2devindex s (rt_ifindex f));
     when (negb (rt_nprec f =? 0))
       (aodv_socket_send AODV_BROADCAST (RERR_CALC_SIZE n) 1 dev)).

(** Whether an entry is replaced by the route a RREP offers. *)
Definition rrep_accepts (e : rt_table_t) (rrep_seqno rrep_new_hcnt : Z) : bool :=
  (rt_dest_seqno e =? 0)
  || (int32 (rt_dest_seqno e) <? int32 rrep_seqno)
  || ((rrep_seqno =? rt_dest_seqno e)
      && ((rt_state e =? INVALID) || has (rt_flags e) RT_UNIDIR
          || (rrep_new_hcnt <? rt_hcnt e))).

(** The end of [rrep_process], with the forward route [fwd]: acknowledge,
    then finish a local repair or forward the RREP along [rev_rt]. *)
Definition rrep_finish (fwd : Z) (rev_rt : option Z) (pre_repair_hcnt pre_repair_flags : Z)
    (for_us : bool) (rreplen ip_ttl : Z) : M () :=
  b1 ← recv_load8 1;
  when (Z.testbit b1 6)
    (rrep_ack_create ;;
     f ← rt_deref fwd;
     dev ← gets (λ s, ifindex2devindex s (rt_ifindex f));
     aodv_socket_send (rt_next_hop f) NEXT_HOP_WAIT MAXTTL dev ;;
     recv_store (λ b, store8 b 1 (Z.clearbit b1 6))) ;;
  (if for_us then rrep_repair_rerr fwd pre_repair_hcnt pre_repair_flags
   else match rev_rt with
        | None => ret ()
        | Some rev =>
            valid ← rt_is_valid rev;
            when valid (rrep_forward rreplen (Some rev) (Some fwd) (ip_ttl - 1))
        end) ;;
  hello_start_if_optimized.

Definition rrep_process (rreplen ip_src ip_ttl ifindex : Z) : M () :=
  rrep_dest ← recv_load32 4;
  rrep_orig ← recv_load32 12;
  raw_seqno ← recv_load32 8;
  raw_life ← recv_load32 16;
  hcnt ← recv_load8 3;
  let rrep_seqno := ntohl raw_seqno in
  let rrep_lifetime := ntohl raw_life in
  let rrep_new_hcnt := hcnt + 1 in
  if rreplen <? RREP_SIZE then ret () else
  my ← gets (λ s, dev_ipaddr (DEV_IFINDEX s ifindex));
  if rrep_dest =? my then ret () else
  ext_loop ext_fuel RREP_SIZE rreplen 0 RREP_SIZE ;;
  fwd_rt ← rt_table_find rrep_dest;
  rev_rt ← rt_table_find rrep_orig;
  let finish fwd pre_repair_hcnt pre_repair_flags :=
    rrep_finish fwd rev_rt pre_repair_hcnt pre_repair_flags (rrep_orig =? my) rreplen ip_ttl in
  match fwd_rt with
  | None =>
      k ← rt_table_insert rrep_dest ip_src rrep_new_hcnt rrep_seqno rrep_lifetime
            VALID 0 ifindex;
      match k with
      | None => undefined NullDeref
      | Some fwd => finish fwd 0 0
      end
  | Some fwd =>
      e ← rt_deref fwd;
      if rrep_accepts e rrep_seqno rrep_new_hcnt then
        rt_table_update fwd ip_src rrep_new_hcnt rrep_seqno rrep_lifetime VALID
          (rt_flags e) ;;
        finish fwd (rt_hcnt e) (u8 (rt_flags e))
      else ret ()
  end.

(** ** Safety *)

Section safe_hello.
Context (md : mode).

Lemma safe_rrep_create ks f p h d n o l : safe md ks (rrep_create f p h d n o l) nop.
Proof. unfold rrep_create. safe_go. Qed.

Lemma safe_rrep_ack_create ks : safe md ks rrep_ack_create nop.
Proof. unfold rrep_ack_create. safe_go. Qed.

Lemma safe_hello_jitter ks : safe md ks hello_jitter nop.
Proof. unfold hello_jitter. safe_go. Qed.

Lemma safe_hello_neighbor_set ks e : safe md ks (hello_neighbor_set e) nop.
Proof. unfold hello_neighbor_set, timer_used. safe_go. Qed.

Lemma safe_hello_update_timeout ks k now t :
  k ∈ ks → safe md ks (hello_update_timeout k now t) nop.
Proof. intros Hk. unfold hello_update_timeout. safe_go. Qed.

Lemma safe_hello_stop ks : safe md ks hello_stop nop.
Proof. unfold hello_stop. safe_go. Qed.
End safe_hello.
#[export] Hint Resolve safe_rrep_create safe_rrep_ack_create safe_hello_jitter
  safe_hello_neighbor_set safe_hello_update_timeout safe_hello_stop : aodv.

Lemma safe_hello_send_on md ks i acc : safe md ks (hello_send_on i acc) nop.
Proof. unfold hello_send_on. safe_go. Qed.
#[export] Hint Resolve safe_hello_send_on : aodv.

Lemma safe_hello_send md ks : safe md ks hello_send nop.
Proof. unfold hello_send. safe_go. Qed.
#[export] Hint Resolve safe_hello_send : aodv.

(** [timer_init] of a static timer that is not pending. *)
Lemma timers_ok_reinit own q id h t :
  timers_ok own q → timers q !! id = Some t → tm_used t = false → fits h id = true →
  ∃ q', timer_init id h q = Ok () q' ∧ timers_ok own q' ∧ tq_ext q q' ∧
    TQ q' = TQ q ∧ expTQ q' = expTQ q ∧
    ∃ t', timers q' !! id = Some t' ∧ tm_handler t' = Some h.
Proof.
  intros Hok Ht Hu Hh. pose proof (to_wf _ _ Hok) as Hwf.
  assert (Hnl : id ∉ TQ q ++ expTQ q).
  { intros Hin. destruct (wf_linked _ Hwf id Hin) as (t' & ? & ?). congruence. }
  unfold timer_init. rewrite (proj2 (attached_false q id) Hnl).
  eexists. split; [done|].
  split_and!; [|by apply tq_ext_same|done|done|simpl; rewrite lookup_insert_eq; eauto].
  eapply timers_ok_put; [done|done|by intros h' [= <-]|by eexists|].
  destruct Hwf as [W1 W2 W3 W4 W5]. split; simpl.
  - done.
  - intros k Hk. rewrite lookup_insert_ne by congruence. auto.
  - intros k t' [[<- <-]|[_ ?]]%lookup_insert_Some Hu'; [done|eauto].
  - intros k t' [[<- <-]|[_ ?]]%lookup_insert_Some Hu'; [done|eauto].
  - rewrite due_insert_ne; [done|]. rewrite elem_of_app in Hnl. tauto.
Qed.

(** The static timers that are initialised when they are not in use. *)
Lemma safe_timer_reinit md id h s :
  inv s → timer_owned s id → fits h id = true →
  (∀ t, timers (tq s) !! id = Some t → tm_used t = false) →
  wp buf_ub (on_tq (timer_init id h)) (λ _ s', inv s' ∧ ext md s s' ∧
    TQ (tq s') = TQ (tq s) ∧ expTQ (tq s') = expTQ (tq s)) s.
Proof.
  intros Hi Ho Hh Hu.
  destruct (proj2 (to_owned _ _ (inv_timers _ Hi) id) Ho) as [t Ht].
  destruct (timers_ok_reinit _ _ id h t (inv_timers _ Hi) Ht (Hu t Ht) Hh)
    as (q & Hq & Hok & Hext & HT & HX & _).
  unfold wp. rewrite (on_tq_ok _ _ _ _ Hq).
  split_and!; [by apply inv_set_tq|by apply ext_set_tq|done|done].
Qed.

Lemma safe_hello_start md ks : safe md ks hello_start nop.
Proof.
  intros s Hi Hl. unfold hello_start, timer_used.
  destruct (proj2 (to_owned _ _ (inv_timers _ Hi) HelloSendTimer) I) as [t Ht].
  eapply wp_run; [apply on_tq_ok; unfold bind, timer_get; by rewrite Ht|].
  assert (Hs : set_tq (tq s) s = s) by by destruct s. rewrite Hs.
  destruct (tm_used t) eqn:Hu; [split_and!; [done|done|constructor]|].
  eapply wp_run; [done|]. apply wp_bind, wp_modify. apply wp_bind.
  eapply wp_mono; [apply (safe_timer_reinit md HelloSendTimer hello_send_h); try done|].
  { by destruct Hi. }
  { simpl. congruence. }
  intros _ s' (Hi' & He & _). apply (wp_safe_end _ []); [safe_go|done| |constructor].
  etransitivity; [|exact He]. by split.
Qed.
#[export] Hint Resolve safe_hello_start : aodv.

Lemma safe_hello_start_if_optimized md ks : safe md ks hello_start_if_optimized nop.
Proof. unfold hello_start_if_optimized. safe_go. Qed.
#[export] Hint Resolve safe_hello_start_if_optimized : aodv.

(** ** The extension loops only read, and their fuel is enough *)

Section pure.
Context (s : state) (Hi : inv s).

Lemma recv_load8_pure {B} off (f : Z → M B) Q :
  (∀ v, 0 <= v < 256 → off < RECV_BUF_SIZE → wp buf_ub (f v) Q s) →
  wp buf_ub (bind (recv_load8 off) f) Q s.
Proof.
  intros Hf. apply wp_bind. unfold wp at 1, recv_load8.
  destruct (load8 (recv_buf s) off) as [v|] eqn:E; [|by right].
  apply Hf; [by eapply load8_range; [apply Hi|]|].
  unfold load8 in E. destruct (off <? 0) eqn:E0; [done|].
  apply lookup_lt_Some in E. rewrite (inv_recv _ Hi) in E. unfold RECV_BUF_SIZE in *. lia.
Qed.

Lemma recv_load32_pure {B} off (f : Z → M B) Q :
  (∀ v, wp buf_ub (f v) Q s) → wp buf_ub (bind (recv_load32 off) f) Q s.
Proof.
  intros Hf. apply wp_bind. unfold wp at 1, recv_load32.
  destruct (load32 (recv_buf s) off) as [v|]; [done|by right].
Qed.

Lemma ext_loop_pure fuel : ∀ size len extlen off,
  (1 <= fuel)%nat → RECV_BUF_SIZE + 2 <= off + 2 * Z.of_nat fuel →
  wp buf_ub (ext_loop fuel size len extlen off) (λ _ s', s' = s) s.
Proof.
  induction fuel as [|fuel IH]; intros size len extlen off H1 Hf; [lia|]. simpl.
  destruct (_ <=? size); [done|].
  apply recv_load8_pure. intros _ _ Ho. apply recv_load8_pure. intros v Hv _.
  unfold AODV_EXT_HDR_SIZE. apply IH; lia.
Qed.

Lemma hello_neighbors_pure ifi data len acc :
  wp buf_ub (hello_neighbors ifi data len acc) (λ _ s', s' = s) s.
Proof.
  apply wp_foreach; [done|]. intros j acc' s' _ ->.
  apply recv_load32_pure. intros v. apply wp_bind, wp_gets. done.
Qed.

Lemma hello_ext_loop_pure fuel : ∀ ifi len off acc,
  (1 <= fuel)%nat → RECV_BUF_SIZE + 2 <= off + 2 * Z.of_nat fuel →
  wp buf_ub (hello_ext_loop fuel ifi len off acc) (λ _ s', s' = s) s.
Proof.
  induction fuel as [|fuel IH]; intros ifi len off acc H1 Hf; [lia|]. simpl.
  destruct (len <=? RREP_SIZE); [done|].
  apply recv_load8_pure. intros t _ Ho. apply recv_load8_pure. intros v Hv _.
  assert (Hnext : ∀ acc, wp buf_ub (hello_ext_loop fuel ifi (len - (AODV_EXT_HDR_SIZE + v))
    (off + AODV_EXT_HDR_SIZE + v) acc) (λ _ s', s' = s) s).
  { intros acc'. unfold AODV_EXT_HDR_SIZE. apply IH; lia. }
  destruct (t =? RREP_HELLO_INTERVAL_EXT).
  - apply wp_bind. destruct (v =? 4); [apply recv_load32_pure; intros w|]; apply Hnext.
  - destruct (t =? RREP_HELLO_NEIGHBOR_SET_EXT); [|done].
    apply wp_bind. eapply wp_mono; [apply hello_neighbors_pure|]. intros a s' ->.
    apply Hnext.
Qed.
End pure.

Lemma ext_fuel_enough off : 20 <= off → (1 <= ext_fuel)%nat ∧
  RECV_BUF_SIZE + 2 <= off + 2 * Z.of_nat ext_fuel.
Proof. unfold ext_fuel. change RECV_BUF_SIZE with 812. lia. Qed.
#[global] Opaque ext_fuel.

Lemma safe_ext_loop md ks size len off :
  20 <= off → safe md ks (ext_loop ext_fuel size len 0 off) nop.
Proof.
  intros Ho s Hi Hl. destruct (ext_fuel_enough off Ho).
  eapply wp_mono; [by apply ext_loop_pure|]. intros _ s' ->.
  split_and!; [done|done|constructor].
Qed.

Lemma safe_hello_process ks len ifi : safe Full ks (hello_process len ifi) nop.
Proof.
  unfold hello_process. safe_step.
  intros s Hi Hl. apply (recv_load32_pure s). intros hello_dest.
  apply (recv_load32_pure s). intros raw.
  apply wp_bind, wp_gets. unfold rt_table_find. apply wp_bind, wp_gets.
  rewrite find_entry_lookup by apply Hi.
  destruct (ext_fuel_enough RREP_SIZE) as [Hf1 Hf2]; [done|].
  destruct (rt_lookup (rt_tbl s) hello_dest) as [e|] eqn:E; simpl.
  - rewrite (rt_lookup_dest _ _ _ E).
    assert (Hk : rt_live (rt_tbl s) hello_dest) by by exists e.
    assert (Hd : rt_deref hello_dest s = Ok e s) by (unfold rt_deref; by rewrite E).
    eapply wp_run; [unfold rt_get, bind; by rewrite Hd|].
    apply wp_bind. eapply wp_mono; [by apply hello_ext_loop_pure|]. intros acc s' ->.
    apply (wp_safe_end _ [hello_dest]); [|done|done|live]. safe_go.
  - apply wp_bind. apply wp_bind. eapply wp_mono; [by apply hello_ext_loop_pure|].
    intros acc s' ->. apply wp_bind. eapply wp_mono.
    { apply rt_table_insert_new; [done| |apply ntohl_range|].
      - unfold rt_live. rewrite E. by intros [].
      - destruct (negb _); auto with aodv. }
    intros r s1 (-> & Hi1 & He1 & Hd1).
    apply (wp_safe_end _ [hello_dest]); [safe_go|done|done|live].
Qed.
#[export] Hint Resolve safe_hello_process : aodv.

Section safe_rrep.
Context (md : mode).

Lemma safe_rrep_ack_process ks src : safe md ks (rrep_ack_process src) nop.
Proof. unfold rrep_ack_process. safe_go. Qed.

Lemma safe_rrep_check_unidir ks r : r ∈ ks → safe md ks (rrep_check_unidir r) nop.
Proof. intros Hr. unfold rrep_check_unidir, timer_used. safe_go. Qed.

Lemma safe_rrep_repair_rerr ks f a b : f ∈ ks → safe md ks (rrep_repair_rerr f a b) nop.
Proof. intros Hf. unfold rrep_repair_rerr. safe_go. Qed.
End safe_rrep.
#[export] Hint Resolve safe_rrep_ack_process safe_rrep_check_unidir
  safe_rrep_repair_rerr : aodv.

Lemma safe_rrep_send md ks r f size :
  r ∈ ks → (∀ k, f = Some k → k ∈ ks) → safe md ks (rrep_send (Some r) f size) nop.
Proof.
  intros Hr Hf. unfold rrep_send.
  destruct f as [f|]; [assert (f ∈ ks) by auto|]; safe_go.
Qed.

Lemma safe_rrep_forward md ks size r f ttl :
  r ∈ ks → f ∈ ks → safe md ks (rrep_forward size (Some r) (Some f) ttl) nop.
Proof. intros Hr Hf. unfold rrep_forward. safe_go. Qed.
#[export] Hint Resolve safe_rrep_forward : aodv.

(** The lookup that precedes every insertion. *)
Lemma safe_find_or {B} md ks d (f : option Z → M B) res :
  safe md (d :: ks) (f (Some d)) res →
  (∀ s, inv s → live_all s ks → ¬ rt_live (rt_tbl s) d →
    wp buf_ub (f None) (λ a s', inv s' ∧ ext md s s' ∧ live_all s' (res a)) s) →
  safe md ks (bind (rt_table_find d) f) res.
Proof.
  intros Hsome Hnone s Hi Hl. unfold rt_table_find. apply wp_bind, wp_gets.
  rewrite find_entry_lookup by apply Hi.
  destruct (rt_lookup (rt_tbl s) d) as [e|] eqn:E; simpl.
  - rewrite (rt_lookup_dest _ _ _ E). apply Hsome; [done|].
    constructor; [by exists e|done].
  - apply Hnone; [done|done|]. unfold rt_live. rewrite E. by intros [].
Qed.

Lemma safe_rrep_finish md ks fwd rev h f us len ttl :
  fwd ∈ ks → (∀ k, rev = Some k → k ∈ ks) → safe md ks (rrep_finish fwd rev h f us len ttl) nop.
Proof.
  intros Hf Hr. unfold rrep_finish.
  destruct rev as [r|]; [assert (r ∈ ks) by auto|]; safe_go.
Qed.

Lemma safe_rrep_process ks len src ttl ifi : safe Full ks (rrep_process len src ttl ifi) nop.
Proof.
  unfold rrep_process. do 5 safe_step. safe_step; [safe_go|].
  safe_step. safe_step; [safe_go|].
  eapply safe_bind; [by apply safe_ext_loop|]. intros ?. cbn [app].
  apply safe_find_or.
  - eapply safe_bind; [apply safe_rt_find|]. intros rev.
    assert (Hrev : ∀ k, rev = Some k → k ∈ option_list rev ++ a :: ks)
      by (intros k ->; elem).
    safe_step. safe_step; [|safe_go]. safe_step. apply safe_rrep_finish; [elem|done].
  - intros s Hi Hl Hn. unfold rt_table_find. apply wp_bind, wp_gets.
    rewrite find_entry_lookup by apply Hi.
    apply wp_bind. eapply wp_mono.
    { apply rt_table_insert_new; [done|done|apply ntohl_range|by right]. }
    intros r s1 (-> & Hi1 & He1 & Hd1).
    destruct (rt_lookup (rt_tbl s) a0) as [e|] eqn:E.
    + assert (rt_live (rt_tbl s1) a0) by (apply He1; by exists e).
      apply (wp_safe_end _ [a; a0]); [|done|done|live].
      apply safe_rrep_finish; [elem|]. simpl. rewrite (rt_lookup_dest _ _ _ E).
      intros k [= <-]. elem.
    + apply (wp_safe_end _ [a]); [|done|done|live]. by apply safe_rrep_finish; [elem|].
Qed.
#[export] Hint Resolve safe_rrep_process : aodv.

(** ** Return *)

Lemma total_rrep_create b ks f p h d n o l : total b ks (rrep_create f p h d n o l).
Proof. unfold rrep_create. total_go. Qed.
Lemma total_rrep_ack_create b ks : total b ks rrep_ack_create.
Proof. unfold rrep_ack_create. total_go. Qed.
Lemma total_hello_jitter b ks : total b ks hello_jitter.
Proof. unfold hello_jitter. total_go. Qed.
Lemma total_hello_update_timeout b ks k now t :
  k ∈ ks → total b ks (hello_update_timeout k now t).
Proof. intros Hk. unfold hello_update_timeout. total_go. Qed.
Lemma total_rrep_repair_rerr b ks f h fl : f ∈ ks → total b ks (rrep_repair_rerr f h fl).
Proof.
  intros Hf. unfold rrep_repair_rerr. apply total_deref; [done|intros e _ _].
  apply total_when, total_rerr_single. unfold RERR_CALC_SIZE. total_go.
Qed.
#[export] Hint Resolve total_rrep_create total_rrep_ack_create total_hello_jitter
  total_hello_update_timeout total_rrep_repair_rerr : aodv.

Lemma total_rrep_check_unidir ks r : r ∈ ks → total (Some 0%nat) ks (rrep_check_unidir r).
Proof. intros Hr. unfold rrep_check_unidir, timer_used. total_go. Qed.
#[export] Hint Resolve total_rrep_check_unidir : aodv.

(** Without the option for unidirectional links a hello message has no
    extension, and sending it leaves the timers alone. *)
Lemma hello_send_on_run s i acc :
  inv s → unidir_hack (opts s) = false → 0 <= acc.2 <= SEND_BUF_SIZE →
  ∃ s', hello_send_on i acc s = Ok acc s' ∧ inv s' ∧ ext Quiet s s' ∧ grows 0 s s' ∧
    tq s' = tq s.
Proof.
  intros Hi Hu Hsz. unfold hello_send_on. do 3 erewrite bind_ok by done. rewrite Hu.
  destruct (total_frame tq Quiet None []
    (rrep_create 0 0 0 (dev_ipaddr (DEV_NR s i)) (seqno (this_host s)) (dev_ipaddr (DEV_NR s i))
       (ALLOWED_HELLO_LOSS * HELLO_INTERVAL)) s) as ([] & s1 & R1 & Hi1 & X1 & G1 & T1);
    [apply total_rrep_create|safe_go|unfold rrep_create, aodv_socket_new_msg; frame_go
    |done|constructor|done|].
  erewrite bind_ok by exact R1. erewrite bind_ok by done.
  destruct (total_frame tq Quiet None [] (aodv_socket_send AODV_BROADCAST acc.2 1 i) s1)
    as ([] & s2 & R2 & Hi2 & X2 & G2 & T2);
    [by apply total_socket_send|safe_go|unfold aodv_socket_send, ratelimit_check, sendto; frame_go
    |done|constructor|done|].
  exists s2. split; [by erewrite bind_ok by exact R2|].
  split_and!; [done|by etransitivity|exact (grows_trans 0 0 _ _ _ G1 G2)|congruence].
Qed.

Lemma hello_send_loop l : ∀ acc s,
  inv s → unidir_hack (opts s) = false → 0 <= acc.2 <= SEND_BUF_SIZE →
  ∃ s', foreach l acc hello_send_on s = Ok acc s' ∧ inv s' ∧ ext Quiet s s' ∧ grows 0 s s' ∧
    tq s' = tq s.
Proof.
  induction l as [|i l IH]; intros acc s Hi Hu Hsz; cbn [foreach].
  - exists s. split_and!; [done|done|done|apply grows_refl|done].
  - destruct (hello_send_on_run s i acc Hi Hu Hsz) as (s1 & R1 & Hi1 & X1 & G1 & T1).
    destruct (IH acc s1 Hi1) as (s2 & R2 & Hi2 & X2 & G2 & T2);
      [unfold opts; by rewrite (proj1 G1)|done|].
    exists s2. split; [by erewrite bind_ok by exact R1|].
    split_and!; [done|by etransitivity|exact (grows_trans 0 0 _ _ _ G1 G2)|congruence].
Qed.

(** The timer of the hello messages has a handler. *)
Definition hello_armed (s : state) : Prop :=
  ∃ t h, timers (tq s) !! HelloSendTimer = Some t ∧ tm_handler t = Some h.

Lemma set_hello_timeout s ms :
  inv s → hello_armed s → ∃ s', set_timeout HelloSendTimer ms s = Ok () s' ∧ grows 0 s s'.
Proof.
  intros Hi (t & h & Ht & Hh). destruct (set_timeout_armed s _ ms t h Hi Ht Hh) as (q & n & R).
  eexists. split; [exact R|]. by apply grows_same.
Qed.

Lemma hello_send_run s :
  inv s → hello_armed s → unidir_hack (opts s) = false →
  ∃ s', hello_send s = Ok () s' ∧ grows 0 s s'.
Proof.
  intros Hi Ha Hu. unfold hello_send. erewrite bind_ok by done. set (s1 := set_clock_reads _ s).
  assert (Hi1 : inv s1) by by destruct Hi. do 2 erewrite bind_ok by done.
  destruct (_ && _).
  { edestruct (total_unit None [] hello_stop s1) as (s2 & R2 & G2);
      [unfold hello_stop; total_go|done|constructor|done|by exists s2]. }
  edestruct (total_frame tq Quiet None [] hello_jitter s1) as (j & s2 & R2 & Hi2 & X2 & G2 & T2);
    [total_go|safe_go|unfold hello_jitter; frame_go|done|constructor|done|].
  erewrite bind_ok by exact R2.
  assert (Ha2 : hello_armed s2) by (unfold hello_armed; rewrite T2; exact Ha).
  assert (Hend : ∀ ms s3, inv s3 → hello_armed s3 → grows 0 s2 s3 →
    ∃ s', set_timeout HelloSendTimer ms s3 = Ok () s' ∧ grows 0 s s').
  { intros ms s3 Hi3 Ha3 G3. destruct (set_hello_timeout s3 ms Hi3 Ha3) as (s' & R & G).
    exists s'. split; [done|].
    exact (grows_trans 0 0 _ _ _ (grows_trans 0 0 _ _ _ G2 G3) G). }
  destruct (HELLO_INTERVAL <=? _).
  - erewrite bind_ok by done.
    destruct (hello_send_loop (enabled_devs s2) (None, RREP_SIZE) s2 Hi2)
      as (s3 & R3 & Hi3 & X3 & G3 & T3); [unfold opts; by rewrite (proj1 G2)|done|].
    erewrite bind_ok by exact R3. apply Hend; [done|unfold hello_armed; by rewrite T3|done].
  - destruct (_ <? 0); apply Hend; (done || apply grows_refl).
Qed.

Lemma hello_start_run s :
  inv s → unidir_hack (opts s) = false → ∃ s', hello_start s = Ok () s' ∧ grows 0 s s'.
Proof.
  intros Hi Hu. unfold hello_start, timer_used.
  destruct (proj2 (to_owned _ _ (inv_timers _ Hi) HelloSendTimer) I) as [t Ht].
  erewrite bind_ok by (apply on_tq_ok; unfold bind, timer_get; by rewrite Ht).
  assert (Hs : set_tq (tq s) s = s) by by destruct s. rewrite Hs.
  destruct (tm_used t) eqn:Hut; [exists s; split; [done|apply grows_refl]|].
  erewrite bind_ok by done. erewrite bind_ok by done. set (s1 := set_this_host _ _).
  assert (Hi1 : inv s1) by by destruct Hi.
  destruct (timers_ok_reinit _ _ HelloSendTimer hello_send_h t (inv_timers _ Hi1) Ht Hut eq_refl)
    as (q & Hq & Hok & _ & _ & _ & t' & Ht' & Hh').
  erewrite bind_ok by (apply on_tq_ok; exact Hq).
  destruct (hello_send_run (set_tq q s1)) as (s2 & R2 & G2);
    [by apply inv_set_tq|by exists t', hello_send_h|done|].
  exists s2. split; [done|]. exact (grows_trans 0 0 s (set_tq q s1) s2 ltac:(by apply grows_same) G2).
Qed.

Lemma total_hello_start_if_optimized ks : total (Some 0%nat) ks hello_start_if_optimized.
Proof.
  intros s Hi Hl (_ & _ & Ho). unfold hello_start_if_optimized. erewrite bind_ok by done.
  destruct (negb (llfeedback (opts s)) && optimized_hellos (opts s)) eqn:E.
  2:{ exists (), s. split; [done|apply grows_refl]. }
  apply andb_true_iff in E as [_ E]. destruct Ho as [Ho|Ho]; [congruence|].
  destruct (hello_start_run s Hi Ho) as (s' & R & G). by exists (), s'.
Qed.
#[export] Hint Resolve total_hello_start_if_optimized : aodv.

Lemma total_rrep_send ks r f size :
  r ∈ ks → (∀ k, f = Some k → k ∈ ks) → 0 <= size <= SEND_BUF_SIZE →
  total (Some 0%nat) ks (rrep_send (Some r) f size).
Proof.
  intros Hr Hf Hs. unfold rrep_send.
  destruct f as [f|]; [assert (f ∈ ks) by auto|]; total_go.
Qed.

Lemma total_rrep_forward b ks size r f ttl :
  r ∈ ks → f ∈ ks → 0 <= size <= SEND_BUF_SIZE →
  total b ks (rrep_forward size (Some r) (Some f) ttl).
Proof. intros Hr Hf Hs. unfold rrep_forward. total_go. Qed.
#[export] Hint Resolve total_rrep_forward : aodv.

Lemma total_rrep_finish ks fwd rev h f us len ttl :
  fwd ∈ ks → (∀ k, rev = Some k → k ∈ ks) → 0 <= len <= SEND_BUF_SIZE →
  total (Some 0%nat) ks (rrep_finish fwd rev h f us len ttl).
Proof.
  intros Hf Hr Hs. unfold rrep_finish, NEXT_HOP_WAIT, NODE_TRAVERSAL_TIME.
  destruct rev as [r|]; [assert (r ∈ ks) by auto|]; total_go.
Qed.

(** The extensions of a message can be read, or run out of the buffer. *)
Lemma ext_loop_outcome s size len off :
  inv s → 20 <= off →
  ext_loop ext_fuel size len 0 off s = Ok () s ∨
  ext_loop ext_fuel size len 0 off s = Ub RecvBufOverread.
Proof.
  intros Hi Ho. destruct (ext_fuel_enough off Ho) as [Hf1 Hf2]. generalize 0. revert off Ho Hf1 Hf2.
  induction ext_fuel as [|fuel IH]; intros off Ho Hf1 Hf2 extlen; [lia|]. cbn [ext_loop].
  destruct (_ <=? size); [by left|]. unfold bind, recv_load8.
  destruct (load8 (recv_buf s) off) as [v|] eqn:E; [|by right].
  destruct (load8 (recv_buf s) (off + 1)) as [v'|] eqn:E'; [|by right].
  pose proof (load8_range _ _ _ (inv_recv_bytes _ Hi) E').
  assert (off < RECV_BUF_SIZE).
  { unfold load8 in E. destruct (off <? 0) eqn:E0; [done|].
    apply lookup_lt_Some in E. rewrite (inv_recv _ Hi) in E. unfold RECV_BUF_SIZE in *. lia. }
  unfold AODV_EXT_HDR_SIZE. apply IH; lia.
Qed.

Lemma ext_loop_returned s size len off :
  inv s → 20 <= off → returns (ext_loop ext_fuel size len 0 off) s →
  ext_loop ext_fuel size len 0 off s = Ok () s.
Proof.
  intros Hi Ho (a & s' & Hr). destruct (ext_loop_outcome s size len off Hi Ho); congruence.
Qed.

(** The loop depends on the receive buffer alone. *)
Lemma ext_loop_recv s s' size len off :
  recv_buf s' = recv_buf s → returns (ext_loop ext_fuel size len 0 off) s →
  returns (ext_loop ext_fuel size len 0 off) s'.
Proof.
  intros Hb. generalize 0, off. induction ext_fuel as [|fuel IH]; intros extlen o;
    [by intros (? & ? & ?)|]. cbn [ext_loop]. unfold returns.
  destruct (_ <=? size); [intros _; by do 2 eexists|]. unfold bind, recv_load8. rewrite Hb.
  destruct (load8 (recv_buf s) o); [|by intros (? & ? & ?)]. rewrite Hb.
  destruct (load8 (recv_buf s) (o + 1)); [|by intros (? & ? & ?)]. apply IH.
Qed.

(** A lookup gives a valid pointer. *)
Lemma find_live s d :
  inv s → live_all s (option_list (rt_dest_addr <$> rt_lookup (rt_tbl s) d)).
Proof.
  intros Hi. destruct (rt_lookup (rt_tbl s) d) as [e|] eqn:E; [|constructor].
  constructor; [|constructor]. rewrite (rt_lookup_dest _ _ _ E). by exists e.
Qed.

(** What follows an insertion, with the room it leaves. *)
Lemma insert_then {B} s n d next hops sq life st flags ifi ks (f : option Z → M B) :
  inv s → live_all s ks → has_room (S n) s → ¬ rt_live (rt_tbl s) d →
  0 <= sq < 4294967296 → st = INVALID ∨ st = VALID → total (Some n) (d :: ks) (f (Some d)) →
  completes (S n) (bind (rt_table_insert d next hops sq life st flags ifi) f) s.
Proof.
  intros Hi Hl Hr Hd Hsq Hst Hf.
  destruct (rt_table_insert_run s d next hops sq life st flags ifi Hi Hd Hsq Hst)
    as (s1 & R1 & Hi1 & X1 & Hd1 & G1); [destruct Hr as (_ & ? & _); lia|].
  apply (completes_then 1 n _ _ _ _ _ R1 G1). apply Hf; [done| |].
  - constructor; [done|by eapply live_all_ext].
  - exact (has_room_grows 1 n _ _ Hr G1).
Qed.

Lemma rrep_process_completes s len src ttl ifi :
  inv s → has_room 1 s → len <= RECV_BUF_SIZE →
  returns (ext_loop ext_fuel RREP_SIZE len 0 RREP_SIZE) s →
  completes 1 (rrep_process len src ttl ifi) s.
Proof.
  intros Hi Hr Hlen Hext. apply ext_loop_returned in Hext; [|done|done].
  unfold rrep_process.
  do 4 (eapply completes_run; [apply recv_load32_ok; [done|lia]|done|]).
  eapply completes_run; [apply recv_load8_ok; [done|lia]|done|].
  destruct (len <? RREP_SIZE) eqn:El; [apply completes_ret|]. apply Z.ltb_ge in El.
  eapply completes_run; [done|done|]. destruct (recv32 s 4 =? _); [apply completes_ret|].
  eapply completes_run; [exact Hext|done|]. unfold rt_table_find.
  do 2 (eapply completes_run; [done|done|]). rewrite !find_entry_lookup by apply Hi.
  assert (Hsz : 0 <= len <= SEND_BUF_SIZE) by (unfold RREP_SIZE in El; in_buffer).
  set (rev := rt_dest_addr <$> rt_lookup (rt_tbl s) (recv32 s 12)).
  pose proof (find_live s (recv32 s 12) Hi) as Hrev. fold rev in Hrev.
  destruct (rt_lookup (rt_tbl s) (recv32 s 4)) as [e|] eqn:He; simpl.
  - rewrite (rt_lookup_dest _ _ _ He). apply (completes_le 0 1); [|lia].
    apply (total_completes (Some 0%nat) (recv32 s 4 :: option_list rev)); [|done| |].
    + total_go. apply total_rrep_finish; [left|intros k ->; elem|done].
    + constructor; [by exists e|done].
    + eapply has_room_le; [exact Hr|lia].
  - apply (insert_then s 0 _ _ _ _ _ _ _ _ (option_list rev));
      [done|done|done|unfold rt_live; rewrite He; by intros []|apply ntohl_range|by right|].
    apply total_rrep_finish; [left|intros k ->; elem|done].
Qed.

Lemma hello_no_ext ifi len off acc s :
  len <= RREP_SIZE → hello_ext_loop ext_fuel ifi len off acc s = Ok acc s.
Proof.
  intros Hlen. destruct (ext_fuel_enough RREP_SIZE) as [Hf _]; [done|].
  destruct ext_fuel as [|fuel]; [lia|]. cbn [hello_ext_loop].
  by rewrite (proj2 (Z.leb_le _ _) Hlen).
Qed.

Lemma hello_process_completes s len ifi :
  inv s → has_room 1 s → len <= RREP_SIZE → completes 1 (hello_process len ifi) s.
Proof.
  intros Hi Hr Hlen. unfold hello_process. eapply completes_run; [done|done|].
  set (s1 := set_clock_reads _ s). assert (Hi1 : inv s1) by by destruct Hi.
  do 2 (eapply completes_run; [apply recv_load32_ok; [done|lia]|done|]).
  eapply completes_run; [done|done|]. unfold rt_table_find.
  eapply completes_run; [done|done|]. rewrite find_entry_lookup by apply Hi1.
  set (d := recv32 s1 4).
  destruct (rt_lookup (rt_tbl s1) d) as [e|] eqn:He; cbn [fmap option_fmap option_map].
  - rewrite (rt_lookup_dest _ _ _ He).
    eapply completes_run; [unfold rt_get, bind, rt_deref; by rewrite He|done|].
    eapply completes_run; [by apply hello_no_ext|done|]. apply (completes_le 0 1); [|lia].
    apply (total_completes (Some 0%nat) [d]);
      [total_go|done|apply Forall_singleton; by exists e|].
    eapply (has_room_le 0 1); [exact Hr|lia].
  - eapply completes_run; [done|done|]. eapply completes_run; [by apply hello_no_ext|done|].
    apply (insert_then s1 0 _ _ _ _ _ _ _ _ []);
      [done|constructor|exact Hr|unfold rt_live; rewrite He; by intros []|apply ntohl_range
      |destruct (negb _); auto with aodv|total_go].
Qed.

Lemma total_rrep_ack_process b ks src : total b ks (rrep_ack_process src).
Proof. unfold rrep_ack_process. total_go. Qed.
#[export] Hint Resolve total_rrep_ack_process : aodv.

(** ** Properties *)

(** What a receiver reads from a RREP are the values it was created with. *)
Theorem rrep_roundtrip (s : state) (flags prefix hcnt d n o life : Z) :
  0 <= hcnt < 256 →
  ∃ s', rrep_create flags prefix hcnt d n o life s = Ok () s' ∧
    let buf := send_buf s' in
    load8 buf 0 = Some AODV_RREP ∧ load8 buf 3 = Some hcnt ∧
    load32 buf 4 = Some (u32 d) ∧ ntohl <$> load32 buf 8 = Some (u32 n) ∧
    load32 buf 12 = Some (u32 o) ∧ ntohl <$> load32 buf 16 = Some (u32 life) ∧
    (λ b, (Z.testbit b 7, Z.testbit b 6)) <$> load8 buf 1
      = Some (has flags RREP_REPAIR, has flags RREP_ACK) ∧
    (flags = 0 → load8 buf 1 = Some 0).
Proof.
  intros Hh. set (b0 := replicate (Z.to_nat SEND_BUF_SIZE) 0).
  assert (L0 : length b0 = Z.to_nat SEND_BUF_SIZE) by apply length_replicate.
  set (fl := (if has flags RREP_REPAIR then 2 ^ 7 else 0)
             + (if has flags RREP_ACK then 2 ^ 6 else 0)).
  destruct (store8_fits b0 0 AODV_RREP L0) as (b1 & S1 & L1); [done|].
  destruct (store8_fits b1 2 (Z.land prefix 31) L1) as (b2 & S2 & L2); [done|].
  destruct (store8_fits b2 3 hcnt L2) as (b3 & S3 & L3); [done|].
  destruct (store32_fits b3 4 d L3) as (b4 & S4 & L4); [done|done|].
  destruct (store32_fits b4 8 (htonl n) L4) as (b5 & S5 & L5); [done|done|].
  destruct (store32_fits b5 12 o L5) as (b6 & S6 & L6); [done|done|].
  destruct (store32_fits b6 16 (htonl life) L6) as (b7 & S7 & L7); [done|done|].
  destruct (store8_fits b7 1 fl L7) as (b8 & S8 & L8); [done|].
  eexists. split.
  - unfold rrep_create, aodv_socket_new_msg, bind, modify, send_store8, send_store32.
    rewrite (send_store_ok _ _ b1) by done. rewrite (send_store_ok _ _ b2) by done.
    rewrite (send_store_ok _ _ b3) by done. rewrite (send_store_ok _ _ b4) by done.
    rewrite (send_store_ok _ _ b5) by done. rewrite (send_store_ok _ _ b6) by done.
    rewrite (send_store_ok _ _ b7) by done. rewrite (send_store_ok _ _ b8) by done.
    reflexivity.
  - simpl. load_simp. simpl. rewrite !ntohl_u32_htonl, (u8_small hcnt) by done.
    split_and!; try done; unfold fl.
    + by destruct (has flags RREP_REPAIR), (has flags RREP_ACK).
    + by intros ->.
Qed.

(** A RREP that is neither newer nor shorter than the route there is. *)
Definition rrep_stale (e : rt_table_t) (sq hcnt : Z) : Prop :=
  rt_dest_seqno e ≠ 0 ∧
  (int32 sq < int32 (rt_dest_seqno e) ∨
   sq = rt_dest_seqno e ∧ rt_state e = VALID ∧ has (rt_flags e) RT_UNIDIR = false ∧
   rt_hcnt e <= hcnt).

Lemma rrep_stale_rejected e sq hcnt : rrep_stale e sq hcnt → rrep_accepts e sq hcnt = false.
Proof.
  intros [H0 Hst]. unfold rrep_accepts. rewrite (proj2 (Z.eqb_neq _ _) H0). simpl.
  destruct Hst as [Hlt|(Heq & Hv & Hu & Hh)].
  - rewrite (proj2 (Z.ltb_ge _ _)) by lia. simpl.
    rewrite (proj2 (Z.eqb_neq _ _)); [done|]. intros Heq. rewrite Heq in Hlt. lia.
  - rewrite Heq, Z.ltb_irrefl, Z.eqb_refl, Hv, Hu. simpl. apply Z.ltb_ge. lia.
Qed.

(** A RREP that is neither newer nor shorter than the route to its destination,
    or that is too short, or whose destination is this node, is discarded:
    nothing changes.  Only extensions that run out of the buffer can keep it
    from being discarded. *)
Theorem rrep_process_stale (s : state) (len src ttl ifindex : Z) :
  inv s →
  len < RREP_SIZE ∨ recv32 s 4 = dev_ipaddr (DEV_IFINDEX s ifindex) ∨
  (∃ e, rt_lookup (rt_tbl s) (recv32 s 4) = Some e ∧
        rrep_stale e (ntohl (recv32 s 8)) (recv8 s 3 + 1)) →
  rrep_process len src ttl ifindex s = Ok () s ∨
  ext_loop ext_fuel RREP_SIZE len 0 RREP_SIZE s = Ub RecvBufOverread ∧
  rrep_process len src ttl ifindex s = Ub RecvBufOverread.
Proof.
  intros Hi Hst. unfold rrep_process.
  do 4 (erewrite bind_ok by (apply recv_load32_ok; [done|lia])).
  erewrite bind_ok by (apply recv_load8_ok; [done|lia]).
  destruct (len <? RREP_SIZE) eqn:El; [by left|]. apply Z.ltb_ge in El.
  erewrite bind_ok by done. destruct (recv32 s 4 =? _) eqn:Em; [by left|]. apply Z.eqb_neq in Em.
  destruct Hst as [Hst|[Hst|(e & He & Hst)]]; [lia|done|].
  destruct (ext_loop_outcome s RREP_SIZE len RREP_SIZE Hi ltac:(done)) as [Hext|Hext].
  - left. erewrite bind_ok by exact Hext. unfold rt_table_find. do 2 erewrite bind_ok by done.
    rewrite (find_entry_lookup _ (recv32 s 4)) by apply Hi. rewrite He. simpl.
    rewrite (rt_lookup_dest _ _ _ He).
    erewrite bind_ok by (unfold rt_deref; by rewrite He).
    by rewrite (rrep_stale_rejected _ _ _ Hst).
  - right. split; [done|]. unfold bind at 1. by rewrite Hext.
Qed.

(** *** A fresh RREP installs the forward route *)

Lemma routes_precursor_add k a : frames routes (precursor_add k a).
Proof.
  unfold precursor_add. apply frames_bind; [apply frames_rt_deref|]. intros e.
  destruct (existsb _ _); [apply frames_ret|by apply frames_routes_modify].
Qed.

Lemma routes_update_timeout k l : frames routes (rt_table_update_timeout k l).
Proof. unfold rt_table_update_timeout. frame_go. Qed.
Lemma routes_socket_send dst len ttl dev : frames routes (aodv_socket_send dst len ttl dev).
Proof. unfold aodv_socket_send, ratelimit_check, sendto. frame_go. Qed.
Lemma routes_queue_msg n : frames routes (aodv_socket_queue_msg n).
Proof.
  intros s a s'. unfold aodv_socket_queue_msg. destruct (_ || _); [done|]. by intros [= _ <-].
Qed.
#[export] Hint Resolve routes_precursor_add routes_update_timeout routes_socket_send
  routes_queue_msg : aodv.

Lemma routes_hello_start : frames routes hello_start_if_optimized.
Proof.
  unfold hello_start_if_optimized, hello_start, hello_send, hello_stop, hello_jitter,
    hello_send_on, hello_neighbor_set, rrep_create, aodv_socket_new_msg. frame_go.
Qed.
#[export] Hint Resolve routes_hello_start : aodv.

(** The end of [rrep_process] does not change where packets go. *)
Lemma routes_rrep_finish fwd rev h f us len ttl :
  frames routes (rrep_finish fwd rev h f us len ttl).
Proof.
  unfold rrep_finish, rrep_ack_create, rrep_repair_rerr, rrep_forward, rerr_create,
    rerr_dest_count, aodv_socket_new_msg, rt_is_valid. frame_go.
Qed.

Lemma rrep_finish_keeps s1 e1 d r rev h f us len ttl :
  inv s1 → rt_lookup (rt_tbl s1) d = Some e1 → route_of e1 = r →
  (∀ k, rev = Some k → rt_live (rt_tbl s1) k) →
  wp buf_ub (rrep_finish d rev h f us len ttl) (λ _ s',
    route_of <$> rt_lookup (rt_tbl s') d = Some r) s1.
Proof.
  intros Hi1 He1 Hr1 Hrev.
  eapply wp_mono; [apply (wp_frame routes); [apply routes_rrep_finish|]|].
  - apply (safe_rrep_finish Full (d :: option_list rev)); [elem|intros k ->; elem|done|].
    constructor; [by exists e1|]. destruct rev as [k|]; [|constructor].
    constructor; [by apply Hrev|constructor].
  - intros _ s2 [_ Hro]. apply (routes_lookup _ _ d) in Hro. rewrite He1 in Hro.
    rewrite Hro. simpl. by rewrite Hr1.
Qed.

(** C9: a RREP for a destination without a route, or fresher than the route there
    is (newer sequence number, or the same one with fewer hops, a broken or
    a unidirectional route), installs a valid route to its destination through
    the neighbour it came from, one hop longer and with its sequence number.  It
    is processed to the end when its extensions can be read and there is room
    for one more route. *)
Theorem rrep_process_installs (s : state) (len src ttl ifindex : Z) :
  inv s → RREP_SIZE <= len → recv32 s 4 ≠ dev_ipaddr (DEV_IFINDEX s ifindex) →
  (∀ e, rt_lookup (rt_tbl s) (recv32 s 4) = Some e →
     rrep_accepts e (ntohl (recv32 s 8)) (recv8 s 3 + 1) = true) →
  (has_room 1 s → len <= RECV_BUF_SIZE →
     returns (ext_loop ext_fuel RREP_SIZE len 0 RREP_SIZE) s →
     returns (rrep_process len src ttl ifindex) s) ∧
  wp buf_ub (rrep_process len src ttl ifindex) (λ _ s', ∃ e',
    rt_lookup (rt_tbl s') (recv32 s 4) = Some e' ∧ rt_state e' = VALID ∧
    rt_next_hop e' = src ∧ rt_hcnt e' = u8 (recv8 s 3 + 1) ∧
    rt_dest_seqno e' = ntohl (recv32 s 8)) s.
Proof.
  intros Hi Hlen Hnm Hacc. split; [intros; by apply (completes_returns 1), rrep_process_completes|].
  unfold rrep_process.
  do 4 (eapply wp_run; [apply recv_load32_ok; [done|lia]|]).
  eapply wp_run; [apply recv_load8_ok; [done|lia]|].
  rewrite (proj2 (Z.ltb_ge _ _) Hlen). apply wp_bind, wp_gets.
  rewrite (proj2 (Z.eqb_neq _ _) Hnm).
  destruct (ext_fuel_enough RREP_SIZE) as [Hf1 Hf2]; [done|].
  apply wp_bind. eapply wp_mono; [by apply ext_loop_pure|]. intros _ s' ->.
  unfold rt_table_find. do 2 apply wp_bind, wp_gets.
  set (d := recv32 s 4) in *. set (sq := ntohl (recv32 s 8)) in *.
  rewrite !find_entry_lookup by apply Hi.
  set (rev := rt_dest_addr <$> rt_lookup (rt_tbl s) (recv32 s 12)).
  assert (Hrev : ∀ k, rev = Some k → rt_live (rt_tbl s) k).
  { unfold rev. intros k (x & Hx & ->)%fmap_Some. rewrite (rt_lookup_dest _ _ _ Hx). by exists x. }
  assert (Hget : ∀ s', route_of <$> rt_lookup (rt_tbl s') d
      = Some (d, src, u8 (recv8 s 3 + 1), sq, VALID) → ∃ e', rt_lookup (rt_tbl s') d = Some e' ∧
      rt_state e' = VALID ∧ rt_next_hop e' = src ∧ rt_hcnt e' = u8 (recv8 s 3 + 1) ∧
      rt_dest_seqno e' = sq).
  { intros s' (e' & He' & Hr)%fmap_Some. injection Hr as _ H1 H2 H3 H4. by exists e'. }
  destruct (rt_lookup (rt_tbl s) d) as [e|] eqn:He; simpl.
  - rewrite (rt_lookup_dest _ _ _ He).
    eapply wp_run; [unfold rt_deref; by rewrite He|]. rewrite (Hacc e eq_refl).
    apply wp_bind. eapply wp_mono; [apply wp_and|].
    { apply rt_table_update_effect; [done|exact He|apply ntohl_range|by right]. }
    { apply (safe_rt_table_update [d]); [elem|apply ntohl_range|by right|done|].
      constructor; [by exists e|constructor]. }
    intros _ s1 [(Hi1 & (e1 & He1 & H1 & H2 & H3 & H4) & _) (_ & Hx1 & _)].
    eapply wp_mono; [eapply rrep_finish_keeps; [done|exact He1|reflexivity|]|].
    { intros k Hk. by apply Hx1, Hrev. }
    intros ? s2 Hr2. apply Hget. rewrite Hr2. unfold route_of.
    by rewrite (rt_lookup_dest _ _ _ He1), H1, H2, H3, H4.
  - apply wp_bind. eapply wp_mono; [apply rt_table_insert_route|];
      [done|unfold rt_live; rewrite He; by intros []|apply ntohl_range|by right|].
    intros r s1 (-> & Hi1 & Hx1 & He1).
    eapply wp_mono; [eapply rrep_finish_keeps; [done|exact He1|reflexivity|]|].
    { intros k Hk. by apply Hx1, Hrev. }
    intros ? s2 Hr2. by apply Hget.
Qed.

(** *** A HELLO makes its sender a neighbour *)

Lemma routes_hello_update k now time : frames routes (hello_update_timeout k now time).
Proof.
  unfold hello_update_timeout. apply frames_bind; [frame_go|intros _].
  by apply frames_routes_modify.
Qed.

(** The end of [hello_process] does not change the route. *)
Lemma hello_update_keeps s k e now time :
  inv s → rt_lookup (rt_tbl s) k = Some e →
  wp buf_ub (hello_update_timeout k now time) (λ _ s',
    route_of <$> rt_lookup (rt_tbl s') k = Some (route_of e)) s.
Proof.
  intros Hi He. eapply wp_mono; [apply (wp_frame routes); [apply routes_hello_update|]|].
  - apply (wp_safe_end Full [k] _ nop s); [unfold hello_update_timeout; safe_go|done|done|].
    constructor; [by exists e|constructor].
  - intros ? s' [_ Hr]. apply (routes_lookup _ _ k) in Hr. by rewrite Hr, He.
Qed.

Lemma has_unidir_u8 f : has (u8 f) RT_UNIDIR = has f RT_UNIDIR.
Proof.
  unfold has, RT_UNIDIR. change 1 with (Z.ones 1). rewrite !Z.land_ones by lia.
  unfold u8. f_equal. f_equal. Z.div_mod_to_equations. lia.
Qed.

(** A HELLO (without extensions, with the default options) makes its sender a
    neighbour: there is a valid route of one hop to it, with the sequence
    number of the HELLO, whatever was known about the sender before.  It is
    processed to the end when there is room for one more route. *)
Theorem hello_process_installs (s : state) (len ifindex : Z) :
  inv s → len <= RREP_SIZE → receive_n_hellos (opts s) = 0 → unidir_hack (opts s) = false →
  (∀ e, rt_lookup (rt_tbl s) (recv32 s 4) = Some e → has (rt_flags e) RT_UNIDIR = false) →
  (has_room 1 s → returns (hello_process len ifindex) s) ∧
  wp buf_ub (hello_process len ifindex) (λ _ s',
    route_of <$> rt_lookup (rt_tbl s') (recv32 s 4)
    = Some (recv32 s 4, recv32 s 4, 1, ntohl (recv32 s 8), VALID)) s.
Proof.
  intros Hi Hlen Hn Hu Hf. split; [intros; by apply (completes_returns 1), hello_process_completes|].
  unfold hello_process.
  eapply wp_run; [done|]. set (s1 := set_clock_reads _ s).
  assert (Hi1 : inv s1) by by destruct Hi.
  do 2 (eapply wp_run; [apply recv_load32_ok; [done|lia]|]).
  change (recv32 s1) with (recv32 s). set (d := recv32 s 4) in *.
  apply wp_bind, wp_gets. change (opts s1) with (opts s). rewrite Hn, Hu.
  unfold rt_table_find. apply wp_bind, wp_gets. rewrite find_entry_lookup by apply Hi1.
  change (rt_tbl s1) with (rt_tbl s).
  assert (Hloop : ∀ fl, hello_ext_loop ext_fuel ifindex len RREP_SIZE
    (mk_hello_acc HELLO_INTERVAL fl) s1 = Ok (mk_hello_acc HELLO_INTERVAL fl) s1)
    by (intros fl; by apply hello_no_ext).
  destruct (rt_lookup (rt_tbl s) d) as [e|] eqn:He; cbn [fmap option_fmap option_map].
  - rewrite (rt_lookup_dest _ _ _ He).
    assert (Hd : rt_deref d s1 = Ok e s1) by (unfold rt_deref; change (rt_tbl s1) with (rt_tbl s);
      by rewrite He).
    eapply wp_run; [unfold rt_get, bind; by rewrite Hd|].
    eapply wp_run; [apply Hloop|]. cbn [acc_flags acc_interval].
    eapply wp_run; [exact Hd|]. rewrite has_unidir_u8, (Hf e eq_refl). cbn [negb andb Z.eqb].
    apply wp_bind. eapply wp_mono.
    { apply rt_table_update_effect; [done|exact He|apply ntohl_range|by right]. }
    intros _ s2 (Hi2 & (e2 & He2 & H1 & H2 & H3 & H4) & _).
    eapply wp_mono; [by eapply hello_update_keeps|]. intros _ s3 ->. unfold route_of.
    by rewrite (rt_lookup_dest _ _ _ He2), H1, H2, H3, H4.
  - apply wp_bind, wp_ret. eapply wp_run; [apply Hloop|]. cbn [acc_flags acc_interval].
    apply wp_bind. eapply wp_mono; [apply rt_table_insert_route|];
      [done|change (rt_tbl s1) with (rt_tbl s); unfold rt_live; rewrite He; by intros []|apply ntohl_range|by right|].
    intros r s2 (-> & Hi2 & Hx2 & He2). apply wp_bind. eapply wp_mono.
    { refine (eff_modify d _ (set_rt_hello_cnt 1) _ _ s2 Hi2 He2); [done|entry]. }
    intros _ s3 (Hi3 & _ & He3 & _).
    eapply wp_mono; [by eapply hello_update_keeps|]. intros _ s4 ->. reflexivity.
Qed.
