(* ===== verification/Rreq.v ===== *)
(** * protocol/aodv_rreq.c: route requests

    A RREQ in a buffer: byte 0 the type, byte 1 the bits [d] (4), [g] (5),
    [r] (6) and [j] (7), byte 3 the hop count, then the RREQ id, the
    destination, its sequence number, the originator and its sequence
    number, four bytes each. *)

From S2P Require Import Prelude.
From S2P Require Import Params.
From S2P Require Import Bytes.
From S2P Require Import TimerQueue.
From S2P Require Import State.
From S2P Require Import Frame.
From S2P Require Import Nl.
From S2P Require Import RtTable.
From S2P Require Import Inv.
From S2P Require Import Total.
From S2P Require Import PacketQueue.
From S2P Require Import SeekList.
From S2P Require Import Socket.
From S2P Require Import Rerr.
From S2P Require Import RtUpdate.
From S2P Require Import Rrep.

#[local] Open Scope cm_scope.

Definition rreq_create (flags dest_addr dest_seqno orig_addr : Z) : M () :=
  aodv_socket_new_msg ;;
  send_store8 0 AODV_RREQ ;;
  send_store8 2 0 ;;
  send_store8 3 0 ;;
  h ← gets this_host;
  send_store32 4 (htonl (rreq_id h)) ;;
  modify (λ s, set_this_host (set_rreq_id (u32 (rreq_id (this_host s) + 1)) (this_host s)) s) ;;
  send_store32 8 dest_addr ;;
  send_store32 12 (htonl dest_seqno) ;;
  send_store32 16 orig_addr ;;
  modify (λ s, set_this_host (set_seqno (seqno_incr (seqno (this_host s))) (this_host s)) s) ;;
  h ← gets this_host;
  send_store32 20 (htonl (seqno h)) ;;
  send_store8 1 ((if has flags RREQ_JOIN then 2 ^ 7 else 0)
                 + (if has flags RREQ_REPAIR then 2 ^ 6 else 0)
                 + (if has flags RREQ_GRATUITOUS then 2 ^ 5 else 0)
                 + (if has flags RREQ_DEST_ONLY then 2 ^ 4 else 0)).

Definition rreq_send (dest_addr dest_seqno ttl flags : Z) : M () :=
  o ← gets opts;
  let flags := if rreq_gratuitous o then Z.lor flags RREQ_GRATUITOUS else flags in
  l ← gets enabled_devs;
  foreach l () (λ i _,
    dev ← gets (λ s, DEV_NR s i);
    rreq_create flags dest_addr dest_seqno (dev_ipaddr dev) ;;
    aodv_socket_send AODV_BROADCAST RREQ_SIZE ttl i).

(** [rreq_forward] of the message in the receive buffer. *)
Definition rreq_forward (size ttl : Z) : M () :=
  aodv_socket_queue_msg size ;;
  h ← send_load8 3;
  send_store8 3 (h + 1) ;;
  send_on_all AODV_BROADCAST size ttl.

(** ** RREQ records and the blacklist *)

Definition rec_matches (orig_addr rreq_id : Z) (r : rreq_record) : bool :=
  (rec_orig_addr r =? orig_addr) && (rec_rreq_id r =? rreq_id).

Definition rreq_record_find (orig_addr rreq_id : Z) : M (option rreq_record) :=
  gets (λ s, search (rec_matches orig_addr rreq_id) (rreq_records s)).

Definition rreq_record_insert (orig_addr rreq_id : Z) : M () :=
  rec ← rreq_record_find orig_addr rreq_id;
  match rec with
  | Some _ => ret ()
  | None =>
      on_tq (timer_init (RecTimer orig_addr rreq_id) rreq_record_timeout) ;;
      modify (λ s, set_rreq_records (mk_rreq_record orig_addr rreq_id :: rreq_records s) s) ;;
      set_timeout (RecTimer orig_addr rreq_id) PATH_DISCOVERY_TIME
  end.

(** The handler of a record's timer: detach and free. *)
Definition rreq_record_timeout_h (orig_addr rreq_id : Z) : M () :=
  modify (λ s, set_rreq_records
    (remove_first (rec_matches orig_addr rreq_id) (rreq_records s)) s) ;;
  on_tq (timer_free (RecTimer orig_addr rreq_id)).

Definition rreq_blacklist_find (dest_addr : Z) : M (option Z) :=
  gets (λ s, search (λ d, d =? dest_addr) (rreq_blacklist s)).

Definition rreq_blacklist_insert (dest_addr : Z) : M () :=
  bl ← rreq_blacklist_find dest_addr;
  match bl with
  | Some _ => ret ()
  | None =>
      on_tq (timer_init (BlTimer dest_addr) rreq_blacklist_timeout) ;;
      modify (λ s, set_rreq_blacklist (dest_addr :: rreq_blacklist s) s) ;;
      o ← gets opts;
      set_timeout (BlTimer dest_addr) (BLACKLIST_TIMEOUT (ttl_start o))
  end.

Definition rreq_blacklist_timeout_h (dest_addr : Z) : M () :=
  modify (λ s, set_rreq_blacklist
    (remove_first (λ d, d =? dest_addr) (rreq_blacklist s)) s) ;;
  on_tq (timer_free (BlTimer dest_addr)).

(** ** Processing a received RREQ *)

(** Whether the reverse route is replaced by the one the RREQ offers. *)
Definition rreq_accepts (e : rt_table_t) (rreq_orig_seqno rreq_new_hcnt : Z) : bool :=
  (rt_dest_seqno e =? 0)
  || (int32 (rt_dest_seqno e) <? int32 rreq_orig_seqno)
  || ((rreq_orig_seqno =? rt_dest_seqno e)
      && ((rt_state e =? INVALID) || (rreq_new_hcnt <? rt_hcnt e))).

(** Creation or update of the reverse route; the result is [rev_rt]. *)
Definition rreq_reverse_route (rreq_orig ip_src rreq_new_hcnt rreq_orig_seqno ifindex : Z)
  : M (option Z) :=
  rev_rt ← rt_table_find rreq_orig;
  let life := u32 (PATH_DISCOVERY_TIME - 2 * rreq_new_hcnt * NODE_TRAVERSAL_TIME) in
  match rev_rt with
  | None =>
      rt_table_insert rreq_orig ip_src rreq_new_hcnt rreq_orig_seqno life VALID 0 ifindex
  | Some rev =>
      e ← rt_deref rev;
      when (rreq_accepts e rreq_orig_seqno rreq_new_hcnt)
        (rt_table_update rev ip_src rreq_new_hcnt rreq_orig_seqno life VALID (rt_flags e)) ;;
      ret (Some rev)
  end.

(** The sequence number a destination answers with. *)
Definition dest_seqno_update (own rreq_dest_seqno : Z) : Z :=
  if negb (rreq_dest_seqno =? 0) then
    if int32 own <? int32 rreq_dest_seqno then rreq_dest_seqno
    else if own =? rreq_dest_seqno then seqno_incr own
    else own
  else own.

(** We are the destination of the RREQ. *)
Definition rreq_reply_as_dest (rev rreq_dest_seqno : Z) : M () :=
  modify (λ s, set_this_host
    (set_seqno (dest_seqno_update (seqno (this_host s)) rreq_dest_seqno) (this_host s)) s) ;;
  h ← gets this_host;
  o ← gets opts;
  r ← rt_deref rev;
  my ← gets (λ s, dev_ipaddr (DEV_IFINDEX s (rt_ifindex r)));
  rrep_create 0 0 0 my (seqno h) (rt_dest_addr r) (2 * active_route_timeout o) ;;
  rrep_send (Some rev) None RREP_SIZE.

(** The label [forward]. *)
Definition rreq_do_forward (fwd_rt : option Z) (rreqlen ip_ttl rreq_dest_seqno : Z) : M () :=
  when (1 <? ip_ttl)
    (match fwd_rt with
     | None => ret ()
     | Some fwd =>
         f ← rt_deref fwd;
         when (negb (has (rt_flags f) RT_INET_DEST)
               && (int32 rreq_dest_seqno <? int32 (rt_dest_seqno f)))
           (recv_store (λ b, store32 b 12 (htonl (rt_dest_seqno f))))
     end ;;
     rreq_forward rreqlen (ip_ttl - 1)).

(** The reply of an intermediate node with a fresh enough route, and the
    gratuitous RREP. *)
Definition rreq_reply_as_intermediate (rev fwd : Z) (g : bool) (now : timeval) : M () :=
  timeout ← timer_timeout_of (RtTimer fwd);
  let lifetime := u32 (timeval_diff timeout now) in
  f ← rt_deref fwd;
  r ← rt_deref rev;
  rrep_create 0 0 (rt_hcnt f) (rt_dest_addr f) (rt_dest_seqno f) (rt_dest_addr r) lifetime ;;
  rrep_send (Some rev) (Some fwd) RREP_SIZE ;;
  when g
    (f ← rt_deref fwd;
     r ← rt_deref rev;
     rrep_create 0 0 (rt_hcnt r) (rt_dest_addr r) (rt_dest_seqno r) (rt_dest_addr f) lifetime ;;
     rrep_send (Some fwd) (Some rev) RREP_SIZE).

(** We are an intermediate node. *)
Definition rreq_intermediate (rev : Z) (rreq_dest rreqlen ip_ttl rreq_dest_seqno b1 : Z)
  : M () :=
  fwd_rt ← rt_table_find rreq_dest;
  match fwd_rt with
  | None => rreq_do_forward None rreqlen ip_ttl rreq_dest_seqno
  | Some fwd =>
      f ← rt_deref fwd;
      if (rt_state f =? VALID) && negb (Z.testbit b1 4) then
        now ← gettimeofday;
        if negb (rt_dest_seqno f =? 0)
           && (int32 rreq_dest_seqno <=? int32 (rt_dest_seqno f)) then
          rreq_reply_as_intermediate rev fwd (Z.testbit b1 5) now
        else rreq_do_forward fwd_rt rreqlen ip_ttl rreq_dest_seqno
      else rreq_do_forward fwd_rt rreqlen ip_ttl rreq_dest_seqno
  end.

Definition rreq_process (rreqlen ip_src ip_ttl ifindex : Z) : M () :=
  rreq_dest ← recv_load32 8;
  rreq_orig ← recv_load32 16;
  raw_id ← recv_load32 4;
  raw_dseq ← recv_load32 12;
  raw_oseq ← recv_load32 20;
  hcnt ← recv_load8 3;
  let rreq_id := ntohl raw_id in
  let rreq_dest_seqno := ntohl raw_dseq in
  let rreq_orig_seqno := ntohl raw_oseq in
  let rreq_new_hcnt := hcnt + 1 in
  my ← gets (λ s, dev_ipaddr (DEV_IFINDEX s ifindex));
  if rreq_orig =? my then ret () else
  if rreqlen <? RREQ_SIZE then ret () else
  bl ← rreq_blacklist_find ip_src;
  if bool_decide (is_Some bl) then ret () else
  rec ← rreq_record_find rreq_orig rreq_id;
  if bool_decide (is_Some rec) then ret () else
  rreq_record_insert rreq_orig rreq_id ;;
  ext_loop ext_fuel RREQ_SIZE rreqlen 0 RREQ_SIZE ;;
  rev_rt ← rreq_reverse_route rreq_orig ip_src rreq_new_hcnt rreq_orig_seqno ifindex;
  match rev_rt with
  | None => undefined NullDeref
  | Some rev =>
      if rreq_dest =? my then rreq_reply_as_dest rev rreq_dest_seqno
      else
        b1 ← recv_load8 1;
        rreq_intermediate rev rreq_dest rreqlen ip_ttl rreq_dest_seqno b1
  end.

(** ** Route discovery and local repair *)

(** A route that waits for a RREP is kept for [2 * NET_TRAVERSAL_TIME]. *)
Definition keep_while_seeking (rt : Z) (now : timeval) : M () :=
  timeout ← timer_timeout_of (RtTimer rt);
  when (timeval_diff timeout now <? 2 * NET_TRAVERSAL_TIME)
    (rt_table_update_timeout rt (2 * NET_TRAVERSAL_TIME)).

Definition rreq_route_discovery (dest_addr flags : Z) : M () :=
  now ← gettimeofday;
  o ← gets opts;
  seeking ← seek_list_find dest_addr;
  if bool_decide (is_Some seeking) then ret () else
  rt ← rt_table_find dest_addr;
  '(dest_seqno, ttl) ←
    match rt with
    | None =>
        ret (0, if expanding_ring_search o then ttl_start o else NET_DIAMETER)
    | Some k =>
        e ← rt_deref k;
        keep_while_seeking k now ;;
        ret (rt_dest_seqno e,
             if expanding_ring_search o then rt_hcnt e + TTL_INCREMENT else NET_DIAMETER)
    end;
  rreq_send dest_addr dest_seqno ttl flags ;;
  seek_entry ← seek_list_insert dest_addr dest_seqno ttl flags;
  set_timeout (SeekTimer seek_entry)
    (if expanding_ring_search o then RING_TRAVERSAL_TIME ttl else NET_TRAVERSAL_TIME).

(** [(int) (max(rt->hcnt, 0.5 * src_entry->hcnt) + LOCAL_ADD_TTL)] *)
Definition repair_ttl (rt_hc : Z) (src_hc : option Z) : Z :=
  match src_hc with
  | Some h => Z.max rt_hc (h / 2) + LOCAL_ADD_TTL
  | None => rt_hc + LOCAL_ADD_TTL
  end.

Definition rreq_local_repair (rt : Z) (src_addr : Z) : M () :=
  e ← rt_deref rt;
  seeking ← seek_list_find (rt_dest_addr e);
  if bool_decide (is_Some seeking) then ret () else
  if negb (has (rt_flags e) RT_REPAIR) then ret () else
  now ← gettimeofday;
  o ← gets opts;
  src_entry ← rt_table_find src_addr;
  src_hc ← match src_entry with
           | Some k => h ← rt_get k rt_hcnt; ret (Some h)
           | None => ret None
           end;
  let ttl := repair_ttl (rt_hcnt e) src_hc in
  set_handler (RtTimer rt) route_expire_timeout ;;
  keep_while_seeking rt now ;;
  e ← rt_deref rt;
  rreq_send (rt_dest_addr e) (rt_dest_seqno e) ttl 0 ;;
  seek_entry ← seek_list_insert (rt_dest_addr e) (rt_dest_seqno e) ttl 0;
  set_timeout (SeekTimer seek_entry)
    (if expanding_ring_search o then 2 * ttl * NODE_TRAVERSAL_TIME else NET_TRAVERSAL_TIME).

(** ** Safety *)

Lemma dest_seqno_update_range own n :
  0 <= own < 4294967296 → 0 <= n < 4294967296 →
  0 <= dest_seqno_update own n < 4294967296.
Proof.
  intros Ho Hn. unfold dest_seqno_update. pose proof (seqno_incr_range own Ho).
  repeat case_match; lia.
Qed.

Lemma seqno_incr_nonzero n : n ≠ 0 → 0 <= n < 4294967296 → seqno_incr n ≠ 0.
Proof. unfold seqno_incr. intros. repeat case_match; lia. Qed.

Lemma dest_seqno_update_nonzero own n :
  own ≠ 0 → 0 <= own < 4294967296 → dest_seqno_update own n ≠ 0.
Proof.
  intros Ho Hr. pose proof (seqno_incr_nonzero own Ho Hr). unfold dest_seqno_update.
  destruct (n =? 0) eqn:E; simpl; [done|]. apply Z.eqb_neq in E. repeat case_match; done.
Qed.

(** A change of the node's own sequence number. *)
Lemma safe_own_seqno md ks f :
  (∀ n, 0 <= n < 4294967296 → 0 <= f n < 4294967296 ∧ (n ≠ 0 → f n ≠ 0)) →
  safe md ks (modify (λ s, set_this_host (set_seqno (f (seqno (this_host s))) (this_host s)) s))
    nop.
Proof.
  intros Hf. apply safe_modify. intros s Hi.
  destruct (Hf _ (inv_seqno _ Hi)). split; [by destruct Hi|by split].
Qed.

Lemma safe_incr_own_seqno md ks :
  safe md ks (modify (λ s, set_this_host
    (set_seqno (seqno_incr (seqno (this_host s))) (this_host s)) s)) nop.
Proof.
  apply safe_own_seqno. intros n Hn. split; [by apply seqno_incr_range|].
  intros. by apply seqno_incr_nonzero.
Qed.

Lemma safe_update_own_seqno md ks n :
  0 <= n < 4294967296 →
  safe md ks (modify (λ s, set_this_host
    (set_seqno (dest_seqno_update (seqno (this_host s)) n) (this_host s)) s)) nop.
Proof.
  intros Hn. apply (safe_own_seqno _ _ (λ own, dest_seqno_update own n)). intros own Ho.
  split; [by apply dest_seqno_update_range|]. intros. by apply dest_seqno_update_nonzero.
Qed.
#[export] Hint Resolve safe_incr_own_seqno safe_update_own_seqno : aodv.

Lemma safe_rreq_create md ks f d n o : safe md ks (rreq_create f d n o) nop.
Proof. unfold rreq_create. safe_go. Qed.
#[export] Hint Resolve safe_rreq_create : aodv.

Lemma safe_rreq_send md ks d n t f : safe md ks (rreq_send d n t f) nop.
Proof. unfold rreq_send. safe_go. Qed.

Lemma safe_rreq_forward md ks size ttl : safe md ks (rreq_forward size ttl) nop.
Proof. unfold rreq_forward. safe_go. Qed.
#[export] Hint Resolve safe_rreq_send safe_rreq_forward : aodv.

(** A new record or blacklist entry and its timer. *)
Lemma rec_matches_eq o i r : rec_matches o i r = true ↔ r = mk_rreq_record o i.
Proof.
  unfold rec_matches. rewrite andb_true_iff, !Z.eqb_eq. destruct r; simpl.
  split; [by intros [-> ->]|by intros [= -> ->]].
Qed.

Lemma record_search_None o i l :
  search (rec_matches o i) l = None ↔ mk_rreq_record o i ∉ l.
Proof.
  split.
  - intros Hn Hin. pose proof (search_None _ _ Hn _ Hin) as Hf.
    by rewrite (proj2 (rec_matches_eq _ _ _) eq_refl) in Hf.
  - intros Hn. destruct (search _ l) as [r|] eqn:E; [|done].
    apply search_Some in E as [Hin ->%rec_matches_eq]. done.
Qed.

(** A new record or blacklist entry and its timer. *)
Lemma add_record s o i :
  inv s → mk_rreq_record o i ∉ rreq_records s →
  ∃ q, timer_init (RecTimer o i) rreq_record_timeout (tq s) = Ok () q ∧
    let s1 := set_rreq_records (mk_rreq_record o i :: rreq_records s) (set_tq q s) in
    inv s1 ∧ ext Quiet s s1.
Proof.
  intros Hi E.
  destruct (timers_ok_fresh _ _ (RecTimer o i) rreq_record_timeout (inv_timers _ Hi))
    as (q & Hq & Hok & [He Hx Hlg] & _); [done|done|].
  exists q. split; [done|]. intros s1. split; [|by split].
  destruct Hi. split; simpl; try done; [|by apply NoDup_cons].
  eapply timers_ok_iff; [|exact Hok]. intros id. unfold s1.
  destruct id; simpl; try intuition congruence. rewrite elem_of_cons.
  split; intros [|]; simplify_eq; auto.
Qed.

Lemma add_blacklisted s d :
  inv s → d ∉ rreq_blacklist s →
  ∃ q, timer_init (BlTimer d) rreq_blacklist_timeout (tq s) = Ok () q ∧
    let s1 := set_rreq_blacklist (d :: rreq_blacklist s) (set_tq q s) in
    inv s1 ∧ ext Quiet s s1.
Proof.
  intros Hi Hn.
  destruct (timers_ok_fresh _ _ (BlTimer d) rreq_blacklist_timeout (inv_timers _ Hi))
    as (q & Hq & Hok & [He Hx Hlg] & _); [done|done|].
  exists q. split; [done|]. intros s1. split; [|by split].
  destruct Hi. split; simpl; try done; [|by apply NoDup_cons].
  eapply timers_ok_iff; [|exact Hok]. intros id. unfold s1.
  destruct id; simpl; try intuition congruence. rewrite elem_of_cons.
  split; intros [|]; simplify_eq; auto.
Qed.

Lemma blacklist_search_None d l : search (λ x, x =? d) l = None → d ∉ l.
Proof. intros E Hin. pose proof (search_None _ _ E _ Hin) as Hf. by apply Z.eqb_neq in Hf. Qed.

Lemma safe_rreq_record_insert md ks o i : safe md ks (rreq_record_insert o i) nop.
Proof.
  intros s Hi Hl. unfold rreq_record_insert, rreq_record_find. apply wp_bind, wp_gets.
  destruct (search _ _) eqn:E; [split_and!; [done|done|constructor]|].
  apply record_search_None in E. destruct (add_record s o i Hi E) as (q & Hq & Hi1 & X1).
  eapply wp_run; [apply on_tq_ok; exact Hq|]. apply wp_bind, wp_modify.
  eapply wp_mono; [apply (wp_set_timeout md); [exact Hi1|left|done]|].
  intros _ s' (? & ? & _). split_and!; [done| |constructor].
  etransitivity; [apply ext_quiet, X1|done].
Qed.

Lemma safe_rreq_blacklist_insert md ks d : safe md ks (rreq_blacklist_insert d) nop.
Proof.
  intros s Hi Hl. unfold rreq_blacklist_insert, rreq_blacklist_find. apply wp_bind, wp_gets.
  destruct (search _ _) eqn:E; [split_and!; [done|done|constructor]|].
  apply blacklist_search_None in E. destruct (add_blacklisted s d Hi E) as (q & Hq & Hi1 & X1).
  eapply wp_run; [apply on_tq_ok; exact Hq|]. apply wp_bind, wp_modify. apply wp_bind, wp_gets.
  eapply wp_mono; [apply (wp_set_timeout md); [exact Hi1|left|done]|].
  intros _ s' (? & ? & _). split_and!; [done| |constructor].
  etransitivity; [apply ext_quiet, X1|done].
Qed.
#[export] Hint Resolve safe_rreq_record_insert safe_rreq_blacklist_insert : aodv.

Lemma elem_of_remove_record o i l r :
  NoDup l → r ∈ remove_first (rec_matches o i) l ↔ r ≠ mk_rreq_record o i ∧ r ∈ l.
Proof.
  induction l as [|x l IH]; intros Hnd; cbn [remove_first].
  - split; [by intros ?%not_elem_of_nil|by intros [_ ?%not_elem_of_nil]].
  - apply NoDup_cons in Hnd as [Hx Hnd]. destruct (rec_matches o i x) eqn:E.
    + apply rec_matches_eq in E as ->. rewrite elem_of_cons.
      split; [|tauto]. intros Hr. split; [by intros ->|auto].
    + rewrite !elem_of_cons, IH by done.
      assert (x ≠ mk_rreq_record o i) by (rewrite <- rec_matches_eq; congruence).
      intuition congruence.
Qed.

Lemma elem_of_remove_addr d (l : list Z) a :
  NoDup l → a ∈ remove_first (λ b, b =? d) l ↔ a ≠ d ∧ a ∈ l.
Proof.
  induction l as [|x l IH]; intros Hnd; cbn [remove_first].
  - split; [by intros ?%not_elem_of_nil|by intros [_ ?%not_elem_of_nil]].
  - apply NoDup_cons in Hnd as [Hx Hnd]. destruct (x =? d) eqn:E.
    + apply Z.eqb_eq in E as ->. rewrite elem_of_cons.
      split; [|tauto]. intros Hr. split; [by intros ->|auto].
    + rewrite !elem_of_cons, IH by done. apply Z.eqb_neq in E. intuition congruence.
Qed.

Lemma NoDup_remove_first {A} p (l : list A) : NoDup l → NoDup (remove_first p l).
Proof.
  intros Hnd. rewrite <- (map_id (remove_first p l)). apply NoDup_map_remove_first.
  by rewrite map_id.
Qed.

(** The handlers of expired records and blacklist entries: their timer is no
    longer linked when it is freed. *)
Lemma rreq_record_timeout_run s o i :
  inv s → ¬ linked s (RecTimer o i) →
  ∃ s', rreq_record_timeout_h o i s = Ok () s' ∧ inv s' ∧ ext Full s s' ∧ grows 0 s s'.
Proof.
  intros Hi Hl.
  destruct (timers_ok_free _ _ (RecTimer o i) (inv_timers _ Hi) Hl) as (q & Hq & Hok & HT & HX).
  unfold rreq_record_timeout_h. erewrite bind_ok by done. erewrite on_tq_ok by exact Hq.
  eexists. split; [reflexivity|]. split_and!; [| |by apply grows_same].
  - pose proof (inv_records _ Hi) as Hnd.
    destruct Hi. split; simpl; try done; [|by apply NoDup_remove_first].
    eapply timers_ok_iff; [|exact Hok]. intros id.
    destruct id; simpl; try intuition congruence.
    rewrite elem_of_remove_record by done. intuition congruence.
  - split; simpl; try done; unfold linked; simpl; by rewrite ?HT, ?HX.
Qed.

Lemma rreq_blacklist_timeout_run s d :
  inv s → ¬ linked s (BlTimer d) →
  ∃ s', rreq_blacklist_timeout_h d s = Ok () s' ∧ inv s' ∧ ext Full s s' ∧ grows 0 s s'.
Proof.
  intros Hi Hl.
  destruct (timers_ok_free _ _ (BlTimer d) (inv_timers _ Hi) Hl) as (q & Hq & Hok & HT & HX).
  unfold rreq_blacklist_timeout_h. erewrite bind_ok by done. erewrite on_tq_ok by exact Hq.
  eexists. split; [reflexivity|]. split_and!; [| |by apply grows_same].
  - pose proof (inv_blacklist _ Hi) as Hnd.
    destruct Hi. split; simpl; try done; [|by apply NoDup_remove_first].
    eapply timers_ok_iff; [|exact Hok]. intros id.
    destruct id; simpl; try intuition congruence.
    rewrite elem_of_remove_addr by done. intuition congruence.
  - split; simpl; try done; unfold linked; simpl; by rewrite ?HT, ?HX.
Qed.

(** *** Processing and discovery *)

(** The reverse route exists after [rreq_reverse_route]. *)
Lemma rreq_reverse_route_spec s o src h sq ifi :
  inv s → 0 <= sq < 4294967296 →
  wp buf_ub (rreq_reverse_route o src h sq ifi)
    (λ r s', r = Some o ∧ inv s' ∧ ext Full s s' ∧ rt_live (rt_tbl s') o) s.
Proof.
  intros Hi Hsq. unfold rreq_reverse_route, rt_table_find. apply wp_bind, wp_gets.
  rewrite find_entry_lookup by apply Hi.
  destruct (rt_lookup (rt_tbl s) o) as [e|] eqn:E; simpl.
  - rewrite (rt_lookup_dest _ _ _ E).
    assert (Ho : rt_live (rt_tbl s) o) by by exists e.
    eapply wp_run; [unfold rt_deref; by rewrite E|].
    assert (He : ext Full s s) by done.
    wp_call [o] s1 Hi1 He1; [safe_go|]. apply wp_ret.
    split_and!; [done|done|done|by apply Forall_singleton].
  - apply rt_table_insert_new; [done| |done|by right]. unfold rt_live. rewrite E.
    by intros [].
Qed.

Section safe_rreq.
Context (md : mode).

Lemma safe_rreq_reply_as_dest ks r n :
  r ∈ ks → 0 <= n < 4294967296 → safe md ks (rreq_reply_as_dest r n) nop.
Proof.
  intros Hr Hn. unfold rreq_reply_as_dest. safe_go. by apply safe_rrep_send.
Qed.

Lemma safe_rreq_do_forward ks f len ttl n :
  (∀ k, f = Some k → k ∈ ks) → safe md ks (rreq_do_forward f len ttl n) nop.
Proof.
  intros Hf. unfold rreq_do_forward.
  destruct f as [f|]; [assert (f ∈ ks) by auto|]; safe_go.
Qed.

Lemma safe_rreq_reply_as_intermediate ks r f g now :
  r ∈ ks → f ∈ ks → safe md ks (rreq_reply_as_intermediate r f g now) nop.
Proof.
  intros Hr Hf. unfold rreq_reply_as_intermediate, timer_timeout_of. safe_go.
  all: apply safe_rrep_send; [done|]; by intros k [= <-].
Qed.
End safe_rreq.
#[export] Hint Resolve safe_rreq_reply_as_dest safe_rreq_reply_as_intermediate : aodv.

Lemma safe_rreq_intermediate md ks r d len ttl n b :
  r ∈ ks → safe md ks (rreq_intermediate r d len ttl n b) nop.
Proof.
  intros Hr. unfold rreq_intermediate. eapply safe_bind; [apply safe_rt_find|].
  intros [f|]; cbn [option_list app]; [|by apply safe_rreq_do_forward].
  safe_go; apply safe_rreq_do_forward; intros k [= <-]; elem.
Qed.
#[export] Hint Resolve safe_rreq_intermediate : aodv.

Lemma safe_rreq_process ks len src ttl ifi : safe Full ks (rreq_process len src ttl ifi) nop.
Proof.
  unfold rreq_process, rreq_blacklist_find, rreq_record_find. do 7 safe_step. do 2 (safe_step; [safe_go|]).
  safe_step. safe_step; [safe_go|]. safe_step. safe_step; [safe_go|]. safe_step.
  eapply safe_bind; [by apply safe_ext_loop|]. intros ?. cbn [app].
  intros s Hi Hl. apply wp_bind.
  eapply wp_mono; [apply rreq_reverse_route_spec; [done|apply ntohl_range]|].
  intros r s1 (-> & Hi1 & He1 & Ho1).
  apply (wp_safe_end _ [a0]); [safe_go|done|done|live].
Qed.
#[export] Hint Resolve safe_rreq_process : aodv.

Lemma safe_keep_while_seeking md ks k now : k ∈ ks → safe md ks (keep_while_seeking k now) nop.
Proof. intros Hk. unfold keep_while_seeking, timer_timeout_of. safe_go. Qed.
#[export] Hint Resolve safe_keep_while_seeking : aodv.

(** Starting a route discovery: [safe] for a destination [d] that is not being
    sought.  Operations that do not touch the seek list may come first. *)
Definition safe_unsought (d : Z) (ks : list Z) (m : M ()) : Prop :=
  ∀ s, inv s → live_all s ks → d ∉ sk_dest_addr <$> seekhead s →
    wp buf_ub m (λ _ s', inv s' ∧ ext Full s s' ∧ live_all s' []) s.

Lemma safe_unsought_bind {A} d ks (m : M A) (f : A → M ()) res :
  safe Quiet ks m res → (∀ a, safe_unsought d (res a ++ ks) (f a)) →
  safe_unsought d ks (bind m f).
Proof.
  intros Hm Hf s Hi Hl Hd. apply wp_bind. eapply wp_mono; [by apply Hm|].
  intros a s1 (Hi1 & He1 & Hl1). eapply wp_mono.
  { apply Hf; [done|apply Forall_app; split; [done|by eapply live_all_ext]|].
    by rewrite (ext_seek _ _ _ He1). }
  intros [] s2 (? & ? & ?). split_and!; [done| |done].
  etransitivity; [by apply ext_quiet|done].
Qed.

Lemma safe_unsought_deref ks d k (f : rt_table_t → M ()) :
  k ∈ ks → (∀ e, rt_dest_addr e = k → safe_unsought d ks (f e)) →
  safe_unsought d ks (bind (rt_deref k) f).
Proof.
  intros Hk Hf s Hi Hl Hd. destruct (proj1 (Forall_forall _ _) Hl k Hk) as [e He].
  eapply wp_run; [unfold rt_deref; by rewrite He|].
  apply Hf; [by apply rt_lookup_dest in He|done..].
Qed.

Lemma safe_seek_find ks d (f : option Z → M ()) :
  (∀ x, safe Full ks (f (Some x)) nop) → safe_unsought d ks (f None) →
  safe Full ks (bind (seek_list_find d) f) nop.
Proof.
  intros Hs Hn s Hi Hl. unfold seek_list_find. apply wp_bind, wp_gets.
  destruct (seek_lookup (seekhead s) d) as [x|] eqn:E; simpl; [by apply Hs|].
  apply Hn; [done|done|by apply seek_lookup_None].
Qed.

(** The request is sent, then the destination is entered in the seek list. *)
Lemma safe_start_seeking d ks sq ttl fl ms :
  safe_unsought d ks (rreq_send d sq ttl fl ;;
    x ← seek_list_insert d sq ttl fl; set_timeout (SeekTimer x) ms).
Proof.
  eapply safe_unsought_bind; [apply safe_rreq_send|]. intros _ s Hi Hl Hd. apply wp_bind.
  eapply wp_mono; [by apply seek_list_insert_spec|]. intros r s1 (-> & Hi1 & He1 & Hs1).
  eapply wp_mono; [apply (wp_set_timeout Full); [done|simpl; rewrite Hs1; left|done]|].
  intros _ s2 (Hi2 & He2 & _). split_and!; [done|by etransitivity|constructor].
Qed.

Lemma safe_rreq_route_discovery ks d f : safe Full ks (rreq_route_discovery d f) nop.
Proof.
  unfold rreq_route_discovery. safe_step. safe_step.
  apply safe_seek_find; [intros x; simpl; safe_go|]. simpl.
  eapply safe_unsought_bind; [apply safe_rt_find|]. intros rt.
  eapply (safe_unsought_bind _ _ _ _ nop).
  - destruct rt as [k|]; cbn [option_list app]; safe_go.
  - intros [sq ttl]. apply safe_start_seeking.
Qed.

Lemma safe_rreq_local_repair ks k src : k ∈ ks → safe Full ks (rreq_local_repair k src) nop.
Proof.
  intros Hk. unfold rreq_local_repair. apply safe_deref; [done|]. intros e _ He.
  apply safe_seek_find; [intros x; simpl; safe_go|]. simpl.
  destruct (negb _); [intros s Hi Hl _; split_and!; [done|done|constructor]|].
  eapply safe_unsought_bind; [safe_leaf|]. intros now.
  eapply safe_unsought_bind; [safe_leaf|]. intros o.
  eapply safe_unsought_bind; [apply safe_rt_find|]. intros src_rt.
  eapply (safe_unsought_bind _ _ _ _ nop); [destruct src_rt; cbn [option_list app]; safe_go|].
  intros hc. eapply safe_unsought_bind; [safe_leaf|]. intros ?.
  eapply safe_unsought_bind; [safe_leaf|]. intros ?.
  apply safe_unsought_deref; [elem|]. intros e' He'. rewrite He, He'.
  apply safe_start_seeking.
Qed.
#[export] Hint Resolve safe_rreq_route_discovery safe_rreq_local_repair : aodv.

(** ** Return *)

Lemma total_rreq_create b ks f d n o : total b ks (rreq_create f d n o).
Proof. unfold rreq_create. total_go. Qed.
#[export] Hint Resolve total_rreq_create : aodv.
Lemma total_rreq_send b ks d n t f : total b ks (rreq_send d n t f).
Proof. unfold rreq_send. total_go. Qed.
Lemma total_rreq_forward b ks size ttl :
  0 <= size <= SEND_BUF_SIZE → total b ks (rreq_forward size ttl).
Proof. intros Hs. unfold rreq_forward. total_go. Qed.
Lemma total_keep_while_seeking b ks k now : k ∈ ks → total b ks (keep_while_seeking k now).
Proof. intros Hk. unfold keep_while_seeking, timer_timeout_of. total_go. Qed.
#[export] Hint Resolve total_rreq_send total_rreq_forward total_keep_while_seeking : aodv.

Lemma total_rreq_record_insert b ks o i : total b ks (rreq_record_insert o i).
Proof.
  intros s Hi _ _. unfold rreq_record_insert, rreq_record_find. erewrite bind_ok by done.
  destruct (search _ _) eqn:E; [exists (), s; split; [done|apply grows_refl]|].
  apply record_search_None in E. destruct (add_record s o i Hi E) as (q & Hq & Hi1 & X1).
  erewrite bind_ok by (apply on_tq_ok; exact Hq). erewrite bind_ok by done.
  destruct (set_timeout_run _ (RecTimer o i) PATH_DISCOVERY_TIME Hi1)
    as (q' & n & R); [left|done|].
  do 2 eexists. split; [exact R|]. by apply grows_same.
Qed.

Lemma total_rreq_blacklist_insert b ks d : total b ks (rreq_blacklist_insert d).
Proof.
  intros s Hi _ _. unfold rreq_blacklist_insert, rreq_blacklist_find. erewrite bind_ok by done.
  destruct (search _ _) eqn:E; [exists (), s; split; [done|apply grows_refl]|].
  apply blacklist_search_None in E. destruct (add_blacklisted s d Hi E) as (q & Hq & Hi1 & X1).
  erewrite bind_ok by (apply on_tq_ok; exact Hq). do 2 erewrite bind_ok by done.
  destruct (set_timeout_run _ (BlTimer d) (BLACKLIST_TIMEOUT (ttl_start (opts s))) Hi1)
    as (q' & n & R); [left|done|].
  do 2 eexists. split; [exact R|]. by apply grows_same.
Qed.
#[export] Hint Resolve total_rreq_record_insert total_rreq_blacklist_insert : aodv.

(** The reverse route takes one entry at most. *)
Lemma rreq_reverse_route_run s o src h sq ifi :
  inv s → 0 <= sq < 4294967296 → has_room 1 s →
  ∃ s', rreq_reverse_route o src h sq ifi s = Ok (Some o) s' ∧ inv s' ∧ ext Full s s' ∧
    rt_live (rt_tbl s') o ∧ grows 1 s s'.
Proof.
  intros Hi Hsq Hr.
  assert (Hrun : ∃ r s', rreq_reverse_route o src h sq ifi s = Ok r s' ∧ grows 1 s s').
  { unfold rreq_reverse_route, rt_table_find. erewrite bind_ok by done.
    rewrite find_entry_lookup by apply Hi.
    destruct (rt_lookup (rt_tbl s) o) as [e|] eqn:E; simpl.
    - rewrite (rt_lookup_dest _ _ _ E). lazymatch goal with |- ∃ r s', ?m _ = _ ∧ _ =>
        assert (Ht : total (Some 0%nat) [o] m) by total_go end.
      destruct (Ht s Hi) as (r & s' & R & G);
        [apply Forall_singleton; by exists e|by eapply (has_room_le 0 1); [|lia]|].
      exists r, s'. split; [done|]. by eapply (grows_le 0 1); [|lia].
    - edestruct (rt_table_insert_run s o) as (s' & R & _ & _ & _ & G);
        [done|unfold rt_live; rewrite E; by intros []|exact Hsq|by right
        |destruct Hr as (_ & ? & _); lia|]. by do 2 eexists. }
  destruct Hrun as (r & s' & R & G).
  destruct (wp_ok _ _ _ _ _ _ (rreq_reverse_route_spec s o src h sq ifi Hi Hsq) R)
    as (-> & ? & ? & ?). by exists s'.
Qed.

Section total_rreq.
Context (ks : list Z).

Lemma total_rreq_reply_as_dest r n :
  r ∈ ks → 0 <= n < 4294967296 → total (Some 0%nat) ks (rreq_reply_as_dest r n).
Proof. intros Hr Hn. unfold rreq_reply_as_dest. total_go. by apply total_rrep_send. Qed.

Lemma total_rreq_do_forward f len ttl n :
  (∀ k, f = Some k → k ∈ ks) → 0 <= len <= SEND_BUF_SIZE →
  total (Some 0%nat) ks (rreq_do_forward f len ttl n).
Proof.
  intros Hf Hl. unfold rreq_do_forward.
  destruct f as [f|]; [assert (f ∈ ks) by auto|]; total_go.
Qed.

Lemma total_rreq_reply_as_intermediate r f g now :
  r ∈ ks → f ∈ ks → total (Some 0%nat) ks (rreq_reply_as_intermediate r f g now).
Proof.
  intros Hr Hf. unfold rreq_reply_as_intermediate, timer_timeout_of. total_go.
  all: first [apply safe_rrep_send|apply total_rrep_send]; [done|by intros k [= <-]|..]; done.
Qed.
End total_rreq.
#[export] Hint Resolve total_rreq_reply_as_dest total_rreq_reply_as_intermediate : aodv.

Lemma total_rreq_intermediate ks r d len ttl n b1 :
  r ∈ ks → 0 <= len <= SEND_BUF_SIZE →
  total (Some 0%nat) ks (rreq_intermediate r d len ttl n b1).
Proof.
  intros Hr Hl. unfold rreq_intermediate.
  eapply (total_bind Full); [apply safe_rt_find|total_go|].
  intros [f|]; cbn [option_list app]; [|by apply total_rreq_do_forward].
  total_go; apply total_rreq_do_forward; solve [intros k [= <-]; elem|done].
Qed.
#[export] Hint Resolve total_rreq_intermediate : aodv.

Lemma rreq_process_completes s len src ttl ifi :
  inv s → has_room 1 s → len <= RECV_BUF_SIZE →
  returns (ext_loop ext_fuel RREQ_SIZE len 0 RREQ_SIZE) s →
  completes 1 (rreq_process len src ttl ifi) s.
Proof.
  intros Hi Hr Hlen Hext. unfold rreq_process, rreq_blacklist_find, rreq_record_find.
  do 5 (eapply completes_run; [apply recv_load32_ok; [done|lia]|done|]).
  eapply completes_run; [apply recv_load8_ok; [done|lia]|done|].
  eapply completes_run; [done|done|].
  destruct (recv32 s 16 =? _); [apply completes_ret|].
  destruct (len <? RREQ_SIZE) eqn:El; [apply completes_ret|]. apply Z.ltb_ge in El.
  assert (Hsz : 0 <= len <= SEND_BUF_SIZE) by (unfold RREQ_SIZE in El; in_buffer).
  eapply completes_run; [done|done|]. destruct (bool_decide _); [apply completes_ret|].
  eapply completes_run; [done|done|]. destruct (bool_decide _); [apply completes_ret|].
  destruct (total_frame recv_buf Quiet None [] (rreq_record_insert (recv32 s 16) (ntohl (recv32 s 4)))
    s) as ([] & s1 & R1 & Hi1 & X1 & G1 & B1);
    [total_go|safe_go|unfold rreq_record_insert, rreq_record_find; frame_go|done|constructor|done|].
  apply (completes_then 0 1 _ _ _ _ _ R1 G1).
  assert (Hext1 : ext_loop ext_fuel RREQ_SIZE len 0 RREQ_SIZE s1 = Ok () s1).
  { apply ext_loop_returned; [done|done|]. by apply (ext_loop_recv s). }
  eapply completes_run; [exact Hext1|done|].
  destruct (rreq_reverse_route_run s1 (recv32 s 16) src (recv8 s 3 + 1) (ntohl (recv32 s 20)) ifi
    Hi1 (ntohl_range _)) as (s2 & R2 & Hi2 & X2 & Hd2 & G2); [exact (has_room_grows 0 1 _ _ Hr G1)|].
  apply (completes_then 1 0 _ _ _ _ _ R2 G2).
  apply (total_completes (Some 0%nat) [recv32 s 16]);
    [total_go|done|by apply Forall_singleton|].
  exact (has_room_grows 1 0 _ _ Hr (grows_trans 0 1 _ _ _ G1 G2)).
Qed.

(** Starting a route discovery, for a destination that is not being sought. *)
Definition total_unsought (d : Z) (ks : list Z) (m : M ()) : Prop :=
  ∀ s, inv s → live_all s ks → d ∉ sk_dest_addr <$> seekhead s →
    ∃ s', m s = Ok () s' ∧ grows 0 s s'.

Lemma total_unsought_bind {A} d ks (m : M A) (f : A → M ()) res :
  safe Quiet ks m res → total None ks m → (∀ a, total_unsought d (res a ++ ks) (f a)) →
  total_unsought d ks (bind m f).
Proof.
  intros Hs Hm Hf s Hi Hl Hd.
  destruct (total_safe Quiet None ks m res s Hm Hs Hi Hl I) as (a & s1 & R1 & Hi1 & X1 & Hl1 & G1).
  destruct (Hf a s1 Hi1 Hl1) as (s2 & R2 & G2); [by rewrite (ext_seek _ _ _ X1)|].
  exists s2. split; [by erewrite bind_ok by exact R1|]. exact (grows_trans 0 0 _ _ _ G1 G2).
Qed.

Lemma total_seek_find b ks d (f : option Z → M ()) :
  (∀ x, total b ks (f (Some x))) → total_unsought d ks (f None) →
  total b ks (bind (seek_list_find d) f).
Proof.
  intros Hs Hn s Hi Hl Hr. unfold seek_list_find. erewrite bind_ok by done.
  destruct (seek_lookup (seekhead s) d) as [x|] eqn:E; simpl; [by apply Hs|].
  destruct (Hn s Hi Hl) as (s' & R & G); [by apply seek_lookup_None|].
  exists (), s'. split; [done|]. eapply grows_le; [exact G|lia].
Qed.

Lemma total_start_seeking d ks sq ttl fl ms :
  total_unsought d ks (rreq_send d sq ttl fl ;;
    x ← seek_list_insert d sq ttl fl; set_timeout (SeekTimer x) ms).
Proof.
  eapply total_unsought_bind; [apply safe_rreq_send|total_go|]. intros _ s Hi Hl Hd.
  destruct (seek_list_insert_run s d sq ttl fl Hi Hd) as (s1 & R1 & Hi1 & X1 & Hs1 & G1).
  erewrite bind_ok by exact R1.
  destruct (set_timeout_run s1 (SeekTimer d) ms Hi1) as (q & n & R2);
    [simpl; rewrite Hs1; left|done|].
  eexists. split; [exact R2|]. exact (grows_trans 0 0 _ _ _ G1 ltac:(by apply grows_same)).
Qed.

Lemma total_rreq_route_discovery b ks d f : total b ks (rreq_route_discovery d f).
Proof.
  unfold rreq_route_discovery. total_step. total_step.
  apply total_seek_find; [intros x; simpl; total_go|]. simpl.
  eapply total_unsought_bind; [apply safe_rt_find|total_go|]. intros rt.
  eapply (total_unsought_bind _ _ _ _ nop).
  - destruct rt as [k|]; cbn [option_list app]; safe_go.
  - destruct rt as [k|]; cbn [option_list app]; total_go.
  - intros [sq ttl]. apply total_start_seeking.
Qed.

Lemma total_rreq_local_repair b ks k src : k ∈ ks → total b ks (rreq_local_repair k src).
Proof.
  intros Hk. unfold rreq_local_repair. apply total_deref; [done|]. intros e _ He.
  apply total_seek_find; [intros x; simpl; total_go|]. simpl.
  destruct (negb _); [intros s Hi Hl _; exists s; split; [done|apply grows_refl]|].
  do 2 (eapply total_unsought_bind; [safe_leaf|total_leaf|intros ?]).
  eapply total_unsought_bind; [apply safe_rt_find|total_go|]. intros src_rt.
  eapply (total_unsought_bind _ _ _ _ nop);
    [destruct src_rt; cbn [option_list app]; safe_go
    |destruct src_rt; cbn [option_list app]; total_go|].
  intros hc. do 2 (eapply total_unsought_bind; [safe_leaf|total_leaf|intros ?]).
  intros s Hi Hl Hd. destruct (proj1 (Forall_forall _ _) Hl k ltac:(elem)) as [e' He'].
  erewrite bind_ok by (unfold rt_deref; by rewrite He').
  rewrite (rt_lookup_dest _ _ _ He'). rewrite He in Hd. by eapply total_start_seeking.
Qed.
#[export] Hint Resolve total_rreq_route_discovery total_rreq_local_repair : aodv.

(** ** Properties *)

(** The RREQ in the receive buffer. *)
Definition rx_rreq_orig (s : state) : Z := recv32 s 16.
Definition rx_rreq_id (s : state) : Z := ntohl (recv32 s 4).
Definition rx_rreq_dest (s : state) : Z := recv32 s 8.

(** The RREQ in the receive buffer, arrived from [src] on [ifindex], must not be
    processed. *)
Definition rreq_ignored (s : state) (len src ifindex : Z) : Prop :=
  rx_rreq_orig s = dev_ipaddr (DEV_IFINDEX s ifindex) ∨ len < RREQ_SIZE ∨
  src ∈ rreq_blacklist s ∨ mk_rreq_record (rx_rreq_orig s) (rx_rreq_id s) ∈ rreq_records s.

(** A node ignores the RREQs it originated itself, the ones that are too short,
    the ones from blacklisted neighbours and the ones it has already seen:
    processing them changes nothing. *)
Lemma rreq_process_ignores (s : state) (len src ttl ifindex : Z) :
  inv s → rreq_ignored s len src ifindex → rreq_process len src ttl ifindex s = Ok () s.
Proof.
  intros Hi Hig. unfold rreq_process.
  do 5 erewrite bind_ok by (apply recv_load32_ok; [done|lia]).
  erewrite bind_ok by (apply recv_load8_ok; [done|lia]). erewrite bind_ok by done.
  unfold rreq_ignored, rx_rreq_orig, rx_rreq_id in Hig.
  destruct (recv32 s 16 =? _) eqn:Eo; [done|]. apply Z.eqb_neq in Eo.
  destruct (len <? RREQ_SIZE) eqn:El; [done|]. apply Z.ltb_ge in El.
  destruct Hig as [Hg|[Hg|Hg]]; [done|lia|]. erewrite bind_ok by done.
  destruct (search _ (rreq_blacklist s)) eqn:Eb; [done|]. simpl.
  erewrite bind_ok by done.
  destruct (search _ (rreq_records s)) eqn:Er; [done|]. exfalso.
  destruct Hg as [Hg|Hg].
  - pose proof (search_None _ _ Eb _ Hg) as Hf. by apply Z.eqb_neq in Hf.
  - by apply record_search_None in Er.
Qed.

(** *** The records of seen RREQs survive the processing of a message *)

Abbreviation keeps_records := (frames rreq_records).

Lemma rec_socket_send dst len ttl dev : keeps_records (aodv_socket_send dst len ttl dev).
Proof. unfold aodv_socket_send, ratelimit_check, sendto. frame_go. Qed.
Lemma rec_nl_add d n m i : keeps_records (nl_send_add_route_msg d n m i).
Proof. unfold nl_send_add_route_msg, nl_kern_route, nl_send. frame_go. Qed.
Lemma rec_nl_del d n m : keeps_records (nl_send_del_route_msg d n m).
Proof. unfold nl_send_del_route_msg, nl_kern_route, nl_send. frame_go. Qed.
Lemma rec_rt_modify k f : keeps_records (rt_modify k f).
Proof. unfold rt_modify. frame_go. Qed.
#[export] Hint Resolve rec_socket_send rec_nl_add rec_nl_del rec_rt_modify : aodv.

Lemma rec_invalidate k : keeps_records (rt_table_invalidate k).
Proof. unfold rt_table_invalidate. frame_go. Qed.
Lemma rec_update_timeout k l : keeps_records (rt_table_update_timeout k l).
Proof. unfold rt_table_update_timeout. frame_go. Qed.
Lemma rec_destroy_precursors k : keeps_records (precursor_list_destroy k).
Proof. unfold precursor_list_destroy. frame_go. Qed.
Lemma rec_precursor_add k a : keeps_records (precursor_add k a).
Proof. unfold precursor_add. frame_go. Qed.
Lemma rec_rerr_include f k acc : keeps_records (rerr_include f k acc).
Proof.
  unfold rerr_include, rerr_create, rerr_add_udest, rerr_dest_count, aodv_socket_new_msg.
  frame_go.
Qed.
Lemma rec_send_on_all dst len ttl : keeps_records (send_on_all dst len ttl).
Proof. unfold send_on_all. frame_go. Qed.
Lemma rec_drain p v : keeps_records (drain p v).
Proof.
  assert (Hl : ∀ todo kept count, keeps_records (drain_loop p v kept todo count)).
  { induction todo as [|qp todo IH]; intros kept count; cbn [drain_loop]; [apply frames_ret|].
    destruct (p qp); [|apply IH]. unfold nfqueue_set_packet_verdict.
    repeat (apply frames_bind; [frame_go|intros ?]). apply IH. }
  unfold drain. apply frames_bind; [apply frames_gets|]. intros q. apply Hl.
Qed.
#[export] Hint Resolve rec_invalidate rec_update_timeout rec_destroy_precursors
  rec_precursor_add rec_rerr_include rec_send_on_all rec_drain : aodv.

Lemma rec_link_break k : keeps_records (neighbor_link_break k).
Proof.
  unfold neighbor_link_break, link_break_self, link_break_entry, rerr_transmit, rerr_dest_count.
  frame_go.
Qed.
Lemma rec_release k : keeps_records (release_packets k).
Proof.
  unfold release_packets, seek_list_find, seek_list_remove, packet_queue_set_verdict,
    refresh_released, rt_is_valid.
  frame_go.
Qed.
Lemma rec_hello_start : keeps_records hello_start_if_optimized.
Proof.
  unfold hello_start_if_optimized, hello_start, hello_send, hello_stop, hello_jitter,
    hello_send_on, hello_neighbor_set, rrep_create, aodv_socket_new_msg. frame_go.
Qed.
#[export] Hint Resolve rec_link_break rec_release rec_hello_start : aodv.

Lemma rec_insert d n h q l st f i : keeps_records (rt_table_insert d n h q l st f i).
Proof. unfold rt_table_insert. frame_go. Qed.
Lemma rec_update k n h q l st f : keeps_records (rt_table_update k n h q l st f).
Proof. unfold rt_table_update. frame_go. Qed.
Lemma rec_rrep_send r f n : keeps_records (rrep_send r f n).
Proof. unfold rrep_send, rrep_check_unidir, rt_is_valid. frame_go. Qed.
#[export] Hint Resolve rec_insert rec_update rec_rrep_send : aodv.

Lemma rec_queue_msg n : keeps_records (aodv_socket_queue_msg n).
Proof.
  intros s a s'. unfold aodv_socket_queue_msg. destruct (_ || _); [done|]. by intros [= _ <-].
Qed.
#[export] Hint Resolve rec_queue_msg : aodv.

Lemma rec_forward f len ttl n : keeps_records (rreq_do_forward f len ttl n).
Proof. unfold rreq_do_forward, rreq_forward. frame_go. Qed.
#[export] Hint Resolve rec_forward : aodv.

Lemma rec_ext_loop fuel : ∀ size len extlen off,
  keeps_records (ext_loop fuel size len extlen off).
Proof. induction fuel; intros; cbn [ext_loop]; frame_go. Qed.

Lemma rec_reverse_route o src h q i : keeps_records (rreq_reverse_route o src h q i).
Proof. unfold rreq_reverse_route. frame_go. Qed.
Lemma rec_reply_as_dest r n : keeps_records (rreq_reply_as_dest r n).
Proof. unfold rreq_reply_as_dest, rrep_create, aodv_socket_new_msg. frame_go. Qed.
Lemma rec_intermediate r d len ttl n b : keeps_records (rreq_intermediate r d len ttl n b).
Proof.
  unfold rreq_intermediate, rreq_reply_as_intermediate, rrep_create, aodv_socket_new_msg.
  frame_go.
Qed.
#[export] Hint Resolve rec_ext_loop rec_reverse_route rec_reply_as_dest rec_intermediate : aodv.

Lemma rreq_record_insert_in o i s a s' :
  rreq_record_insert o i s = Ok a s' → mk_rreq_record o i ∈ rreq_records s'.
Proof.
  unfold rreq_record_insert, rreq_record_find. intros (r & s1 & [= <- <-] & H)%bind_inv.
  destruct (search _ _) as [r|] eqn:E.
  { injection H as _ <-. apply search_Some in E as [E ->%rec_matches_eq]. done. }
  apply bind_inv in H as (? & s2 & _ & (? & s3 & [= _ <-] & H)%bind_inv).
  assert (Hf : keeps_records (set_timeout (RecTimer o i) PATH_DISCOVERY_TIME)) by frame_go.
  rewrite (Hf _ _ _ H). left.
Qed.

(** A RREQ that is processed is on record afterwards. *)
Lemma rreq_process_records s len src ttl ifindex :
  inv s → ¬ rreq_ignored s len src ifindex →
  wp buf_ub (rreq_process len src ttl ifindex) (λ _ s',
    mk_rreq_record (rx_rreq_orig s) (rx_rreq_id s) ∈ rreq_records s') s.
Proof.
  intros Hi Hig.
  eapply wp_returns; [apply (safe_rreq_process []); [done|constructor]|].
  intros [] s'. unfold rreq_process.
  do 5 erewrite bind_ok by (apply recv_load32_ok; [done|lia]).
  erewrite bind_ok by (apply recv_load8_ok; [done|lia]). erewrite bind_ok by done.
  unfold rreq_ignored, rx_rreq_orig, rx_rreq_id in *.
  destruct (recv32 s 16 =? _) eqn:Eo.
  { apply Z.eqb_eq in Eo. destruct Hig. by left. }
  destruct (len <? RREQ_SIZE) eqn:El.
  { apply Z.ltb_lt in El. destruct Hig. right. by left. }
  erewrite bind_ok by done. destruct (search _ (rreq_blacklist s)) as [d|] eqn:Eb.
  { apply search_Some in Eb as [Eb ->%Z.eqb_eq]. destruct Hig. auto. }
  simpl. erewrite bind_ok by done. destruct (search _ (rreq_records s)) as [r|] eqn:Er.
  { apply search_Some in Er as [Er ->%rec_matches_eq]. destruct Hig. auto. }
  simpl. intros (? & s1 & Hrec & H)%bind_inv. apply rreq_record_insert_in in Hrec.
  eassert (Hk : keeps_records _); [|by rewrite (Hk _ _ _ H)]. frame_go.
Qed.


(** What a receiver reads from a RREQ are the values it was created with: the
    flags, the RREQ id and the originator's sequence number of the sender,
    the destination, its last known sequence number and the originator; and
    creating it uses up one RREQ id and one sequence number. *)
Theorem rreq_roundtrip (s : state) (flags d n o : Z) :
  ∃ s', rreq_create flags d n o s = Ok () s' ∧
    let buf := send_buf s' in
    load8 buf 0 = Some AODV_RREQ ∧ load8 buf 3 = Some 0 ∧
    ntohl <$> load32 buf 4 = Some (u32 (rreq_id (this_host s))) ∧
    load32 buf 8 = Some (u32 d) ∧ ntohl <$> load32 buf 12 = Some (u32 n) ∧
    load32 buf 16 = Some (u32 o) ∧
    ntohl <$> load32 buf 20 = Some (u32 (seqno_incr (seqno (this_host s)))) ∧
    (λ b, (Z.testbit b 7, Z.testbit b 6, Z.testbit b 5, Z.testbit b 4)) <$> load8 buf 1
      = Some (has flags RREQ_JOIN, has flags RREQ_REPAIR, has flags RREQ_GRATUITOUS,
              has flags RREQ_DEST_ONLY) ∧
    (flags = 0 → load8 buf 1 = Some 0) ∧
    rreq_id (this_host s') = u32 (rreq_id (this_host s) + 1) ∧
    seqno (this_host s') = seqno_incr (seqno (this_host s)).
Proof.
  set (b0 := replicate (Z.to_nat SEND_BUF_SIZE) 0).
  assert (L0 : length b0 = Z.to_nat SEND_BUF_SIZE) by apply length_replicate.
  set (fl := (if has flags RREQ_JOIN then 2 ^ 7 else 0)
                 + (if has flags RREQ_REPAIR then 2 ^ 6 else 0)
                 + (if has flags RREQ_GRATUITOUS then 2 ^ 5 else 0)
                 + (if has flags RREQ_DEST_ONLY then 2 ^ 4 else 0)).
  destruct (store8_fits b0 0 AODV_RREQ L0) as (b1 & S1 & L1); [done|].
  destruct (store8_fits b1 2 0 L1) as (b2 & S2 & L2); [done|].
  destruct (store8_fits b2 3 0 L2) as (b3 & S3 & L3); [done|].
  destruct (store32_fits b3 4 (htonl (rreq_id (this_host s))) L3) as (b4 & S4 & L4); [done|done|].
  destruct (store32_fits b4 8 d L4) as (b5 & S5 & L5); [done|done|].
  destruct (store32_fits b5 12 (htonl n) L5) as (b6 & S6 & L6); [done|done|].
  destruct (store32_fits b6 16 o L6) as (b7 & S7 & L7); [done|done|].
  destruct (store32_fits b7 20 (htonl (seqno_incr (seqno (this_host s)))) L7)
    as (b8 & S8 & L8); [done|done|].
  destruct (store8_fits b8 1 fl L8) as (b9 & S9 & L9); [done|].
  eexists. split.
  - unfold rreq_create, aodv_socket_new_msg, bind, modify, gets, send_store8, send_store32.
    rewrite (send_store_ok _ _ b1) by done. rewrite (send_store_ok _ _ b2) by done.
    rewrite (send_store_ok _ _ b3) by done. rewrite (send_store_ok _ _ b4) by done.
    rewrite (send_store_ok _ _ b5) by done. rewrite (send_store_ok _ _ b6) by done.
    rewrite (send_store_ok _ _ b7) by done. rewrite (send_store_ok _ _ b8) by done.
    rewrite (send_store_ok _ _ b9) by done. reflexivity.
  - simpl. load_simp. simpl. rewrite !ntohl_u32_htonl. split_and!; try done; unfold fl.
    + by destruct (has flags RREQ_JOIN), (has flags RREQ_REPAIR),
        (has flags RREQ_GRATUITOUS), (has flags RREQ_DEST_ONLY).
    + by intros ->.
Qed.

(** *** Route discovery enters the destination in the seek list *)

Lemma start_seeking_seeks d sq ttl fl ms s a s' :
  (rreq_send d sq ttl fl ;;
   x ← seek_list_insert d sq ttl fl; set_timeout (SeekTimer x) ms) s = Ok a s' →
  d ∈ sk_dest_addr <$> seekhead s'.
Proof.
  intros (? & s1 & _ & (x & s2 & Hins & Hto)%bind_inv)%bind_inv.
  assert (Hf : frames seekhead (set_timeout (SeekTimer x) ms)) by frame_go.
  rewrite (Hf _ _ _ Hto). unfold seek_list_insert in Hins.
  apply bind_inv in Hins as (? & s3 & _ & (? & s4 & [= _ <-] & [= _ <-])%bind_inv). left.
Qed.

Lemma seek_find_seeks d s o s1 :
  seek_list_find d s = Ok o s1 → is_Some o → d ∈ sk_dest_addr <$> seekhead s1.
Proof.
  intros [= <- <-] Ho. apply seek_lookup_elem. by apply fmap_is_Some in Ho.
Qed.

Lemma route_discovery_seeks d f s a s' :
  rreq_route_discovery d f s = Ok a s' → d ∈ sk_dest_addr <$> seekhead s'.
Proof.
  unfold rreq_route_discovery.
  intros (now & s1 & _ & (o & s2 & _ & (x & s3 & Hx & H)%bind_inv)%bind_inv)%bind_inv.
  case_bool_decide as Hs.
  - injection H as _ <-. by eapply seek_find_seeks.
  - apply bind_inv in H as (rt & s4 & _ & ([sq ttl] & s5 & _ & H)%bind_inv).
    by apply start_seeking_seeks in H.
Qed.

Lemma local_repair_seeks k src s e a s' :
  rt_lookup (rt_tbl s) k = Some e → has (rt_flags e) RT_REPAIR = true →
  rreq_local_repair k src s = Ok a s' → k ∈ sk_dest_addr <$> seekhead s'.
Proof.
  intros He Hr. unfold rreq_local_repair.
  erewrite bind_ok by (unfold rt_deref; by rewrite He).
  rewrite (rt_lookup_dest _ _ _ He), Hr. intros (x & s1 & Hx & H)%bind_inv.
  case_bool_decide as Hs.
  { injection H as _ <-. by eapply seek_find_seeks. }
  simpl in H. apply bind_inv in H as (now & s2 & _ & (o & s3 & _ & H)%bind_inv).
  apply bind_inv in H as (se & s4 & _ & (hc & s5 & _ & H)%bind_inv).
  apply bind_inv in H as (? & s6 & _ & (? & s7 & _ & H)%bind_inv).
  apply bind_inv in H as (e' & s8 & He' & H). unfold rt_deref in He'.
  destruct (rt_lookup (rt_tbl s7) k) as [e''|] eqn:E; [|done]. injection He' as <- <-.
  rewrite (rt_lookup_dest _ _ _ E) in H. by apply start_seeking_seeks in H.
Qed.

Lemma frames_PQ_rreq_send d n t f : frames PQ (rreq_send d n t f).
Proof.
  unfold rreq_send, rreq_create, aodv_socket_new_msg, aodv_socket_send, ratelimit_check, sendto.
  frame_go.
Qed.
Lemma frames_PQ_keep k now : frames PQ (keep_while_seeking k now).
Proof. unfold keep_while_seeking, rt_table_update_timeout. frame_go. Qed.
#[export] Hint Resolve frames_PQ_rreq_send frames_PQ_keep : aodv.

Lemma frames_PQ_discovery d f : frames PQ (rreq_route_discovery d f).
Proof. unfold rreq_route_discovery, seek_list_find, seek_list_insert. frame_go. Qed.
Lemma frames_PQ_local_repair k src : frames PQ (rreq_local_repair k src).
Proof. unfold rreq_local_repair, seek_list_find, seek_list_insert. frame_go. Qed.

(** *** The reverse route *)

(** Processing a RREQ leaves the node with a reverse route to its originator: an
    unknown originator gets a valid route through the neighbour that
    forwarded the RREQ; a known route is replaced by this one exactly when
    the RREQ is fresher (newer sequence number, or the same one with fewer hops
    or for a broken route), and kept otherwise.  With room for one more route it
    returns. *)
Theorem rreq_reverse_route_correct (s : state) (orig src hcnt sq ifindex : Z) :
  inv s → 0 <= sq < 4294967296 →
  (has_room 1 s → returns (rreq_reverse_route orig src hcnt sq ifindex) s) ∧
  wp buf_ub (rreq_reverse_route orig src hcnt sq ifindex) (λ r s',
    r = Some orig ∧
    route_of <$> rt_lookup (rt_tbl s') orig
    = match rt_lookup (rt_tbl s) orig with
      | Some e => Some (if rreq_accepts e sq hcnt then (orig, src, u8 hcnt, sq, VALID)
                        else route_of e)
      | None => Some (orig, src, u8 hcnt, sq, VALID)
      end) s.
Proof.
  intros Hi Hsq. split.
  { intros Hr. destruct (rreq_reverse_route_run s orig src hcnt sq ifindex Hi Hsq Hr)
      as (s' & Hrun & _). by do 2 eexists. }
  unfold rreq_reverse_route, rt_table_find. apply wp_bind, wp_gets.
  rewrite find_entry_lookup by apply Hi.
  destruct (rt_lookup (rt_tbl s) orig) as [e|] eqn:He; cbn [fmap option_fmap option_map].
  - rewrite (rt_lookup_dest _ _ _ He).
    eapply wp_run; [unfold rt_deref; by rewrite He|].
    destruct (rreq_accepts e sq hcnt); cbn [when]; apply wp_bind.
    + eapply wp_mono; [apply rt_table_update_effect; [done|exact He|done|by right]|].
      intros _ s1 (_ & (e1 & He1 & H1 & H2 & H3 & H4) & _). apply wp_ret. split; [done|].
      rewrite He1. simpl. unfold route_of.
      by rewrite (rt_lookup_dest _ _ _ He1), H1, H2, H3, H4.
    + apply wp_ret, wp_ret. by rewrite He.
  - eapply wp_mono; [apply rt_table_insert_route|];
      [done|unfold rt_live; rewrite He; by intros []|done|by right|].
    intros r s1 (-> & _ & _ & He1). by rewrite He1.
Qed.

(** *** Sequence numbers *)

(** The sequence number with which a node answers a RREQ for itself is never
    zero and never older than its own or than the one the requester knows, and
    it is newer when the requester knows the current one, unless
    the node's number is about to leave the positive half of the 32-bit range. *)
Theorem dest_seqno_fresh (own n : Z) :
  1 <= own < 4294967296 → 0 <= n < 4294967296 → own ≠ 2147483647 →
  let reply := dest_seqno_update own n in
  1 <= reply < 4294967296 ∧ int32 own <= int32 reply ∧
  (n ≠ 0 → int32 n <= int32 reply) ∧ (n = own → int32 n < int32 reply).
Proof.
  intros Ho Hn Hne. cbv zeta. unfold dest_seqno_update.
  destruct (Z.eqb_spec n 0) as [->|Hn0]; cbn [negb]; [split_and!; lia|].
  destruct (Z.ltb_spec (int32 own) (int32 n)) as [Hlt|Hge].
  { split_and!; try lia. intros ->. lia. }
  destruct (Z.eqb_spec own n) as [<-|Hon]; [|split_and!; try lia; congruence].
  unfold seqno_incr. rewrite (proj2 (Z.eqb_neq _ _) Hn0).
  destruct (Z.eqb_spec own 0xFFFFFFFF) as [->|Hmax].
  { split_and!; try lia; vm_compute; congruence. }
  assert (int32 own < int32 (own + 1)); [|split_and!; lia].
  destruct (int32_cases own), (int32_cases (own + 1)); lia.
Qed.

(** Sequence numbers do not roll over at half of the range: a destination with
    the number 2^31 - 1 that is asked for a newer one answers 2^31, which no
    node that has a route with the old number accepts. *)
Theorem seqno_rollover_rejected (e : rt_table_t) (hcnt : Z) :
  dest_seqno_update 2147483647 2147483647 = 2147483648 ∧
  rrep_accepts (set_rt_dest_seqno 2147483647 e) 2147483648 hcnt = false.
Proof. done. Qed.
