(* ===== verification/Timeouts.v ===== *)
(** * protocol/aodv_timeout.c and neighbor_add of aodv_neighbor.c

    The functions that run when a timer of a route or of a route discovery
    expires, and the refresh of a neighbour by a control message. *)

From Stdlib Require Import Ascii String.
From S2P Require Import Prelude.
From S2P Require Import Params.
From S2P Require Import Bytes.
From S2P Require Import Format.
From S2P Require Import TimerQueue.
From S2P Require Import State.
From S2P Require Import Frame.
From S2P Require Import Nl.
From S2P Require Import RtTable.
From S2P Require Import Inv.
From S2P Require Import Total.
From S2P Require Import PacketQueue.
From S2P Require Import SeekList.
From S2P Require Import Socket.
From S2P Require Import Rerr.
From S2P Require Import RtUpdate.
From S2P Require Import Rrep.
From S2P Require Import Rreq.

#[local] Open Scope cm_scope.

Definition neighbor_add (source ifindex : Z) : M () :=
  now ← gettimeofday;
  o ← gets opts;
  rt ← rt_table_find source;
  k ← match rt with
      | None =>
          k ← rt_table_insert source source 1 0 (active_route_timeout o) VALID 0 ifindex;
          match k with
          | None => undefined NullDeref
          | Some k => ret (Some k)
          end
      | Some k =>
          e ← rt_deref k;
          if has (rt_flags e) RT_UNIDIR then ret None
          else
            rt_table_update k source 1 (rt_dest_seqno e) (active_route_timeout o) VALID
              (rt_flags e) ;;
            ret (Some k)
      end;
  match k with
  | None => ret ()
  | Some k =>
      used ← timer_used (HelloTimer k);
      when (negb (llfeedback o) && used)
        (hello_update_timeout k now (ALLOWED_HELLO_LOSS * HELLO_INTERVAL))
  end.

Definition local_repair_timeout_h (rt : Z) : M () :=
  o ← gets opts;
  rt_modify rt (λ e, set_rt_flags (Z.land (rt_flags e) (Z.lnot RT_REPAIR)) e) ;;
  e ← rt_deref rt;
  nl_send_del_route_msg (rt_dest_addr e) (rt_next_hop e) (rt_hcnt e) ;;
  when (negb (rt_nprec e =? 0))
    (rerr_create 0 (rt_dest_addr e) (rt_dest_seqno e) ;;
     n ← rerr_dest_count;
     if rt_nprec e =? 1 then
       dev ← gets (λ s, ifindex2devindex s (rt_ifindex e));
       aodv_socket_send (default 0 (head (rt_precursors e))) (RERR_CALC_SIZE n) 1 dev
     else send_on_all AODV_BROADCAST (RERR_CALC_SIZE n) 1) ;;
  precursor_list_destroy rt ;;
  set_handler (RtTimer rt) route_delete_timeout ;;
  set_timeout (RtTimer rt) (delete_period o).

(** The retry branch of [route_discovery_timeout]: the next ring of the
    search, the number of retries and the time to wait for a reply. *)
Definition next_ring (expanding : bool) (reqs ttl : Z) : Z * Z * Z :=
  if expanding then
    if ttl <? TTL_THRESHOLD
    then (reqs, ttl + TTL_INCREMENT, RING_TRAVERSAL_TIME (ttl + TTL_INCREMENT))
    else (reqs + 1, NET_DIAMETER, RING_TRAVERSAL_TIME NET_DIAMETER)
  else (reqs + 1, ttl, (reqs + 1) * 2 * NET_TRAVERSAL_TIME).

Definition route_discovery_timeout_h (seek_entry : Z) : M () :=
  now ← gettimeofday;
  o ← gets opts;
  e ← seek_deref seek_entry;
  if sk_reqs e <? RREQ_RETRIES then
    let '(reqs, ttl, wait) := next_ring (expanding_ring_search o) (sk_reqs e) (sk_ttl e) in
    seek_modify seek_entry (λ e, set_sk_reqs reqs (set_sk_ttl ttl e)) ;;
    set_timeout (SeekTimer seek_entry) wait ;;
    rt ← rt_table_find (sk_dest_addr e);
    match rt with
    | None => ret ()
    | Some k => keep_while_seeking k now
    end ;;
    e ← seek_deref seek_entry;
    rreq_send (sk_dest_addr e) (sk_dest_seqno e) (sk_ttl e) (sk_flags e)
  else
    nl_send_no_route_found_msg (sk_dest_addr e) ;;
    repair_rt ← rt_table_find (sk_dest_addr e);
    seek_list_remove (Some seek_entry) ;;
    match repair_rt with
    | None => ret ()
    | Some k =>
        f ← rt_get k rt_flags;
        when (has f RT_REPAIR) (local_repair_timeout_h k)
    end.

Definition route_expire_timeout_h (rt : Z) : M () :=
  hc ← rt_get rt rt_hcnt;
  if hc =? 1 then neighbor_link_break rt
  else rt_table_invalidate rt ;; precursor_list_destroy rt.

Definition route_delete_timeout_h (rt : Z) : M () := rt_table_delete rt.

Definition hello_timeout_h (rt : Z) : M () :=
  gettimeofday ;;
  o ← gets opts;
  e ← rt_deref rt;
  when ((rt_state e =? VALID) && negb (has (rt_flags e) RT_UNIDIR))
    (when (local_repair o && (rt_hcnt e <=? MAX_REPAIR_TTL))
       (rt_modify rt (λ e, set_rt_flags (Z.lor (rt_flags e) RT_REPAIR) e)) ;;
     neighbor_link_break rt).

Definition rrep_ack_timeout_h (rt : Z) : M () :=
  d ← rt_get rt rt_dest_addr; rreq_blacklist_insert d.

Definition wait_on_reboot_timeout_h : M () := modify (set_wait_on_reboot false).

(** ** Printing the routing table

    [print_rt_table] of utils/debug.c, the handler of the timer of the routing-table log, without
    the texts it writes: what it reads of the daemon, where it goes wrong and that it restarts its
    timer.  [Debug.v] has the whole function, and shows that it does exactly this. *)

(** [devs_ip_to_str]: the addresses of the interfaces, each with a comma. *)
Definition dev_text (s : state) (i : nat) : list Z := dotted (dev_ipaddr (DEV_NR s i)) ++ str ",".
Definition devs_text (s : state) : list Z := enabled_devs s ≫= dev_text s.
Definition DEVS_BUF_SIZE : nat := MAX_NR_INTERFACES * IFNAMSIZ.

(** The kernel's names have at most [IFNAMSIZ - 1] characters. *)
Definition if_indextoname (s : state) (ifindex : Z) : option (list Z) :=
  take (IFNAMSIZ - 1) <$> env_ifname (env s) (clock_reads s) ifindex.

(** One entry: its timer is read, and the name of its interface printed. *)
Definition print_route (e : rt_table_t) : M () :=
  when (negb (rt_hcnt e =? 255)) (timer_timeout_of (RtTimer (rt_dest_addr e)) ;; ret ()) ;;
  name ← gets (λ s, if_indextoname s (rt_ifindex e));
  match name with None => undefined NullString | Some _ => ret () end.

Definition print_routes : M () :=
  gettimeofday ;;
  fits ← gets (λ s, bool_decide (length (devs_text s) < DEVS_BUF_SIZE)%nat);
  when (negb fits) (undefined StringOverflow) ;;
  l ← gets (λ s, concat (tbl (rt_tbl s)));
  foreach l () (λ e _, print_route e).

Definition print_rt_table_h : M () :=
  n ← gets (λ s, num_entries (rt_tbl s));
  when (negb (n =? 0)) print_routes ;;
  o ← gets opts; set_timeout RtLogTimer (rt_log_interval o).

(** Whether the entries' interfaces have names. *)
Definition named (s : state) (e : rt_table_t) : bool :=
  bool_decide (is_Some (if_indextoname s (rt_ifindex e))).

Lemma print_route_run s e :
  inv s → e ∈ concat (tbl (rt_tbl s)) →
  print_route e s = if named s e then Ok () s else Ub NullString.
Proof.
  intros Hi He. unfold print_route.
  assert (Ht : is_Some (timers (tq s) !! RtTimer (rt_dest_addr e))).
  { apply (to_owned _ _ (inv_timers _ Hi)). cbn [timer_owned]. unfold rt_live.
    by rewrite (rt_lookup_elem _ _ (inv_table _ Hi) He). }
  destruct Ht as [t Ht].
  erewrite (bind_ok _ _ s () s).
  - erewrite bind_ok by done. unfold named. destruct (if_indextoname _ _) as [n|].
    + by rewrite bool_decide_true by eauto.
    + by rewrite bool_decide_false by (by intros []).
  - destruct (_ =? 255); [done|]. cbn [negb when]. unfold timer_timeout_of, on_tq, bind, timer_get. rewrite Ht.
    cbn. by destruct s.
Qed.

(** What printing the table comes to: nothing is changed but the number of readings of the clock. *)
Definition print_outcome (s : state) : outcome state () :=
  let s1 := set_clock_reads (S (clock_reads s)) s in
  if bool_decide (length (devs_text s) < DEVS_BUF_SIZE)%nat then
    if forallb (named s1) (concat (tbl (rt_tbl s))) then Ok () s1 else Ub NullString
  else Ub StringOverflow.

Lemma print_routes_outcome s : inv s → print_routes s = print_outcome s.
Proof.
  intros Hi. unfold print_routes, print_outcome. erewrite bind_ok by done. set (s1 := set_clock_reads _ s).
  assert (Hi1 : inv s1) by by destruct Hi. erewrite bind_ok by done. change (devs_text s1) with (devs_text s).
  destruct (bool_decide _); [|done]. cbn [negb when]. do 2 erewrite bind_ok by done.
  change (rt_tbl s1) with (rt_tbl s).
  assert (Hl : ∀ e, e ∈ concat (tbl (rt_tbl s)) → e ∈ concat (tbl (rt_tbl s1))) by done. revert Hl.
  generalize (concat (tbl (rt_tbl s))) as l. clearbody s1. intros l.
  induction l as [|e l IH]; intros Hl; [done|]. cbn [foreach forallb]. unfold bind at 1.
  rewrite print_route_run by (try done; apply Hl; left). destruct (named s1 e); [|done].
  apply IH. intros e' He'. apply Hl. by right.
Qed.

(** ** Safety *)

Lemma safe_neighbor_add ks src ifi : safe Full ks (neighbor_add src ifi) nop.
Proof.
  unfold neighbor_add, timer_used. safe_step. safe_step. apply safe_find_or.
  - eapply (safe_bind _ _ _ _ (λ r, option_list r)).
    + safe_step. destruct (has _ _); [apply safe_ret, list_subseteq_nil|].
      safe_step. apply safe_ret. set_solver.
    + intros [k|]; cbn [option_list app]; safe_go.
  - intros s Hi Hl Hn. apply wp_bind. apply wp_bind.
    eapply wp_mono; [apply rt_table_insert_new; [done|done|lia|by right]|].
    intros r s1 (-> & Hi1 & He1 & Hd1). apply wp_ret.
    apply (wp_safe_end _ [src]); [safe_go|done|done|live].
Qed.
#[export] Hint Resolve safe_neighbor_add : aodv.

Lemma safe_local_repair_timeout md ks k :
  k ∈ ks → safe md ks (local_repair_timeout_h k) nop.
Proof. intros Hk. unfold local_repair_timeout_h. safe_go. Qed.
#[export] Hint Resolve safe_local_repair_timeout : aodv.

Lemma safe_route_expire_timeout md ks k :
  k ∈ ks → safe md ks (route_expire_timeout_h k) nop.
Proof. intros Hk. unfold route_expire_timeout_h. safe_go. Qed.

Lemma safe_hello_timeout md ks k : k ∈ ks → safe md ks (hello_timeout_h k) nop.
Proof. intros Hk. unfold hello_timeout_h. safe_go. Qed.

Lemma safe_rrep_ack_timeout md ks k : k ∈ ks → safe md ks (rrep_ack_timeout_h k) nop.
Proof. intros Hk. unfold rrep_ack_timeout_h. safe_go. Qed.

Lemma safe_wait_on_reboot_timeout md ks : safe md ks wait_on_reboot_timeout_h nop.
Proof. unfold wait_on_reboot_timeout_h. safe_go. Qed.

#[export] Hint Resolve safe_route_expire_timeout safe_hello_timeout safe_rrep_ack_timeout
  safe_wait_on_reboot_timeout : aodv.

(** A field assignment to an entry of the seek list. *)
Lemma seek_modify_run s d f :
  inv s → d ∈ sk_dest_addr <$> seekhead s → (∀ e, sk_dest_addr (f e) = sk_dest_addr e) →
  ∃ s', seek_modify d f s = Ok () s' ∧ inv s' ∧ ext Full s s' ∧
    sk_dest_addr <$> seekhead s' = sk_dest_addr <$> seekhead s ∧ grows 0 s s'.
Proof.
  intros Hi Hd Hf. apply seek_lookup_elem in Hd as [e He].
  unfold seek_modify. eexists.
  split; [erewrite bind_ok by (unfold seek_deref; by rewrite He); reflexivity|].
  set (l := modify_first _ _ _).
  assert (Hl : sk_dest_addr <$> l = sk_dest_addr <$> seekhead s)
    by (unfold l; by apply map_modify_first).
  split_and!; [|by split|done|by apply grows_same].
  destruct Hi. split; simpl; try done; [|by rewrite Hl].
  eapply timers_ok_iff; [|done]. intros id. destruct id; simpl; try done. by rewrite Hl.
Qed.

Lemma seek_modify_spec s d f :
  inv s → d ∈ sk_dest_addr <$> seekhead s → (∀ e, sk_dest_addr (f e) = sk_dest_addr e) →
  wp buf_ub (seek_modify d f) (λ _ s', inv s' ∧ ext Full s s' ∧
    sk_dest_addr <$> seekhead s' = sk_dest_addr <$> seekhead s) s.
Proof.
  intros Hi Hd Hf. destruct (seek_modify_run s d f Hi Hd Hf) as (s' & R & ? & ? & ? & _).
  unfold wp. by rewrite R.
Qed.

Lemma seek_modify_lookup s d f x :
  seek_lookup (seekhead s) d = Some x → (∀ e, sk_dest_addr (f e) = sk_dest_addr e) →
  wp buf_ub (seek_modify d f) (λ _ s', seek_lookup (seekhead s') d = Some (f x)) s.
Proof.
  intros Hx Hf. unfold seek_modify. eapply wp_run; [unfold seek_deref; by rewrite Hx|].
  apply wp_modify. apply search_modify_first_eq; [|done]. intros b. by rewrite Hf.
Qed.

(** The retry branch after the entry has been updated. *)
Lemma retry_send_spec s d wait dest now :
  inv s → d ∈ sk_dest_addr <$> seekhead s →
  wp buf_ub
    (set_timeout (SeekTimer d) wait ;;
     rt ← rt_table_find dest;
     match rt with None => ret () | Some k => keep_while_seeking k now end ;;
     e ← seek_deref d;
     rreq_send (sk_dest_addr e) (sk_dest_seqno e) (sk_ttl e) (sk_flags e))
    (λ _ s', inv s' ∧ ext Quiet s s') s.
Proof.
  intros Hi Hd. apply wp_bind.
  eapply wp_mono; [by apply (wp_set_timeout Quiet)|].
  intros _ s1 (Hi1 & He1 & _). apply wp_bind.
  eapply wp_mono; [apply (safe_rt_find Quiet []); [done|constructor]|].
  intros rt s2 (Hi2 & He2 & Hl2). apply wp_bind. eapply wp_mono.
  { apply (wp_safe Quiet (option_list rt) _ nop s1); [|done|done|done].
    destruct rt as [k|]; cbn [option_list]; safe_go. }
  intros _ s3 (Hi3 & He3 & _).
  assert (He' : ext Quiet s s3) by by transitivity s1.
  assert (Hd3 : d ∈ sk_dest_addr <$> seekhead s3) by by rewrite (ext_seek _ _ _ He').
  destruct (proj2 (seek_lookup_elem _ _) Hd3) as [e3 He3'].
  eapply wp_run; [unfold seek_deref; by rewrite He3'|]. eapply wp_mono.
  { apply (wp_safe Quiet [] _ nop s); [safe_go|done|done|constructor]. }
  intros [] s4 (? & ? & _). done.
Qed.

Lemma retry_send_completes s d wait dest now :
  inv s → d ∈ (sk_dest_addr <$> seekhead s) →
  completes 0
    (set_timeout (SeekTimer d) wait ;;
     rt ← rt_table_find dest;
     match rt with None => ret () | Some k => keep_while_seeking k now end ;;
     e ← seek_deref d;
     rreq_send (sk_dest_addr e) (sk_dest_seqno e) (sk_ttl e) (sk_flags e)) s.
Proof.
  intros Hi Hd.
  destruct (set_timeout_run s (SeekTimer d) wait Hi Hd) as (q & n & R1); [done|].
  eapply completes_run; [exact R1|done|]. set (s1 := set_tq q _) in *.
  destruct (wp_ok _ _ _ _ _ _ (wp_set_timeout Quiet s (SeekTimer d) wait Hi Hd ltac:(done)) R1)
    as (Hi1 & X1 & _).
  unfold rt_table_find. eapply completes_run; [done|done|].
  rewrite find_entry_lookup by apply Hi1.
  set (rt := rt_dest_addr <$> rt_lookup (rt_tbl s1) dest).
  destruct (total_safe Quiet None (option_list rt)
    (match rt with None => ret () | Some k => keep_while_seeking k now end) nop s1)
    as (c & s2 & R2 & Hi2 & X2 & _ & G2);
    [destruct rt; cbn [option_list]; total_go|destruct rt; cbn [option_list]; safe_go
    |done|by apply find_live|done|].
  apply (completes_then 0 0 _ _ _ _ _ R2 G2).
  assert (Hd2 : d ∈ (sk_dest_addr <$> seekhead s2))
    by (by rewrite (ext_seek _ _ _ X2), (ext_seek _ _ _ X1)).
  destruct (proj2 (seek_lookup_elem _ _) Hd2) as [x Hx].
  eapply completes_run; [unfold seek_deref; by rewrite Hx|done|].
  apply (total_completes None []); [total_go|done|constructor|done].
Qed.

Lemma route_discovery_timeout_spec s d :
  inv s → d ∈ sk_dest_addr <$> seekhead s →
  wp buf_ub (route_discovery_timeout_h d) (λ _ s', inv s' ∧ ext Full s s') s.
Proof.
  intros Hi Hd. unfold route_discovery_timeout_h. assert (Hr : ext Full s s) by done.
  apply wp_bind. eapply wp_mono; [apply (safe_gettimeofday Quiet []); [done|constructor]|].
  intros now s1 (Hi1 & He1 & _). apply wp_bind, wp_gets.
  assert (Hd1 : d ∈ sk_dest_addr <$> seekhead s1) by by rewrite (ext_seek _ _ _ He1).
  destruct (proj2 (seek_lookup_elem _ _) Hd1) as [e He].
  pose proof (seek_lookup_dest _ _ _ He) as Hed.
  eapply wp_run; [unfold seek_deref; by rewrite He|].
  apply ext_quiet with (md := Full) in He1.
  destruct (sk_reqs e <? RREQ_RETRIES).
  - destruct (next_ring _ _ _) as [[reqs ttl] wait].
    apply wp_bind. eapply wp_mono; [by apply seek_modify_spec|].
    intros _ s2 (Hi2 & He2 & Hk2). eapply wp_mono; [apply retry_send_spec; [done|by rewrite Hk2]|].
    intros [] s3 (Hi3 & He3). split; [done|]. transitivity s1; [done|].
    transitivity s2; [done|by apply ext_quiet].
  - apply wp_bind. eapply wp_mono; [apply (safe_no_route_found Quiet []); [done|constructor]|].
    intros _ s2 (Hi2 & He2 & _). apply wp_bind.
    eapply wp_mono; [apply (safe_rt_find Quiet []); [done|constructor]|].
    intros rt s3 (Hi3 & He3 & Hl3). apply wp_bind.
    eapply wp_mono; [apply seek_list_remove_spec; [done|]|].
    { by rewrite (ext_seek _ _ _ He3), (ext_seek _ _ _ He2). }
    intros r s4 (-> & Hi4 & He4 & _).
    assert (He' : ext Full s s4).
    { transitivity s1; [done|]. transitivity s2; [by apply ext_quiet|].
      transitivity s3; [by apply ext_quiet|done]. }
    eapply wp_mono.
    { apply (wp_safe Full (option_list rt) _ nop s); [|done|done|by apply (live_all_ext Full s3)].
      destruct rt as [k|]; cbn [option_list]; safe_go. }
    intros [] s6 (? & ? & _). done.
Qed.

(** ** Return *)

Lemma total_local_repair_timeout b ks k : k ∈ ks → total b ks (local_repair_timeout_h k).
Proof.
  intros Hk. unfold local_repair_timeout_h. do 4 total_step.
  eapply (total_bind Full); [safe_go| |intros ?; cbn [app]; total_go].
  apply total_when, total_rerr_single. unfold RERR_CALC_SIZE. total_go.
Qed.
#[export] Hint Resolve total_local_repair_timeout : aodv.

(** A timeout of a route discovery is handled to the end, whatever the table
    holds. *)
Lemma route_discovery_timeout_completes s d :
  inv s → d ∈ (sk_dest_addr <$> seekhead s) → completes 0 (route_discovery_timeout_h d) s.
Proof.
  intros Hi Hd. unfold route_discovery_timeout_h. eapply completes_run; [done|done|].
  set (s1 := set_clock_reads _ s). assert (Hi1 : inv s1) by by destruct Hi.
  eapply completes_run; [done|done|].
  destruct (proj2 (seek_lookup_elem _ _) Hd) as [x Hx].
  eapply completes_run;
    [unfold seek_deref; change (seekhead s1) with (seekhead s); by rewrite Hx|done|].
  pose proof (seek_lookup_dest _ _ _ Hx) as Hxd.
  assert (Hd1 : d ∈ (sk_dest_addr <$> seekhead s1)) by done.
  destruct (sk_reqs x <? RREQ_RETRIES).
  - destruct (next_ring _ _ _) as [[reqs ttl] wait].
    destruct (seek_modify_run s1 d (λ e, set_sk_reqs reqs (set_sk_ttl ttl e)) Hi1 Hd1)
      as (s2 & R2 & Hi2 & X2 & Hk2 & G2); [done|]. apply (completes_then 0 0 _ _ _ _ _ R2 G2).
    assert (Hd2 : d ∈ (sk_dest_addr <$> seekhead s2)) by (by rewrite Hk2).
    apply (retry_send_completes s2 d wait (sk_dest_addr x) _ Hi2 Hd2).
  - destruct (total_safe Quiet None [] (nl_send_no_route_found_msg (sk_dest_addr x)) nop s1)
      as (c & s2 & R2 & Hi2 & X2 & _ & G2); [total_go|safe_go|done|constructor|done|].
    apply (completes_then 0 0 _ _ _ _ _ R2 G2). unfold rt_table_find.
    eapply completes_run; [done|done|].
    destruct (seek_list_remove_run s2 d Hi2) as (s3 & R3 & Hi3 & X3 & _ & _ & G3).
    { by rewrite (ext_seek _ _ _ X2). }
    apply (completes_then 0 0 _ _ _ _ _ R3 G3). rewrite find_entry_lookup by apply Hi2.
    apply (total_completes None (option_list (rt_dest_addr <$> rt_lookup (rt_tbl s2) (sk_dest_addr x)))).
    + destruct (rt_lookup _ _); cbn [fmap option_fmap option_map option_list]; total_go.
    + done.
    + by apply (live_all_ext Full s2), find_live.
    + done.
Qed.

(** The sender of a message becomes a neighbour. *)
Lemma neighbor_add_completes s src ifi :
  inv s → has_room 1 s → completes 1 (neighbor_add src ifi) s.
Proof.
  intros Hi Hr. unfold neighbor_add. eapply completes_run; [done|done|].
  set (s1 := set_clock_reads _ s). assert (Hi1 : inv s1) by by destruct Hi.
  eapply completes_run; [done|done|]. unfold rt_table_find. eapply completes_run; [done|done|].
  rewrite find_entry_lookup by apply Hi1.
  destruct (rt_lookup (rt_tbl s1) src) as [e|] eqn:He; cbn [fmap option_fmap option_map].
  - rewrite (rt_lookup_dest _ _ _ He). apply (completes_le 0 1); [|lia].
    apply (total_completes (Some 0%nat) [src]);
      [|done|apply Forall_singleton; by exists e|eapply (has_room_le 0 1); [exact Hr|lia]].
    eapply (total_bind Full _ _ _ _ (λ r, option_list r)).
    + safe_step. destruct (has _ _); [apply safe_ret, list_subseteq_nil|].
      safe_step. apply safe_ret. set_solver.
    + total_go.
    + intros [k|]; cbn [option_list app]; unfold timer_used; total_go.
  - assert (Hn : ¬ rt_live (rt_tbl s1) src) by (unfold rt_live; rewrite He; by intros []).
    destruct (rt_table_insert_run s1 src src 1 0 (active_route_timeout (opts s1)) VALID 0 ifi
      Hi1 Hn) as (s2 & R2 & Hi2 & X2 & Hd2 & G2);
      [lia|by right|destruct Hr as (_ & ? & _); change (rt_count s1) with (rt_count s);
       change (env s1) with (env s); lia|].
    apply (completes_then 1 0 _ _ _ (Some src) s2); [by erewrite bind_ok by exact R2|done|].
    unfold timer_used. apply (total_completes (Some 0%nat) [src]);
      [total_go|done|by apply Forall_singleton|exact (has_room_grows 1 0 _ _ Hr G2)].
Qed.

(** The handlers of the timers of a route. *)
Lemma total_route_expire_timeout ks k : k ∈ ks → total (Some 0%nat) ks (route_expire_timeout_h k).
Proof. intros Hk. unfold route_expire_timeout_h. total_go. Qed.
Lemma total_hello_timeout ks k : k ∈ ks → total (Some 0%nat) ks (hello_timeout_h k).
Proof. intros Hk. unfold hello_timeout_h. total_go. Qed.
Lemma total_rrep_ack_timeout b ks k : k ∈ ks → total b ks (rrep_ack_timeout_h k).
Proof. intros Hk. unfold rrep_ack_timeout_h. total_go. Qed.
#[export] Hint Resolve total_route_expire_timeout total_hello_timeout
  total_rrep_ack_timeout : aodv.

Lemma route_delete_timeout_completes s k :
  inv s → rt_live (rt_tbl s) k → completes 0 (route_delete_timeout_h k) s.
Proof.
  intros Hi Hk. destruct (rt_table_delete_run s k Hi Hk) as (s' & R & Hi' & _ & He & _ & _ & Hn & _).
  exists (), s'. split; [done|]. split_and!; [done| |].
  - assert (Hf : frames wait_on_reboot (rt_table_delete k)); [|by rewrite (Hf _ _ _ R)].
    unfold rt_table_delete, precursor_list_destroy, rt_modify, nl_send_del_route_msg,
      nl_kern_route, nl_send. frame_go.
  - pose proof (tbl_count _ (inv_table _ Hi)). pose proof (tbl_count _ (inv_table _ Hi')).
    unfold rt_count. lia.
Qed.

(** ** Route discovery *)

(** What was sent, the most recent first: the interface, the address, the TTL and the type. *)
Definition outgoing (s : state) : list (nat * Z * Z * option Z) :=
  omap (λ ev, match ev with EvSend i dst ttl p => Some (i, dst, ttl, head p) | _ => None end) (trace s).

(** No system call fails and no message is held back. *)
Definition lossless (s : state) : Prop :=
  ratelimit (opts s) = false ∧ ∀ n, env_sys_ok (env s) n = true.

(** The part of the state that a retransmission does not change before it sends. *)
Definition send_view (s : state) :=
  (outgoing s, env s, devs (this_host s)).

Lemma send_view_inv s s' :
  send_view s' = send_view s →
  outgoing s' = outgoing s ∧ (lossless s → lossless s') ∧ (∀ i, DEV_NR s' i = DEV_NR s i) ∧
  enabled_devs s' = enabled_devs s.
Proof.
  unfold send_view, lossless, opts, enabled_devs, DEV_NR. intros [= -> -> ->]. done.
Qed.

Lemma frames_store_head f :
  (∀ b b', f b = Some b' → load8 b' 0 = load8 b 0) →
  frames (λ s, load8 (send_buf s) 0) (send_store f).
Proof.
  intros Hf s u s'. unfold send_store. destruct (f (send_buf s)) as [b|] eqn:E; [|done].
  intros [= _ <-]. by apply Hf.
Qed.

Lemma store8_head b off v b' : 0 < off → store8 b off v = Some b' → load8 b' 0 = load8 b 0.
Proof.
  intros Ho. unfold store8. destruct (_ && _); [|done]. intros [= <-]. unfold load8. cbn.
  apply list_lookup_insert_ne. lia.
Qed.
Lemma store8_first b v b' : store8 b 0 v = Some b' → load8 b' 0 = Some (u8 v).
Proof.
  unfold store8. destruct (_ && _) eqn:E; [|done]. intros [= <-]. unfold load8. cbn.
  apply list_lookup_insert_eq. apply andb_true_iff in E as [_ E%Z.ltb_lt]. lia.
Qed.
Lemma store_bytes_head bs : ∀ b off b',
  0 < off → store_bytes b off bs = Some b' → load8 b' 0 = load8 b 0.
Proof.
  induction bs as [|v bs IH]; intros b off b' Ho; cbn [store_bytes]; [by intros [= <-]|].
  destruct (store8 b off v) as [b1|] eqn:E; [|done]. intros H.
  rewrite (IH b1 (off + 1) b') by (done || lia). by eapply store8_head.
Qed.

(** A RREQ has its type, and making it sends nothing. *)
Lemma send_type v s u s' : send_store8 0 v s = Ok u s' → load8 (send_buf s') 0 = Some (u8 v).
Proof.
  unfold send_store8, send_store. destruct (store8 _ _ _) as [b|] eqn:E; [|done].
  intros [= _ <-]. by apply store8_first in E.
Qed.

Lemma frames_send_view_create fl d sq orig : frames send_view (rreq_create fl d sq orig).
Proof. unfold rreq_create, aodv_socket_new_msg. frame_go. Qed.

Lemma frames_type8 off v : 0 < off → frames (λ s, load8 (send_buf s) 0) (send_store8 off v).
Proof. intros Ho. apply frames_store_head. intros b b'. by apply store8_head. Qed.
Lemma frames_type32 off v : 0 < off → frames (λ s, load8 (send_buf s) 0) (send_store32 off v).
Proof. intros Ho. apply frames_store_head. intros b b'. by apply store_bytes_head. Qed.

Lemma rreq_create_head fl d sq orig s u s' :
  rreq_create fl d sq orig s = Ok u s' → load8 (send_buf s') 0 = Some AODV_RREQ.
Proof.
  unfold rreq_create. intros (a1 & s1 & _ & R)%bind_inv. apply bind_inv in R as (a2 & s2 & R2 & R).
  apply send_type in R2. change (u8 AODV_RREQ) with AODV_RREQ in R2. rewrite <- R2. clear R2.
  revert R. match goal with |- ?m s2 = _ → _ => assert (Hf : frames (λ s, load8 (send_buf s) 0) m) end;
    [|apply Hf].
  repeat first [apply frames_modify; intros ?; reflexivity | apply frames_gets
               | apply frames_type8; lia | apply frames_type32; lia | apply frames_bind; [|intros ?]].
Qed.

(** A broadcast of a RREQ. *)
Lemma rreq_broadcast s ttl i u s' :
  lossless s → load8 (send_buf s) 0 = Some AODV_RREQ →
  aodv_socket_send AODV_BROADCAST RREQ_SIZE ttl i s = Ok u s' →
  send_view s' = ((i, AODV_BROADCAST, u8 ttl, Some AODV_RREQ) :: outgoing s, env s, devs (this_host s)).
Proof.
  intros [Hr Hok] H0 R. unfold aodv_socket_send in R.
  apply bind_inv in R as (type & s1 & R1 & R). unfold send_load8 in R1. rewrite H0 in R1. injection R1 as <- <-.
  apply bind_inv in R as (worb & s1 & [= _ <-] & R). rewrite andb_false_r in R.
  apply bind_inv in R as (ok & s1 & [= Eok <-] & R). rewrite Hok in Eok. subst ok. cbn [negb] in R.
  set (s1 := set_sys_calls _ s) in R.
  apply bind_inv in R as (pass & s2 & R2 & R). unfold ratelimit_check in R2.
  apply bind_inv in R2 as (o & s3 & [= <- <-] & R2). change (opts s1) with (opts s) in R2. rewrite Hr in R2.
  injection R2 as <- <-. cbn [negb] in R. rewrite Z.eqb_refl in R.
  apply bind_inv in R as (now & s2 & [= _ <-] & R). apply bind_inv in R as (u1 & s2 & [= _ <-] & R).
  unfold sendto in R. apply bind_inv in R as (buf & s2 & [= <- <-] & R). cbn [orb Z.ltb] in R.
  change ((RREQ_SIZE <? 0) || (SEND_BUF_SIZE <? RREQ_SIZE)) with false in R. cbv iota in R.
  apply bind_inv in R as (ok & s2 & [= Eok <-] & R). subst s1. cbn [env set_sys_calls set_clock_reads set_this_host] in *.
  rewrite Hok in Eok. subst ok. cbn [when] in R. injection R as _ <-.
  unfold send_view, outgoing. cbn [trace set_trace omap list_omap set_sys_calls set_clock_reads set_this_host send_buf].
  repeat f_equal. unfold load8 in H0. cbn in H0. by destruct (send_buf s).
Qed.

(** One turn of the loop of [rreq_send]. *)
Lemma rreq_send_turn s fl d sq addr ttl i u s' :
  lossless s →
  (rreq_create fl d sq addr ;; aodv_socket_send AODV_BROADCAST RREQ_SIZE ttl i) s = Ok u s' →
  outgoing s' = (i, AODV_BROADCAST, u8 ttl, Some AODV_RREQ) :: outgoing s ∧ lossless s'.
Proof.
  intros Hl R. apply bind_inv in R as (a & s1 & R1 & R).
  pose proof (rreq_create_head _ _ _ _ _ _ _ R1) as Hh.
  pose proof (frames_send_view_create _ _ _ _ _ _ _ R1) as E1.
  apply send_view_inv in E1 as (Es & Hl1 & _ & _). specialize (Hl1 Hl).
  pose proof (rreq_broadcast _ _ _ _ _ Hl1 Hh R) as E2. unfold send_view in E2. injection E2 as E2 He2 _.
  split; [by rewrite E2, Es|]. unfold lossless, opts in *. by rewrite He2.
Qed.

Lemma rreq_send_loop fl d sq ttl l : ∀ s u s',
  lossless s →
  foreach l () (λ i _, dev ← gets (λ s, DEV_NR s i); rreq_create fl d sq (dev_ipaddr dev) ;;
                       aodv_socket_send AODV_BROADCAST RREQ_SIZE ttl i) s = Ok u s' →
  outgoing s' = reverse ((λ i, (i, AODV_BROADCAST, u8 ttl, Some AODV_RREQ)) <$> l) ++ outgoing s.
Proof.
  induction l as [|i l IH]; intros s u s' Hl; [by intros [= _ <-]|]. rewrite foreach_cons.
  intros (a & s2 & R2 & R)%bind_inv. destruct a.
  apply bind_inv in R2 as (dev & s3 & R3 & R2). injection R3 as _ <-.
  destruct (rreq_send_turn _ _ _ _ _ _ _ _ _ Hl R2) as [E2 Hl2].
  rewrite (IH s2 u s' Hl2 R), E2. cbn [fmap list_fmap]. by rewrite reverse_cons, <- app_assoc.
Qed.

Lemma rreq_send_sends s d sq ttl fl u s' :
  lossless s → rreq_send d sq ttl fl s = Ok u s' →
  outgoing s' = reverse ((λ i, (i, AODV_BROADCAST, u8 ttl, Some AODV_RREQ)) <$> enabled_devs s) ++ outgoing s.
Proof. intros Hl R. unfold rreq_send in R. by apply rreq_send_loop in R. Qed.

Lemma frames_seek_deref {C} (g : state → C) d : frames g (seek_deref d).
Proof. intros s e s'. unfold seek_deref. destruct (seek_lookup _ _); [|done]. by intros [= _ <-]. Qed.

(** What the retry branch sends. *)
Lemma retry_send_sends s d wait dest now x s' :
  seek_lookup (seekhead s) d = Some x →
  (set_timeout (SeekTimer d) wait ;;
   rt ← rt_table_find dest;
   match rt with None => ret () | Some k => keep_while_seeking k now end ;;
   e ← seek_deref d;
   rreq_send (sk_dest_addr e) (sk_dest_seqno e) (sk_ttl e) (sk_flags e)) s = Ok () s' →
  lossless s →
  outgoing s' = reverse ((λ i, (i, AODV_BROADCAST, u8 (sk_ttl x), Some AODV_RREQ)) <$> enabled_devs s) ++ outgoing s.
Proof.
  intros Hx R Hl. set (g := λ s, (send_view s, seekhead s)).
  apply bind_inv in R as ([] & s1 & R1 & R). apply bind_inv in R as (rt & s2 & R2 & R).
  apply bind_inv in R as ([] & s3 & R3 & R). apply bind_inv in R as (e & s4 & R4 & R).
  assert (G : g s3 = g s).
  { transitivity (g s2); [|transitivity (g s1)].
    - refine ((_ : frames g _) _ _ _ R3). unfold keep_while_seeking, rt_table_update_timeout. frame_go.
    - refine ((_ : frames g _) _ _ _ R2). unfold rt_table_find. frame_go.
    - refine ((_ : frames g _) _ _ _ R1). frame_go. }
  pose proof (f_equal fst G : send_view s3 = send_view s) as Gs.
  pose proof (f_equal snd G : seekhead s3 = seekhead s) as G2. clear G.
  apply send_view_inv in Gs as (Es & Hl3 & _ & Ed).
  unfold seek_deref in R4. rewrite G2, Hx in R4. injection R4 as <- <-.
  rewrite (rreq_send_sends _ _ _ _ _ _ _ (Hl3 Hl) R), Es, Ed. done.
Qed.

(** One timeout with retries left: the entry of the destination moves to the next ring, and a RREQ
    with its TTL goes out on every interface. *)
Lemma discovery_retries (s : state) (d : Z) (x : seek_list_t) :
  inv s → seek_lookup (seekhead s) d = Some x → sk_reqs x < RREQ_RETRIES →
  let '(reqs, ttl, _) := next_ring (expanding_ring_search (opts s)) (sk_reqs x) (sk_ttl x) in
  ∃ s', route_discovery_timeout_h d s = Ok () s' ∧ inv s' ∧ env s' = env s ∧
    enabled_devs s' = enabled_devs s ∧
    seek_lookup (seekhead s') d = Some (set_sk_reqs reqs (set_sk_ttl ttl x)) ∧
    (lossless s → outgoing s' =
       reverse ((λ i, (i, AODV_BROADCAST, u8 ttl, Some AODV_RREQ)) <$> enabled_devs s) ++ outgoing s).
Proof.
  intros Hi Hx Hr. destruct (next_ring _ _ _) as [[reqs ttl] wait] eqn:En. apply (wp_returned_unit buf_ub).
  { apply (completes_returns 0), route_discovery_timeout_completes; [done|].
    apply seek_lookup_elem. eauto. }
  unfold route_discovery_timeout_h.
  eapply wp_run; [done|]. set (s1 := set_clock_reads _ s).
  assert (Hi1 : inv s1) by by destruct Hi. apply wp_bind, wp_gets.
  eapply wp_run; [unfold seek_deref; change (seekhead s1) with (seekhead s); by rewrite Hx|].
  change (opts s1) with (opts s). rewrite (proj2 (Z.ltb_lt _ _) Hr), En.
  set (x' := set_sk_reqs reqs (set_sk_ttl ttl x)).
  apply wp_bind. eapply wp_mono.
  { apply (wp_frame send_view); [apply frames_bind; [apply frames_seek_deref|intros ?; frame_go]|].
    apply wp_and; [apply seek_modify_spec|by apply seek_modify_lookup]; [done| |done].
    apply seek_lookup_elem. eauto. }
  intros _ s2 (((Hi2 & He2 & Hk2) & Hx2) & E2).
  assert (Hd2 : d ∈ sk_dest_addr <$> seekhead s2) by (apply seek_lookup_elem; eauto).
  apply send_view_inv in E2 as (Es2 & Hl2 & _ & Ed2). change (seek_lookup (seekhead s2) d = Some x') in Hx2.
  eapply wp_mono; [eapply (wp_also _ _ _ (λ _ s3, lossless s2 → outgoing s3 =
    reverse ((λ i, (i, AODV_BROADCAST, u8 ttl, Some AODV_RREQ)) <$> enabled_devs s2) ++ outgoing s2));
    [by apply (retry_send_spec s2 d)|intros [] s3 R3; exact (retry_send_sends s2 d _ _ _ x' s3 Hx2 R3)]|].
  intros _ s3 ((Hi3 & He3) & Hs3). split_and!; [done| | | |].
  - by rewrite (ext_env _ _ _ He3), (ext_env _ _ _ He2).
  - change (enabled_devs s) with (enabled_devs s1). rewrite <- Ed2. unfold enabled_devs, DEV_NR. by rewrite (ext_devs _ _ _ He3).
  - by rewrite (ext_seek _ _ _ He3).
  - intros Hl. rewrite (Hs3 (Hl2 Hl)), Es2, Ed2. done.
Qed.

Lemma frames_PQ_socket_send dst len ttl dev : frames PQ (aodv_socket_send dst len ttl dev).
Proof. unfold aodv_socket_send, ratelimit_check, sendto. frame_go. Qed.
#[export] Hint Resolve frames_PQ_socket_send : aodv.

Lemma frames_PQ_local_repair_timeout k : frames PQ (local_repair_timeout_h k).
Proof.
  unfold local_repair_timeout_h, precursor_list_destroy, rt_modify, nl_send_del_route_msg,
    nl_kern_route, nl_send, rerr_create, rerr_dest_count, aodv_socket_new_msg, send_on_all.
  frame_go.
Qed.
#[export] Hint Resolve frames_PQ_local_repair_timeout : aodv.

(** Dropping the packets of a destination leaves none of them in the queue. *)
Lemma no_route_found_clears s d :
  inv s → wp buf_ub (nl_send_no_route_found_msg d) (λ _ s', inv s' ∧ ext Quiet s s' ∧
    ∀ qp, qp ∈ pq_head (PQ s') → qp_dest_addr qp ≠ d) s.
Proof.
  intros Hi. unfold nl_send_no_route_found_msg, packet_queue_set_verdict.
  eapply wp_run; [done|]. cbn [negb andb]. set (p := λ qp, qp_dest_addr qp =? d).
  eapply wp_run; [by apply drain_run|]. apply wp_bind, wp_ret. apply wp_ret.
  split_and!; [by apply inv_drained|by split|].
  intros qp [Hq _]%list_elem_of_filter. unfold p in Hq. by apply Z.eqb_neq in Hq.
Qed.

(** When the last retry of a route discovery has timed out, the destination
    is no longer sought and none of the packets that waited for it is left in
    the queue. *)
Theorem discovery_gives_up (s : state) (d : Z) (x : seek_list_t) :
  inv s → seek_lookup (seekhead s) d = Some x → RREQ_RETRIES <= sk_reqs x →
  ∃ s', route_discovery_timeout_h d s = Ok () s' ∧
    (¬ d ∈ (sk_dest_addr <$> seekhead s')) ∧
    ∀ qp, qp ∈ pq_head (PQ s') → qp_dest_addr qp ≠ d.
Proof.
  intros Hi Hx Hr. apply (wp_returned_unit buf_ub).
  { apply (completes_returns 0), route_discovery_timeout_completes; [done|].
    apply seek_lookup_elem. eauto. }
  unfold route_discovery_timeout_h.
  eapply wp_run; [done|]. set (s1 := set_clock_reads _ s).
  assert (Hi1 : inv s1) by by destruct Hi. apply wp_bind, wp_gets.
  eapply wp_run; [unfold seek_deref; change (seekhead s1) with (seekhead s); by rewrite Hx|].
  rewrite (proj2 (Z.ltb_ge _ _) Hr). pose proof (seek_lookup_dest _ _ _ Hx) as Hd. rewrite Hd.
  assert (Hin : d ∈ sk_dest_addr <$> seekhead s1) by (apply seek_lookup_elem; eauto).
  apply wp_bind. eapply wp_mono; [by apply no_route_found_clears|].
  intros _ s2 (Hi2 & Hx2 & Hq2). apply wp_bind. eapply wp_mono.
  { apply (wp_frame PQ); [apply frames_rt_table_find|].
    apply (safe_rt_find Quiet []); [done|constructor]. }
  intros rt s3 ((Hi3 & Hx3 & Hl3) & Hp3). apply wp_bind. eapply wp_mono.
  { apply (wp_frame PQ); [unfold seek_list_remove; frame_go|].
    apply (seek_list_remove_spec s3 d); [done|].
    by rewrite (ext_seek _ _ _ Hx3), (ext_seek _ _ _ Hx2). }
  intros r s4 ((_ & Hi4 & Hx4 & Hs4) & Hp4).
  assert (Hout : d ∉ sk_dest_addr <$> seekhead s4).
  { rewrite Hs4, elem_of_remove_seek by apply Hi3. tauto. }
  eapply wp_mono; [apply (wp_frame PQ)|].
  - destruct rt as [k|]; frame_go.
  - apply (safe_weaken Quiet (option_list rt) (option_list rt) _ nop); [|done|done|].
    + destruct rt as [k|]; cbn [option_list]; safe_go.
    + by apply (live_all_ext Full s3).
  - intros _ s5 ((_ & Hx5 & _) & Hp5). split.
    + by rewrite (ext_seek _ _ _ Hx5).
    + intros qp. rewrite Hp5, Hp4, Hp3. apply Hq2.
Qed.

(** *** The whole discovery *)

(** The timeouts of a destination that does not answer, one after the other, with the TTL in its
    entry after each. *)
Fixpoint timeouts (n : nat) (d : Z) : M (list (option Z)) :=
  match n with
  | O => ret []
  | S n =>
      route_discovery_timeout_h d ;;
      t ← gets (λ s, sk_ttl <$> seek_lookup (seekhead s) d);
      l ← timeouts n d; ret (t :: l)
  end.

(** The growing rings of a search that starts with [ttl], and all its retransmissions. *)
Definition rings (ttl : Z) : list Z :=
  (λ i, ttl + TTL_INCREMENT * Z.of_nat (S i))
    <$> seq 0 (Z.to_nat ((TTL_THRESHOLD - ttl + TTL_INCREMENT - 1) / TTL_INCREMENT)).
Definition search_ttls (expanding : bool) (ttl : Z) : list Z :=
  if expanding then rings ttl ++ [NET_DIAMETER; NET_DIAMETER] else [ttl; ttl].

Lemma rings_step ttl : ttl < TTL_THRESHOLD → rings ttl = (ttl + TTL_INCREMENT) :: rings (ttl + TTL_INCREMENT).
Proof.
  intros Hlt. unfold rings, TTL_THRESHOLD, TTL_INCREMENT in *.
  replace (7 - ttl + 2 - 1) with (7 - (ttl + 2) + 2 - 1 + 1 * 2) by lia. rewrite Z.div_add by lia.
  set (n := (7 - (ttl + 2) + 2 - 1) / 2). assert (Hn : 0 <= n) by (apply Z.div_pos; lia).
  rewrite Z2Nat.inj_add by lia. change (Z.to_nat 1) with 1%nat. rewrite Nat.add_1_r. cbn [seq fmap list_fmap].
  f_equal. rewrite <- fmap_S_seq, <- list_fmap_compose. apply list_fmap_ext. intros i x _. cbn. lia.
Qed.
Lemma rings_end ttl : TTL_THRESHOLD <= ttl → rings ttl = [].
Proof.
  intros Hge. unfold rings, TTL_THRESHOLD, TTL_INCREMENT in *. replace (Z.to_nat _) with 0%nat; [done|].
  assert ((7 - ttl + 2 - 1) / 2 < 1) by (apply Z.div_lt_upper_bound; lia). lia.
Qed.

(** What the retransmissions with these TTLs send. *)
Definition broadcasts (s : state) (ttls : list Z) : list (nat * Z * Z * option Z) :=
  ttls ≫= λ t, (λ i, (i, AODV_BROADCAST, u8 t, Some AODV_RREQ)) <$> enabled_devs s.

(** The timeouts from an entry on whose retransmissions have the TTLs [ttls], up to the one that
    gives up. *)
Definition searching (d : Z) (ttls : list Z) (s : state) : Prop :=
  ∃ s', timeouts (length ttls) d s = Ok (Some <$> ttls) s' ∧ inv s' ∧
    (∃ x, seek_lookup (seekhead s') d = Some x ∧ RREQ_RETRIES <= sk_reqs x) ∧
    (lossless s → outgoing s' = reverse (broadcasts s ttls) ++ outgoing s).

Lemma searching_step s d x reqs ttl wait ttls :
  inv s → seek_lookup (seekhead s) d = Some x → sk_reqs x < RREQ_RETRIES →
  next_ring (expanding_ring_search (opts s)) (sk_reqs x) (sk_ttl x) = (reqs, ttl, wait) →
  (∀ s', inv s' → env s' = env s → seek_lookup (seekhead s') d = Some (set_sk_reqs reqs (set_sk_ttl ttl x)) →
     searching d ttls s') →
  searching d (ttl :: ttls) s.
Proof.
  intros Hi Hx Hr En Hnext. pose proof (discovery_retries s d x Hi Hx Hr) as H1. rewrite En in H1.
  destruct H1 as (s1 & R1 & Hi1 & He1 & Hd1 & Hx1 & Hs1).
  destruct (Hnext s1 Hi1 He1 Hx1) as (s' & R & Hi' & Hx' & Hs'). exists s'. split_and!; [|done|done|].
  - cbn [timeouts length fmap list_fmap]. erewrite bind_ok by exact R1. erewrite bind_ok by done.
    erewrite bind_ok by exact R. by rewrite Hx1.
  - intros Hl. rewrite Hs' by (unfold lossless, opts in *; by rewrite He1). rewrite (Hs1 Hl).
    unfold broadcasts. rewrite Hd1, bind_cons, reverse_app. by rewrite <- app_assoc.
Qed.

Lemma searching_end s d x :
  inv s → seek_lookup (seekhead s) d = Some x → RREQ_RETRIES <= sk_reqs x → searching d [] s.
Proof. intros Hi Hx Hr. exists s. split_and!; [done|done|eauto|done]. Qed.

Lemma searching_flood s d x :
  inv s → seek_lookup (seekhead s) d = Some x → sk_reqs x = 0 → expanding_ring_search (opts s) = true →
  TTL_THRESHOLD <= sk_ttl x → searching d [NET_DIAMETER; NET_DIAMETER] s.
Proof.
  intros Hi Hx H0 He Ht.
  eapply (searching_step s d x 1); [done|done|unfold RREQ_RETRIES; lia| |].
  { rewrite He, H0. unfold next_ring. by rewrite (proj2 (Z.ltb_ge _ _) Ht). }
  intros s1 Hi1 E1 Hx1. eapply (searching_step s1 d _ 2); [done|exact Hx1|done| |].
  { unfold opts. rewrite E1. change (env_opts (env s)) with (opts s). by rewrite He. }
  intros s2 Hi2 _ Hx2. by eapply searching_end.
Qed.

Lemma searching_plain s d x :
  inv s → seek_lookup (seekhead s) d = Some x → sk_reqs x = 0 → expanding_ring_search (opts s) = false →
  searching d [sk_ttl x; sk_ttl x] s.
Proof.
  intros Hi Hx H0 He. eapply (searching_step s d x 1); [done|done|unfold RREQ_RETRIES; lia|by rewrite He, H0|].
  intros s1 Hi1 E1 Hx1. eapply (searching_step s1 d _ 2); [done|exact Hx1|done| |].
  { unfold opts. rewrite E1. change (env_opts (env s)) with (opts s). by rewrite He. }
  intros s2 Hi2 _ Hx2. by eapply searching_end.
Qed.

Lemma searching_rings n : ∀ s d x,
  inv s → seek_lookup (seekhead s) d = Some x → sk_reqs x = 0 → expanding_ring_search (opts s) = true →
  TTL_THRESHOLD <= sk_ttl x + TTL_INCREMENT * Z.of_nat n →
  searching d (search_ttls true (sk_ttl x)) s.
Proof.
  induction n as [|n IH]; intros s d x Hi Hx H0 He Ht; unfold search_ttls;
    (destruct (decide (TTL_THRESHOLD <= sk_ttl x)) as [Hge|Hlt];
     [rewrite rings_end by done; by eapply searching_flood|]).
  - unfold TTL_INCREMENT in Ht. lia.
  - rewrite rings_step by lia. cbn [app].
    eapply (searching_step s d x 0); [done|done|unfold RREQ_RETRIES; lia| |].
    { rewrite He, H0. unfold next_ring. by rewrite (proj2 (Z.ltb_lt _ _)) by lia. }
    intros s1 Hi1 E1 Hx1. apply (IH s1 d _ Hi1 Hx1); [done|by unfold opts; rewrite E1|].
    unfold TTL_INCREMENT in *. cbn. lia.
Qed.

(** C17: a route discovery that nobody answers ends.  From a new entry of the seek list with the
    TTL [t], the timeouts of its timer retransmit the RREQ with the TTLs [t + 2], [t + 4] and so
    on up to 7 or 8 and then twice with that of the whole network, or without the expanding
    ring search twice with [t]; they are at most six.  Where nothing is held back by the rate
    limit or lost by the system, each goes out on every interface, and nothing else does.  The
    next timeout gives up: the destination is no longer sought and none of the packets for it
    is left in the queue. *)
Theorem discovery_terminates (s : state) (d : Z) (x : seek_list_t) :
  inv s → seek_lookup (seekhead s) d = Some x → sk_reqs x = 0 → 0 <= sk_ttl x →
  let ttls := search_ttls (expanding_ring_search (opts s)) (sk_ttl x) in
  (length ttls <= 6)%nat ∧
  ∃ s1 s2, timeouts (length ttls) d s = Ok (Some <$> ttls) s1 ∧
    (lossless s → outgoing s1 = reverse (broadcasts s ttls) ++ outgoing s) ∧
    route_discovery_timeout_h d s1 = Ok () s2 ∧
    (¬ d ∈ (sk_dest_addr <$> seekhead s2)) ∧ ∀ qp, qp ∈ pq_head (PQ s2) → qp_dest_addr qp ≠ d.
Proof.
  intros Hi Hx H0 Ht ttls. split.
  { unfold ttls, search_ttls. destruct (expanding_ring_search _); [|cbn; lia]. rewrite length_app.
    unfold rings, TTL_THRESHOLD, TTL_INCREMENT. rewrite length_fmap, length_seq. cbn [length].
    assert ((7 - sk_ttl x + 2 - 1) / 2 < 5) by (apply Z.div_lt_upper_bound; lia). lia. }
  assert (Hs : searching d ttls s).
  { unfold ttls. destruct (expanding_ring_search (opts s)) eqn:He.
    - apply (searching_rings 4); try done. unfold TTL_THRESHOLD, TTL_INCREMENT. lia.
    - by apply searching_plain. }
  destruct Hs as (s1 & R1 & Hi1 & (x1 & Hx1 & Hr1) & Hs1).
  destruct (discovery_gives_up s1 d x1 Hi1 Hx1 Hr1) as (s2 & R2 & H2). by exists s1, s2.
Qed.
