(* ===== verification/PacketInput.v ===== *)
(** * network/packet_input.c and nfqueue_packet_cb: data packets *)

From S2P Require Import Prelude.
From S2P Require Import Params.
From S2P Require Import Bytes.
From S2P Require Import TimerQueue.
From S2P Require Import State.
From S2P Require Import Frame.
From S2P Require Import Nl.
From S2P Require Import RtTable.
From S2P Require Import Inv.
From S2P Require Import Total.
From S2P Require Import PacketQueue.
From S2P Require Import SeekList.
From S2P Require Import Socket.
From S2P Require Import Rerr.
From S2P Require Import RtUpdate.
From S2P Require Import Rrep.
From S2P Require Import Rreq.
From S2P Require Import Timeouts.

#[local] Open Scope cm_scope.

(** The IP header fields that are read, from a payload of at least 20 bytes. *)
Definition byte (p : list Z) (i : nat) : Z := default 0 (p !! i).
Definition word (p : list Z) (i : nat) : Z :=
  le_value32 (byte p i) (byte p (i + 1)) (byte p (i + 2)) (byte p (i + 3)).
Definition ip_ihl (p : list Z) : Z := Z.land (byte p 0) 15.
Definition ip_protocol (p : list Z) : Z := byte p 9.
Definition ip_saddr (p : list Z) : Z := word p 12.
Definition ip_daddr (p : list Z) : Z := word p 16.

Definition packet_is_aodv_control (p : list Z) : bool :=
  if negb (ip_protocol p =? IPPROTO_UDP) then false
  else
    let hl := ip_ihl p * 4 in
    if Z.of_nat (length p) <? hl + 8 then false
    else
      let h := Z.to_nat hl in
      (ntohs (byte p h) (byte p (h + 1)) =? AODV_PORT)
      || (ntohs (byte p (h + 2)) (byte p (h + 3)) =? AODV_PORT).

Definition packet_is_broadcast (s : state) (dest_addr ifindex : Z) : bool :=
  (dest_addr =? AODV_BROADCAST)
  || ((0 <? ifindex) && dev_enabled (DEV_IFINDEX s ifindex)
      && (dest_addr =? dev_broadcast (DEV_IFINDEX s ifindex))).

Definition packet_is_direct_subnet (s : state) (dest_addr ifindex : Z) : bool :=
  let d := DEV_IFINDEX s ifindex in
  if (ifindex =? 0) || negb (dev_enabled d) then false
  else Z.land dest_addr (dev_netmask d) =? Z.land (dev_ipaddr d) (dev_netmask d).

Definition packet_is_local_address (s : state) (dest_addr : Z) : bool :=
  existsb (λ i, dev_enabled (DEV_NR s i) && (dev_ipaddr (DEV_NR s i) =? dest_addr))
    (seq 0 (Z.to_nat (nif (this_host s)))).

Definition send_rerr_for_unknown_dest (dest_addr : Z) (fwd_rt rev_rt : option Z)
    (ifindex : Z) : M () :=
  o ← gets opts;
  match fwd_rt with
  | Some f =>
      e ← rt_deref f;
      rerr_create 0 (rt_dest_addr e) (rt_dest_seqno e) ;;
      rt_table_update_timeout f (delete_period o)
  | None => rerr_create 0 dest_addr 0
  end ;;
  rerr_dest ← match rev_rt with
              | Some r => e ← rt_deref r;
                          ret (if rt_state e =? VALID then rt_next_hop e else AODV_BROADCAST)
              | None => ret AODV_BROADCAST
              end;
  n ← rerr_dest_count;
  dev ← gets (λ s, ifindex2devindex s ifindex);
  aodv_socket_send rerr_dest (RERR_CALC_SIZE n) 1 dev ;;
  worb ← gets wait_on_reboot;
  when worb (set_timeout WorbTimer (delete_period o)).

(** The end of [packet_input_handle_packet]: what happens to a packet that has to
    be routed. *)
Definition packet_input_dispatch (packet_id dest_addr src_addr hook ifindex rreq_flags : Z)
    (fwd_rt rev_rt : option Z) : M Z :=
  '(usable, repair) ←
    match fwd_rt with
    | None => ret (false, false)
    | Some f =>
        e ← rt_deref f;
        ret (negb ((rt_state e =? INVALID)
                   || ((rt_hcnt e =? 1) && has (rt_flags e) RT_UNIDIR)),
             has (rt_flags e) RT_REPAIR)
    end;
  if usable : bool then ret NF_ACCEPT else
  if negb repair && (hook =? NF_INET_FORWARD) then
    send_rerr_for_unknown_dest dest_addr fwd_rt rev_rt ifindex ;;
    ret NF_DROP
  else
    packet_queue_add packet_id dest_addr ;;
    match fwd_rt with
    | Some f => if repair : bool then rreq_local_repair f src_addr
                else rreq_route_discovery dest_addr rreq_flags
    | None => rreq_route_discovery dest_addr rreq_flags
    end ;;
    ret PACKET_INPUT_QUEUED.

(** The packets that are not routed by the daemon. *)
Definition packet_exempt (s : state) (p : list Z) (hook indev outdev : Z) : bool :=
  let ifindex := if hook =? NF_INET_FORWARD then indev else outdev in
  packet_is_local_address s (ip_daddr p)
  || packet_is_broadcast s (ip_daddr p) ifindex
  || packet_is_direct_subnet s (ip_daddr p) outdev
  || packet_is_aodv_control p.

(** [payload] is [None] for NULL. *)
Definition packet_input_handle_packet (packet_id : Z) (payload : option (list Z))
    (hook indev outdev : Z) : M Z :=
  match payload with
  | None => ret NF_ACCEPT
  | Some p =>
      if Z.of_nat (length p) <? 20 then ret NF_ACCEPT else
      if Z.of_nat (length p) <? ip_ihl p * 4 then ret NF_ACCEPT else
      let ifindex := if hook =? NF_INET_FORWARD then indev else outdev in
      pass ← gets (λ s, packet_exempt s p hook indev outdev);
      if pass : bool then ret NF_ACCEPT else
      let rreq_flags := if ip_protocol p =? IPPROTO_TCP then RREQ_GRATUITOUS else 0 in
      rev_rt ← rt_table_find (ip_saddr p);
      fwd_rt ← rt_table_find (ip_daddr p);
      rt_table_update_route_timeouts fwd_rt rev_rt ;;
      packet_input_dispatch packet_id (ip_daddr p) (ip_saddr p) hook ifindex rreq_flags
        fwd_rt rev_rt
  end.

(** What libnetfilter_queue reports about a packet; [nf_hdr] is [None] when
    [nfq_get_msg_packet_hdr] returns NULL. *)
Record nf_packet := mk_nf_packet {
  nf_hdr : option (Z * Z);           (* packet id (host order) and hook *)
  nf_payload : option (list Z);
  nf_indev : Z;
  nf_outdev : Z
}.

Definition nfqueue_packet_cb (p : nf_packet) : M () :=
  match nf_hdr p with
  | None => ret ()
  | Some (packet_id, hook) =>
      action ← packet_input_handle_packet packet_id (nf_payload p) hook
                 (nf_indev p) (nf_outdev p);
      if action =? PACKET_INPUT_QUEUED then ret ()
      else nfqueue_set_packet_verdict packet_id action
  end.

(** ** Safety *)

Lemma safe_send_rerr_for_unknown_dest md ks d f r ifi :
  (∀ k, f = Some k → k ∈ ks) → (∀ k, r = Some k → k ∈ ks) →
  safe md ks (send_rerr_for_unknown_dest d f r ifi) nop.
Proof.
  intros Hf Hr. unfold send_rerr_for_unknown_dest.
  destruct f as [f|]; [assert (f ∈ ks) by auto|];
  destruct r as [r|]; try (assert (r ∈ ks) by auto); safe_go.
Qed.

Lemma safe_packet_input_dispatch ks i d src hook ifi fl f r :
  (∀ k, f = Some k → k ∈ ks) → (∀ k, r = Some k → k ∈ ks) →
  safe Full ks (packet_input_dispatch i d src hook ifi fl f r) nop.
Proof.
  intros Hf Hr. unfold packet_input_dispatch. eapply (safe_bind _ _ _ _ nop).
  { destruct f as [f|]; [assert (f ∈ ks) by auto|]; safe_go. }
  intros [usable repair]. cbn [app]. safe_step; [safe_go|]. safe_step.
  - eapply safe_bind; [by apply safe_send_rerr_for_unknown_dest|]. intros ?. safe_go.
  - destruct f as [f|]; [assert (f ∈ ks) by auto|]; safe_go.
Qed.

Lemma safe_packet_input ks i p hook ind outd :
  safe Full ks (packet_input_handle_packet i p hook ind outd) nop.
Proof.
  unfold packet_input_handle_packet. destruct p as [p|]; [|safe_go].
  do 2 (safe_step; [safe_go|]). safe_step. safe_step; [safe_go|].
  eapply safe_bind; [apply safe_rt_find|]. intros rev.
  eapply safe_bind; [apply safe_rt_find|]. intros fwd.
  eapply safe_bind; [apply safe_update_route_timeouts; set_solver|].
  intros ?. cbn [app]. apply safe_packet_input_dispatch; intros k ->; elem.
Qed.
#[export] Hint Resolve safe_packet_input : aodv.

Lemma safe_nfqueue_packet_cb ks p : safe Full ks (nfqueue_packet_cb p) nop.
Proof. unfold nfqueue_packet_cb. safe_go. Qed.
#[export] Hint Resolve safe_nfqueue_packet_cb : aodv.

(** The route to the destination of a packet is usable, or being repaired. *)
Definition usable (o : option rt_table_t) : bool :=
  match o with
  | None => false
  | Some e => negb ((rt_state e =? INVALID) || ((rt_hcnt e =? 1) && has (rt_flags e) RT_UNIDIR))
  end.
Definition repairing (o : option rt_table_t) : bool :=
  match o with None => false | Some e => has (rt_flags e) RT_REPAIR end.

(** ** Return *)

(** The RERR that reports the destination of a packet. *)
Lemma unknown_dest_rerr s o d f :
  inv s → live_all s (option_list f) →
  ∃ s1, match f with
        | Some f =>
            e ← rt_deref f;
            rerr_create 0 (rt_dest_addr e) (rt_dest_seqno e) ;;
            rt_table_update_timeout f (delete_period o)
        | None => rerr_create 0 d 0
        end s = Ok () s1 ∧ inv s1 ∧ ext Quiet s s1 ∧ load8 (send_buf s1) 3 = Some 1 ∧
    wait_on_reboot s1 = wait_on_reboot s ∧ grows 0 s s1.
Proof.
  intros Hi Hl. destruct f as [f|]; cbn [option_list] in Hl.
  - apply Forall_singleton in Hl as [e He].
    erewrite bind_ok by (unfold rt_deref; by rewrite He).
    destruct (rerr_create_run s 0 (rt_dest_addr e) (rt_dest_seqno e))
      as (buf & R1 & Hlen & _ & Hc & _). erewrite bind_ok by exact R1.
    destruct (inv_send_buf Quiet s buf Hi Hlen) as [Hi1 X1].
    destruct (total_frame (λ s, (send_buf s, wait_on_reboot s)) Quiet None [f]
      (rt_table_update_timeout f (delete_period o)) (set_send_buf buf s))
      as ([] & s1 & R2 & Hi2 & X2 & G2 & F2);
      [apply total_rt_table_update_timeout; left|safe_go|unfold rt_table_update_timeout; frame_go
      |done|apply Forall_singleton; by exists e|done|].
    injection F2 as F2 F3. exists s1. split_and!; [done|done|by etransitivity| |done|exact G2].
    by rewrite F2.
  - destruct (rerr_create_run s 0 d 0) as (buf & R1 & Hlen & _ & Hc & _).
    destruct (inv_send_buf Quiet s buf Hi Hlen) as [Hi1 X1]. eexists.
    split_and!; [exact R1|done|done|done|done|by apply grows_same].
Qed.

(** Outside the wait after a reboot, a RERR for an unknown destination is sent in
    any state. *)
Lemma send_rerr_completes s d f r ifi :
  inv s → live_all s (option_list f ++ option_list r) → wait_on_reboot s = false →
  completes 0 (send_rerr_for_unknown_dest d f r ifi) s.
Proof.
  intros Hi [Hf Hr]%Forall_app Hw. unfold send_rerr_for_unknown_dest.
  eapply completes_run; [done|done|].
  destruct (unknown_dest_rerr s (opts s) d f Hi Hf) as (s1 & R1 & Hi1 & X1 & Hc & W1 & G1).
  apply (completes_then 0 0 _ _ _ _ _ R1 G1).
  assert (Hdest : ∃ a, match r with
      | Some r => e ← rt_deref r;
                  ret (if rt_state e =? VALID then rt_next_hop e else AODV_BROADCAST)
      | None => ret AODV_BROADCAST
      end s1 = Ok a s1).
  { destruct r as [r|]; [|by eexists]. cbn [option_list] in Hr.
    apply (Forall_singleton (rt_live (rt_tbl s)) r) in Hr. destruct (ext_rt _ _ _ X1 _ Hr) as [e He].
    eexists. by erewrite bind_ok by (unfold rt_deref; by rewrite He). }
  destruct Hdest as [a Ha]. eapply completes_run; [exact Ha|done|].
  eapply completes_run; [unfold rerr_dest_count, send_load8; by rewrite Hc|done|].
  eapply completes_run; [done|done|].
  destruct (total_frame wait_on_reboot Quiet None []
    (aodv_socket_send a (RERR_CALC_SIZE 1) 1 (ifindex2devindex s1 ifi)) s1)
    as ([] & s2 & R2 & Hi2 & X2 & G2 & W2);
    [unfold RERR_CALC_SIZE; total_go|safe_go
    |unfold aodv_socket_send, ratelimit_check, sendto; frame_go|done|constructor|done|].
  apply (completes_then 0 0 _ _ _ _ _ R2 G2). eapply completes_run; [done|done|].
  rewrite W2, W1, Hw. apply completes_ret.
Qed.

(** The rest of the dispatch returns in any state. *)
Lemma dispatch_completes s i d src hook ifi fl f r :
  inv s → live_all s (option_list f ++ option_list r) →
  let o := f ≫= rt_lookup (rt_tbl s) in
  wait_on_reboot s = false ∨ hook ≠ NF_INET_FORWARD ∨ usable o = true ∨ repairing o = true →
  completes 0 (packet_input_dispatch i d src hook ifi fl f r) s.
Proof.
  intros Hi Hl o Hc. unfold packet_input_dispatch.
  apply (completes_run 0 _ _ s (usable o, repairing o) s); [|done|].
  { apply Forall_app in Hl as [Hf _]. unfold o. destruct f as [f|]; [|done].
      apply (Forall_singleton (rt_live (rt_tbl s)) f) in Hf as [e He].
      simpl. unfold bind, rt_deref. by rewrite He. }
  destruct (usable o) eqn:Hu; [apply completes_ret|].
  destruct (negb (repairing o) && (hook =? NF_INET_FORWARD)) eqn:Hb.
  - apply andb_true_iff in Hb as [Hrep%negb_true_iff Hh%Z.eqb_eq].
    destruct (send_rerr_completes s d f r ifi Hi Hl) as ([] & s' & R & G);
      [naive_solver congruence|]. apply (completes_then 0 0 _ _ _ _ _ R G), completes_ret.
  - apply (total_completes None (option_list f ++ option_list r)); [|done|done|done].
    destruct f as [f|]; cbn [option_list app]; total_go.
Qed.

(** ** Properties *)

(** What the dispatch of a packet sees of the state. *)
Definition routing_view (s : state) : list (list rt_table_t) * packet_queue * list event :=
  (entries s, PQ s, trace s).

Lemma frames_update_route_timeouts f r :
  frames routing_view (rt_table_update_route_timeouts f r).
Proof.
  unfold rt_table_update_route_timeouts, rt_is_valid, refresh_route, rt_table_update_timeout.
  frame_go.
Qed.

(** A packet that has to be routed reaches the dispatch with the routes, the
    queue and the seek list as they were. *)
Lemma packet_input_reaches s i p hook ind outd Q :
  inv s → 20 <= Z.of_nat (length p) → ip_ihl p * 4 <= Z.of_nat (length p) →
  packet_exempt s p hook ind outd = false →
  (∀ s1 fwd rev fl ifi, inv s1 → ext Quiet s s1 → routing_view s1 = routing_view s →
     fwd = rt_dest_addr <$> rt_lookup (rt_tbl s) (ip_daddr p) →
     (∀ k, rev = Some k → rt_live (rt_tbl s1) k) →
     wp buf_ub (packet_input_dispatch i (ip_daddr p) (ip_saddr p) hook ifi fl fwd rev) Q s1) →
  wp buf_ub (packet_input_handle_packet i (Some p) hook ind outd) Q s.
Proof.
  intros Hi H20 Hihl Hex Hd. unfold packet_input_handle_packet.
  rewrite (proj2 (Z.ltb_ge _ _) H20), (proj2 (Z.ltb_ge _ _) Hihl).
  apply wp_bind, wp_gets. rewrite Hex. unfold rt_table_find.
  do 2 apply wp_bind, wp_gets. rewrite !find_entry_lookup by apply Hi.
  assert (Hlive : ∀ a k, rt_dest_addr <$> rt_lookup (rt_tbl s) a = Some k →
    rt_live (rt_tbl s) k).
  { intros a k (e & He & ->)%fmap_Some. rewrite (rt_lookup_dest _ _ _ He). by exists e. }
  set (fwd := rt_dest_addr <$> rt_lookup (rt_tbl s) (ip_daddr p)).
  set (rev := rt_dest_addr <$> rt_lookup (rt_tbl s) (ip_saddr p)).
  apply wp_bind. eapply wp_mono.
  { apply (wp_frame routing_view); [apply frames_update_route_timeouts|].
    apply (safe_update_route_timeouts Quiet (option_list fwd ++ option_list rev));
      [set_solver|set_solver|done|].
    apply Forall_app. split; apply Forall_forall; intros k Hk.
    - apply (Hlive (ip_daddr p)). fold fwd. destruct fwd; set_solver.
    - apply (Hlive (ip_saddr p)). fold rev. destruct rev; set_solver. }
  intros _ s1 ((Hi1 & Hx1 & _) & Hv). apply Hd; [done|done|done|done|].
  intros k Hk. by apply Hx1, (Hlive (ip_saddr p)).
Qed.

(** A packet is handled to the end, except that the timer of the wait after a
    reboot may have no handler when a RERR is sent. *)
Lemma packet_input_completes s i p hook ind outd :
  inv s →
  let o := rt_lookup (rt_tbl s) (ip_daddr p) in
  wait_on_reboot s = false ∨ hook ≠ NF_INET_FORWARD ∨ usable o = true ∨ repairing o = true →
  completes 0 (packet_input_handle_packet i (Some p) hook ind outd) s.
Proof.
  intros Hi o Hc. unfold packet_input_handle_packet.
  destruct (_ <? 20); [apply completes_ret|]. destruct (_ <? _); [apply completes_ret|].
  eapply completes_run; [done|done|].
  destruct (packet_exempt _ _ _ _ _); [apply completes_ret|].
  unfold rt_table_find. do 2 (eapply completes_run; [done|done|]). rewrite !find_entry_lookup by apply Hi.
  set (fwd := rt_dest_addr <$> rt_lookup (rt_tbl s) (ip_daddr p)).
  set (rev := rt_dest_addr <$> rt_lookup (rt_tbl s) (ip_saddr p)).
  assert (Hl : live_all s (option_list fwd ++ option_list rev))
    by (apply Forall_app; split; by apply find_live).
  destruct (total_frame (λ s, (entries s, wait_on_reboot s)) Quiet None
    (option_list fwd ++ option_list rev) (rt_table_update_route_timeouts fwd rev) s)
    as ([] & s1 & R1 & Hi1 & X1 & G1 & F1);
    [apply total_update_route_timeouts; set_solver|apply safe_update_route_timeouts; set_solver
    |unfold rt_table_update_route_timeouts, rt_is_valid, refresh_route, rt_table_update_timeout;
     frame_go|done|done|done|].
  injection F1 as F1 F2. apply (completes_then 0 0 _ _ _ _ _ R1 G1).
  apply dispatch_completes; [done|by eapply live_all_ext|]. rewrite F2.
  replace (fwd ≫= rt_lookup (rt_tbl s1)) with o; [done|].
  unfold fwd, o. destruct (rt_lookup (rt_tbl s) (ip_daddr p)) as [e|] eqn:He; [|done].
  simpl. rewrite (rt_lookup_dest _ _ _ He). by rewrite (rt_lookup_entries s s1).
Qed.

(** A packet whose destination has a usable route (valid, and not a
    unidirectional neighbour) is accepted; its arrival changes no route, no
    queued packet and sends nothing. *)
Theorem packet_with_route_accepted (s : state) (i : Z) (p : list Z) (hook ind outd : Z) :
  inv s → 20 <= Z.of_nat (length p) → ip_ihl p * 4 <= Z.of_nat (length p) →
  packet_exempt s p hook ind outd = false →
  usable (rt_lookup (rt_tbl s) (ip_daddr p)) = true →
  ∃ s', packet_input_handle_packet i (Some p) hook ind outd s = Ok NF_ACCEPT s' ∧
    entries s' = entries s ∧ PQ s' = PQ s ∧ trace s' = trace s.
Proof.
  intros Hi H20 Hihl Hex Hu. apply (wp_returned_val buf_ub).
  { apply (completes_returns 0), packet_input_completes; auto. }
  apply packet_input_reaches; [done..|].
  intros s1 fwd rev fl ifi Hi1 Hx1 Hv -> Hrev. injection Hv as Hv1 Hv2 Hv3.
  unfold packet_input_dispatch.
  destruct (rt_lookup (rt_tbl s) (ip_daddr p)) as [e|] eqn:He; [|done]. simpl in Hu |- *.
  rewrite (rt_lookup_dest _ _ _ He).
  assert (He1 : rt_lookup (rt_tbl s1) (ip_daddr p) = Some e)
    by (by rewrite (rt_lookup_entries s s1)).
  eapply wp_run; [unfold bind, rt_deref; by rewrite He1|]. by rewrite Hu.
Qed.

(** The pointers the dispatch works with. *)
Lemma live_dispatch s o d rev :
  o = rt_lookup (rt_tbl s) d → (∀ k, rev = Some k → rt_live (rt_tbl s) k) →
  live_all s (option_list (rt_dest_addr <$> o) ++ option_list rev).
Proof.
  intros Ho Hrev. apply Forall_app. split; apply Forall_forall; intros k Hk.
  - destruct o as [e|]; [|by apply not_elem_of_nil in Hk].
    apply list_elem_of_singleton in Hk as ->. symmetry in Ho.
    rewrite (rt_lookup_dest _ _ _ Ho). by exists e.
  - destruct rev as [r|]; [|by apply not_elem_of_nil in Hk].
    apply list_elem_of_singleton in Hk as ->. by apply Hrev.
Qed.

Lemma packet_queue_add_tail i d s a s' :
  packet_queue_add i d s = Ok a s' → ∃ q now, pq_head (PQ s') = q ++ [mk_q_pkt d now i].
Proof.
  unfold packet_queue_add.
  intros (pq & s1 & _ & (? & s2 & _ & (now & s3 & _ & H)%bind_inv)%bind_inv)%bind_inv.
  injection H as _ <-. simpl. eauto.
Qed.

Lemma frames_entries_packet_queue_add i d : frames entries (packet_queue_add i d).
Proof. unfold packet_queue_add, nfqueue_set_packet_verdict. frame_go. Qed.

(** The last part of the dispatch, for a packet that is queued. *)
Lemma dispatch_queues i d src fl (o : option rt_table_t) s a s' :
  o = rt_lookup (rt_tbl s) d →
  (packet_queue_add i d ;;
   match rt_dest_addr <$> o with
   | Some f => if repairing o then rreq_local_repair f src else rreq_route_discovery d fl
   | None => rreq_route_discovery d fl
   end ;;
   ret PACKET_INPUT_QUEUED) s = Ok a s' →
  a = PACKET_INPUT_QUEUED ∧ d ∈ (sk_dest_addr <$> seekhead s') ∧
  ∃ q now, pq_head (PQ s') = q ++ [mk_q_pkt d now i].
Proof.
  intros -> (? & s1 & Hadd & (? & s2 & Hdisc & [= <- <-])%bind_inv)%bind_inv.
  pose proof (frames_entries_packet_queue_add i d s _ _ Hadd) as Hent.
  apply packet_queue_add_tail in Hadd as (q & now & Hq).
  destruct (rt_lookup (rt_tbl s) d) as [e|] eqn:He; simpl in Hdisc.
  - rewrite (rt_lookup_dest _ _ _ He) in Hdisc. destruct (has (rt_flags e) RT_REPAIR) eqn:Hr.
    + rewrite <- (rt_lookup_entries s s1) in He by done.
      pose proof (frames_PQ_local_repair _ _ _ _ _ Hdisc) as Hp. rewrite Hp.
      apply (local_repair_seeks _ _ _ e) in Hdisc; [|done|done]. eauto.
    + pose proof (frames_PQ_discovery _ _ _ _ _ Hdisc) as Hp. rewrite Hp.
      apply route_discovery_seeks in Hdisc. eauto.
  - pose proof (frames_PQ_discovery _ _ _ _ _ Hdisc) as Hp. rewrite Hp.
    apply route_discovery_seeks in Hdisc. eauto.
Qed.

(** A packet that the node originates (or whose route is being repaired) and
    that has no usable route is queued at the tail of the packet queue, and a
    route discovery for its destination is under way. *)
Theorem packet_without_route_queued (s : state) (i : Z) (p : list Z) (hook ind outd : Z) :
  inv s → 20 <= Z.of_nat (length p) → ip_ihl p * 4 <= Z.of_nat (length p) →
  packet_exempt s p hook ind outd = false →
  usable (rt_lookup (rt_tbl s) (ip_daddr p)) = false →
  repairing (rt_lookup (rt_tbl s) (ip_daddr p)) = true ∨ hook ≠ NF_INET_FORWARD →
  ∃ s', packet_input_handle_packet i (Some p) hook ind outd s = Ok PACKET_INPUT_QUEUED s' ∧
    ip_daddr p ∈ (sk_dest_addr <$> seekhead s') ∧
    ∃ q now, pq_head (PQ s') = q ++ [mk_q_pkt (ip_daddr p) now i].
Proof.
  intros Hi H20 Hihl Hex Hu Hrep. apply (wp_returned_val buf_ub).
  { apply (completes_returns 0), packet_input_completes; [done|]. destruct Hrep; auto. }
  apply packet_input_reaches; [done..|].
  intros s1 fwd rev fl ifi Hi1 Hx1 Hv -> Hrev. injection Hv as Hv1 _ _.
  set (o := rt_lookup (rt_tbl s) (ip_daddr p)) in *.
  assert (Ho : o = rt_lookup (rt_tbl s1) (ip_daddr p)) by (by rewrite (rt_lookup_entries s s1)).
  eapply wp_returns.
  { apply (safe_packet_input_dispatch (option_list (rt_dest_addr <$> o) ++ option_list rev));
      [intros k ->; elem|intros k ->; elem|done|by eapply live_dispatch]. }
  intros r s' Hrun. apply (dispatch_queues i (ip_daddr p) (ip_saddr p) fl o s1); [done|].
  rewrite <- Hrun. unfold packet_input_dispatch.
  erewrite (bind_ok _ _ s1 (usable o, repairing o) s1).
  2:{ destruct o as [e|]; [|done]. simpl. symmetry in Ho. rewrite (rt_lookup_dest _ _ _ Ho).
      unfold bind, rt_deref. by rewrite Ho. }
  rewrite Hu. destruct Hrep as [->|Hh]; [done|].
  rewrite (proj2 (Z.eqb_neq _ _) Hh), andb_false_r. done.
Qed.

(** C18: a packet to be forwarded for which there is no usable route, and none under
    repair, is dropped and not queued; the queue stays as it is.  (Stated outside
    the wait after a reboot, during which the RERR restarts the timer of that
    wait.) *)
Theorem packet_without_route_dropped (s : state) (i : Z) (p : list Z) (hook ind outd : Z) :
  inv s → 20 <= Z.of_nat (length p) → ip_ihl p * 4 <= Z.of_nat (length p) →
  packet_exempt s p hook ind outd = false →
  usable (rt_lookup (rt_tbl s) (ip_daddr p)) = false →
  repairing (rt_lookup (rt_tbl s) (ip_daddr p)) = false → hook = NF_INET_FORWARD →
  wait_on_reboot s = false →
  ∃ s', packet_input_handle_packet i (Some p) hook ind outd s = Ok NF_DROP s' ∧
    PQ s' = PQ s ∧ seekhead s' = seekhead s.
Proof.
  intros Hi H20 Hihl Hex Hu Hrep Hh Hw. apply (wp_returned_val buf_ub).
  { apply (completes_returns 0), packet_input_completes; auto. }
  apply packet_input_reaches; [done..|].
  intros s1 fwd rev fl ifi Hi1 Hx1 Hv -> Hrev. injection Hv as Hv1 Hv2 _.
  set (o := rt_lookup (rt_tbl s) (ip_daddr p)) in *.
  assert (Ho : o = rt_lookup (rt_tbl s1) (ip_daddr p)) by (by rewrite (rt_lookup_entries s s1)).
  unfold packet_input_dispatch.
  eapply (wp_run _ _ _ _ _ (usable o, repairing o) s1).
  { destruct o as [e|]; [|done]. simpl. symmetry in Ho. rewrite (rt_lookup_dest _ _ _ Ho).
    unfold bind, rt_deref. by rewrite Ho. }
  rewrite Hu, Hrep, Hh. simpl. apply wp_bind. eapply wp_mono.
  { apply (wp_frame PQ).
    - unfold send_rerr_for_unknown_dest, rerr_create, rerr_dest_count, aodv_socket_new_msg,
        rt_table_update_timeout. frame_go.
    - apply (safe_send_rerr_for_unknown_dest Quiet
        (option_list (rt_dest_addr <$> o) ++ option_list rev));
        [intros k ->; elem|intros k ->; elem|done|by eapply live_dispatch]. }
  intros _ s2 ((_ & Hx2 & _) & Hp2). apply wp_ret. split_and!; [done|congruence|].
  by rewrite (ext_seek _ _ _ Hx2), (ext_seek _ _ _ Hx1).
Qed.

(** The packets of one read from the kernel. *)
Lemma nfqueue_packet_cb_completes s p :
  inv s → wait_on_reboot s = false → completes 0 (nfqueue_packet_cb p) s.
Proof.
  intros Hi Hw. unfold nfqueue_packet_cb. destruct (nf_hdr p) as [[i hook]|]; [|apply completes_ret].
  assert (Hc : completes 0 (packet_input_handle_packet i (nf_payload p) hook
    (nf_indev p) (nf_outdev p)) s).
  { destruct (nf_payload p) as [l|]; [|apply completes_ret]. apply packet_input_completes; auto. }
  destruct Hc as (a & s1 & R & G).
  destruct (wp_ok _ _ _ _ _ _ (safe_packet_input [] i (nf_payload p) hook (nf_indev p)
    (nf_outdev p) s Hi ltac:(constructor)) R) as (Hi1 & _).
  apply (completes_then 0 0 _ _ _ _ _ R G). destruct (a =? _); [apply completes_ret|].
  apply (total_completes None []); [total_go|done|constructor|done].
Qed.
