(* ===== verification/Daemon.v ===== *)
(** * core/main.c, message dispatch and the timer loop: the whole daemon

    [daemon_init] is the initialisation of [main]; [main_loop_step] one turn
    of its event loop: the expired timers run, then the callbacks of the
    descriptors that are ready. *)

From S2P Require Import Prelude.
From S2P Require Import Params.
From S2P Require Import Bytes.
From S2P Require Import TimerQueue.
From S2P Require Import State.
From S2P Require Import Frame.
From S2P Require Import Nl.
From S2P Require Import NlRecv.
From S2P Require Import RtTable.
From S2P Require Import Inv.
From S2P Require Import Total.
From S2P Require Import PacketQueue.
From S2P Require Import SeekList.
From S2P Require Import Socket.
From S2P Require Import Rerr.
From S2P Require Import RtUpdate.
From S2P Require Import Rrep.
From S2P Require Import Rreq.
From S2P Require Import Timeouts.
From S2P Require Import PacketInput.

#[local] Open Scope cm_scope.

(** ** Received AODV messages *)

Definition aodv_socket_process_packet (len src dst ttl ifindex : Z) : M () :=
  type ← recv_load8 0;
  if (type =? AODV_RREP) && (ttl =? 1) && (dst =? AODV_BROADCAST)
  then hello_process len ifindex
  else
    neighbor_add src ifindex ;;
    if type =? AODV_RREQ then rreq_process len src ttl ifindex
    else if type =? AODV_RREP then rrep_process len src ttl ifindex
    else if type =? AODV_RERR then rerr_process len src
    else if type =? AODV_RREP_ACK then rrep_ack_process src
    else ret ().

(** What [recvmsg] returns on an AODV socket: the datagram (the kernel
    truncates it to the buffer) and the control messages, in order. *)
Inductive cmsg := CmsgTtl (ttl : Z) | CmsgPktinfo (addr : Z).
Record datagram := mk_datagram {
  dg_bytes : list Z; dg_src : Z; dg_cmsgs : list cmsg
}.

Definition read_cmsg (acc : Z * Z) (c : cmsg) : Z * Z :=
  match c with
  | CmsgTtl t => (u8 t, acc.2)
  | CmsgPktinfo a => (acc.1, a)
  end.

Definition is_local_source (s : state) (src : Z) : bool :=
  existsb (λ i, dev_ipaddr (DEV_NR s i) =? src) (enabled_devs s).

(** [None] is a [recvmsg] error.  Logging at [LOG_ERR] ends the process (the end
    of [alog]), so an unknown descriptor does too. *)
Definition aodv_socket_read (fd : Z) (msg : option datagram) : M () :=
  match msg with
  | None => ret ()
  | Some m =>
      let data := take (Z.to_nat RECV_BUF_SIZE) (dg_bytes m) in
      modify (λ s, set_recv_buf (data ++ drop (length data) (recv_buf s)) s) ;;
      let '(ttl, dst) := foldl read_cmsg (-1, AODV_BROADCAST) (dg_cmsgs m) in
      if ttl <? 0 then ret () else
      local ← gets (λ s, is_local_source s (dg_src m));
      if local : bool then ret () else
      dev ← gets (λ s, devfromsock s fd);
      match dev with
      | None => cexit (-1)
      | Some d =>
          aodv_socket_process_packet (Z.of_nat (length data)) (dg_src m) dst ttl
            (dev_ifindex d)
      end
  end.

(** ** The timer loop *)

(** The call [t->handler(t->data)]; the data of a timer is its owner. *)
Definition run_handler (h : handler) (id : timer_id) : M () :=
  match h, id with
  | route_expire_timeout, RtTimer d => route_expire_timeout_h d
  | route_delete_timeout, RtTimer d => route_delete_timeout_h d
  | local_repair_timeout, RtTimer d => local_repair_timeout_h d
  | rrep_ack_timeout, AckTimer d => rrep_ack_timeout_h d
  | hello_timeout, HelloTimer d => hello_timeout_h d
  | route_discovery_timeout, SeekTimer d => route_discovery_timeout_h d
  | rreq_record_timeout, RecTimer o i => rreq_record_timeout_h o i
  | rreq_blacklist_timeout, BlTimer d => rreq_blacklist_timeout_h d
  | hello_send_h, HelloSendTimer => hello_send
  | wait_on_reboot_timeout, WorbTimer => wait_on_reboot_timeout_h
  | packet_queue_timeout, GcTimer => packet_queue_timeout_h
  | print_rt_table, RtLogTimer => print_rt_table_h
  | _, _ => undefined NullDeref
  end.

(** The [while (!list_empty(&expTQ))] loop of [timer_timeout]. *)
Fixpoint run_expired (fuel : nat) : M () :=
  match fuel with
  | O => undefined OutOfFuel
  | S fuel =>
      r ← on_tq pop_expired;
      match r with
      | None => ret ()
      | Some (id, None) => run_expired fuel
      | Some (id, Some h) => run_handler h id ;; run_expired fuel
      end
  end.

Definition timer_timeout (now : timeval) : M () :=
  on_tq (collect_expired now) ;;
  n ← gets (λ s, length (expTQ (tq s)));
  run_expired (S n).

(** [timer_timeout_now]: fire a timer that is linked into a queue at once. *)
Definition timer_timeout_now (id : timer_id) : M Z :=
  r ← on_tq (timer_remove id);
  if r =? 0 then ret (-1) else
  t ← on_tq (timer_get id);
  match tm_handler t with
  | None => undefined NullDeref
  | Some h => run_handler h id ;; ret 1
  end.

(** The result is the time to wait, [None] for NULL. *)
Definition timer_age_queue : M (option timeval) :=
  now ← gettimeofday;
  empty ← gets (λ s, bool_decide (TQ (tq s) = []));
  if empty : bool then ret None else
  timer_timeout now ;;
  on_tq (remaining_time now).

(** ** The main loop *)

Inductive input :=
  | InAodv (fd : Z) (msg : option datagram)     (* an AODV socket is readable *)
  | InNfqueue (pkts : list nf_packet)           (* packets of one NFQUEUE read *)
  | InNetlink (received : option (list Z)).     (* what recvfrom stores; None: it fails *)

Definition run_callback (i : input) : M () :=
  match i with
  | InAodv fd msg => aodv_socket_read fd msg
  | InNfqueue pkts => foreach pkts () (λ p _, nfqueue_packet_cb p)
  | InNetlink received => nl_rt_callback unlogged received
  end.

(** One turn of [while (1)] in [main]; an empty list of inputs is a timeout or
    an interrupted [pselect].  The result is the timeout given to [pselect]. *)
Definition main_loop_step (inputs : list input) : M timeval :=
  timeout ← timer_age_queue;
  match timeout with
  | None => undefined NullDeref
  | Some t => foreach inputs () (λ i _, run_callback i) ;; ret t
  end.

(** ** Initialisation *)

(** What the [ioctl] calls of [host_init] report about one interface, and the
    descriptor [aodv_socket_init] opens on it. *)
Record if_info := mk_if_info {
  if_name : list Z; if_index : Z; if_addr : Z; if_netmask : Z; if_broadaddr : Z;
  if_sock : Z
}.

(** The interface loop of [host_init]: it stops after [MAX_NR_INTERFACES]
    interfaces.  The address data goes to [DEV_IFINDEX(ifindex)]. *)
Definition host_add_if (s : state) (i : if_info) : state :=
  let h := this_host s in
  let n := Z.to_nat (nif h) in
  if bool_decide (MAX_NR_INTERFACES <= n)%nat then s else
  let d0 := default no_dev (devs h !! n) in
  let devs1 := <[n := mk_dev (dev_enabled d0) (dev_sock d0) (if_index i) (dev_ifname d0)
                        (dev_ipaddr d0) (dev_netmask d0) (dev_broadcast d0)]> (devs h) in
  let s1 := set_dev_indices (<[n := if_index i]> (dev_indices s))
              (set_this_host (mk_host (seqno h) (bcast_time h) (fwd_time h) (rreq_id h)
                                (nif h + 1) devs1) s) in
  let k := ifindex2devindex s1 (if_index i) in
  let d := DEV_NR s1 k in
  let h1 := this_host s1 in
  set_this_host (mk_host (seqno h1) (bcast_time h1) (fwd_time h1) (rreq_id h1) (nif h1)
    (<[k := mk_dev true (if_sock i) (dev_ifindex d) (if_name i) (if_addr i)
              (if_netmask i) (if_broadaddr i)]> (devs h1))) s1.

Definition host_init (ifs : list if_info) : M () :=
  modify (λ s, set_dev_indices (replicate MAX_NR_INTERFACES 0)
    (set_this_host (mk_host 1 tv_zero tv_zero 0 0
                      (replicate (S MAX_NR_INTERFACES) no_dev)) s)) ;;
  now ← gettimeofday;
  modify (λ s, set_this_host (set_bcast_time now (this_host s)) s) ;;
  modify (λ s, foldl host_add_if s ifs).

(** The initialisation sequence of [main] after the command line has been
    parsed, for a system on which every service starts. *)
Definition daemon_init (ifs : list if_info) : M () :=
  rt_table_init ;;
  packet_queue_init ;;
  host_init ifs ;;
  modify (set_nfq_queue true) ;;
  h ← gets this_host;
  if nif h =? 0 then cexit (-1) else
  modify (set_num_rreq 0) ;;
  modify (set_num_rerr 0) ;;
  o ← gets opts;
  worb ← gets wait_on_reboot;
  when worb
    (on_tq (timer_init WorbTimer wait_on_reboot_timeout) ;;
     set_timeout WorbTimer (delete_period o)) ;;
  when (negb (optimized_hellos o) && negb (llfeedback o)) hello_start ;;
  when (negb (rt_log_interval o =? 0))
    (on_tq (timer_init RtLogTimer print_rt_table) ;;
     set_timeout RtLogTimer (rt_log_interval o)).

(** The steps of [cleanup], the function registered with [atexit], that free the daemon's routes
    and packets; those that close its descriptors are in [Startup.v]. *)
Definition cleanup : M () :=
  rt_table_destroy ;;
  packet_queue_destroy ;;
  modify (set_nfq_queue false).

(** The zero-initialised globals of the program, with the static timers. *)
Definition static_timers : gmap timer_id (timer handler) :=
  list_to_map ((λ id, (id, mk_timer false tv_zero None)) <$>
    [HelloSendTimer; WorbTimer; GcTimer; RtLogTimer]).

Definition boot_state (e : environment) (worb : bool) : state :=
  mk_state e 0 0 0 worb
    (mk_host 0 tv_zero tv_zero 0 0 (replicate (S MAX_NR_INTERFACES) no_dev))
    (replicate MAX_NR_INTERFACES 0)
    (mk_tqueue static_timers [] [])
    (mk_table 0 0 (replicate RT_TABLESIZE []))
    [] [] [] (mk_pq [] 0)
    (replicate (RREQ_RATELIMIT - 1) tv_zero) 0
    (replicate (RERR_RATELIMIT - 1) tv_zero) 0
    (replicate (Z.to_nat SEND_BUF_SIZE) 0) (replicate (Z.to_nat RECV_BUF_SIZE) 0)
    false 0 [].

(** ** Safety of the whole daemon *)

Lemma safe_process_packet ks len src dst ttl ifi :
  safe Full ks (aodv_socket_process_packet len src dst ttl ifi) nop.
Proof. unfold aodv_socket_process_packet. safe_go. Qed.
#[export] Hint Resolve safe_process_packet : aodv.

(** A datagram consists of bytes. *)
Definition input_ok (i : input) : Prop :=
  match i with
  | InAodv _ (Some m) => bytes_ok (dg_bytes m)
  | _ => True
  end.

Lemma safe_recv_data ks (m : list Z) :
  bytes_ok m →
  safe Full ks (modify (λ s, set_recv_buf
    (take (Z.to_nat RECV_BUF_SIZE) m
     ++ drop (length (take (Z.to_nat RECV_BUF_SIZE) m)) (recv_buf s)) s)) nop.
Proof.
  intros Hm. apply safe_modify. intros s Hi. set (d := take _ m).
  assert (Hd : (length d <= Z.to_nat RECV_BUF_SIZE)%nat)
    by (unfold d; rewrite length_take; lia).
  assert (Hb : bytes_ok (d ++ drop (length d) (recv_buf s))).
  { apply Forall_app. split; [by apply Forall_take|]. apply Forall_drop, Hi. }
  assert (Hl : length (d ++ drop (length d) (recv_buf s)) = Z.to_nat RECV_BUF_SIZE)
    by (rewrite length_app, length_drop, (inv_recv _ Hi); lia).
  split; [by destruct Hi|by split].
Qed.

Lemma safe_socket_read ks fd m :
  input_ok (InAodv fd m) → safe Full ks (aodv_socket_read fd m) nop.
Proof.
  intros Hm. unfold aodv_socket_read. destruct m as [m|]; [|safe_go].
  eapply safe_bind; [by apply safe_recv_data|]. intros ?. cbn [app].
  destruct (foldl _ _ _) as [ttl dst]. safe_go.
Qed.

(** What the callbacks may do that is undefined: a netlink message that the kernel would not send
    makes [nl_rt_callback] read what was not received or copy an address that is too long. *)
Definition malformed (d : list Z) : Prop := ∀ l, ¬ kernel_msg d l.
Definition callback_ub (i : input) (u : ub) : Prop :=
  buf_ub u ∨ (nl_ub u ∧ ∃ d, i = InNetlink (Some d) ∧ malformed d).

Lemma netlink_callback_spec r (s : state) :
  wp (callback_ub (InNetlink r)) (nl_rt_callback unlogged r) (λ _ s', s' = s) s.
Proof.
  pose proof (unlogged_ends r s) as H. unfold wp in *.
  destruct (nl_rt_callback unlogged r s) as [a s'| |u] eqn:E; [done|done|].
  right. split; [done|]. destruct r as [d|]; [|done]. exists d. split; [done|]. intros l Hl.
  by rewrite (unlogged_run _ _ s Hl) in E.
Qed.

Lemma run_callback_spec i s :
  input_ok i → inv s → wp (callback_ub i) (run_callback i) (λ _ s', inv s' ∧ ext Full s s') s.
Proof.
  intros Hi Hs. destruct i as [fd m|pkts|r]; cbn [run_callback].
  - eapply wp_weaken; [|by left]. eapply wp_mono; [by apply (safe_socket_read [] fd m); [| |constructor]|]. by intros ? ? (? & ? & _).
  - eapply wp_weaken; [|by left]. eapply wp_mono; [apply (wp_safe Full [] _ nop s); [safe_go|done|done|constructor]|].
    by intros ? ? (? & ? & _).
  - eapply wp_mono; [apply netlink_callback_spec|]. by intros ? ? ->.
Qed.

(** *** Expired timers *)

(** The log of the routing table is on. *)
Definition log_on (s : state) : Prop := rt_log_interval (opts s) ≠ 0.

(** What one handler may change: unlike [ext], a route may be deleted. *)
Record after_handler (s s' : state) : Prop := {
  ah_env : env s' = env s;
  ah_exp : (length (expTQ (tq s')) <= length (expTQ (tq s)))%nat;
  ah_seqno : seqno (this_host s) ≠ 0 → seqno (this_host s') ≠ 0;
  ah_gc : linked s GcTimer → linked s' GcTimer;
  ah_devs : devs (this_host s') = devs (this_host s);
  ah_nif : nif (this_host s') = nif (this_host s);
  ah_log : linked s' RtLogTimer → linked s RtLogTimer ∨ log_on s
}.

#[export] Instance after_handler_preorder : PreOrder after_handler.
Proof.
  split; [intros s; split; try done; auto|]. intros s1 s2 s3 [E1 ? ? ? ? ? L1] [E2 ? ? ? ? ? L2].
  assert (Hl : log_on s2 → log_on s1) by (unfold log_on, opts; by rewrite E1).
  split; [congruence|lia|auto|auto|congruence|congruence|]. intros [H|H]%L2; auto.
Qed.

Lemma ext_after md s s' : ext md s s' → after_handler s s'.
Proof. intros []. split; auto. Qed.

Lemma safe_after {A} ks (m : M A) s :
  safe Full ks m nop → inv s → live_all s ks →
  wp buf_ub m (λ _ s', inv s' ∧ after_handler s s') s.
Proof.
  intros Hm Hi Hl. eapply wp_mono; [by apply Hm|]. intros a s' (? & ? & _).
  split; [done|by eapply ext_after].
Qed.

(** Starting any timer, the logging timer included. *)
Lemma wp_set_timeout_after s id ms :
  inv s → timer_owned s id → log_on s →
  wp buf_ub (set_timeout id ms) (λ _ s', inv s' ∧ after_handler s s') s.
Proof.
  intros Hi Ho Hlog. unfold set_timeout. eapply wp_run; [done|]. set (s1 := set_clock_reads _ s).
  pose proof (timers_ok_set_timeout _ (tq s1) id (env_clock (env s) (clock_reads s))
    ms (inv_timers _ Hi) Ho) as Hw.
  unfold wp, on_tq in *. destruct (timer_set_timeout _ _ _ _) as [[] q| |]; [|done|done].
  destruct Hw as (Hok & _ & _ & Hgc & Hlen & _). split; [|split; auto].
  apply inv_set_tq; [by destruct Hi|done].
Qed.

(** Printing the table goes wrong where the text of the interfaces' addresses does not fit its
    buffer, and for a route over an interface that has no name. *)
Definition log_ub (s : state) (u : ub) : Prop :=
  log_on s ∧ ((u = StringOverflow ∧ (DEVS_BUF_SIZE <= length (devs_text s))%nat) ∨
              (u = NullString ∧ ∃ n i, env_ifname (env s) n i = None)).
Definition handler_ub (s : state) (u : ub) : Prop := buf_ub u ∨ log_ub s u.

Lemma handler_ub_same s s' u :
  env s' = env s → devs (this_host s') = devs (this_host s) → handler_ub s' u → handler_ub s u.
Proof.
  unfold handler_ub, log_ub, log_on, opts, devs_text, dev_text, enabled_devs, DEV_NR. by intros -> ->.
Qed.

Lemma print_rt_table_spec s :
  inv s → log_on s → wp (handler_ub s) print_rt_table_h (λ _ s', inv s' ∧ after_handler s s') s.
Proof.
  intros Hi Hlog. apply wp_bind, wp_gets. apply wp_bind.
  eapply (wp_mono _ _ (λ _ s', s' = s ∨ s' = set_clock_reads (S (clock_reads s)) s)).
  - apply wp_when; intros _; [|by left]. unfold wp. rewrite (print_routes_outcome s Hi). unfold print_outcome.
    case_bool_decide as Hd; [|right; split; [done|]; left; split; [done|lia]].
    set (s1 := set_clock_reads _ s). destruct (forallb (named s1) _) eqn:Hn; [by right|].
    right. split; [done|]. right. split; [done|]. apply not_true_iff_false in Hn. rewrite forallb_forall in Hn.
    destruct (decide (Exists (λ e, if_indextoname s1 (rt_ifindex e) = None) (concat (tbl (rt_tbl s))))) as [He|He].
    + apply Exists_exists in He as (e & _ & He). exists (clock_reads s1), (rt_ifindex e). unfold if_indextoname in He.
      by destruct (env_ifname _ _ _).
    + destruct Hn. intros e Hin%list_elem_of_In. apply not_Exists_Forall in He; [|apply _].
      pose proof (proj1 (Forall_forall _ _) He e Hin) as Hne. unfold named. apply bool_decide_eq_true_2.
      destruct (if_indextoname s1 (rt_ifindex e)) eqn:E; [by eexists|]. by destruct (Hne E).
  - intros _ s1 Hs1. apply wp_bind, wp_gets.
    assert (Hi1 : inv s1) by (destruct Hs1 as [->| ->]; [done|by destruct Hi]).
    assert (Hlog1 : log_on s1) by by destruct Hs1 as [->| ->].
    eapply wp_weaken; [|by left]. eapply wp_mono; [by apply wp_set_timeout_after|].
    intros _ s2 [? Ha]. split; [done|]. transitivity s1; [|done]. destruct Hs1 as [->| ->]; [done|]. by split; auto.
Qed.

(** The handler of an expired timer runs safely: the object it is given is
    allocated. *)
Lemma run_handler_spec s h id :
  inv s → timer_owned s id → fits h id = true → ¬ linked s id → (id = RtLogTimer → log_on s) →
  wp (handler_ub s) (run_handler h id) (λ _ s', inv s' ∧ after_handler s s') s.
Proof.
  intros Hi Ho Hf Hl Hlog.
  destruct h, id; try done; simpl in Ho |- *;
    lazymatch goal with
    | |- wp _ print_rt_table_h _ _ => apply print_rt_table_spec; [done|by apply Hlog]
    | |- _ => apply (wp_weaken buf_ub); [|by left]
    end;
    try (eapply safe_after; [|done|constructor]; safe_leaf);
    try (apply (safe_after [dest]); [safe_leaf|done|live]).
  - destruct (rt_table_delete_run s dest Hi Ho)
      as (s' & R & ? & _ & ? & [? ? Hlg] & ? & _ & ? & ?).
    unfold wp, route_delete_timeout_h. rewrite R. split; [done|]. split; try done. intros HL. left. by apply Hlg.
  - eapply wp_mono; [by apply route_discovery_timeout_spec|].
    intros _ s' (? & ?). split; [done|by eapply ext_after].
  - destruct (rreq_record_timeout_run s orig id Hi Hl) as (s' & R & ? & ? & _).
    unfold wp. rewrite R. split; [done|by eapply ext_after].
  - destruct (rreq_blacklist_timeout_run s dest Hi Hl) as (s' & R & ? & ? & _).
    unfold wp. rewrite R. split; [done|by eapply ext_after].
Qed.

(** The collector's handler restarts its timer. *)
Lemma packet_queue_timeout_linked s :
  inv s → wp buf_ub packet_queue_timeout_h (λ _ s', linked s' GcTimer) s.
Proof.
  intros Hi. unfold packet_queue_timeout_h. apply wp_bind.
  eapply wp_mono; [apply (safe_garbage_collect Full []); [done|constructor]|].
  intros _ s1 (Hi1 & _). eapply wp_mono; [by apply (wp_set_timeout Full)|].
  intros _ s2 (_ & _ & ? & _). done.
Qed.

(** The state after the first expired timer has been taken off the list. *)
Definition popped (s : state) (id : timer_id) (t : timer handler) (r : list timer_id) : state :=
  set_tq (mk_tqueue (<[id := mk_timer false (tm_timeout t) (tm_handler t)]> (timers (tq s)))
    (TQ (tq s)) r) s.

Lemma pop_expired_run s id r :
  inv s → expTQ (tq s) = id :: r →
  ∃ t h, on_tq pop_expired s = Ok (Some (id, Some h)) (popped s id t r) ∧
    tm_handler t = Some h ∧ inv (popped s id t r) ∧ timer_owned (popped s id t r) id ∧
    fits h id = true ∧ ¬ linked (popped s id t r) id.
Proof.
  intros Hi Hexp. pose proof (inv_timers _ Hi) as Hok.
  destruct (pop_expired_spec (tq s) id r (to_wf _ _ Hok) Hexp)
    as (t & Ht & Hpop & Hwf & [h Hh]).
  exists t, h. unfold popped. rewrite Hh in *.
  assert (Hfit : fits h id = true) by by eapply to_fits.
  split_and!; [by apply on_tq_ok|done| | |done|].
  - apply inv_set_tq; [done|]. apply (timers_ok_put _ _ id t); [done|done| |done|done].
    simpl. by intros h' [= <-].
  - apply (to_owned _ _ Hok). eauto.
  - pose proof (wf_nodup _ (to_wf _ _ Hok)) as Hnd. rewrite Hexp in Hnd.
    unfold linked. simpl. rewrite elem_of_app. apply NoDup_app in Hnd as (_ & Hn & Hr).
    apply NoDup_cons in Hr as [Hr _]. intros [Hin|Hin]; [|done].
    apply (Hn id Hin). left.
Qed.

(** Its handler runs safely, and the collector's timer is pending afterwards. *)
Lemma expired_handler_spec s id t h r :
  expTQ (tq s) = id :: r → linked s GcTimer → (linked s RtLogTimer → log_on s) → inv (popped s id t r) →
  timer_owned (popped s id t r) id → fits h id = true → ¬ linked (popped s id t r) id →
  wp (handler_ub s) (run_handler h id)
    (λ _ s', inv s' ∧ after_handler (popped s id t r) s' ∧ linked s' GcTimer) (popped s id t r).
Proof.
  intros Hexp Hgc Hlog Hi1 Hown Hfit Hnl.
  assert (Hlog1 : id = RtLogTimer → log_on (popped s id t r)).
  { intros ->. apply Hlog. unfold linked. rewrite Hexp, elem_of_app. right. left. }
  apply (wp_weaken (handler_ub (popped s id t r))); [|intros u; by apply handler_ub_same].
  destruct (decide (id = GcTimer)) as [->|Hne].
  - destruct h; try done. simpl. eapply wp_mono; [apply wp_and|].
    + by apply (run_handler_spec _ packet_queue_timeout GcTimer).
    + eapply wp_weaken; [by apply packet_queue_timeout_linked|by left].
    + intros _ s2 [[? ?] ?]. done.
  - eapply wp_mono; [by apply run_handler_spec|]. intros _ s2 [? Ha].
    split_and!; [done|done|]. apply Ha. unfold linked in *. simpl.
    rewrite Hexp, !elem_of_app, elem_of_cons in *. intuition congruence.
Qed.

Lemma after_log s s' :
  after_handler s s' → (linked s RtLogTimer → log_on s) → linked s' RtLogTimer → log_on s'.
Proof.
  intros Ha Hl Hs. assert (Hs' : log_on s) by (destruct (ah_log _ _ Ha Hs); auto).
  unfold log_on, opts in *. by rewrite (ah_env _ _ Ha).
Qed.

Lemma run_expired_spec fuel : ∀ s,
  inv s → linked s GcTimer → (linked s RtLogTimer → log_on s) → (length (expTQ (tq s)) < fuel)%nat →
  wp (handler_ub s) (run_expired fuel) (λ _ s', inv s' ∧ after_handler s s' ∧
    linked s' GcTimer ∧ expTQ (tq s') = []) s.
Proof.
  induction fuel as [|fuel IH]; intros s Hi Hgc Hlog Hf; [lia|]. cbn [run_expired].
  destruct (expTQ (tq s)) as [|id r] eqn:Hexp.
  { apply wp_bind. unfold wp, on_tq, pop_expired. rewrite Hexp. simpl.
    assert (Hs : set_tq (tq s) s = s) by by destruct s. by rewrite Hs. }
  destruct (pop_expired_run s id r Hi Hexp) as (t & h & R & _ & Hi1 & Hown & Hfit & Hnl).
  eapply wp_run; [exact R|]. apply wp_bind.
  eapply wp_mono; [by apply expired_handler_spec|]. intros _ s2 (Hi2 & Ha & Hg2).
  pose proof (ah_exp _ _ Ha) as Hx. simpl in Hx, Hf.
  assert (Ha' : after_handler s s2).
  { destruct Ha as [Ha1 _ Ha3' _ Ha5 Ha6 Ha7]. split; [done|rewrite Hexp; simpl; lia|done|done|done|done|].
    intros [H|H]%Ha7; [left|by right]. unfold linked in *. simpl in H. rewrite Hexp.
    rewrite !elem_of_app, elem_of_cons in *. tauto. }
  eapply wp_mono; [eapply wp_weaken; [apply IH; [done|done| |lia]|]|].
  - by apply (after_log s).
  - intros u. by apply handler_ub_same; apply Ha'.
  - intros _ s3 (Hi3 & Ha3 & Hg3 & Hx3). split_and!; [done|by transitivity s2|done|done].
Qed.

(** Between two turns of the main loop: the invariant holds, no timer is left
    in the list of expired timers and the collector's timer is pending. *)
Record idle (s : state) : Prop := {
  idle_inv : inv s;
  idle_expired : expTQ (tq s) = [];
  idle_gc : GcTimer ∈ TQ (tq s);
  idle_seqno : seqno (this_host s) ≠ 0;
  idle_log : linked s RtLogTimer → log_on s
}.

(** What a turn of the main loop does not change. *)
Definition same_host (s s' : state) : Prop :=
  env s' = env s ∧ devs (this_host s') = devs (this_host s) ∧
  nif (this_host s') = nif (this_host s).

#[export] Instance same_host_preorder : PreOrder same_host.
Proof. split; [done|]. intros s1 s2 s3 (? & ? & ?) (? & ? & ?). split_and!; congruence. Qed.

Lemma after_same_host s s' : after_handler s s' → same_host s s'.
Proof. intros []. done. Qed.

Lemma timer_timeout_spec s now :
  idle s → wp (handler_ub s) (timer_timeout now) (λ _ s', idle s' ∧ same_host s s') s.
Proof.
  intros [Hi He Hgc Hsq Hlog]. pose proof (inv_timers _ Hi) as Hok. unfold timer_timeout.
  destruct (collect_expired_spec (tq s) now (to_wf _ _ Hok)) as (e & r & HTQ & Hc & Hwf & _).
  eapply wp_run; [by apply on_tq_ok|]. apply wp_bind, wp_gets.
  set (s1 := set_tq _ s).
  assert (Hi1 : inv s1).
  { apply inv_set_tq; [done|]. destruct Hok. by split. }
  assert (Hlink : ∀ id, linked s1 id ↔ linked s id).
  { intros id. unfold linked. simpl. rewrite HTQ, !elem_of_app. tauto. }
  assert (Hlog1 : linked s1 RtLogTimer → log_on s1) by (rewrite Hlink; exact Hlog).
  eapply wp_mono; [apply (run_expired_spec (S (length (expTQ (tq s1)))) s1 Hi1); [|done|lia]|].
  - apply Hlink. unfold linked. rewrite elem_of_app. by left.
  - intros _ s2 (Hi2 & Ha & Hg2 & Hx2). split; [|by apply after_same_host in Ha].
    split; [done|done| |by apply Ha|by apply (after_log s1)].
    unfold linked in Hg2. by rewrite Hx2, app_nil_r in Hg2.
Qed.

(** [timer_age_queue] never returns NULL. *)
Lemma timer_age_queue_spec s :
  idle s → wp (handler_ub s) timer_age_queue (λ r s', is_Some r ∧ idle s' ∧ same_host s s') s.
Proof.
  intros Hs. unfold timer_age_queue. eapply wp_run; [done|]. apply wp_bind, wp_gets.
  set (s1 := set_clock_reads _ s).
  assert (Hs1 : idle s1) by (destruct Hs as [[] ? ? ? ?]; by split).
  rewrite bool_decide_eq_false_2.
  2:{ intros Hn. pose proof (idle_gc _ Hs1) as Hin. rewrite Hn in Hin.
      by apply not_elem_of_nil in Hin. }
  apply wp_bind. eapply wp_mono; [by apply (timer_timeout_spec s1)|].
  intros _ s2 [Hs2 He2]. pose proof (idle_gc _ Hs2) as Hin.
  destruct (TQ (tq s2)) as [|id l] eqn:HT; [by apply not_elem_of_nil in Hin|].
  destruct (wf_linked _ (to_wf _ _ (inv_timers _ (idle_inv _ Hs2))) id) as (t & Ht & _).
  { rewrite HT, elem_of_app. left. left. }
  unfold wp, on_tq, remaining_time. rewrite HT. unfold bind, timer_get. rewrite Ht.
  simpl. assert (Hq : set_tq (tq s2) s2 = s2) by by destruct s2. rewrite Hq.
  split_and!; [eauto|done|done].
Qed.

Lemma idle_after s s' : idle s → inv s' → after_handler s s' → idle s'.
Proof.
  intros [Hi Hx Hg Hs Hlog] Hi' Ha. pose proof (after_log _ _ Ha Hlog). destruct Ha as [_ Hl Hsq Hgc _ _ _].
  assert (Hx' : expTQ (tq s') = []).
  { rewrite Hx in Hl. simpl in Hl. apply nil_length_inv. lia. }
  split; [done|done| |auto|done].
  assert (Hlk : linked s' GcTimer).
  { apply Hgc. unfold linked. rewrite elem_of_app. by left. }
  unfold linked in Hlk. by rewrite Hx', app_nil_r in Hlk.
Qed.

Lemma idle_ext s s' : idle s → inv s' → ext Full s s' → idle s'.
Proof. intros Hs Hi He. eapply idle_after; [done|done|by eapply ext_after]. Qed.

(** The undefined behaviours of a turn. *)
Definition turn_ub (s : state) (inputs : list input) (u : ub) : Prop :=
  handler_ub s u ∨ (nl_ub u ∧ ∃ d, InNetlink (Some d) ∈ inputs ∧ malformed d).

(** One turn of the main loop keeps the daemon idle, for any input. *)
Lemma main_loop_step_spec s inputs :
  idle s → Forall input_ok inputs →
  wp (turn_ub s inputs) (main_loop_step inputs) (λ _ s', idle s' ∧ same_host s s') s.
Proof.
  intros Hs Hin. unfold main_loop_step. apply wp_bind.
  eapply wp_mono; [eapply wp_weaken; [by apply timer_age_queue_spec|by left]|].
  intros r s1 ([t ->] & Hs1 & He1). apply wp_bind.
  eapply wp_mono; [apply (wp_foreach _ (λ _ s', idle s' ∧ same_host s s')); [done|]|].
  - intros i _ s2 Hi [Hs2 He2].
    eapply wp_mono; [eapply wp_weaken; [apply (run_callback_spec i s2); [|apply Hs2]|]|].
    { by eapply Forall_forall in Hin. }
    { intros u [Hu|[Hu (d & -> & Hd)]]; [by left; left|]. right. split; [done|]. by exists d. }
    intros [] s3 (Hi3 & He3). split; [by eapply idle_ext|].
    transitivity s2; [done|by eapply after_same_host, ext_after].
  - intros ? s2 Hs2. done.
Qed.

(** *** Initialisation *)

(** The environment hands out fewer route entries than [num_entries] counts. *)
Definition env_ok (e : environment) : Prop := 0 <= env_heap e < 4294967296.

Lemma empty_table_ok n : table_ok (mk_table 0 n (replicate RT_TABLESIZE [])).
Proof.
  split; cbn [tbl num_entries]; [done|done| | |].
  - intros i b [-> _]%lookup_replicate. constructor.
  - by intros i b e [-> _]%lookup_replicate ?%not_elem_of_nil.
  - by intros i b e [-> _]%lookup_replicate ?%not_elem_of_nil.
Qed.

Lemma empty_table_lookup n m k : rt_lookup (mk_table n m (replicate RT_TABLESIZE [])) k = None.
Proof.
  unfold rt_lookup, bucket. cbn [tbl]. rewrite lookup_replicate_2; [done|].
  apply hash_index_lt.
Qed.

Lemma static_timers_lookup id t :
  static_timers !! id = Some t → t = mk_timer false tv_zero None.
Proof.
  intros Ht. apply elem_of_list_to_map_2 in Ht.
  apply list_elem_of_fmap in Ht as (k & [= _ ->] & _). done.
Qed.

Lemma static_timers_dom id :
  is_Some (static_timers !! id) ↔ id ∈ [HelloSendTimer; WorbTimer; GcTimer; RtLogTimer].
Proof.
  split.
  - intros [t Ht]. apply elem_of_list_to_map_2 in Ht.
    by apply list_elem_of_fmap in Ht as (k & [= <- _] & Hk).
  - rewrite !elem_of_cons, elem_of_nil.
    intros [->|[->|[->|[->|[]]]]]; by eexists.
Qed.

Lemma inv_boot e w : env_ok e → inv (boot_state e w).
Proof.
  intros He.
  assert (Hn : ∀ k, ¬ rt_live (rt_tbl (boot_state e w)) k).
  { intros k. unfold rt_live, boot_state. cbn [rt_tbl]. rewrite empty_table_lookup.
    by intros []. }
  split; try done; try (apply NoDup_nil_2).
  - apply empty_table_ok.
  - split; cbn [boot_state tq timers].
    + split; simpl; try done.
      * apply NoDup_nil_2.
      * by intros id ?%not_elem_of_nil.
      * intros id t ->%static_timers_lookup. done.
      * intros id t ->%static_timers_lookup. done.
    + intros id. rewrite static_timers_dom, !elem_of_cons, elem_of_nil.
      destruct id; cbn [timer_owned boot_state seekhead rreq_records rreq_blacklist];
        try (specialize (Hn dest)); rewrite ?elem_of_nil; by intuition congruence.
    + intros id t h ->%static_timers_lookup. done.
    + intros id t Ht Hst. assert (Hd : is_Some (static_timers !! id)) by by eexists.
      rewrite static_timers_dom, !elem_of_cons, elem_of_nil in Hd.
      by destruct Hd as [->|[->|[->|[->|[]]]]].
  - apply Forall_replicate. lia.
Qed.

(** The set-up of the interfaces leaves the rest of the state alone. *)
Lemma host_add_ifs_keep ifs : ∀ s,
  inv s → let s' := foldl host_add_if s ifs in
  inv s' ∧ tq s' = tq s ∧ env s' = env s ∧ seqno (this_host s') = seqno (this_host s).
Proof.
  induction ifs as [|i ifs IH]; intros s Hi; [done|]. simpl.
  assert (H1 : inv (host_add_if s i) ∧ tq (host_add_if s i) = tq s ∧
    env (host_add_if s i) = env s ∧
    seqno (this_host (host_add_if s i)) = seqno (this_host s)).
  { unfold host_add_if. case_bool_decide; [done|]. split_and!; [by destruct Hi|done|done|done]. }
  destruct H1 as (Hi1 & Hq1 & He1 & Hs1).
  destruct (IH _ Hi1) as (? & Hq & He & Hs). split_and!; [done|congruence..].
Qed.

Lemma host_init_spec s ifs :
  inv s → wp buf_ub (host_init ifs) (λ _ s', inv s' ∧ tq s' = tq s ∧ env s' = env s ∧
    seqno (this_host s') = 1) s.
Proof.
  intros Hi. unfold host_init. apply wp_bind, wp_modify. eapply wp_run; [done|].
  apply wp_bind, wp_modify, wp_modify.
  lazymatch goal with |- inv (foldl _ ?s1 _) ∧ _ =>
    assert (Hi1 : inv s1) by by destruct Hi end.
  destruct (host_add_ifs_keep ifs _ Hi1) as (? & Hq & He & Hs). done.
Qed.

Lemma timer_unlinked_unused s id t :
  inv s → ¬ linked s id → timers (tq s) !! id = Some t → tm_used t = false.
Proof.
  intros Hi Hl Ht. destruct (tm_used t) eqn:Hu; [|done]. destruct Hl.
  by eapply wf_used; [apply Hi| |].
Qed.

(** A static timer other than the logging timer is initialised and started. *)
Lemma start_static_timer s id h ms :
  inv s → (∀ s', timer_owned s' id) → fits h id = true → id ≠ RtLogTimer → ¬ linked s id →
  wp buf_ub (on_tq (timer_init id h) ;; set_timeout id ms)
    (λ _ s', inv s' ∧ ext Full s s' ∧ linked s' id ∧ ∀ k, linked s' k → k = id ∨ linked s k) s.
Proof.
  intros Hi Ho Hf Hlog Hl. apply wp_bind.
  eapply wp_mono; [apply (safe_timer_reinit Full id h s); [done|done|done|]|].
  { intros t. by apply timer_unlinked_unused. }
  intros _ s1 (Hi1 & He1 & HT & HX).
  eapply wp_mono; [apply (wp_set_timeout Full); [done|done|done]|].
  intros _ s2 (Hi2 & He2 & Hl2 & Hk). split_and!; [done|by etransitivity|done|].
  intros k Hk'. unfold linked in Hk at 2. rewrite HT, HX in Hk. by apply Hk.
Qed.

Lemma start_log_timer s ms :
  inv s → ¬ linked s RtLogTimer → log_on s →
  wp buf_ub (on_tq (timer_init RtLogTimer print_rt_table) ;; set_timeout RtLogTimer ms)
    (λ _ s', inv s' ∧ after_handler s s') s.
Proof.
  intros Hi Hl Hlog. apply wp_bind.
  eapply wp_mono; [apply (safe_timer_reinit Full RtLogTimer print_rt_table s); [done|done|done|]|].
  { intros t. by apply timer_unlinked_unused. }
  intros _ s1 (Hi1 & He1 & _). assert (Hlog1 : log_on s1) by (unfold log_on, opts in *; by rewrite (ext_env _ _ _ He1)).
  eapply wp_mono; [by apply wp_set_timeout_after|].
  intros _ s2 [? ?]. split; [done|]. transitivity s1; [by eapply ext_after|done].
Qed.

(** After [main]'s initialisation the daemon is idle: its timers run and every
    structure is consistent. *)
Lemma daemon_init_spec e w ifs :
  env_ok e → wp buf_ub (daemon_init ifs) (λ _ s', idle s' ∧ env s' = e) (boot_state e w).
Proof.
  intros Hok. pose proof (inv_boot e w Hok) as Hi0. set (s0 := boot_state e w) in *.
  assert (Hl0 : ∀ k, ¬ linked s0 k) by (intros k; apply not_elem_of_nil).
  unfold daemon_init. apply wp_bind. change (wp buf_ub rt_table_init ?Q s0) with (Q () s0).
  unfold packet_queue_init. apply wp_bind, wp_bind, wp_modify.
  change (set_PQ _ s0) with s0.
  eapply wp_mono; [by apply start_static_timer|].
  intros _ s1 (Hi1 & He1 & Hg1 & Hk1). apply wp_bind.
  eapply wp_mono; [by apply host_init_spec|].
  intros _ s2 (Hi2 & Hq2 & He2 & Hs2). apply wp_bind, wp_modify.
  set (s3 := set_nfq_queue true s2). apply wp_bind, wp_gets.
  destruct (_ =? 0); [done|]. do 2 (apply wp_bind, wp_modify).
  set (s4 := set_num_rerr 0 _). assert (Hi4 : inv s4) by by destruct Hi2.
  do 2 apply wp_bind, wp_gets.
  assert (Hl4 : ∀ k, linked s4 k → k = GcTimer).
  { intros k. unfold linked. simpl. rewrite Hq2. intros Hk.
    destruct (Hk1 k Hk) as [|Hk0]; [done|]. by apply Hl0 in Hk0. }
  assert (Hgc4 : linked s4 GcTimer) by (unfold linked; simpl; by rewrite Hq2).
  assert (Hx4 : expTQ (tq s4) = []).
  { simpl. rewrite Hq2. pose proof (ext_exp _ _ _ He1) as Hx. simpl in Hx.
    apply nil_length_inv. lia. }
  assert (He4 : env s4 = e) by (simpl; rewrite He2; apply He1).
  assert (Hidle : idle s4).
  { split; [done|done| |simpl; lia|by intros ?%Hl4]. unfold linked in Hgc4.
    by rewrite Hx4, app_nil_r in Hgc4. }
  clearbody s4. clear -Hidle He4 Hl4. rename s4 into s.
  apply wp_bind. eapply wp_mono with (Q := λ _ s1, inv s1 ∧ ext Full s s1).
  { apply wp_when; intros _; [|split; [apply Hidle|done]].
    eapply wp_mono; [apply start_static_timer; try done; [apply Hidle|by intros ?%Hl4]|].
    intros _ s1 (? & ? & _). done. }
  intros _ s1 (Hi1 & He1). apply wp_bind. eapply wp_mono.
  { apply (wp_safe Full [] _ nop s); [safe_go|done|done|constructor]. }
  intros ? s2 (Hi2 & He2 & _). apply wp_when; intros Hz.
  - eapply wp_mono; [apply start_log_timer; [done| |]|].
    { intros Hl%(ext_log _ _ _ He2). by apply Hl4 in Hl. }
    { unfold log_on, opts. rewrite (ext_env _ _ _ He2). change (env_opts (env s)) with (opts s).
      apply negb_true_iff, Z.eqb_neq in Hz. exact Hz. }
    intros _ s3 (Hi3 & Ha3). split; [eapply idle_after; [|done|done]; by eapply idle_ext|].
    by rewrite (ah_env _ _ Ha3), (ext_env _ _ _ He2).
  - split; [by eapply idle_ext|]. by rewrite (ext_env _ _ _ He2).
Qed.

(** ** Reachable states *)

(** The states between two turns of the main loop of a daemon started in the
    environment [e]. *)
Inductive reachable (e : environment) : state → Prop :=
  | reach_init worb ifs s :
      daemon_init ifs (boot_state e worb) = Ok () s → reachable e s
  | reach_step s inputs t s' :
      reachable e s → Forall input_ok inputs →
      main_loop_step inputs s = Ok t s' → reachable e s'.

Lemma reachable_is_idle e s : env_ok e → reachable e s → idle s ∧ env s = e.
Proof.
  intros He. induction 1 as [w ifs s Hrun|s inputs t s' _ [Hs Hes] Hin Hrun].
  - exact (wp_ok _ _ _ _ _ _ (daemon_init_spec e w ifs He) Hrun).
  - destruct (wp_ok _ _ _ _ _ _ (main_loop_step_spec s inputs Hs Hin) Hrun) as [? [He' _]].
    split; [done|congruence].
Qed.

(** ** Shutdown *)

Lemma rt_table_destroy_loop keys : ∀ s,
  inv s → NoDup keys → live_all s keys →
  ∃ s', foreach keys () (λ k _, rt_table_delete k) s = Ok () s' ∧ inv s' ∧
    ∀ j, rt_lookup (rt_tbl s') j
         = if decide (j ∈ keys) then None else rt_lookup (rt_tbl s) j.
Proof.
  induction keys as [|k keys IH]; intros s Hi Hnd Hl; [by exists s|].
  apply NoDup_cons in Hnd as [Hk Hnd]. apply Forall_cons in Hl as [Hl1 Hl].
  cbn [foreach]. destruct (rt_table_delete_run s k Hi Hl1) as (s1 & R1 & Hi1 & Hj1 & _).
  destruct (IH s1 Hi1 Hnd) as (s2 & R2 & Hi2 & Hj2).
  - apply Forall_forall. intros j Hj. unfold rt_live. rewrite Hj1, decide_False.
    + by apply (proj1 (Forall_forall _ _) Hl).
    + by intros ->.
  - exists s2. split_and!; [by erewrite bind_ok by exact R1|done|]. intros j. rewrite Hj2, Hj1.
    destruct (decide (j ∈ keys)); [by rewrite decide_True by by right|].
    destruct (decide (j = k)) as [->|]; [by rewrite decide_True by left|].
    rewrite decide_False; [done|]. rewrite elem_of_cons. tauto.
Qed.

Lemma packet_queue_destroy_loop q : ∀ s,
  pq_head (PQ s) = q →
  ∃ s', foreach q () (λ qp _,
      modify (λ s, set_PQ (mk_pq (tail (pq_head (PQ s))) (pq_len (PQ s))) s) ;;
      nfqueue_set_packet_verdict (qp_packet_id qp) NF_DROP) s = Ok () s' ∧
    pq_head (PQ s') = [] ∧ rt_tbl s' = rt_tbl s ∧
    trace s' = verdict_events s NF_DROP q ++ trace s.
Proof.
  induction q as [|qp q IH]; intros s Hq.
  - exists s. unfold verdict_events. split_and!; try done. by destruct (nfq_queue s).
  - cbn [foreach]. unfold bind at 1, bind at 1, modify. rewrite verdict_run, Hq.
    set (s1 := set_trace _ _).
    destruct (IH s1 eq_refl) as (s' & Hrun & Hh & Hrt & Htr). exists s'.
    split_and!; [exact Hrun|done|done|]. rewrite Htr. unfold verdict_events. simpl.
    destruct (nfq_queue s); [|done]. by rewrite reverse_cons, <- app_assoc.
Qed.

Lemma frames_rt_table_destroy_loop keys :
  frames (λ s, (PQ s, nfq_queue s)) (foreach keys () (λ k _, rt_table_delete k)).
Proof.
  unfold rt_table_delete, precursor_list_destroy, rt_modify, nl_send_del_route_msg,
    nl_kern_route, nl_send. frame_go.
Qed.

(** C20: the exit handler runs to its end, empties the routing table and answers
    every buffered packet with a drop verdict, so that the kernel holds no
    packet for a daemon that is gone. *)
Theorem cleanup_releases (s : state) :
  inv s →
  ∃ s', cleanup s = Ok () s' ∧
    (∀ j, rt_lookup (rt_tbl s') j = None) ∧ pq_head (PQ s') = [] ∧ pq_len (PQ s') = 0 ∧
    ∃ tr, trace s' = (if nfq_queue s
                      then reverse ((λ qp, EvVerdict (qp_packet_id qp) NF_DROP) <$> pq_head (PQ s))
                      else []) ++ tr.
Proof.
  intros Hi. unfold cleanup, rt_table_destroy.
  destruct (rt_table_destroy_loop (rt_keys s) s Hi) as (s1 & R1 & Hi1 & Hj1).
  { apply rt_keys_nodup, Hi. }
  { apply Forall_forall. intros k Hk. by apply elem_of_rt_keys; [apply Hi|]. }
  pose proof (frames_rt_table_destroy_loop _ _ _ _ R1) as Hf. injection Hf as Hf1 Hf2.
  erewrite bind_ok by (erewrite bind_ok by done; exact R1).
  destruct (packet_queue_destroy_loop (pq_head (PQ s1)) s1 eq_refl)
    as (s2 & R2 & Hh & Hrt & Htr).
  unfold packet_queue_destroy.
  erewrite bind_ok by (erewrite bind_ok by done; erewrite bind_ok by exact R2; reflexivity).
  eexists. split; [reflexivity|]. simpl. split_and!.
  - intros j. rewrite Hrt, Hj1. case_decide as Hin; [done|].
    apply eq_None_not_Some. intros Hl. destruct Hin. by apply elem_of_rt_keys; [apply Hi|].
  - done.
  - done.
  - exists (trace s1). rewrite Htr. unfold verdict_events. by rewrite Hf1, Hf2.
Qed.

(** ** The daemon as a whole *)

(** C1: the daemon is memory safe.  Started in any environment and fed any datagrams, packets,
    netlink messages and timer expiries, no turn of its main loop uses a freed route, seek entry,
    record or timer, dereferences NULL, links a list element twice or calls a handler with an
    object of another type.  The only undefined behaviours that remain are: an overrun of the two
    message buffers; with the log of the routing table on, an overrun of the buffer for the
    interfaces' addresses when their text is longer than it, and a NULL name printed for a route
    over an interface that has none; and with a netlink message that the kernel does not send,
    a read of what was not received or a copy of an address that is too long. *)
Theorem daemon_memory_safe (e : environment) (s : state) (inputs : list input) (u : ub) :
  env_ok e → reachable e s → Forall input_ok inputs →
  main_loop_step inputs s = Ub u →
  (u = SendBufOverflow ∨ u = RecvBufOverread) ∨
  (rt_log_interval (env_opts e) ≠ 0 ∧
     ((u = StringOverflow ∧ (DEVS_BUF_SIZE <= length (devs_text s))%nat) ∨
      (u = NullString ∧ ∃ n i, env_ifname e n i = None))) ∨
  ((u = Uninitialised ∨ u = StringOverflow) ∧
     ∃ d, InNetlink (Some d) ∈ inputs ∧ ∀ l, ¬ kernel_msg d l).
Proof.
  intros He Hr Hin Hrun. destruct (reachable_is_idle e s He Hr) as [Hs Hes].
  pose proof (main_loop_step_spec s inputs Hs Hin) as Hw. unfold wp in Hw. rewrite Hrun in Hw.
  rewrite <- Hes. destruct Hw as [[Hu|Hu]|Hu]; auto.
Qed.

(** Initialisation succeeds in establishing the invariant from the zeroed
    globals, whatever the options, interfaces and clock: it either returns an
    idle daemon or exits. *)
Theorem daemon_init_establishes (e : environment) (worb : bool) (ifs : list if_info) :
  env_ok e →
  match daemon_init ifs (boot_state e worb) with
  | Ok _ s => idle s
  | Exit _ => True
  | Ub u => u = SendBufOverflow ∨ u = RecvBufOverread
  end.
Proof.
  intros He. pose proof (daemon_init_spec e worb ifs He) as Hw. unfold wp in Hw.
  destruct (daemon_init ifs _); [by destruct Hw|done|done].
Qed.

(** C2: in every state between two turns of the main loop the routing table is
    well-formed; the timer queue is well-formed, holds exactly the timers of
    the objects that exist, each with a handler that fits it; the packet queue
    counts its packets and holds at most [MAX_QUEUE_LENGTH]; the node's own
    sequence number is a non-zero 32-bit value; and the garbage collector's
    timer is pending, so that [timer_age_queue] never returns NULL. *)
Theorem reachable_invariant (e : environment) (s : state) :
  env_ok e → reachable e s →
  table_ok (rt_tbl s) ∧ tq_wf (tq s) ∧
  (∀ id, is_Some (timers (tq s) !! id) ↔ timer_owned s id) ∧
  (∀ id t h, timers (tq s) !! id = Some t → tm_handler t = Some h → fits h id = true) ∧
  (∀ id t, timers (tq s) !! id = Some t → static_timer id = false → is_Some (tm_handler t)) ∧
  pq_len (PQ s) = Z.of_nat (length (pq_head (PQ s))) ∧ pq_len (PQ s) <= MAX_QUEUE_LENGTH ∧
  1 <= seqno (this_host s) < 4294967296 ∧ GcTimer ∈ TQ (tq s).
Proof.
  intros He Hr. destruct (reachable_is_idle e s He Hr) as [[Hi Hx Hg Hsq _] _].
  pose proof (inv_seqno _ Hi). destruct (inv_timers _ Hi) as [Hwf Ho Hf Hh].
  split_and!; try done; try apply Hi; lia.
Qed.

(** The element of its array that a rate limiter with [num] transmissions on record writes next. *)
Definition ratel_slot (limit : nat) (num : Z) : Z :=
  if num =? Z.of_nat (limit - 1) then num - 1 else num.

(** C13: the values below have the types of their C declarations, in every state between two turns
    of the main loop.  Of every route: the sequence number has 32 bits, the hop count and the
    hello counter have 8, [state] is [INVALID] or [VALID], [hash] is the destination and [nprec] the
    length of the precursor list, which names nobody twice.  The number of entries and the node's
    own sequence number have 32 bits, the message buffers have their declared sizes, what was
    received consists of bytes, and the element that each rate limiter writes next is inside its
    array. *)
Theorem reachable_types (e : environment) (s : state) :
  env_ok e → reachable e s →
  (∀ k r, rt_lookup (rt_tbl s) k = Some r →
     0 <= rt_dest_seqno r < 2 ^ 32 ∧ 0 <= rt_hcnt r < 2 ^ 8 ∧ 0 <= rt_hello_cnt r < 2 ^ 8 ∧
     (rt_state r = INVALID ∨ rt_state r = VALID) ∧ rt_hash r = rt_dest_addr r ∧
     rt_nprec r = Z.of_nat (length (rt_precursors r)) ∧ NoDup (rt_precursors r)) ∧
  0 <= num_entries (rt_tbl s) < 2 ^ 32 ∧ 0 <= seqno (this_host s) < 2 ^ 32 ∧
  length (send_buf s) = Z.to_nat SEND_BUF_SIZE ∧ length (recv_buf s) = Z.to_nat RECV_BUF_SIZE ∧
  bytes_ok (recv_buf s) ∧
  0 <= ratel_slot RREQ_RATELIMIT (num_rreq s) < Z.of_nat (length (rreq_ratel s)) ∧
  0 <= ratel_slot RERR_RATELIMIT (num_rerr s) < Z.of_nat (length (rerr_ratel s)).
Proof.
  intros He Hr. destruct (reachable_is_idle e s He Hr) as [[Hi _ _ _ _] _].
  pose proof (inv_heap _ Hi) as Hheap. pose proof (tbl_count _ (inv_table _ Hi)) as Hcount.
  rewrite (inv_rreq_ratel _ Hi), (inv_rerr_ratel _ Hi).
  pose proof (inv_num_rreq _ Hi) as Hq. pose proof (inv_num_rerr _ Hi) as Hre.
  assert (Hslot : ∀ limit num, (1 < limit)%nat → 0 <= num <= Z.of_nat (limit - 1) →
    0 <= ratel_slot limit num < Z.of_nat (limit - 1)).
  { intros limit num Hl Hn. unfold ratel_slot. destruct (Z.eqb_spec num (Z.of_nat (limit - 1))); lia. }
  split_and!; try apply Hi; try lia; try (apply Hslot; [unfold RREQ_RATELIMIT, RERR_RATELIMIT; lia|done]).
  intros k r Hk. destruct (rt_lookup_ok _ _ _ (inv_table _ Hi) Hk). by split_and!; try lia.
Qed.
