(* ===== verification/Progress.v ===== *)
(** * The main loop makes progress

    [safe] shows what the daemon never does.  This file shows that a turn of the
    main loop returns: with room in the table and for messages without
    extensions, no handler and no callback ends the process or overruns a
    buffer. *)

From S2P Require Import Prelude.
From S2P Require Import Params.
From S2P Require Import Bytes.
From S2P Require Import TimerQueue.
From S2P Require Import State.
From S2P Require Import Frame.
From S2P Require Import Nl.
From S2P Require Import NlRecv.
From S2P Require Import RtTable.
From S2P Require Import Inv.
From S2P Require Import Total.
From S2P Require Import PacketQueue.
From S2P Require Import SeekList.
From S2P Require Import Socket.
From S2P Require Import Rerr.
From S2P Require Import RtUpdate.
From S2P Require Import Rrep.
From S2P Require Import Rreq.
From S2P Require Import Timeouts.
From S2P Require Import PacketInput.
From S2P Require Import Daemon.

#[local] Open Scope cm_scope.

(** The log of the routing table is off, or can be written: the addresses of the interfaces fit
    their buffer, and all interfaces have names. *)
Definition log_safe (s : state) : Prop :=
  log_on s → (length (devs_text s) < DEVS_BUF_SIZE)%nat ∧ ∀ n i, is_Some (env_ifname (env s) n i).

(** Room for [n] routes, the option for unidirectional links off, the wait after
    a reboot over, and the log in order. *)
Definition healthy (n : nat) (s : state) : Prop :=
  has_room n s ∧ unidir_hack (opts s) = false ∧ wait_on_reboot s = false ∧ log_safe s.

Lemma log_safe_same s s' :
  env s' = env s → devs (this_host s') = devs (this_host s) → log_safe s → log_safe s'.
Proof.
  unfold log_safe, log_on, opts, devs_text, dev_text, enabled_devs, DEV_NR. by intros -> ->.
Qed.

Lemma healthy_grows n1 n2 s s' :
  healthy (n1 + n2) s → grows n1 s s' → devs (this_host s') = devs (this_host s) → healthy n2 s'.
Proof.
  intros (Hr & Hu & Hw & Hlg) HG Hd. split_and!; [by eapply has_room_grows| | |].
  - unfold opts. by rewrite (proj1 HG).
  - by apply HG.
  - eapply log_safe_same; [apply HG|done|done].
Qed.

Lemma healthy_le n1 n2 s : healthy n2 s → (n1 <= n2)%nat → healthy n1 s.
Proof. intros (? & ? & ? & ?) ?. split_and!; [by eapply has_room_le|done|done|done]. Qed.

(** ** Timer handlers *)

(** Starting a timer that has a handler. *)
Lemma armed_completes s id ms t h :
  inv s → timers (tq s) !! id = Some t → tm_handler t = Some h →
  completes 0 (set_timeout id ms) s.
Proof.
  intros Hi Ht Hh. destruct (set_timeout_armed s id ms t h Hi Ht Hh) as (q & n & R).
  exists (), (set_tq q (set_clock_reads n s)). split; [done|by apply grows_same].
Qed.

Lemma packet_queue_timeout_completes s t h :
  inv s → timers (tq s) !! GcTimer = Some t → tm_handler t = Some h →
  completes 0 packet_queue_timeout_h s.
Proof.
  intros Hi Ht Hh. unfold packet_queue_timeout_h.
  destruct (total_frame tq Quiet None [] packet_queue_garbage_collect s)
    as (c & s1 & R1 & Hi1 & _ & G1 & T1);
    [unfold packet_queue_garbage_collect; total_go|safe_go| |done|constructor|done|].
  { unfold packet_queue_garbage_collect. apply frames_bind; [frame_go|intros now].
    by apply frames_drain_gen. }
  apply (completes_then 0 0 _ _ _ _ _ R1 G1).
  eapply armed_completes; [done|rewrite T1; exact Ht|done].
Qed.

Lemma print_rt_table_completes s t h :
  inv s → timers (tq s) !! RtLogTimer = Some t → tm_handler t = Some h → log_on s → log_safe s →
  completes 0 print_rt_table_h s.
Proof.
  intros Hi Ht Hh Hon Hsafe. destruct (Hsafe Hon) as [Hd Hn]. unfold print_rt_table_h.
  eapply completes_run; [done|done|]. set (s1 := set_clock_reads (S (clock_reads s)) s).
  assert (Hp : ∃ s', when (negb (num_entries (rt_tbl s) =? 0)) print_routes s = Ok () s' ∧ (s' = s ∨ s' = s1)).
  { destruct (_ =? 0); cbn [negb when]; [by exists s; split; [|left]|]. exists s1. split; [|by right].
    rewrite (print_routes_outcome s Hi). unfold print_outcome. rewrite bool_decide_eq_true_2 by done.
    rewrite (proj2 (forallb_forall _ _)); [done|]. intros e _. unfold named. apply bool_decide_eq_true_2.
    unfold if_indextoname. by apply fmap_is_Some. }
  destruct Hp as (s' & R & Hs'). assert (Hi' : inv s') by (destruct Hs' as [->| ->]; [done|by destruct Hi]).
  apply (completes_then 0 0 _ _ _ _ _ R); [destruct Hs' as [->| ->]; [apply grows_refl|by apply grows_same]|].
  eapply completes_run; [done|done|]. eapply armed_completes; [done|by destruct Hs' as [->| ->]|done].
Qed.

(** The handler of an expired timer, which is still the timer's handler. *)
Lemma run_handler_completes s h id t :
  inv s → timer_owned s id → fits h id = true → ¬ linked s id →
  timers (tq s) !! id = Some t → tm_handler t = Some h → (id = RtLogTimer → log_on s) → healthy 0 s →
  completes 0 (run_handler h id) s.
Proof.
  intros Hi Ho Hf Hl Ht Hh Hlog (Hr & Hu & Hw & Hsafe).
  destruct h, id; try done; simpl in Ho |- *.
  all: try (apply (total_completes (Some 0%nat) [dest]); [total_leaf|done|live|exact Hr]).
  - by apply route_delete_timeout_completes.
  - by apply route_discovery_timeout_completes.
  - destruct (rreq_record_timeout_run s orig id Hi Hl) as (s' & R & _ & _ & G). by exists (), s'.
  - destruct (rreq_blacklist_timeout_run s dest Hi Hl) as (s' & R & _ & _ & G). by exists (), s'.
  - destruct (hello_send_run s Hi) as (s' & R & G); [by exists t, hello_send_h|done|].
    by exists (), s'.
  - exists (), (set_wait_on_reboot false s). split; [done|]. split_and!; [done|done|].
    unfold rt_count. simpl. lia.
  - by eapply packet_queue_timeout_completes.
  - eapply print_rt_table_completes; [done|done|done|by apply Hlog|done].
Qed.

(** The expired timers. *)
Lemma run_expired_completes fuel : ∀ s,
  inv s → linked s GcTimer → (linked s RtLogTimer → log_on s) → (length (expTQ (tq s)) < fuel)%nat →
  healthy 0 s → completes 0 (run_expired fuel) s.
Proof.
  induction fuel as [|fuel IH]; intros s Hi Hgc Hlog Hf Hh; [lia|]. cbn [run_expired].
  destruct (expTQ (tq s)) as [|id r] eqn:Hexp.
  { eapply completes_run; [apply on_tq_ok; unfold pop_expired; by rewrite Hexp|done|].
    apply completes_ret. }
  destruct (pop_expired_run s id r Hi Hexp) as (t & h & R & Hth & Hi1 & Hown & Hfit & Hnl).
  set (s1 := popped s id t r) in *.
  eapply completes_run; [exact R|done|].
  destruct (run_handler_completes s1 h id (mk_timer false (tm_timeout t) (tm_handler t)))
    as ([] & s2 & R2 & G2); [done|done|done|done|simpl; by rewrite lookup_insert_eq|done| |done|].
  { intros ->. apply Hlog. unfold linked. rewrite Hexp, elem_of_app. right. left. }
  apply (completes_then 0 0 _ _ _ _ _ R2 G2).
  destruct (wp_ok _ _ _ _ _ _ (expired_handler_spec s id t h r Hexp Hgc Hlog Hi1 Hown Hfit Hnl) R2) as (Hi2 & Ha2 & Hg2).
  apply IH; [done|done| | |apply (healthy_grows 0 0 s1); [done|done|apply Ha2]].
  - apply (after_log s1 _ Ha2). intros Hl. apply Hlog. unfold linked in *. simpl in Hl. rewrite Hexp.
    rewrite !elem_of_app, elem_of_cons in *. tauto.
  - pose proof (ah_exp _ _ Ha2) as Hx. simpl in Hx, Hf. lia.
Qed.

(** The state in which an operation that completes leaves the daemon. *)
Lemma completes_wp {A} E n (m : M A) (Q : A → state → Prop) s :
  completes n m s → wp E m Q s → ∃ a s', m s = Ok a s' ∧ grows n s s' ∧ Q a s'.
Proof.
  intros (a & s' & R & G) Hw. exists a, s'. split_and!; [done|done|]. by eapply wp_ok.
Qed.

Lemma collected_inv s e r :
  inv s → TQ (tq s) = e ++ r →
  tq_wf (mk_tqueue (timers (tq s)) r (expTQ (tq s) ++ e)) →
  inv (set_tq (mk_tqueue (timers (tq s)) r (expTQ (tq s) ++ e)) s).
Proof.
  intros Hi HTQ Hwf. apply inv_set_tq; [done|]. destruct (inv_timers _ Hi). by split.
Qed.

Lemma timer_timeout_completes s now :
  idle s → healthy 0 s → completes 0 (timer_timeout now) s.
Proof.
  intros [Hi He Hgc _ Hlog] Hh. unfold timer_timeout.
  destruct (collect_expired_spec (tq s) now (to_wf _ _ (inv_timers _ Hi)))
    as (e & r & HTQ & Hc & Hwf & _).
  eapply completes_run; [by apply on_tq_ok|done|]. eapply completes_run; [done|done|].
  apply run_expired_completes; [by apply collected_inv| | |simpl; lia|done].
  - unfold linked. simpl. rewrite He, HTQ, !elem_of_app in *. tauto.
  - intros Hl. apply Hlog. unfold linked in *. simpl in Hl. rewrite HTQ, !elem_of_app in *. tauto.
Qed.

Lemma timer_age_queue_completes s : idle s → healthy 0 s → completes 0 timer_age_queue s.
Proof.
  intros Hs Hh. unfold timer_age_queue. do 2 (eapply completes_run; [done|done|]).
  set (s1 := set_clock_reads _ s).
  assert (Hs1 : idle s1) by (destruct Hs as [[] ? ? ? ?]; by split).
  destruct (bool_decide _); [apply completes_ret|].
  destruct (completes_wp _ _ _ _ _ (timer_timeout_completes s1 (env_clock (env s) (clock_reads s))
    Hs1 Hh) (timer_timeout_spec s1 _ Hs1)) as ([] & s2 & R2 & G2 & Hs2 & _).
  apply (completes_then 0 0 _ _ _ _ _ R2 G2).
  apply (total_completes None []); [|apply Hs2|constructor|done].
  apply total_on_tq. intros s3 Hi3 _. unfold remaining_time.
  destruct (TQ (tq s3)) as [|id l] eqn:HT; [by do 2 eexists|].
  destruct (wf_linked _ (to_wf _ _ (inv_timers _ Hi3)) id) as (t & Ht & _).
  { rewrite HT, elem_of_app. left. left. }
  unfold bind, timer_get. rewrite Ht. by do 2 eexists.
Qed.

(** ** Received messages *)

(** The part of a datagram that fits in the buffer, with no extension after the
    message. *)
Definition plain (bytes : list Z) : Prop :=
  let data := take (Z.to_nat RECV_BUF_SIZE) bytes in
  let len := Z.of_nat (length data) in
  match data with
  | [] => True
  | type :: _ =>
      (type = AODV_RREQ → len <= RREQ_SIZE) ∧ (type = AODV_RREP → len <= RREP_SIZE)
  end.

Lemma ext_loop_none s size len off :
  0 <= len <= size → size < 4294967296 → returns (ext_loop ext_fuel size len 0 off) s.
Proof.
  intros Hl Hs. destruct (ext_fuel_enough RREP_SIZE) as [Hf _]; [done|].
  destruct ext_fuel as [|fuel]; [lia|]. cbn [ext_loop].
  rewrite Z.sub_0_r, u32_small by lia. rewrite (proj2 (Z.leb_le _ _)) by lia. by exists (), s.
Qed.

Lemma rerr_completes s len src :
  inv s → len <= RECV_BUF_SIZE → completes 0 (rerr_process len src) s.
Proof.
  intros Hi Hl.
  destruct (load8_is_Some (recv_buf s) 3) as [c Hc]; [rewrite (inv_recv _ Hi); in_buffer|].
  destruct (load8_is_Some (recv_buf s) 1) as [f Hf]; [rewrite (inv_recv _ Hi); in_buffer|].
  destruct (decide (len < RERR_CALC_SIZE c)) as [Hs|Hs].
  - unfold rerr_process. eapply completes_run; [unfold recv_load8; by rewrite Hc|done|].
    rewrite (proj2 (Z.ltb_lt _ _) Hs). apply completes_ret.
  - eapply rerr_process_completes; [done|done|done|lia].
Qed.

Lemma process_packet_completes s len src dst ttl ifi :
  inv s → has_room 2 s → 0 <= len <= RECV_BUF_SIZE →
  (len = 0 ∨ ((recv8 s 0 = AODV_RREQ → len <= RREQ_SIZE) ∧
              (recv8 s 0 = AODV_RREP → len <= RREP_SIZE))) →
  completes 2 (aodv_socket_process_packet len src dst ttl ifi) s.
Proof.
  intros Hi Hr Hl Hp. unfold aodv_socket_process_packet.
  eapply completes_run; [apply recv_load8_ok; [done|lia]|done|].
  assert (Hrep : recv8 s 0 = AODV_RREP → len <= RREP_SIZE).
  { intros ?. destruct Hp as [->|[_ ?]]; [done|auto]. }
  assert (Hreq : recv8 s 0 = AODV_RREQ → len <= RREQ_SIZE).
  { intros ?. destruct Hp as [->|[? _]]; [done|auto]. }
  destruct (_ && _ && _) eqn:E.
  { apply (completes_le 1 2); [|lia]. apply hello_process_completes; [done| |].
    - eapply has_room_le; [exact Hr|lia].
    - rewrite !andb_true_iff, Z.eqb_eq in E. naive_solver. }
  destruct (completes_wp _ _ _ _ _ (neighbor_add_completes s src ifi Hi (has_room_le 1 2 s Hr
    ltac:(lia))) (safe_neighbor_add [] src ifi s Hi ltac:(constructor)))
    as ([] & s1 & R1 & G1 & Hi1 & _).
  pose proof (has_room_grows 1 1 _ _ Hr G1) as Hr1.
  apply (completes_then 1 1 _ _ _ _ _ R1 G1).
  destruct (recv8 s 0 =? AODV_RREQ) eqn:E1; [|destruct (recv8 s 0 =? AODV_RREP) eqn:E2].
  - apply Z.eqb_eq in E1. apply rreq_process_completes; [done|done|lia|].
    apply ext_loop_none; [split; [lia|auto]|done].
  - apply Z.eqb_eq in E2. apply rrep_process_completes; [done|done|lia|].
    apply ext_loop_none; [split; [lia|auto]|done].
  - apply (completes_le 0 1); [|lia].
    destruct (_ =? AODV_RERR); [apply rerr_completes; [done|lia]|].
    destruct (_ =? AODV_RREP_ACK); [|apply completes_ret].
    apply (total_completes None []); [total_leaf|done|constructor|done].
Qed.

(** An input the daemon has a descriptor for: messages without extensions, and what the kernel
    sends. *)
Definition handled (s : state) (i : input) : Prop :=
  match i with
  | InAodv fd (Some m) => bytes_ok (dg_bytes m) ∧ plain (dg_bytes m) ∧ is_Some (devfromsock s fd)
  | InNetlink (Some d) => ∃ l, kernel_msg d l
  | _ => True
  end.

Lemma handled_ok s i : handled s i → input_ok i.
Proof. destruct i as [fd [m|]| |[d|]]; [|done..]. by intros (? & _). Qed.

Lemma handled_devs s s' i :
  devs (this_host s') = devs (this_host s) → nif (this_host s') = nif (this_host s) →
  handled s i → handled s' i.
Proof.
  intros Hd Hn. destruct i as [fd [m|]| |[d|]]; [|done..]. simpl. unfold devfromsock.
  by rewrite Hd, Hn.
Qed.

Lemma socket_read_completes s fd m :
  inv s → has_room 2 s → handled s (InAodv fd m) → completes 2 (aodv_socket_read fd m) s.
Proof.
  intros Hi Hr Hh. unfold aodv_socket_read. destruct m as [m|]; [|apply completes_ret].
  destruct Hh as (Hb & Hp & [d Hd]).
  destruct (completes_wp _ 0 (modify (λ s, set_recv_buf
    (take (Z.to_nat RECV_BUF_SIZE) (dg_bytes m)
     ++ drop (length (take (Z.to_nat RECV_BUF_SIZE) (dg_bytes m))) (recv_buf s)) s)) _ s
    ltac:(do 2 eexists; split; [reflexivity|by apply grows_same])
    (safe_recv_data [] _ Hb s Hi ltac:(constructor))) as ([] & s1 & R1 & _ & Hi1 & _).
  unfold modify in R1. injection R1 as R1. unfold plain in Hp.
  set (data := take _ _) in *.
  assert (Hlen : (length data <= Z.to_nat RECV_BUF_SIZE)%nat)
    by (unfold data; rewrite length_take; lia).
  eapply completes_run; [done|done|].
  destruct (foldl _ _ _) as [ttl dst]. destruct (ttl <? 0); [apply completes_ret|].
  eapply completes_run; [done|done|]. destruct (is_local_source _ _); [apply completes_ret|].
  eapply completes_run; [done|done|]. rewrite R1.
  replace (devfromsock s1 fd) with (Some d) by by subst s1.
  apply process_packet_completes; [done|by subst s1|in_buffer|].
  destruct data as [|ty r]; [by left|]. right. subst s1. exact Hp.
Qed.

Lemma run_callback_completes s i :
  inv s → has_room 2 s → wait_on_reboot s = false → handled s i → completes 2 (run_callback i) s.
Proof.
  intros Hi Hr Hw Hh. destruct i as [fd m|pkts|r]; cbn [run_callback].
  - by apply socket_read_completes.
  - apply (completes_le 0 2); [|lia]. clear Hr Hh.
    revert s Hi Hw. induction pkts as [|p pkts IH]; intros s Hi Hw; [apply completes_ret|].
    cbn [foreach].
    destruct (completes_wp _ _ _ _ _ (nfqueue_packet_cb_completes s p Hi Hw)
      (safe_nfqueue_packet_cb [] p s Hi ltac:(constructor))) as ([] & s1 & R1 & G1 & Hi1 & _).
    apply (completes_then 0 0 _ _ _ _ _ R1 G1), IH; [done|by apply G1].
  - exists (), s. split; [|apply grows_refl]. destruct r as [d|]; [|done]. destruct Hh as [l Hl].
    by eapply unlogged_run.
Qed.

(** The callbacks of the descriptors that are ready. *)
Lemma callbacks_complete inputs : ∀ s,
  inv s → healthy (2 * length inputs) s → Forall (handled s) inputs →
  completes (2 * length inputs) (foreach inputs () (λ i _, run_callback i)) s.
Proof.
  induction inputs as [|i inputs IH]; intros s Hi Hh Hin; [apply completes_ret|].
  apply Forall_cons in Hin as [H1 Hin]. cbn [foreach].
  replace (2 * length (i :: inputs))%nat with (2 + 2 * length inputs)%nat in * by (simpl; lia).
  destruct (completes_wp _ _ _ _ _ (run_callback_completes s i Hi (proj1 (healthy_le 2 _ s Hh
    ltac:(lia))) (proj1 (proj2 (proj2 Hh))) H1) (run_callback_spec i s (handled_ok _ _ H1) Hi))
    as ([] & s1 & R1 & G1 & Hi1 & X1).
  apply (completes_then 2 _ _ _ _ _ _ R1 G1). apply IH; [done|by eapply healthy_grows; [| |apply X1]|].
  eapply Forall_impl; [exact Hin|]. intros j. apply handled_devs; apply X1.
Qed.

(** One turn of the main loop. *)
Lemma main_loop_step_completes s inputs :
  idle s → healthy (2 * length inputs) s → Forall (handled s) inputs →
  ∃ t s', main_loop_step inputs s = Ok t s' ∧ grows (2 * length inputs) s s' ∧
    idle s' ∧ same_host s s'.
Proof.
  intros Hs Hh Hin. eapply completes_wp; [|apply main_loop_step_spec; [done|]].
  2:{ eapply Forall_impl; [exact Hin|]. intros i. apply handled_ok. }
  unfold main_loop_step.
  destruct (completes_wp _ _ _ _ _ (timer_age_queue_completes s Hs (healthy_le 0 _ s Hh
    (Nat.le_0_l _))) (timer_age_queue_spec s Hs)) as (r & s1 & R1 & G1 & [t ->] & Hs1 & (_ & Hd & Hn)).
  apply (completes_then 0 _ _ _ _ _ _ R1 G1).
  destruct (callbacks_complete inputs s1) as ([] & s2 & R2 & G2);
    [apply Hs1|by apply (healthy_grows 0 _ s)| |].
  { eapply Forall_impl; [exact Hin|]. intros j. by apply handled_devs. }
  exists t, s2. split; [by erewrite bind_ok by exact R2|done].
Qed.

(** Several turns, with the inputs of each. *)
Definition main_loop (turns : list (list input)) : M () :=
  foreach turns () (λ inputs _, main_loop_step inputs ;; ret ()).

Lemma main_loop_completes turns : ∀ e s,
  env_ok e → reachable e s → healthy (2 * length (concat turns)) s →
  Forall (Forall (handled s)) turns →
  ∃ s', main_loop turns s = Ok () s' ∧ reachable e s'.
Proof.
  unfold main_loop. induction turns as [|inputs turns IH]; intros e s He Hr Hh Hin; [by exists s|].
  apply Forall_cons in Hin as [H1 Hin]. cbn [foreach concat] in *. rewrite length_app in Hh.
  replace (2 * (length inputs + length (concat turns)))%nat
    with (2 * length inputs + 2 * length (concat turns))%nat in Hh by lia.
  destruct (reachable_is_idle e s He Hr) as [Hs _].
  destruct (main_loop_step_completes s inputs Hs (healthy_le _ _ s Hh (Nat.le_add_r _ _)) H1)
    as (t & s1 & R1 & G1 & Hs1 & (_ & Hd & Hn)).
  destruct (IH e s1) as (s' & R & Hr'); [done| |by eapply healthy_grows| |].
  - eapply reach_step; [done| |exact R1].
    eapply Forall_impl; [exact H1|]. intros i. apply handled_ok.
  - eapply Forall_impl; [exact Hin|]. intros l Hl.
    eapply Forall_impl; [exact Hl|]. intros i. by apply handled_devs.
  - exists s'. split; [|done]. erewrite bind_ok; [exact R|].
    by erewrite bind_ok by exact R1.
Qed.

(** C6: the daemon makes progress.  From a state between two turns of the main loop in which the
    wait after a reboot is over, the option for unidirectional links is off, the table has room
    for two more routes per input (100 entries in all, and memory for them) and the log of the
    routing table is off or can be written: for any sequence of turns with packets from the
    kernel, its netlink messages and messages without extensions on the daemon's own sockets, the
    main loop returns from every handler and every callback; no turn exits, overruns a buffer or
    runs out of fuel, and the daemon is again between two turns. *)
Theorem daemon_progress (e : environment) (s : state) (turns : list (list input)) :
  env_ok e → reachable e s → healthy (2 * length (concat turns)) s →
  Forall (Forall (handled s)) turns →
  ∃ s', main_loop turns s = Ok () s' ∧ reachable e s'.
Proof. intros He Hr Hh Hin. by eapply main_loop_completes. Qed.
