(* ===== verification/Kaodv.v ===== *)
(** * The kernel module: its state

    [kernel/] is a netfilter module: it keeps a copy of the valid routes
    ([kaodv-expl.c]), holds the packets that wait for a route ([kaodv-queue.c]),
    talks to the daemon over a netlink socket ([kaodv-netlink.c]), encapsulates
    packets for a gateway ([kaodv-ipenc.c]) and decides about every packet that
    passes ([kaodv-mod.c]).  The build modelled is that for Linux 2.6.31 and later,
    without [EXPL_TIMER], [CONFIG_QUAL_THRESHOLD] and [DEBUG], on a little-endian
    64-bit machine.

    The kernel services the module calls are inputs of the model ([kenv]): the clock,
    the results of allocations, [ip_fast_csum], the identifier that
    [ip_select_ident] chooses.  What the module does to packets and
    sockets is recorded in [ktrace], newest first.  A call runs as one step: what
    other contexts of the kernel do between two critical sections of one call is
    only looked at for [kaodv_expl_add]. *)

From S2P Require Import Prelude.
From S2P Require Import Bytes.

#[local] Open Scope cm_scope.

Definition u64 (z : Z) : Z := z mod 2 ^ 64.

Lemma u64_range z : 0 <= u64 z < 18446744073709551616.
Proof. apply Z.mod_pos_bound. lia. Qed.

(** Error numbers. *)
Definition ENOMEM : Z := 12.
Definition EBUSY : Z := 16.
Definition EINVAL : Z := 22.
Definition ENOSPC : Z := 28.
Definition EPERM : Z := 1.
Definition ECOMM : Z := 70.

(** ** Data *)

(** A packet: its address as the identity, and the bytes from its network header
    on. *)
Record sk_buff := mk_skb { skb_id : Z; skb_data : list Z }.

(** A route ([struct expl_entry]). *)
Record expl_entry := mk_expl {
  expires : Z; ex_flags : Z; ex_daddr : Z; ex_nhop : Z; ex_ifindex : Z
}.

(** A packet that waits ([struct kaodv_queue_entry] with its [rt_info]); [okfn] is the
    function that continues with the packet. *)
Record kaodv_queue_entry := mk_qe {
  qe_skb : sk_buff; qe_okfn : Z; qe_tos : Z; qe_daddr : Z; qe_saddr : Z
}.

(** A message between the kernel and the daemon. *)
Record kaodv_rt_msg := mk_rt_msg {
  m_type : Z; m_src : Z; m_dst : Z; m_nhop : Z; m_flags : Z; m_ifindex : Z; m_time : Z
}.

(** An interface the module knows ([struct if_info]). *)
Record kif_info := mk_kif {
  kif_addr : Z; kif_bcaddr : Z; kif_orig_mtu : Z; kif_ifindex : Z
}.

(** What the module registers with the kernel. *)
Inductive kres :=
  | ProcExpl | ProcQueue | ProcMod        (* entries in /proc/net *)
  | NlNotifier | NlSocket
  | NfHook (i : nat)                      (* kaodv_ops[i] *)
  | DevRef (ifindex : Z).                 (* a reference to a device *)

Inductive kevent :=
  | KFreeSkb (id : Z)                     (* kfree_skb *)
  | KIcmpUnreach (id : Z)                 (* icmp_send, host unreachable *)
  | KReroute (id : Z)                     (* ip_route_me_harder *)
  | KInject (okfn : Z) (skb : sk_buff)    (* okfn(skb) *)
  | KNotify (msg : list Z)                (* netlink_broadcast to the daemon *)
  | KAck (err : Z)                        (* netlink_ack *)
  | KSetMtu (ifindex mtu : Z)             (* dev_set_mtu *)
  | KAcquire (r : kres)
  | KRelease (r : kres).

Record kenv := mk_kenv {
  HZ : Z;
  jiffies : nat → Z;                 (* the values of the clock, reading by reading *)
  kmalloc_ok : nat → bool;           (* whether the n-th allocation succeeds *)
  fast_csum : list Z → Z;            (* ip_fast_csum of a header *)
  new_ident : list Z → Z;            (* the id ip_select_ident gives to a header *)
  copy_addr : nat → Z                (* the address of the n-th allocated packet *)
}.

Record kstate := mk_kstate {
  kenv_of : kenv;
  jiffies_reads : nat;
  kmallocs : nat;
  expl_len : Z;
  expl_head : list expl_entry;
  queue_total : Z;
  queue_list : list kaodv_queue_entry;
  peer_pid : Z;
  active_route_timeout : Z;
  qual_th : Z;
  is_gateway : Z;
  ifihead : list kif_info;
  ktrace : list kevent
}.

Definition set_jiffies_reads v s := mk_kstate (kenv_of s) v (kmallocs s) (expl_len s)
  (expl_head s) (queue_total s) (queue_list s) (peer_pid s) (active_route_timeout s)
  (qual_th s) (is_gateway s) (ifihead s) (ktrace s).
Definition set_kmallocs v s := mk_kstate (kenv_of s) (jiffies_reads s) v (expl_len s)
  (expl_head s) (queue_total s) (queue_list s) (peer_pid s) (active_route_timeout s)
  (qual_th s) (is_gateway s) (ifihead s) (ktrace s).
Definition set_expl n l s := mk_kstate (kenv_of s) (jiffies_reads s) (kmallocs s) n
  l (queue_total s) (queue_list s) (peer_pid s) (active_route_timeout s)
  (qual_th s) (is_gateway s) (ifihead s) (ktrace s).
Definition set_queue n l s := mk_kstate (kenv_of s) (jiffies_reads s) (kmallocs s) (expl_len s)
  (expl_head s) n l (peer_pid s) (active_route_timeout s)
  (qual_th s) (is_gateway s) (ifihead s) (ktrace s).
Definition set_peer_pid v s := mk_kstate (kenv_of s) (jiffies_reads s) (kmallocs s) (expl_len s)
  (expl_head s) (queue_total s) (queue_list s) v (active_route_timeout s)
  (qual_th s) (is_gateway s) (ifihead s) (ktrace s).
Definition set_config t q g s := mk_kstate (kenv_of s) (jiffies_reads s) (kmallocs s) (expl_len s)
  (expl_head s) (queue_total s) (queue_list s) (peer_pid s) t q g (ifihead s) (ktrace s).
Definition set_ifihead l s := mk_kstate (kenv_of s) (jiffies_reads s) (kmallocs s) (expl_len s)
  (expl_head s) (queue_total s) (queue_list s) (peer_pid s) (active_route_timeout s)
  (qual_th s) (is_gateway s) l (ktrace s).
Definition set_ktrace l s := mk_kstate (kenv_of s) (jiffies_reads s) (kmallocs s) (expl_len s)
  (expl_head s) (queue_total s) (queue_list s) (peer_pid s) (active_route_timeout s)
  (qual_th s) (is_gateway s) (ifihead s) l.

Abbreviation KM := (CM kstate).

(** ** Services of the kernel *)

Definition read_jiffies : KM Z :=
  t ← gets (λ s, jiffies (kenv_of s) (jiffies_reads s));
  modify (λ s, set_jiffies_reads (S (jiffies_reads s)) s) ;;
  ret t.

Definition kmalloc : KM bool :=
  ok ← gets (λ s, kmalloc_ok (kenv_of s) (kmallocs s));
  modify (λ s, set_kmallocs (S (kmallocs s)) s) ;;
  ret ok.

Definition kemit (ev : kevent) : KM () := modify (λ s, set_ktrace (ev :: ktrace s) s).
Definition kfree_skb (skb : sk_buff) : KM () := kemit (KFreeSkb (skb_id skb)).

(** [jiffies + (time * HZ) / 1000] in [unsigned long]; the kernel compares the
    results as they are. *)
Definition expiry (time : Z) : KM Z :=
  j ← read_jiffies;
  hz ← gets (λ s, HZ (kenv_of s));
  ret (u64 (j + u64 (time * hz) / 1000)).
