(* ===== verification/KExpl.v ===== *)
(** * kernel/kaodv-expl.c: the routes of the kernel module

    The routes are kept in a list sorted by the time they expire. *)

From S2P Require Import Prelude.
From S2P Require Import Bytes.
From S2P Require Import Kaodv.

#[local] Open Scope cm_scope.

Definition EXPL_MAX_LEN : Z := 1024.

Definition kaodv_expl_init : KM () :=
  kemit (KAcquire ProcExpl) ;;
  modify (λ s, set_expl 0 (expl_head s) s).

(** [__kaodv_expl_flush]: every entry is unlinked, counted off and freed. *)
Fixpoint expl_flush_loop (l : list expl_entry) (n : Z) : Z :=
  match l with
  | [] => n
  | _ :: l' => expl_flush_loop l' (u32 (n - 1))
  end.

Definition kaodv_expl_flush : KM () :=
  modify (λ s, set_expl (expl_flush_loop (expl_head s) (expl_len s)) [] s).

(** The place of an entry: before the first one that expires later. *)
Fixpoint expl_place (e : expl_entry) (l : list expl_entry) : list expl_entry :=
  match l with
  | [] => [e]
  | c :: l' => if expires e <? expires c then e :: c :: l' else c :: expl_place e l'
  end.

(** [__kaodv_expl_add] *)
Definition expl_link (e : expl_entry) : KM Z :=
  n ← gets expl_len;
  if EXPL_MAX_LEN <=? n then ret (- ENOSPC) else
  modify (λ s, set_expl (expl_len s) (expl_place e (expl_head s)) s) ;;
  ret 1.

Definition to_daddr (daddr : Z) (e : expl_entry) : bool := ex_daddr e =? daddr.

(** [__kaodv_expl_find] *)
Definition expl_find (s : kstate) (daddr : Z) : option expl_entry :=
  search (to_daddr daddr) (expl_head s).

(** [kaodv_expl_del] with [__kaodv_expl_del] *)
Definition kaodv_expl_del (daddr : Z) : KM Z :=
  e ← gets (λ s, expl_find s daddr);
  match e with
  | None => ret 0
  | Some _ =>
      modify (λ s, set_expl (u32 (expl_len s - 1))
                     (remove_first (to_daddr daddr) (expl_head s)) s) ;;
      ret 1
  end.

(** [kaodv_expl_get]: 1 with the entry, or 0. *)
Definition kaodv_expl_get (daddr : Z) : KM (option expl_entry) :=
  gets (λ s, expl_find s daddr).

(** The part of [kaodv_expl_add] behind the check that there is no route yet; the check
    and this part take the lock one after the other. *)
Definition expl_add_insert (daddr nhop time flags ifindex : Z) : KM Z :=
  ok ← kmalloc;
  if negb ok then ret (- ENOMEM) else
  x ← expiry time;
  status ← expl_link (mk_expl x flags daddr nhop ifindex);
  when (negb (status =? 0)) (modify (λ s, set_expl (u32 (expl_len s + 1)) (expl_head s) s)) ;;
  ret status.

Definition kaodv_expl_add (daddr nhop time flags ifindex : Z) : KM Z :=
  old ← kaodv_expl_get daddr;
  match old with
  | Some _ => ret 0
  | None => expl_add_insert daddr nhop time flags ifindex
  end.

(** The entry is changed, unlinked and linked again at its new place; the result of
    linking is not looked at. *)
Definition kaodv_expl_update (daddr nhop time flags ifindex : Z) : KM Z :=
  e ← gets (λ s, expl_find s daddr);
  match e with
  | None => ret (-1)
  | Some e =>
      x ← expiry time;
      modify (λ s, set_expl (expl_len s) (remove_first (to_daddr daddr) (expl_head s)) s) ;;
      expl_link (mk_expl x flags (ex_daddr e) nhop ifindex) ;;
      ret 0
  end.

(** ** Invariant *)

Fixpoint sorted_expiry (l : list expl_entry) : Prop :=
  match l with
  | [] => True
  | c :: l' => Forall (λ e, expires c <= expires e) l' ∧ sorted_expiry l'
  end.

(** The list is sorted, holds one route per destination and at most
    [EXPL_MAX_LEN]; [expl_len] is its length plus at most [slack]. *)
Record expl_ok (slack : nat) (s : kstate) : Prop := {
  eo_sorted : sorted_expiry (expl_head s);
  eo_nodup : NoDup (ex_daddr <$> expl_head s);
  eo_max : Z.of_nat (length (expl_head s)) <= EXPL_MAX_LEN;
  eo_count : Z.of_nat (length (expl_head s)) <= expl_len s
             <= Z.of_nat (length (expl_head s)) + Z.of_nat slack
}.

(** ** The list as a finite map *)

Definition by_daddr (l : list expl_entry) : gmap Z expl_entry :=
  list_to_map ((λ e, (ex_daddr e, e)) <$> l).

Definition expl_map (s : kstate) : gmap Z expl_entry := by_daddr (expl_head s).

Lemma search_by_daddr l d : search (to_daddr d) l = by_daddr l !! d.
Proof.
  induction l as [|e l IH]; [done|]. unfold by_daddr in *. cbn. unfold to_daddr.
  destruct (ex_daddr e =? d) eqn:E.
  - apply Z.eqb_eq in E as <-. by rewrite lookup_insert_eq.
  - apply Z.eqb_neq in E. rewrite lookup_insert_ne by done. exact IH.
Qed.

Lemma expl_find_map s d : expl_find s d = expl_map s !! d.
Proof. apply search_by_daddr. Qed.

Lemma by_daddr_fst l : ((λ e, (ex_daddr e, e)) <$> l).*1 = ex_daddr <$> l.
Proof. by rewrite <- list_fmap_compose. Qed.

Lemma by_daddr_None l d : by_daddr l !! d = None ↔ d ∉ (ex_daddr <$> l).
Proof. unfold by_daddr. rewrite <- not_elem_of_list_to_map. by rewrite by_daddr_fst. Qed.

Lemma expl_place_perm e l : expl_place e l ≡ₚ e :: l.
Proof.
  induction l as [|c l IH]; simpl; [done|]. destruct (_ <? _); [done|].
  rewrite IH. by apply Permutation_swap.
Qed.

Lemma expl_place_sorted e l : sorted_expiry l → sorted_expiry (expl_place e l).
Proof.
  induction l as [|c l IH]; simpl; [by repeat constructor|]. intros [Hc Hl].
  destruct (expires e <? expires c) eqn:E; simpl.
  - apply Z.ltb_lt in E. split; [|done]. constructor; [lia|].
    eapply Forall_impl; [exact Hc|]. simpl. lia.
  - apply Z.ltb_ge in E. split; [|auto]. rewrite expl_place_perm. by constructor.
Qed.

Lemma by_daddr_place e l :
  NoDup (ex_daddr <$> l) → ex_daddr e ∉ (ex_daddr <$> l) →
  by_daddr (expl_place e l) = <[ex_daddr e := e]> (by_daddr l).
Proof.
  intros Hn He. unfold by_daddr. transitivity
    (list_to_map ((λ e, (ex_daddr e, e)) <$> e :: l) : gmap Z expl_entry); [|done].
  apply list_to_map_proper; [|by rewrite expl_place_perm].
  rewrite by_daddr_fst, expl_place_perm. by constructor.
Qed.

Lemma sorted_remove p l : sorted_expiry l → sorted_expiry (remove_first p l).
Proof.
  induction l as [|c l IH]; simpl; [done|]. intros [Hc Hl]. destruct (p c); [done|].
  split; [|auto]. rewrite Forall_forall in *. intros x Hx. apply Hc. by eapply elem_of_remove_first.
Qed.

Lemma by_daddr_remove d l :
  NoDup (ex_daddr <$> l) → by_daddr (remove_first (to_daddr d) l) = delete d (by_daddr l).
Proof.
  induction l as [|c l IH]; intros Hn.
  { unfold by_daddr. simpl. by rewrite delete_empty. }
  cbn in Hn.
  apply NoDup_cons in Hn as [Hc Hn]. unfold by_daddr in *. cbn. unfold to_daddr.
  destruct (ex_daddr c =? d) eqn:E.
  - apply Z.eqb_eq in E as <-. rewrite delete_insert_id; [done|]. by apply by_daddr_None.
  - apply Z.eqb_neq in E. cbn. rewrite delete_insert_ne by done. f_equal. by apply IH.
Qed.

(** Removal of a route that is there. *)
Lemma remove_length d l e :
  by_daddr l !! d = Some e → length l = S (length (remove_first (to_daddr d) l)).
Proof.
  rewrite <- search_by_daddr. intros Hs. apply search_Some in Hs as [He Hd].
  by eapply length_remove_first.
Qed.

Lemma remove_daddr d l :
  NoDup (ex_daddr <$> l) → d ∉ (ex_daddr <$> remove_first (to_daddr d) l).
Proof.
  intros Hn. apply by_daddr_None. rewrite by_daddr_remove by done. apply lookup_delete_eq.
Qed.

Lemma find_daddr s d e : expl_map s !! d = Some e → ex_daddr e = d.
Proof.
  rewrite <- expl_find_map. intros Hs. apply search_Some in Hs as [_ Hd].
  by apply Z.eqb_eq in Hd.
Qed.

(** ** Runs of the operations *)

(** The time an entry given [time] milliseconds expires. *)
Definition expiry_at (s : kstate) (time : Z) : Z :=
  u64 (jiffies (kenv_of s) (jiffies_reads s) + u64 (time * HZ (kenv_of s)) / 1000).

Definition tick (s : kstate) : kstate := set_jiffies_reads (S (jiffies_reads s)) s.
Definition alloc (s : kstate) : kstate := set_kmallocs (S (kmallocs s)) s.

Lemma expl_insert_run s d nhop time flags i :
  expl_add_insert d nhop time flags i s =
  if kmalloc_ok (kenv_of s) (kmallocs s) then
    if EXPL_MAX_LEN <=? expl_len s
    then Ok (- ENOSPC) (set_expl (u32 (expl_len s + 1)) (expl_head s) (tick (alloc s)))
    else Ok 1 (set_expl (u32 (expl_len s + 1))
           (expl_place (mk_expl (expiry_at s time) flags d nhop i) (expl_head s))
           (tick (alloc s)))
  else Ok (- ENOMEM) (alloc s).
Proof.
  unfold expl_add_insert, kmalloc, bind, gets, modify, ret. destruct (kmalloc_ok _ _); [|done]. simpl.
  unfold expiry, read_jiffies, expl_link, bind, gets, modify, ret, when.
  cbn [expl_len set_kmallocs set_jiffies_reads kenv_of jiffies_reads].
  by destruct (EXPL_MAX_LEN <=? expl_len s).
Qed.

Lemma expl_add_run s d nhop time flags i :
  kaodv_expl_add d nhop time flags i s =
  match expl_map s !! d with
  | Some _ => Ok 0 s
  | None =>
      if kmalloc_ok (kenv_of s) (kmallocs s) then
        if EXPL_MAX_LEN <=? expl_len s
        then Ok (- ENOSPC) (set_expl (u32 (expl_len s + 1)) (expl_head s) (tick (alloc s)))
        else Ok 1 (set_expl (u32 (expl_len s + 1))
               (expl_place (mk_expl (expiry_at s time) flags d nhop i) (expl_head s))
               (tick (alloc s)))
      else Ok (- ENOMEM) (alloc s)
  end.
Proof.
  rewrite <- expl_insert_run. unfold kaodv_expl_add, kaodv_expl_get, bind at 1, gets at 1.
  rewrite expl_find_map. by destruct (expl_map s !! d).
Qed.

Lemma expl_update_run s d nhop time flags i :
  kaodv_expl_update d nhop time flags i s =
  match expl_map s !! d with
  | None => Ok (-1) s
  | Some _ =>
      let rest := remove_first (to_daddr d) (expl_head s) in
      if EXPL_MAX_LEN <=? expl_len s then Ok 0 (set_expl (expl_len s) rest (tick s))
      else Ok 0 (set_expl (expl_len s)
             (expl_place (mk_expl (expiry_at s time) flags d nhop i) rest) (tick s))
  end.
Proof.
  unfold kaodv_expl_update, bind at 1, gets at 1. rewrite expl_find_map.
  destruct (expl_map s !! d) as [e|] eqn:E; [|done]. rewrite (find_daddr _ _ _ E).
  unfold expiry, read_jiffies, expl_link, bind, gets, modify, ret. cbn.
  by destruct (EXPL_MAX_LEN <=? expl_len s).
Qed.

Lemma expl_del_run s d :
  kaodv_expl_del d s =
  match expl_map s !! d with
  | None => Ok 0 s
  | Some _ => Ok 1 (set_expl (u32 (expl_len s - 1)) (remove_first (to_daddr d) (expl_head s)) s)
  end.
Proof.
  unfold kaodv_expl_del, bind, gets. rewrite expl_find_map. by destruct (expl_map s !! d).
Qed.

Lemma expl_flush_count l : ∀ n,
  0 <= n - Z.of_nat (length l) < 4294967296 → n < 4294967296 →
  expl_flush_loop l n = n - Z.of_nat (length l).
Proof.
  induction l as [|c l IH]; intros n Hn Hm; simpl in *; [lia|].
  rewrite u32_small by lia. rewrite IH by lia. lia.
Qed.

(** *** Preservation *)

(** A route taken off the list. *)
Lemma expl_ok_remove k s d e n :
  expl_ok k s → expl_map s !! d = Some e →
  Z.of_nat (length (expl_head s)) - 1 <= n
    <= Z.of_nat (length (expl_head s)) - 1 + Z.of_nat k →
  expl_ok k (set_expl n (remove_first (to_daddr d) (expl_head s)) s).
Proof.
  intros [Hs Hn Hm Hc] He Hlen. pose proof (remove_length _ _ _ He) as Hl.
  split; simpl; [by apply sorted_remove|by apply NoDup_map_remove_first|lia|lia].
Qed.

(** A route put on the list. *)
Lemma expl_ok_place k s e n :
  expl_ok k s → ex_daddr e ∉ (ex_daddr <$> expl_head s) →
  Z.of_nat (length (expl_head s)) < EXPL_MAX_LEN →
  Z.of_nat (length (expl_head s)) + 1 <= n
    <= Z.of_nat (length (expl_head s)) + 1 + Z.of_nat k →
  expl_ok k (set_expl n (expl_place e (expl_head s)) s).
Proof.
  intros [Hs Hn Hm Hc] He Hlt Hlen.
  assert (Hl : length (expl_place e (expl_head s)) = S (length (expl_head s)))
    by (by rewrite expl_place_perm).
  split; simpl; [by apply expl_place_sorted| |rewrite Hl; lia|rewrite Hl; lia].
  rewrite expl_place_perm. by constructor.
Qed.

Lemma expl_ok_ext k s s' :
  (expl_len s', expl_head s') = (expl_len s, expl_head s) → expl_ok k s → expl_ok k s'.
Proof. intros [= E1 E2] [Hs Hn Hm Hc]. split; by rewrite ?E1, ?E2. Qed.

Lemma expl_ok_slack k k' s : expl_ok k s → (k <= k')%nat → expl_ok k' s.
Proof. intros [Hs Hn Hm Hc] Hk. split; [done|done|done|lia]. Qed.

(** An operation of the list, run under its lock. *)
Inductive expl_step (s : kstate) : kstate → Prop :=
  | step_expl_add d nhop time flags i r s' :
      kaodv_expl_add d nhop time flags i s = Ok r s' → expl_step s s'
  | step_expl_update d nhop time flags i r s' :
      kaodv_expl_update d nhop time flags i s = Ok r s' → expl_step s s'
  | step_expl_del d r s' : kaodv_expl_del d s = Ok r s' → expl_step s s'
  | step_expl_flush s' : kaodv_expl_flush s = Ok () s' → expl_step s s'.

(** The zeroed variables of the module. *)
Definition kboot (e : kenv) : kstate := mk_kstate e 0 0 0 [] 0 [] 0 3000 0 1 [] [].

(** The states after [n] operations, from any contexts of the kernel in any order. *)
Inductive expl_run (e : kenv) : nat → kstate → Prop :=
  | expl_run_init : expl_run e 0 (kboot e)
  | expl_run_step n s s' : expl_run e n s → expl_step s s' → expl_run e (S n) s'.

Lemma expl_step_ok k s s' :
  Z.of_nat k + 1 + EXPL_MAX_LEN < 4294967296 → expl_ok k s → expl_step s s' → expl_ok (S k) s'.
Proof.
  unfold EXPL_MAX_LEN. intros Hk Ho Hstep. pose proof Ho as [Hs Hn Hm Hc].
  unfold EXPL_MAX_LEN in Hm.
  destruct Hstep as [d nhop time flags i r s' R|d nhop time flags i r s' R|d r s' R|s' R].
  - rewrite expl_add_run in R. destruct (expl_map s !! d) eqn:E.
    { injection R as _ <-. eapply expl_ok_slack; [done|lia]. }
    destruct (kmalloc_ok _ _); [|injection R as _ <-; eapply expl_ok_slack;
      [by eapply expl_ok_ext; [|exact Ho]|lia]].
    destruct (EXPL_MAX_LEN <=? expl_len s) eqn:El; injection R as _ <-.
    + split; simpl; [done|done|done|]. rewrite u32_small by lia. lia.
    + apply Z.leb_gt in El. unfold EXPL_MAX_LEN in El. rewrite u32_small by lia.
      eapply expl_ok_slack, Nat.le_succ_diag_r. eapply expl_ok_ext; [|eapply (expl_ok_place k s _ (expl_len s + 1))].
      * done.
      * done.
      * apply by_daddr_None. exact E.
      * unfold EXPL_MAX_LEN. lia.
      * lia.
  - rewrite expl_update_run in R. destruct (expl_map s !! d) eqn:E.
    2:{ injection R as _ <-. eapply expl_ok_slack; [done|lia]. }
    pose proof (remove_length _ _ _ E) as Hl. cbv zeta in R.
    destruct (EXPL_MAX_LEN <=? expl_len s) eqn:El; injection R as _ <-.
    + eapply expl_ok_ext; [|eapply (expl_ok_remove (S k) s d _ (expl_len s)); [|exact E|]];
        [done|eapply expl_ok_slack; [done|lia]|lia].
    + apply Z.leb_gt in El. unfold EXPL_MAX_LEN in El.
      eapply expl_ok_slack, Nat.le_succ_diag_r.
      assert (Ho' : expl_ok k (set_expl (expl_len s - 1)
        (remove_first (to_daddr d) (expl_head s)) s))
        by (eapply expl_ok_remove; [done|exact E|lia]).
      eapply expl_ok_ext; [|eapply (expl_ok_place k _ _ (expl_len s) Ho')]; simpl.
      * done.
      * by apply remove_daddr.
      * unfold EXPL_MAX_LEN. lia.
      * lia.
  - rewrite expl_del_run in R. destruct (expl_map s !! d) eqn:E; injection R as _ <-;
      [|eapply expl_ok_slack; [done|lia]].
    pose proof (remove_length _ _ _ E) as Hl. rewrite u32_small by lia.
    eapply expl_ok_slack; [eapply expl_ok_remove; [done|exact E|lia]|lia].
  - injection R as <-. rewrite (expl_flush_count (expl_head s) (expl_len s)) by lia.
    split; simpl; [done|by apply NoDup_nil|done|lia].
Qed.

(** Whatever operations the contexts of the kernel run, in whatever order, the
    routes are sorted by the time they expire, there is one per destination and
    at most [EXPL_MAX_LEN]; [expl_len] is at least their number and off by no more
    than the number of operations. *)
Theorem expl_invariant (e : kenv) (n : nat) (s : kstate) :
  Z.of_nat n + EXPL_MAX_LEN < 4294967296 → expl_run e n s →
  sorted_expiry (expl_head s) ∧ NoDup (ex_daddr <$> expl_head s) ∧
  Z.of_nat (length (expl_head s)) <= EXPL_MAX_LEN ∧
  Z.of_nat (length (expl_head s)) <= expl_len s
    <= Z.of_nat (length (expl_head s)) + Z.of_nat n.
Proof.
  intros Hn Hr. assert (Hok : expl_ok n s) by
    (induction Hr as [|n s s' _ IH Hstep];
      [split; simpl; [done|by apply NoDup_nil|done|done]
      |eapply expl_step_ok; [lia|apply IH; lia|done]]).
  by destruct Hok.
Qed.

(** The update of a known route, with room. *)
Lemma expl_update_spec s d nhop time flags i e :
  expl_ok 0 s → expl_len s < EXPL_MAX_LEN → expl_map s !! d = Some e →
  ∃ l, kaodv_expl_update d nhop time flags i s = Ok 0 (set_expl (expl_len s) l (tick s)) ∧
    expl_ok 0 (set_expl (expl_len s) l (tick s)) ∧
    by_daddr l = <[d := mk_expl (expiry_at s time) flags d nhop i]> (expl_map s).
Proof.
  intros Ho Hroom E. pose proof Ho as [Hs Hn Hm Hc]. rewrite expl_update_run, E. cbv zeta.
  rewrite (proj2 (Z.leb_gt _ _)) by done. unfold EXPL_MAX_LEN in *.
  set (route := mk_expl _ _ _ _ _). pose proof (remove_length _ _ _ E) as Hl.
  assert (Hrem : expl_ok 0 (set_expl (expl_len s - 1)
    (remove_first (to_daddr d) (expl_head s)) s)) by (eapply expl_ok_remove; [done|exact E|lia]).
  eexists. split_and!; [reflexivity| |].
  - eapply expl_ok_ext; [|eapply (expl_ok_place 0 _ route (expl_len s) Hrem)]; simpl;
      [done|by apply remove_daddr|unfold EXPL_MAX_LEN; lia|lia].
  - change (<[d := route]> ?m) with (<[ex_daddr route := route]> m).
    rewrite by_daddr_place, by_daddr_remove by
      (done || by apply NoDup_map_remove_first || by apply remove_daddr).
    apply insert_delete_eq.
Qed.

(** The addition of a new route, with room. *)
Lemma expl_add_spec s d nhop time flags i :
  expl_ok 0 s → expl_len s < EXPL_MAX_LEN → kmalloc_ok (kenv_of s) (kmallocs s) = true →
  expl_map s !! d = None →
  ∃ l, kaodv_expl_add d nhop time flags i s
       = Ok 1 (set_expl (expl_len s + 1) l (tick (alloc s))) ∧
    expl_ok 0 (set_expl (expl_len s + 1) l (tick (alloc s))) ∧
    by_daddr l = <[d := mk_expl (expiry_at s time) flags d nhop i]> (expl_map s).
Proof.
  intros Ho Hroom Hmem E. pose proof Ho as [Hs Hn Hm Hc].
  rewrite expl_add_run, E, Hmem, (proj2 (Z.leb_gt _ _)) by done. unfold EXPL_MAX_LEN in *.
  rewrite u32_small by lia. eexists. split; [reflexivity|].
  set (route := mk_expl _ _ _ _ _). split.
  - eapply expl_ok_ext; [|eapply (expl_ok_place 0 s route (expl_len s + 1) Ho)]; simpl;
      [done|by apply by_daddr_None|unfold EXPL_MAX_LEN; lia|lia].
  - change (<[d := route]> ?m) with (<[ex_daddr route := route]> m).
    apply by_daddr_place; [done|by apply by_daddr_None].
Qed.

(** C27: as long as there is room and memory, the list implements a finite map from
    destinations to routes: [kaodv_expl_get] is lookup, [kaodv_expl_add] inserts a new
    destination and leaves a known one alone, [kaodv_expl_update] replaces the route
    of a known destination, [kaodv_expl_del] deletes, and the counter stays
    exact. *)
Theorem expl_refines_map (s : kstate) (d nhop time flags i : Z) :
  expl_ok 0 s → expl_len s < EXPL_MAX_LEN → kmalloc_ok (kenv_of s) (kmallocs s) = true →
  let route := mk_expl (expiry_at s time) flags d nhop i in
  kaodv_expl_get d s = Ok (expl_map s !! d) s ∧
  (∃ r s', kaodv_expl_add d nhop time flags i s = Ok r s' ∧ expl_ok 0 s' ∧
     match expl_map s !! d with
     | Some _ => r = 0 ∧ expl_map s' = expl_map s
     | None => r = 1 ∧ expl_map s' = <[d := route]> (expl_map s)
     end) ∧
  (∃ r s', kaodv_expl_update d nhop time flags i s = Ok r s' ∧ expl_ok 0 s' ∧
     match expl_map s !! d with
     | Some _ => r = 0 ∧ expl_map s' = <[d := route]> (expl_map s)
     | None => r = -1 ∧ expl_map s' = expl_map s
     end) ∧
  (∃ r s', kaodv_expl_del d s = Ok r s' ∧ expl_ok 0 s' ∧
     r = (if decide (is_Some (expl_map s !! d)) then 1 else 0) ∧
     expl_map s' = delete d (expl_map s)).
Proof.
  intros Ho Hroom Hmem route. pose proof Ho as [Hs Hn Hm Hc].
  split; [unfold kaodv_expl_get, gets; by rewrite expl_find_map|].
  unfold EXPL_MAX_LEN in Hroom. destruct (expl_map s !! d) as [e|] eqn:E.
  - destruct (expl_update_spec s d nhop time flags i e Ho Hroom E) as (l & R & Hok & Hl).
    pose proof (remove_length _ _ _ E) as Hlen. rewrite expl_add_run, expl_del_run, E, u32_small by lia.
    split_and!; do 2 eexists; (split; [done || exact R|]); [done|done|].
    split_and!; [eapply expl_ok_remove; [done|exact E|lia]|by rewrite decide_True by done|].
    by apply by_daddr_remove.
  - destruct (expl_add_spec s d nhop time flags i Ho Hroom Hmem E) as (l & R & Hok & Hl).
    rewrite expl_update_run, expl_del_run, E.
    split_and!; do 2 eexists; (split; [done || exact R|]); [done|done|].
    split_and!; [done|rewrite decide_False; [done|by intros []]|]. by rewrite delete_id.
Qed.

(** With [EXPL_MAX_LEN] routes the counter and the list part: adding a route fails
    with [ENOSPC] but is counted, so that the capacity shrinks for good, and updating
    a route reports success but takes it off the list. *)
Theorem expl_full_loses_routes (s : kstate) (d nhop time flags i : Z) :
  expl_ok 0 s → expl_len s = EXPL_MAX_LEN → kmalloc_ok (kenv_of s) (kmallocs s) = true →
  (expl_map s !! d = None →
     ∃ s', kaodv_expl_add d nhop time flags i s = Ok (- ENOSPC) s' ∧
       expl_head s' = expl_head s ∧ expl_len s' = EXPL_MAX_LEN + 1) ∧
  (is_Some (expl_map s !! d) →
     ∃ s', kaodv_expl_update d nhop time flags i s = Ok 0 s' ∧
       expl_map s' = delete d (expl_map s) ∧ expl_len s' = EXPL_MAX_LEN).
Proof.
  intros [Hs Hn Hm Hc] Hfull Hmem. rewrite expl_add_run, expl_update_run, Hmem, Hfull.
  rewrite Z.leb_refl. split.
  - intros ->. eexists. done.
  - intros [e ->]. eexists. split_and!; [reflexivity| |done]. by apply by_daddr_remove.
Qed.

(** The routes to [d] on the list. *)
Definition routes_to (d : Z) (l : list expl_entry) : list expl_entry :=
  filter (λ e, to_daddr d e = true) l.

Lemma routes_to_remove d l :
  length (routes_to d (remove_first (to_daddr d) l)) = pred (length (routes_to d l)).
Proof.
  unfold routes_to. induction l as [|c l IH]; [done|]. cbn [remove_first].
  destruct (to_daddr d c) eqn:E; rewrite !filter_cons.
  - by rewrite decide_True by done.
  - by rewrite !decide_False by (rewrite E; done).
Qed.

Lemma routes_to_place d e l :
  ex_daddr e = d → length (routes_to d (expl_place e l)) = S (length (routes_to d l)).
Proof.
  intros He. unfold routes_to. rewrite expl_place_perm, filter_cons, decide_True; [done|].
  unfold to_daddr. by rewrite He, Z.eqb_refl.
Qed.

(** Two contexts that add a route to the same destination at the same time can both
    pass the check before either inserts; then there are two routes to the
    destination, and deleting it leaves one of them in use. *)
Theorem expl_add_race (s : kstate) (d nhop1 nhop2 time flags i : Z) :
  expl_map s !! d = None → 0 <= expl_len s < EXPL_MAX_LEN - 1 →
  (∀ n, kmalloc_ok (kenv_of s) n = true) →
  kaodv_expl_get d s = Ok None s ∧
  ∃ s1 s2 s3, expl_add_insert d nhop1 time flags i s = Ok 1 s1 ∧
    expl_add_insert d nhop2 time flags i s1 = Ok 1 s2 ∧
    length (routes_to d (expl_head s2)) = 2%nat ∧
    kaodv_expl_del d s2 = Ok 1 s3 ∧ is_Some (expl_map s3 !! d).
Proof.
  intros Hd Hroom Hmem. split; [unfold kaodv_expl_get, gets; by rewrite expl_find_map, Hd|].
  rewrite expl_insert_run, Hmem, (proj2 (Z.leb_gt _ _)) by lia. unfold EXPL_MAX_LEN in Hroom.
  rewrite u32_small by lia. set (s1 := set_expl _ _ _). exists s1.
  assert (Hmem1 : kmalloc_ok (kenv_of s1) (kmallocs s1) = true) by apply Hmem.
  rewrite (expl_insert_run s1), Hmem1, (proj2 (Z.leb_gt EXPL_MAX_LEN (expl_len s1)))
    by (unfold EXPL_MAX_LEN; simpl; lia).
  set (s2 := set_expl _ _ _). exists s2.
  assert (H0 : routes_to d (expl_head s) = []).
  { unfold expl_map in Hd. rewrite <- search_by_daddr in Hd. pose proof (search_None _ _ Hd) as Hn.
    destruct (routes_to d (expl_head s)) as [|e r] eqn:E; [done|].
    assert (He : e ∈ routes_to d (expl_head s)) by (rewrite E; left).
    apply list_elem_of_filter in He as [He1 He2]. by rewrite (Hn e He2) in He1. }
  assert (H2 : length (routes_to d (expl_head s2)) = 2%nat)
    by (simpl; by rewrite !routes_to_place, H0).
  assert (Hs : ∀ l, (0 < length (routes_to d l))%nat → is_Some (by_daddr l !! d)).
  { intros l Hl. rewrite <- search_by_daddr. destruct (routes_to d l) as [|e r] eqn:E; [simpl in Hl; lia|].
    assert (He : e ∈ routes_to d l) by (rewrite E; left). apply list_elem_of_filter in He as [? ?].
    by eapply search_is_Some. }
  rewrite expl_del_run. destruct (Hs (expl_head s2)) as [e He]; [rewrite H2; lia|].
  change (by_daddr (expl_head s2)) with (expl_map s2) in He. rewrite He. eexists. do 3 (split; [done|]). split; [reflexivity|].
  apply Hs. simpl. rewrite routes_to_remove. simpl in H2. rewrite H2. simpl. lia.
Qed.
