(* ===== verification/KIpenc.v ===== *)
(** * kernel/kaodv-ipenc.c: minimal encapsulation of IP packets (RFC 2004)

    A packet for the Internet is sent to a gateway: its destination and protocol
    move to a small header behind the IP header, and the gateway puts them back. *)

From S2P Require Import Prelude.
From S2P Require Import Bytes.
From S2P Require Import Kaodv.

#[local] Open Scope cm_scope.

Definition IPPROTO_MIPE : Z := 55.

(** [sizeof(struct min_ipenc_hdr)] *)
Definition MIPE_SIZE : nat := 8.

(** 16-bit values in memory. *)
Definition le_bytes16 (v : Z) : list Z := [u8 v; u8 (v / 2 ^ 8)].
Definition be_bytes16 (v : Z) : list Z := [u8 (v / 2 ^ 8); u8 v].
Definition byte_at (data : list Z) (i : nat) : Z := default 0 (data !! i).
Definition le_word (data : list Z) (i : nat) : Z := byte_at data i + 2 ^ 8 * byte_at data (S i).
Definition be_word (data : list Z) (i : nat) : Z := 2 ^ 8 * byte_at data i + byte_at data (S i).

(** Assignment to a field. *)
Definition upd (off : nat) (bs data : list Z) : list Z :=
  take off data ++ bs ++ drop (off + length bs) data.

(** ** Checksums *)

(** [ip_csum] over 16-bit words. *)
Definition ip_csum (words : list Z) : Z :=
  let sum := foldl (λ sum w, u32 (sum + w)) 0 words in
  let sum := u32 (Z.shiftr sum 16 + Z.land sum 65535) in
  let sum := u32 (sum + Z.shiftr sum 16) in
  u16 (Z.lnot sum).

Fixpoint le_words (data : list Z) : list Z :=
  match data with
  | b0 :: b1 :: data' => (b0 + 2 ^ 8 * b1) :: le_words data'
  | _ => []
  end.

(** [ip_send_check]: the checksum of the header with a zero in its place. *)
Definition ip_send_check (csum : list Z → Z) (hdr : list Z) : list Z :=
  upd 10 (le_bytes16 (csum (upd 10 [0; 0] hdr))) hdr.

(** ** Encapsulation *)

(** [iph->ihl << 2] *)
Definition hdr_len (data : list Z) : nat := Z.to_nat (4 * Z.land (byte_at data 0) 15).

(** The encapsulation header: the protocol, a zero, the checksum and the
    destination. *)
Definition min_ipenc_hdr (protocol check : Z) (daddr : list Z) : list Z :=
  [protocol; 0] ++ le_bytes16 check ++ daddr.

(** The bytes of the encapsulated packet; [None] when the header does not fit. *)
Definition encap_bytes (csum ident : list Z → Z) (dest : Z) (data : list Z)
  : option (list Z) :=
  let hl := hdr_len data in
  if bool_decide (20 <= hl <= length data)%nat then
    let hdr := take hl data in
    let protocol := byte_at data 9 in
    let daddr := take 4 (drop 16 data) in
    let check := ip_csum (le_words (min_ipenc_hdr protocol 0 daddr)) in
    let hdr := upd 16 (le_bytes32 dest) hdr in
    let hdr := upd 9 [IPPROTO_MIPE] hdr in
    let hdr := upd 2 (be_bytes16 (be_word hdr 2 + Z.of_nat MIPE_SIZE)) hdr in
    let hdr := ip_send_check csum hdr in
    let hdr := if le_word hdr 4 =? 0 then upd 4 (le_bytes16 (ident hdr)) hdr else hdr in
    Some (hdr ++ min_ipenc_hdr protocol check daddr ++ drop hl data)
  else None.

(** [ip_pkt_encapsulate]: the packet is copied and freed; NULL when there is no memory
    for the copy. *)
Definition ip_pkt_encapsulate (skb : sk_buff) (dest : Z) : KM (option sk_buff) :=
  id ← gets (λ s, copy_addr (kenv_of s) (kmallocs s));
  ok ← kmalloc;
  kfree_skb skb ;;
  if negb ok then ret None else
  csum ← gets (λ s, fast_csum (kenv_of s));
  ident ← gets (λ s, new_ident (kenv_of s));
  match encap_bytes csum ident dest (skb_data skb) with
  | Some data => ret (Some (mk_skb id data))
  | None => undefined RecvBufOverread
  end.

Definition decap_bytes (csum : list Z → Z) (data : list Z) : option (list Z) :=
  let hl := hdr_len data in
  if bool_decide (20 <= hl ∧ hl + MIPE_SIZE <= length data)%nat then
    let hdr := take hl data in
    let hdr := upd 9 [byte_at data hl] hdr in
    let hdr := upd 16 (take 4 (drop (hl + 4) data)) hdr in
    let hdr := upd 2 (be_bytes16 (be_word hdr 2 - Z.of_nat MIPE_SIZE)) hdr in
    Some (ip_send_check csum hdr ++ drop (hl + MIPE_SIZE) data)
  else None.

(** [ip_pkt_decapsulate] works in place. *)
Definition ip_pkt_decapsulate (skb : sk_buff) : KM sk_buff :=
  csum ← gets (λ s, fast_csum (kenv_of s));
  match decap_bytes csum (skb_data skb) with
  | Some data => ret (mk_skb (skb_id skb) data)
  | None => undefined RecvBufOverread
  end.

(** ** The checksum *)

Definition word (w : Z) : Prop := 0 <= w < 65536.

Lemma foldl_sum words : ∀ a,
  Forall word words → 0 <= a → a + 65535 * Z.of_nat (length words) < 4294967296 →
  foldl (λ sum w, u32 (sum + w)) a words = a + foldr Z.add 0 words.
Proof.
  unfold word. induction words as [|w words IH]; intros a Hw Ha Hlen; cbn [foldl foldr]; [lia|].
  apply Forall_cons in Hw as [Hw Hws]. cbn [length] in Hlen.
  rewrite u32_small by lia. rewrite IH by (done || lia). lia.
Qed.

Lemma foldr_sum words z : foldr Z.add z words = foldr Z.add 0 words + z.
Proof. induction words as [|w words IH]; simpl; lia. Qed.

Lemma sum_range words :
  Forall word words → 0 <= foldr Z.add 0 words <= 65535 * Z.of_nat (length words).
Proof.
  unfold word. induction words as [|w words IH]; intros Hw; cbn [foldr length]; [lia|].
  apply Forall_cons in Hw as [Hw Hws]. specialize (IH Hws). lia.
Qed.

(** The two folding steps give the residue modulo 65535, with 65535 for a positive
    multiple. *)
Lemma csum_fold (s : Z) :
  0 <= s < 4294967296 →
  ∃ r q, 0 <= r <= 65535 ∧ 0 <= q ∧ s = r + 65535 * q ∧ (r = 0 → s = 0) ∧
    u16 (Z.lnot (u32 (u32 (Z.shiftr s 16 + Z.land s 65535)
                      + Z.shiftr (u32 (Z.shiftr s 16 + Z.land s 65535)) 16))) = 65535 - r.
Proof.
  intros Hs. change 65535 with (Z.ones 16). rewrite Z.land_ones by lia.
  rewrite !Z.shiftr_div_pow2 by lia. change (Z.ones 16) with 65535.
  change (2 ^ 16) with 65536. unfold Z.lnot, u16, u32. change (2 ^ 16) with 65536.
  change (2 ^ 32) with 4294967296. rewrite <- Z.sub_1_r.
  pose proof (Z.div_mod s 65536 ltac:(lia)) as Hd.
  pose proof (Z.mod_pos_bound s 65536 ltac:(lia)) as Hr.
  assert (Hq : 0 <= s / 65536 < 65536) by (split; [apply Z.div_pos; lia|apply Z.div_lt_upper_bound; lia]).
  set (hi := s / 65536) in *. set (lo := s mod 65536) in *. clearbody hi lo.
  rewrite (Z.mod_small (hi + lo)) by lia.
  destruct (decide (hi + lo < 65536)) as [Hc|Hc].
  - rewrite (Z.div_small (hi + lo)) by lia. rewrite Z.add_0_r, (Z.mod_small (hi + lo)) by lia.
    exists (hi + lo), hi. split_and!; [lia|lia|lia|lia|lia|].
    rewrite <- (Z.mod_unique (- (hi + lo) - 1) 65536 (-1) (65535 - (hi + lo))); lia.
  - assert (E : (hi + lo) / 65536 = 1) by (symmetry; apply (Z.div_unique_pos _ _ _ (hi + lo - 65536)); lia).
    rewrite E, (Z.mod_small (hi + lo + 1)) by lia.
    exists (hi + lo - 65535), (hi + 1). split_and!; [lia|lia|lia|lia|lia|].
    rewrite <- (Z.mod_unique (- (hi + lo + 1) - 1) 65536 (-2) (131070 - (hi + lo))); lia.
Qed.

(** [ip_csum] computes the Internet checksum: with its result in the checksum
    field, a receiver that sums the header gets zero.  The sum of fewer than 65537
    words does not overflow. *)
Theorem ip_csum_verifies (before after : list Z) :
  Forall word (before ++ after) → Z.of_nat (length (before ++ after)) < 65536 →
  let c := ip_csum (before ++ 0 :: after) in
  word c ∧ ip_csum (before ++ c :: after) = 0.
Proof.
  intros Hw Hlen c. apply Forall_app in Hw as [Hb Ha]. rewrite length_app in Hlen.
  assert (Hsum : ∀ w, word w →
    foldl (λ sum w, u32 (sum + w)) 0 (before ++ w :: after)
      = foldr Z.add 0 before + w + foldr Z.add 0 after).
  { intros w Hwd. rewrite foldl_sum, foldr_app; [|apply Forall_app; split; [done|by constructor]|lia|].
    - simpl. rewrite (foldr_sum before). lia.
    - rewrite length_app. simpl length. lia. }
  pose proof (sum_range before Hb) as H1. pose proof (sum_range after Ha) as H2.
  set (S := foldr Z.add 0 before + foldr Z.add 0 after).
  destruct (csum_fold S) as (r & q & Hr & Hq & HS & Hz & Hc); [lia|].
  assert (Ec : c = 65535 - r).
  { unfold c, ip_csum. rewrite Hsum by (unfold word; lia). rewrite Z.add_0_r. exact Hc. }
  assert (Hcw : word c) by (unfold word; lia). split; [done|].
  unfold ip_csum. rewrite Hsum by done.
  replace (foldr Z.add 0 before + c + foldr Z.add 0 after) with (S + c) by (unfold S; lia).
  destruct (csum_fold (S + c)) as (r' & q' & Hr' & Hq' & HS' & Hz' & ->); [lia|].
  assert (Hpos : 0 < S + c) by lia. clearbody S c.
  assert (Hmul : r' = 65535 * (q + 1 - q')) by lia.
  assert (r' ≠ 0) by lia. lia.
Qed.

(** ** Round trip *)

Lemma hdr20 (data : list Z) :
  (20 <= length data)%nat →
  ∃ b0 b1 b2 b3 b4 b5 b6 b7 b8 b9 b10 b11 b12 b13 b14 b15 b16 b17 b18 b19 rest,
    data = [b0; b1; b2; b3; b4; b5; b6; b7; b8; b9; b10; b11; b12; b13; b14; b15; b16; b17;
            b18; b19] ++ rest.
Proof.
  intros Hl. do 20 (destruct data as [|? data]; [simpl in Hl; lia|]). do 20 eexists. by exists data.
Qed.

Lemma be_bytes16_word a b :
  0 <= a < 256 → 0 <= b < 256 → be_bytes16 (2 ^ 8 * a + b) = [a; b].
Proof.
  intros Ha Hb. unfold be_bytes16, u8. change (2 ^ 8) with 256. f_equal; [|f_equal].
  - rewrite Z.mul_comm, Z.div_add_l, (Z.div_small b), Z.add_0_r by lia. apply Z.mod_small. lia.
  - rewrite Z.add_comm, Z.mul_comm, Z.mod_add by lia. by apply Z.mod_small.
Qed.

Lemma be_word_bytes16 v : 0 <= v < 65536 → 2 ^ 8 * u8 (v / 2 ^ 8) + u8 v = v.
Proof.
  intros Hv. unfold u8. change (2 ^ 8) with 256.
  rewrite (Z.mod_small (v / 256)).
  - pose proof (Z.div_mod v 256). lia.
  - split; [apply Z.div_pos; lia|apply Z.div_lt_upper_bound; lia].
Qed.

(** A packet: the fixed part of its header, the options, the payload. *)
Lemma packet_split (data : list Z) :
  (20 <= hdr_len data <= length data)%nat →
  ∃ b0 b1 b2 b3 b4 b5 b6 b7 b8 b9 b10 b11 b12 b13 b14 b15 b16 b17 b18 b19 opts payload,
    data = [b0; b1; b2; b3; b4; b5; b6; b7; b8; b9; b10; b11; b12; b13; b14; b15; b16; b17;
            b18; b19] ++ opts ++ payload ∧
    hdr_len data = (20 + length opts)%nat ∧ hdr_len data = Z.to_nat (4 * Z.land b0 15).
Proof.
  intros [H1 H2]. destruct (hdr20 data) as (b0 & b1 & b2 & b3 & b4 & b5 & b6 & b7 & b8 & b9 & b10
    & b11 & b12 & b13 & b14 & b15 & b16 & b17 & b18 & b19 & rest & E); [lia|].
  exists b0, b1, b2, b3, b4, b5, b6, b7, b8, b9, b10, b11, b12, b13, b14, b15, b16, b17, b18, b19.
  exists (take (hdr_len data - 20) rest), (drop (hdr_len data - 20) rest).
  rewrite take_drop. split_and!; [done| |by rewrite E].
  assert (Hl : length data = (20 + length rest)%nat) by by rewrite E.
  rewrite length_take. lia.
Qed.

(** Packets that differ in the fields that encapsulation changes. *)
Section shape.
Context (csum ident : list Z → Z) (b0 b1 b4 b5 b6 b7 b8 b12 b13 b14 b15 : Z).
Context (opts payload : list Z).
Context (Hhl : Z.to_nat (4 * Z.land b0 15) = (20 + length opts)%nat).

Let H (x2 x3 x9 x10 x11 d0 d1 d2 d3 : Z) : list Z :=
  [b0; b1; x2; x3; b4; b5; b6; b7; b8; x9; x10; x11; b12; b13; b14; b15; d0; d1; d2; d3] ++ opts.

Lemma shape_take x2 x3 x9 x10 x11 d0 d1 d2 d3 l :
  take (20 + length opts) (H x2 x3 x9 x10 x11 d0 d1 d2 d3 ++ l) = H x2 x3 x9 x10 x11 d0 d1 d2 d3.
Proof. by apply take_app_length'. Qed.

Lemma shape_drop x2 x3 x9 x10 x11 d0 d1 d2 d3 n l :
  drop (20 + length opts + n) (H x2 x3 x9 x10 x11 d0 d1 d2 d3 ++ l) = drop n l.
Proof.
  change (20 + length opts)%nat with (length (H x2 x3 x9 x10 x11 d0 d1 d2 d3)).
  by rewrite drop_app_add.
Qed.

Lemma encap_shape dest x2 x3 x9 x10 x11 d0 d1 d2 d3 :
  b4 + 2 ^ 8 * b5 ≠ 0 →
  let v := 2 ^ 8 * x2 + x3 + 8 in
  ∃ c ck, encap_bytes csum ident dest (H x2 x3 x9 x10 x11 d0 d1 d2 d3 ++ payload) =
    Some (H (u8 (v / 2 ^ 8)) (u8 v) IPPROTO_MIPE (u8 c) (u8 (c / 2 ^ 8)) (u8 dest)
            (u8 (dest / 2 ^ 8)) (u8 (dest / 2 ^ 16)) (u8 (dest / 2 ^ 24))
          ++ min_ipenc_hdr x9 ck [d0; d1; d2; d3] ++ payload).
Proof.
  intros Hid v. unfold encap_bytes.
  change (hdr_len (H _ _ _ _ _ _ _ _ _ ++ _)) with (Z.to_nat (4 * Z.land b0 15)). rewrite Hhl.
  rewrite bool_decide_eq_true_2 by (rewrite length_app; unfold H; simpl length; lia).
  rewrite shape_take, <- (Nat.add_0_r (20 + length opts)), shape_drop, drop_0.
  change (le_word _ 4) with (b4 + 2 ^ 8 * b5). rewrite (proj2 (Z.eqb_neq _ _) Hid).
  by do 2 eexists.
Qed.

Lemma decap_shape x2 x3 x9 x10 x11 d0 d1 d2 d3 p ck a0 a1 a2 a3 y2 y3 :
  be_bytes16 (2 ^ 8 * x2 + x3 - 8) = [y2; y3] →
  decap_bytes csum (H x2 x3 x9 x10 x11 d0 d1 d2 d3
                    ++ min_ipenc_hdr p ck [a0; a1; a2; a3] ++ payload)
  = Some (ip_send_check csum (H y2 y3 p x10 x11 a0 a1 a2 a3) ++ payload).
Proof.
  intros Hy. unfold decap_bytes.
  change (hdr_len (H _ _ _ _ _ _ _ _ _ ++ _)) with (Z.to_nat (4 * Z.land b0 15)). rewrite Hhl.
  rewrite bool_decide_eq_true_2
    by (rewrite !length_app; unfold H, MIPE_SIZE; simpl length; lia).
  rewrite shape_take, !shape_drop.
  assert (Hb : byte_at (H x2 x3 x9 x10 x11 d0 d1 d2 d3
    ++ min_ipenc_hdr p ck [a0; a1; a2; a3] ++ payload) (20 + length opts) = p).
  { unfold byte_at. by rewrite lookup_app_r, Nat.sub_diag by done. }
  rewrite Hb. change (drop MIPE_SIZE _) with payload. cbv zeta.
  change (be_word (upd 16 _ _) 2) with (2 ^ 8 * x2 + x3). change (Z.of_nat MIPE_SIZE) with 8.
  by rewrite Hy.
Qed.
End shape.

(** C30: encapsulation and decapsulation are inverse for a packet with a complete header, a correct
    header checksum, a non-zero identifier and a total length below 65528: it is sent to the gateway
    as a packet of protocol 55 that is 8 bytes longer and addressed to [dest], and decapsulating
    that packet gives the original, byte for byte. *)
Theorem ipenc_roundtrip (csum ident : list Z → Z) (dest : Z) (data : list Z) :
  bytes_ok data → (20 <= hdr_len data <= length data)%nat →
  be_word data 2 + 8 < 65536 → le_word data 4 ≠ 0 →
  ip_send_check csum (take (hdr_len data) data) = take (hdr_len data) data →
  ∃ data', encap_bytes csum ident dest data = Some data' ∧
    byte_at data' 9 = IPPROTO_MIPE ∧ take 4 (drop 16 data') = le_bytes32 dest ∧
    be_word data' 2 = be_word data 2 + 8 ∧ length data' = (length data + 8)%nat ∧
    decap_bytes csum data' = Some data.
Proof.
  intros Hb Hh Hlen Hid Hck.
  destruct (packet_split data Hh) as (b0 & b1 & b2 & b3 & b4 & b5 & b6 & b7 & b8 & b9 & b10
    & b11 & b12 & b13 & b14 & b15 & b16 & b17 & b18 & b19 & opts & payload & E & Hhl & Hb0).
  assert (H23 : be_word data 2 = 2 ^ 8 * b2 + b3) by by rewrite E.
  assert (Hr : 0 <= b2 < 256 ∧ 0 <= b3 < 256).
  { split; [apply (Forall_lookup_1 _ data 2 b2 Hb)|apply (Forall_lookup_1 _ data 3 b3 Hb)];
      by rewrite E. }
  replace (le_word data 4) with (b4 + 2 ^ 8 * b5) in Hid by by rewrite E.
  rewrite H23 in *. set (v := 2 ^ 8 * b2 + b3 + 8).
  assert (Hv : 0 <= v < 65536) by lia. rewrite Hb0 in Hhl.
  destruct (encap_shape csum ident b0 b1 b4 b5 b6 b7 b8 b12 b13 b14 b15 opts payload Hhl dest
    b2 b3 b9 b10 b11 b16 b17 b18 b19 Hid) as (c & ck & Henc).
  rewrite <- app_assoc, <- E in Henc. eexists. split; [exact Henc|].
  split_and!; [done|done|by apply be_word_bytes16|rewrite E, !length_app; simpl length; lia|].
  fold v. rewrite (decap_shape csum b0 b1 b4 b5 b6 b7 b8 b12 b13 b14 b15 opts payload Hhl
    _ _ _ _ _ _ _ _ _ _ _ _ _ _ _ b2 b3).
  - f_equal. transitivity (ip_send_check csum (take (hdr_len data) data) ++ payload).
    + rewrite Hb0, Hhl, E, app_assoc, (shape_take b0 b1 b4 b5 b6 b7 b8 b12 b13 b14 b15 opts). done.
    + rewrite Hck, Hb0, Hhl, E, app_assoc,
        (shape_take b0 b1 b4 b5 b6 b7 b8 b12 b13 b14 b15 opts). done.
  - rewrite be_word_bytes16 by done. replace (v - 8) with (2 ^ 8 * b2 + b3) by (unfold v; lia).
    apply be_bytes16_word; lia.
Qed.
