(* ===== verification/KQueue.v ===== *)
(** * kernel/kaodv-queue.c: packets that wait for a route

    [queue_list] is kept in the order of the [prev] pointers, in which every loop of
    the source runs: the packet that was queued first is the first. *)

From S2P Require Import Prelude.
From S2P Require Import Bytes.
From S2P Require Import Kaodv.
From S2P Require Import KExpl.
From S2P Require Import KIpenc.

#[local] Open Scope cm_scope.

Definition KAODV_QUEUE_QMAX_DEFAULT : Z := 1024.
Definition KAODV_QUEUE_DROP : Z := 1.
Definition KAODV_QUEUE_SEND : Z := 2.
Definition KAODV_RT_GW_ENCAP : Z := 1.
Definition KAODV_RT_REPAIR : Z := 2.

(** Fields of an IP header; the packets that netfilter hands out have one. *)
Definition iph_saddr (data : list Z) : Z := default 0 (load32 data 12).
Definition iph_daddr (data : list Z) : Z := default 0 (load32 data 16).
Definition iph_tos (data : list Z) : Z := byte_at data 1.
Definition iph_protocol (data : list Z) : Z := byte_at data 9.

(** [__kaodv_queue_enqueue_entry] *)
Definition queue_enqueue_entry (entry : kaodv_queue_entry) : KM Z :=
  total ← gets queue_total;
  if KAODV_QUEUE_QMAX_DEFAULT <=? total then ret (- ENOSPC) else
  modify (λ s, set_queue (u32 (queue_total s + 1)) (queue_list s ++ [entry]) s) ;;
  ret 0.

(** [__kaodv_queue_find_dequeue_entry] with [__kaodv_queue_find_entry] *)
Definition queue_find_dequeue_entry (cmpfn : kaodv_queue_entry → bool)
  : KM (option kaodv_queue_entry) :=
  entry ← gets (λ s, search cmpfn (queue_list s));
  match entry with
  | None => ret None
  | Some e =>
      modify (λ s, set_queue (u32 (queue_total s - 1)) (remove_first cmpfn (queue_list s)) s) ;;
      ret (Some e)
  end.

(** The [while] loops that take entries off the queue until none is left. *)
Fixpoint dequeue_loop (fuel : nat) (cmpfn : kaodv_queue_entry → bool)
    (body : kaodv_queue_entry → Z → KM Z) (pkts : Z) : KM Z :=
  match fuel with
  | O => undefined OutOfFuel
  | S fuel =>
      entry ← queue_find_dequeue_entry cmpfn;
      match entry with
      | None => ret pkts
      | Some e => pkts ← body e pkts; dequeue_loop fuel cmpfn body pkts
      end
  end.

Definition dequeue_all (cmpfn : kaodv_queue_entry → bool)
    (body : kaodv_queue_entry → Z → KM Z) : KM Z :=
  n ← gets (λ s, length (queue_list s));
  dequeue_loop (S n) cmpfn body 0.

Definition kaodv_queue_flush : KM () :=
  dequeue_all (λ _, true) (λ e pkts, kfree_skb (qe_skb e) ;; ret pkts) ;;
  ret ().

Definition kaodv_queue_enqueue_packet (skb : sk_buff) (okfn : Z) : KM Z :=
  ok ← kmalloc;
  if negb ok then ret (- ENOMEM) else
  queue_enqueue_entry (mk_qe skb okfn (iph_tos (skb_data skb)) (iph_daddr (skb_data skb))
                         (iph_saddr (skb_data skb))).

Definition dest_cmp (daddr : Z) (e : kaodv_queue_entry) : bool := daddr =? qe_daddr e.

Definition kaodv_queue_find (daddr : Z) : KM bool :=
  entry ← gets (λ s, search (dest_cmp daddr) (queue_list s));
  ret (bool_decide (is_Some entry)).

(** One packet is dropped; for the first an ICMP message is sent. *)
Definition drop_packet (e : kaodv_queue_entry) (pkts : Z) : KM Z :=
  when (pkts =? 0) (kemit (KIcmpUnreach (skb_id (qe_skb e)))) ;;
  kfree_skb (qe_skb e) ;;
  ret (pkts + 1).

(** One packet continues, encapsulated when its route leads to a gateway; it is freed
    when its route is gone. *)
Definition send_packet (daddr : Z) (e : kaodv_queue_entry) (pkts : Z) : KM Z :=
  route ← kaodv_expl_get daddr;
  match route with
  | None => kfree_skb (qe_skb e) ;; ret pkts
  | Some r =>
      skb ← (if has (ex_flags r) KAODV_RT_GW_ENCAP
             then ip_pkt_encapsulate (qe_skb e) (ex_nhop r)
             else ret (Some (qe_skb e)));
      match skb with
      | None => ret pkts
      | Some skb =>
          kemit (KReroute (skb_id skb)) ;;
          kemit (KInject (qe_okfn e) skb) ;;
          ret (pkts + 1)
      end
  end.

Definition kaodv_queue_set_verdict (verdict daddr : Z) : KM Z :=
  if verdict =? KAODV_QUEUE_DROP then dequeue_all (dest_cmp daddr) drop_packet
  else if verdict =? KAODV_QUEUE_SEND then dequeue_all (dest_cmp daddr) (send_packet daddr)
  else ret 0.

(** ** The loops *)

(** An operation that does not look at the queue. *)
Definition off_queue {A} (m : KM A) : Prop := ∀ s t l,
  m (set_queue t l s) =
  match m s with
  | Ok a s' => Ok a (set_queue t l s')
  | Exit c => Exit c
  | Ub u => Ub u
  end.

Lemma off_queue_ret {A} (a : A) : off_queue (ret a).
Proof. done. Qed.
Lemma off_queue_bind {A B} (m : KM A) (f : A → KM B) :
  off_queue m → (∀ a, off_queue (f a)) → off_queue (bind m f).
Proof.
  intros Hm Hf s t l. unfold bind. rewrite Hm. destruct (m s) as [a s'| |]; [apply Hf|done|done].
Qed.
Lemma off_queue_when b m : off_queue m → off_queue (when b m).
Proof. by destruct b. Qed.
Lemma off_queue_emit ev : off_queue (kemit ev).
Proof. done. Qed.
Lemma off_queue_undefined {A} u : off_queue (undefined u : KM A).
Proof. done. Qed.
Lemma off_queue_gets {A} (f : kstate → A) :
  (∀ s t l, f (set_queue t l s) = f s) → off_queue (gets f).
Proof. intros Hf s t l. unfold gets. by rewrite Hf. Qed.
Lemma off_queue_kmalloc : off_queue kmalloc.
Proof. done. Qed.
Create HintDb kaodv discriminated.
#[export] Hint Constants Opaque : kaodv.
#[export] Hint Resolve off_queue_ret off_queue_when off_queue_emit off_queue_undefined
  off_queue_kmalloc : kaodv.

Ltac off_queue_go :=
  repeat first
    [ solve [eauto with kaodv]
    | apply off_queue_bind; [|intros ?]
    | apply off_queue_gets; done
    | apply off_queue_when
    | match goal with |- off_queue (match ?x with _ => _ end) => destruct x end ].

Lemma off_queue_kfree skb : off_queue (kfree_skb skb).
Proof. done. Qed.
#[export] Hint Resolve off_queue_kfree : kaodv.
Lemma off_queue_drop e n : off_queue (drop_packet e n).
Proof. unfold drop_packet. off_queue_go. Qed.
Lemma off_queue_encapsulate skb dest : off_queue (ip_pkt_encapsulate skb dest).
Proof. unfold ip_pkt_encapsulate. off_queue_go. Qed.
#[export] Hint Resolve off_queue_encapsulate : kaodv.
Lemma off_queue_send d e n : off_queue (send_packet d e n).
Proof. unfold send_packet, kaodv_expl_get. off_queue_go. Qed.

(** The counter is exact and the queue is bounded. *)
Record queue_ok (s : kstate) : Prop := {
  qo_count : queue_total s = Z.of_nat (length (queue_list s));
  qo_max : queue_total s <= KAODV_QUEUE_QMAX_DEFAULT
}.

Section dequeue.
Context (cmpfn : kaodv_queue_entry → bool).
Abbreviation taken := (filter (λ e, cmpfn e = true)).
Abbreviation kept := (filter (λ e, cmpfn e = false)).

Lemma search_split l e :
  search cmpfn l = Some e →
  taken l = e :: taken (remove_first cmpfn l) ∧ kept l = kept (remove_first cmpfn l) ∧
  length l = S (length (remove_first cmpfn l)).
Proof.
  induction l as [|c l IH]; simpl; [done|]. destruct (cmpfn c) eqn:Hc.
  - intros [= ->]. rewrite filter_cons_True, (filter_cons_False (λ e, cmpfn e = false)) by
      (done || congruence). done.
  - intros Hs. destruct (IH Hs) as (H1 & H2 & H3).
    rewrite !(filter_cons_False (λ e, cmpfn e = true)), !(filter_cons_True (λ e, cmpfn e = false))
      by (done || congruence). rewrite H1, H2. simpl. by rewrite <- H3.
Qed.

Lemma search_none l : search cmpfn l = None → taken l = [] ∧ kept l = l.
Proof.
  induction l as [|c l IH]; simpl; [done|]. destruct (cmpfn c) eqn:Hc; [done|].
  intros Hs. destruct (IH Hs) as [H1 H2].
  rewrite filter_cons_False, filter_cons_True, H1, H2 by (done || congruence). done.
Qed.

(** The state with the packets of [cmpfn] off the queue. *)
Definition dequeued (s : kstate) : kstate :=
  set_queue (Z.of_nat (length (kept (queue_list s)))) (kept (queue_list s)) s.

Lemma dequeue_loop_run body :
  (∀ e n, off_queue (body e n)) → ∀ fuel s pkts,
  (length (queue_list s) < fuel)%nat → queue_ok s →
  dequeue_loop fuel cmpfn body pkts s = foreach (taken (queue_list s)) pkts body (dequeued s).
Proof.
  intros Hbody. induction fuel as [|fuel IH]; intros s pkts Hf [Hn Hm]; [lia|].
  unfold KAODV_QUEUE_QMAX_DEFAULT in Hm.
  cbn [dequeue_loop]. unfold queue_find_dequeue_entry, dequeued.
  destruct (search cmpfn (queue_list s)) as [e|] eqn:Hs.
  - destruct (search_split _ _ Hs) as (H1 & H2 & H3).
    erewrite bind_ok by (unfold bind, gets; rewrite Hs; reflexivity). cbn [modify].
    rewrite H1, H2. cbn [foreach]. set (rest := remove_first cmpfn (queue_list s)) in *.
    unfold bind. rewrite !(Hbody e pkts).
    destruct (body e pkts s) as [a s'| |]; [|done|done].
    rewrite IH; [done|simpl; lia|].
    rewrite u32_small by lia. split; simpl; [lia|unfold KAODV_QUEUE_QMAX_DEFAULT; lia].
  - destruct (search_none _ Hs) as [H1 H2].
    erewrite bind_ok by (unfold bind, gets; rewrite Hs; reflexivity).
    rewrite H1, H2, <- Hn. by destruct s.
Qed.

Lemma dequeue_all_run body s :
  (∀ e n, off_queue (body e n)) → queue_ok s →
  dequeue_all cmpfn body s = foreach (taken (queue_list s)) 0 body (dequeued s).
Proof. intros Hb Hq. unfold dequeue_all. erewrite bind_ok by done. by apply dequeue_loop_run; [|lia|]. Qed.

Lemma queue_ok_dequeued s : queue_ok s → queue_ok (dequeued s).
Proof.
  intros [Hn Hm]. split; simpl; [done|]. pose proof (length_filter (λ e, cmpfn e = false) (queue_list s)).
  lia.
Qed.
End dequeue.

(** The loops of [kaodv_queue_set_verdict] and [kaodv_queue_flush], which search the
    queue from its end again for every packet, end and do the work of one pass: the
    body runs once for each selected packet, in the order in which they were queued,
    and the other packets stay in their order with an exact count. *)
Theorem dequeue_all_is_pass (cmpfn : kaodv_queue_entry → bool)
    (body : kaodv_queue_entry → Z → KM Z) (s : kstate) :
  (∀ e n, off_queue (body e n)) → queue_ok s →
  let rest := filter (λ e, cmpfn e = false) (queue_list s) in
  dequeue_all cmpfn body s
  = foreach (filter (λ e, cmpfn e = true) (queue_list s)) 0 body
      (set_queue (Z.of_nat (length rest)) rest s).
Proof. intros Hb Hq. by apply dequeue_all_run. Qed.

(** ** Verdicts *)

(** The state with more events, oldest first. *)
Definition traced (evs : list kevent) (s : kstate) : kstate :=
  set_ktrace (reverse evs ++ ktrace s) s.

Lemma traced_nil s : traced [] s = s.
Proof. by destruct s. Qed.

Lemma traced_app evs1 evs2 s : traced (evs1 ++ evs2) s = traced evs2 (traced evs1 s).
Proof. unfold traced. cbn. by rewrite reverse_app, <- app_assoc. Qed.

(** A loop whose body only records events. *)
Lemma foreach_traced {A} (f : A → list kevent) (body : A → Z → KM Z) (d : Z) l n s :
  (∀ a n evs, body a n (traced evs s) = Ok (n + d) (traced (evs ++ f a) s)) →
  foreach l n body s = Ok (n + d * Z.of_nat (length l)) (traced (l ≫= f) s).
Proof.
  intros Hb. assert (Hgen : ∀ evs n, foreach l n body (traced evs s)
    = Ok (n + d * Z.of_nat (length l)) (traced (evs ++ (l ≫= f)) s)).
  { clear n. induction l as [|a l IH]; intros evs n.
    - simpl. by rewrite app_nil_r, Z.mul_0_r, Z.add_0_r.
    - cbn [foreach]. erewrite bind_ok by apply Hb. rewrite IH, <- app_assoc.
      f_equal. cbn [length]. lia. }
  specialize (Hgen [] n). by rewrite traced_nil in Hgen.
Qed.

Lemma bind_each {A B} (f : A → B) (l : list A) : l ≫= (λ a, [f a]) = f <$> l.
Proof. induction l as [|a l IH]; [done|]. cbn. by rewrite <- IH. Qed.

Lemma drop_loop l n s :
  0 < n → foreach l n drop_packet s
          = Ok (n + Z.of_nat (length l)) (traced ((λ e, KFreeSkb (skb_id (qe_skb e))) <$> l) s).
Proof.
  revert n s. induction l as [|e l IH]; intros n s Hn.
  - simpl. by rewrite Z.add_0_r, traced_nil.
  - cbn [foreach]. erewrite bind_ok.
    2:{ unfold drop_packet. rewrite (proj2 (Z.eqb_neq n 0)) by lia. reflexivity. }
    rewrite IH by lia. rewrite fmap_cons.
    change (?x :: ?l) with ([x] ++ l). rewrite traced_app. f_equal. simpl length. lia.
Qed.

(** What happens to the packets of a destination that cannot be reached. *)
Definition drop_events (l : list kaodv_queue_entry) : list kevent :=
  match l with
  | [] => []
  | e :: _ => KIcmpUnreach (skb_id (qe_skb e)) :: ((λ e, KFreeSkb (skb_id (qe_skb e))) <$> l)
  end.

(** And of one that can. *)
Definition send_events (l : list kaodv_queue_entry) : list kevent :=
  l ≫= λ e, [KReroute (skb_id (qe_skb e)); KInject (qe_okfn e) (qe_skb e)].

Lemma drop_all_run s d :
  queue_ok s →
  let mine := filter (λ e, dest_cmp d e = true) (queue_list s) in
  kaodv_queue_set_verdict KAODV_QUEUE_DROP d s
  = Ok (Z.of_nat (length mine)) (traced (drop_events mine) (dequeued (dest_cmp d) s)).
Proof.
  intros Hq mine. unfold kaodv_queue_set_verdict. rewrite Z.eqb_refl.
  rewrite dequeue_all_run by (done || apply off_queue_drop). fold mine.
  destruct mine as [|e l]; [by rewrite traced_nil|]. cbn [foreach drop_events].
  erewrite bind_ok by reflexivity. rewrite drop_loop by lia. rewrite fmap_cons.
  change (?x :: ?y :: ?l) with ([x; y] ++ l). rewrite traced_app. f_equal. simpl length. lia.
Qed.

Lemma send_all_run s d :
  queue_ok s →
  let mine := filter (λ e, dest_cmp d e = true) (queue_list s) in
  (∀ r, expl_find s d = Some r → has (ex_flags r) KAODV_RT_GW_ENCAP = false) →
  kaodv_queue_set_verdict KAODV_QUEUE_SEND d s
  = match expl_find s d with
    | Some _ => Ok (Z.of_nat (length mine)) (traced (send_events mine) (dequeued (dest_cmp d) s))
    | None =>
        Ok 0 (traced ((λ e, KFreeSkb (skb_id (qe_skb e))) <$> mine) (dequeued (dest_cmp d) s))
    end.
Proof.
  intros Hq mine Hne. unfold kaodv_queue_set_verdict.
  rewrite (proj2 (Z.eqb_neq KAODV_QUEUE_SEND KAODV_QUEUE_DROP)), Z.eqb_refl by done.
  rewrite dequeue_all_run by (done || apply off_queue_send). fold mine.
  assert (Hfind : ∀ evs, expl_find (traced evs (dequeued (dest_cmp d) s)) d = expl_find s d) by done.
  destruct (expl_find s d) as [r|] eqn:Hr.
  - rewrite (foreach_traced (λ e, [KReroute (skb_id (qe_skb e)); KInject (qe_okfn e) (qe_skb e)])
      _ 1); [f_equal; lia|].
    intros e n evs. unfold send_packet, kaodv_expl_get.
    erewrite (bind_ok _ _ _ (Some r)) by (unfold gets; by rewrite Hfind).
    rewrite (Hne r eq_refl).
    rewrite traced_app. done.
  - rewrite (foreach_traced (λ e, [KFreeSkb (skb_id (qe_skb e))]) _ 0).
    + by rewrite bind_each.
    + intros e n evs. unfold send_packet, kaodv_expl_get.
      erewrite (bind_ok _ _ _ None) by (unfold gets; by rewrite Hfind).
      rewrite traced_app, Z.add_0_r. done.
Qed.

(** The verdict on a destination settles each of its packets exactly once, in the
    order they were queued, and no other packet: dropped packets are freed, with one
    ICMP message for the first; sent packets are routed again and continue where
    they were stopped, as many as the result says; when the route has gone in
    between, they are freed and none is counted. *)
Theorem queue_set_verdict_exact (s : kstate) (d : Z) :
  queue_ok s →
  let mine := filter (λ e, dest_cmp d e = true) (queue_list s) in
  (∃ s', kaodv_queue_set_verdict KAODV_QUEUE_DROP d s = Ok (Z.of_nat (length mine)) s' ∧
     queue_ok s' ∧ queue_list s' = filter (λ e, dest_cmp d e = false) (queue_list s) ∧
     ktrace s' = reverse (drop_events mine) ++ ktrace s) ∧
  (∀ r, expl_find s d = Some r → has (ex_flags r) KAODV_RT_GW_ENCAP = false →
     ∃ s', kaodv_queue_set_verdict KAODV_QUEUE_SEND d s = Ok (Z.of_nat (length mine)) s' ∧
       queue_ok s' ∧ queue_list s' = filter (λ e, dest_cmp d e = false) (queue_list s) ∧
       ktrace s' = reverse (send_events mine) ++ ktrace s) ∧
  (expl_find s d = None →
     ∃ s', kaodv_queue_set_verdict KAODV_QUEUE_SEND d s = Ok 0 s' ∧
       queue_ok s' ∧ queue_list s' = filter (λ e, dest_cmp d e = false) (queue_list s) ∧
       ktrace s' = reverse ((λ e, KFreeSkb (skb_id (qe_skb e))) <$> mine) ++ ktrace s).
Proof.
  intros Hq mine.
  assert (Hok : ∀ evs, queue_ok (traced evs (dequeued (dest_cmp d) s))).
  { intros evs. destruct (queue_ok_dequeued (dest_cmp d) s Hq). by split. }
  split_and!.
  - rewrite drop_all_run by done. eexists. by split_and!.
  - intros r Hr Hne. rewrite send_all_run, Hr by (done || congruence). eexists. by split_and!.
  - intros Hr. rewrite send_all_run, Hr by (done || congruence). eexists. by split_and!.
Qed.

(** Flushing the queue frees its packets, oldest first. *)
Lemma queue_flush_run s :
  queue_ok s →
  kaodv_queue_flush s
  = Ok () (traced ((λ e, KFreeSkb (skb_id (qe_skb e))) <$> queue_list s) (set_queue 0 [] s)).
Proof.
  intros Hq. assert (Htake : ∀ l : list kaodv_queue_entry, filter (λ _, true = true) l = l)
    by (intros l; by apply filter_all).
  assert (Hkeep : ∀ l : list kaodv_queue_entry, filter (λ _, true = false) l = []).
  { intros l. induction l as [|e l IH]; [done|]. by rewrite filter_cons_False. }
  unfold kaodv_queue_flush. erewrite bind_ok.
  2:{ rewrite dequeue_all_run by (done || intros ? ?; off_queue_go).
      apply (foreach_traced (λ e, [KFreeSkb (skb_id (qe_skb e))]) _ 0).
      intros e n evs. rewrite traced_app, Z.add_0_r. done. }
  unfold ret. rewrite bind_each, Htake. unfold dequeued. by rewrite !Hkeep.
Qed.

Definition entry_of (skb : sk_buff) (okfn : Z) : kaodv_queue_entry :=
  mk_qe skb okfn (iph_tos (skb_data skb)) (iph_daddr (skb_data skb)) (iph_saddr (skb_data skb)).

(** Whether there is memory and room for a packet. *)
Definition can_queue (s : kstate) : bool :=
  kmalloc_ok (kenv_of s) (kmallocs s) && (queue_total s <? KAODV_QUEUE_QMAX_DEFAULT).

(** Queueing a packet: with memory and room it becomes the last packet; otherwise the
    error is returned and the packet is neither queued nor freed. *)
Lemma enqueue_run s skb okfn :
  queue_ok s →
  let s' := set_kmallocs (S (kmallocs s)) s in
  kaodv_queue_enqueue_packet skb okfn s
  = if can_queue s
    then Ok 0 (set_queue (queue_total s + 1) (queue_list s ++ [entry_of skb okfn]) s')
    else Ok (if kmalloc_ok (kenv_of s) (kmallocs s) then - ENOSPC else - ENOMEM) s'.
Proof.
  intros [Hn Hm]. unfold can_queue, kaodv_queue_enqueue_packet, kmalloc, bind, gets, modify, ret.
  destruct (kmalloc_ok _ _); cbn [negb andb]; [|done].
  unfold queue_enqueue_entry, bind, gets, modify, ret. cbn [queue_total set_kmallocs].
  destruct (queue_total s <? KAODV_QUEUE_QMAX_DEFAULT) eqn:E.
  - apply Z.ltb_lt in E. rewrite (proj2 (Z.leb_gt _ _)) by done.
    unfold KAODV_QUEUE_QMAX_DEFAULT in *. cbn. by rewrite u32_small by lia.
  - apply Z.ltb_ge in E. by rewrite (proj2 (Z.leb_le _ _)) by done.
Qed.

Lemma queue_ok_enqueued s skb okfn :
  queue_ok s → can_queue s = true →
  queue_ok (set_queue (queue_total s + 1) (queue_list s ++ [entry_of skb okfn]) s).
Proof.
  intros [Hn Hm] [_ Hc%Z.ltb_lt]%andb_true_iff. unfold KAODV_QUEUE_QMAX_DEFAULT in *.
  split; simpl; [rewrite length_app; simpl length; lia|unfold KAODV_QUEUE_QMAX_DEFAULT; lia].
Qed.
