(* ===== verification/KNetlink.v ===== *)
(** * kernel/kaodv-netlink.c: messages between the module and the daemon *)

From S2P Require Import Prelude.
From S2P Require Import Bytes.
From S2P Require Import Kaodv.
From S2P Require Import KExpl.
From S2P Require Import KIpenc.
From S2P Require Import KQueue.

#[local] Open Scope cm_scope.

Definition KAODVM_ADDROUTE : Z := 101.
Definition KAODVM_DELROUTE : Z := 102.
Definition KAODVM_TIMEOUT : Z := 103.
Definition KAODVM_ROUTE_REQ : Z := 104.
Definition KAODVM_REPAIR : Z := 105.
Definition KAODVM_NOROUTE_FOUND : Z := 106.
Definition KAODVM_ROUTE_UPDATE : Z := 107.
Definition KAODVM_SEND_RERR : Z := 108.
Definition KAODVM_CONFIG : Z := 109.
Definition KAODVM_DEBUG : Z := 110.

Definition PKT_INBOUND : Z := 1.
Definition PKT_OUTBOUND : Z := 2.

Definition NLMSG_HDRLEN : Z := 16.
Definition NLM_F_REQUEST : Z := 1.
Definition NLM_F_MULTI : Z := 2.
Definition NLM_F_ACK : Z := 4.
Definition MSG_TRUNC : Z := 32.

(** [sizeof(struct kaodv_rt_msg)] and [sizeof(struct kaodv_conf_msg)] *)
Definition RT_MSG_SIZE : Z := 32.
Definition CONF_MSG_SIZE : Z := 12.

(** ** Layout *)

(** [struct kaodv_rt_msg]: a zeroed object with its fields. *)
Definition rt_msg_bytes (m : kaodv_rt_msg) : list Z :=
  [u8 (m_type m); 0; 0; 0] ++ le_bytes32 (m_src m) ++ le_bytes32 (m_dst m)
  ++ le_bytes32 (m_nhop m) ++ [u8 (m_flags m); 0; 0; 0] ++ le_bytes32 (m_ifindex m)
  ++ le_bytes64 (m_time m).

Definition read_rt_msg (msg : list Z) : option kaodv_rt_msg :=
  match load8 msg 0, load32 msg 4, load32 msg 8, load32 msg 12, load8 msg 16, load32 msg 20,
    load64 msg 24 with
  | Some type, Some src, Some dst, Some nhop, Some flags, Some ifindex, Some time =>
      Some (mk_rt_msg type src dst nhop flags (int32 ifindex) time)
  | _, _, _, _, _, _, _ => None
  end.

(** [kaodv_netlink_build_msg]: a header without process, sequence number and flags, the
    data, and padding to a multiple of four. *)
Definition nlmsg_bytes (type : Z) (data : list Z) : list Z :=
  let len := NLMSG_HDRLEN + Z.of_nat (length data) in
  let size := (len + 3) / 4 * 4 in
  le_bytes32 size ++ le_bytes16 type ++ [0; 0] ++ le_bytes32 0 ++ le_bytes32 0
  ++ data ++ replicate (Z.to_nat (size - len)) 0.

(** ** Sending *)

(** A message that cannot be allocated is lost. *)
Definition send_msg (type : Z) (data : list Z) : KM () :=
  ok ← kmalloc;
  when ok (kemit (KNotify (nlmsg_bytes type data))).

Definition kaodv_netlink_send_rt_msg (type src dest : Z) : KM () :=
  send_msg type (rt_msg_bytes (mk_rt_msg 0 src dest 0 0 0 0)).

Definition kaodv_netlink_send_rt_update_msg (type src dest ifindex : Z) : KM () :=
  send_msg KAODVM_ROUTE_UPDATE (rt_msg_bytes (mk_rt_msg type src dest 0 0 ifindex 0)).

Definition kaodv_netlink_send_rerr_msg (type src dest ifindex : Z) : KM () :=
  send_msg KAODVM_SEND_RERR (rt_msg_bytes (mk_rt_msg type src dest 0 0 ifindex 0)).

(** ** Receiving *)

(** [len] is the length of [msg] by its header's account. *)
Definition with_rt_msg (msg : list Z) (len : Z) (f : kaodv_rt_msg → KM Z) : KM Z :=
  if len <? RT_MSG_SIZE then ret (- EINVAL) else
  match read_rt_msg msg with
  | Some m => f m
  | None => undefined RecvBufOverread
  end.

Definition kaodv_netlink_receive_peer (type : Z) (msg : list Z) (len : Z) : KM Z :=
  if type =? KAODVM_ADDROUTE then
    with_rt_msg msg len (λ m,
      e ← kaodv_expl_get (m_dst m);
      let found := match e with Some _ => 1 | None => 0 end in
      r ← (if found <? 0
           then kaodv_expl_update (m_dst m) (m_nhop m) (m_time m) (m_flags m) (m_ifindex m)
           else kaodv_expl_add (m_dst m) (m_nhop m) (m_time m) (m_flags m) (m_ifindex m));
      kaodv_queue_set_verdict KAODV_QUEUE_SEND (m_dst m) ;;
      ret r)
  else if type =? KAODVM_DELROUTE then
    with_rt_msg msg len (λ m,
      kaodv_expl_del (m_dst m) ;;
      kaodv_queue_set_verdict KAODV_QUEUE_DROP (m_dst m) ;;
      ret 0)
  else if type =? KAODVM_NOROUTE_FOUND then
    with_rt_msg msg len (λ m,
      kaodv_queue_set_verdict KAODV_QUEUE_DROP (m_dst m) ;;
      ret 0)
  else if type =? KAODVM_CONFIG then
    if len <? CONF_MSG_SIZE then ret (- EINVAL) else
    match load32 msg 0, load32 msg 4, load32 msg 8 with
    | Some t, Some q, Some g =>
        modify (set_config (int32 t) (int32 q) (int32 g)) ;; ret 0
    | _, _, _ => undefined RecvBufOverread
    end
  else ret (- EINVAL).

(** [kaodv_netlink_rcv_skb]; [allowed] is the answer of [security_netlink_recv].  The
    length in the header is an [int] compared with a [size_t] first. *)
Definition kaodv_netlink_rcv_skb (data : list Z) (allowed : bool) : KM () :=
  let skblen := Z.of_nat (length data) in
  if skblen <? NLMSG_HDRLEN then ret () else
  match load32 data 0, load16 data 4, load16 data 6, load32 data 12 with
  | Some len, Some type, Some flags, Some pid =>
      let nlmsglen := int32 len in
      let pid := int32 pid in
      if (u64 nlmsglen <? NLMSG_HDRLEN) || (skblen <? nlmsglen) then ret () else
      if (pid <=? 0) || negb (has flags NLM_F_REQUEST) || has flags NLM_F_MULTI
      then kemit (KAck (- EINVAL)) else
      if has flags MSG_TRUNC then kemit (KAck (- ECOMM)) else
      if negb allowed then kemit (KAck (- EPERM)) else
      peer ← gets peer_pid;
      if negb (peer =? 0) && negb (peer =? pid) then kemit (KAck (- EBUSY)) else
      when (peer =? 0) (modify (set_peer_pid pid)) ;;
      status ← kaodv_netlink_receive_peer (u8 type) (drop (Z.to_nat NLMSG_HDRLEN) data)
                 (skblen - NLMSG_HDRLEN);
      if status <? 0 then kemit (KAck status) else
      when (has flags NLM_F_ACK) (kemit (KAck 0))
  | _, _, _, _ => undefined RecvBufOverread
  end.

(** [kaodv_netlink_rcv_nl_event]: a netlink socket has been closed; [ours] says whether
    the event is [NETLINK_URELEASE] for the module's protocol. *)
Definition kaodv_netlink_rcv_nl_event (ours : bool) (pid : Z) : KM () :=
  peer ← gets peer_pid;
  when (ours && negb (pid =? 0) && (pid =? peer))
    (modify (set_peer_pid 0) ;;
     kaodv_expl_flush ;;
     kaodv_queue_flush).

(** ** Properties *)


(** The values that fit in the fields. *)
Record rt_msg_ok (m : kaodv_rt_msg) : Prop := {
  mo_type : 0 <= m_type m < 256;
  mo_src : 0 <= m_src m < 4294967296;
  mo_dst : 0 <= m_dst m < 4294967296;
  mo_nhop : 0 <= m_nhop m < 4294967296;
  mo_flags : 0 <= m_flags m < 256;
  mo_ifindex : - 2147483648 <= m_ifindex m < 2147483648;
  mo_time : 0 <= m_time m < 18446744073709551616
}.

Lemma int32_u32 v : - 2147483648 <= v < 2147483648 → int32 (u32 v) = v.
Proof.
  intros Hv. unfold int32. rewrite u32_idemp. unfold u32.
  change (2 ^ 32) with 4294967296. change (2 ^ 31) with 2147483648.
  destruct (decide (0 <= v)).
  - rewrite Z.mod_small by lia. by rewrite (proj2 (Z.ltb_lt _ _)) by lia.
  - rewrite <- (Z.mod_unique v 4294967296 (-1) (v + 4294967296)) by lia.
    rewrite (proj2 (Z.ltb_ge _ _)) by lia. lia.
Qed.

Lemma u32_split v :
  0 <= v < 18446744073709551616 → u32 v + 2 ^ 32 * u32 (v / 2 ^ 32) = v.
Proof.
  intros Hv. unfold u32. change (2 ^ 32) with 4294967296.
  rewrite (Z.mod_small (v / 4294967296)).
  - pose proof (Z.div_mod v 4294967296). lia.
  - split; [apply Z.div_pos; lia|apply Z.div_lt_upper_bound; lia].
Qed.

Lemma rt_msg_read m rest : rt_msg_ok m → read_rt_msg (rt_msg_bytes m ++ rest) = Some m.
Proof.
  intros []. unfold read_rt_msg.
  change (load8 _ 0) with (Some (u8 (m_type m))). change (load8 _ 16) with (Some (u8 (m_flags m))).
  set (l32 := λ v, Some (le_value32 (u8 v) (u8 (v / 2 ^ 8)) (u8 (v / 2 ^ 16)) (u8 (v / 2 ^ 24)))).
  change (load32 _ 4) with (l32 (m_src m)). change (load32 _ 8) with (l32 (m_dst m)).
  change (load32 _ 12) with (l32 (m_nhop m)). change (load32 _ 20) with (l32 (m_ifindex m)).
  unfold load64. change (load32 _ 24) with (l32 (m_time m)).
  change (load32 _ (24 + 4)) with (l32 (m_time m / 2 ^ 32)).
  unfold l32. rewrite !le_value_u32. cbn [mbind option_bind].
  rewrite !u8_small, !(u32_small (m_src m)), !(u32_small (m_dst m)), !(u32_small (m_nhop m)),
    int32_u32, u32_split by done. by destruct m.
Qed.

(** The messages the module sends carry what was put into them: the receiver finds
    the type and the length in the header and, behind it, the fields of the
    message. *)
Theorem rt_msg_roundtrip (type : Z) (m : kaodv_rt_msg) :
  0 <= type < 65536 → rt_msg_ok m →
  let msg := nlmsg_bytes type (rt_msg_bytes m) in
  Z.of_nat (length msg) = NLMSG_HDRLEN + RT_MSG_SIZE ∧
  load32 msg 0 = Some (NLMSG_HDRLEN + RT_MSG_SIZE) ∧ load16 msg 4 = Some type ∧
  read_rt_msg (drop (Z.to_nat NLMSG_HDRLEN) msg) = Some m.
Proof.
  intros Ht Hm msg. split_and!; [done|done| |by apply (rt_msg_read m [])].
  change (load16 msg 4) with (Some (u8 type + 2 ^ 8 * u8 (type / 2 ^ 8))).
  f_equal. rewrite Z.add_comm. by apply be_word_bytes16.
Qed.

(** A well-formed request of the process [pid]. *)
Record request (data : list Z) (type flags pid : Z) : Prop := {
  rq_len : NLMSG_HDRLEN <= Z.of_nat (length data);
  rq_nlmsglen : ∃ l, load32 data 0 = Some l ∧ NLMSG_HDRLEN <= int32 l <= Z.of_nat (length data);
  rq_type : load16 data 4 = Some type;
  rq_flags : load16 data 6 = Some flags;
  rq_request : has flags NLM_F_REQUEST = true;
  rq_multi : has flags NLM_F_MULTI = false;
  rq_trunc : has flags MSG_TRUNC = false;
  rq_pid : ∃ p, load32 data 12 = Some p ∧ int32 p = pid;
  rq_process : 0 < pid
}.

(** It is handed to [kaodv_netlink_receive_peer] when there is no other peer. *)
Lemma rcv_request data type flags pid s :
  request data type flags pid → peer_pid s = 0 ∨ peer_pid s = pid →
  kaodv_netlink_rcv_skb data true s =
  (status ← kaodv_netlink_receive_peer (u8 type) (drop 16 data)
              (Z.of_nat (length data) - NLMSG_HDRLEN);
   if status <? 0 then kemit (KAck status) else when (has flags NLM_F_ACK) (kemit (KAck 0)))
    (set_peer_pid pid s).
Proof.
  intros [Hl (l & Hl0 & Hl1) Ht Hf H1 H2 H3 (p & Hp & Hpid) Hpos] Hpeer.
  unfold kaodv_netlink_rcv_skb. rewrite (proj2 (Z.ltb_ge _ _)) by done.
  rewrite Hl0, Ht, Hf, Hp, Hpid. unfold NLMSG_HDRLEN in *.
  assert (Hu : u64 (int32 l) = int32 l).
  { apply Z.mod_small. pose proof (int32_range l). change (2 ^ 64) with 18446744073709551616. lia. }
  rewrite Hu, (proj2 (Z.ltb_ge (int32 l) 16)), (proj2 (Z.ltb_ge _ (int32 l))) by lia. cbn [orb].
  rewrite (proj2 (Z.leb_gt _ _)) by lia. rewrite H1, H2, H3. cbn [orb negb].
  unfold bind at 1, gets. destruct Hpeer as [Hz|He].
  - rewrite Hz. done.
  - rewrite He, Z.eqb_refl, (proj2 (Z.eqb_neq pid 0)) by lia. cbn [negb andb when].
    rewrite <- He. by destruct s.
Qed.

(** The module listens to one process at a time: while it has a peer, a message of
    another process changes nothing, it is at most answered with an error. *)
Theorem netlink_peer_exclusive (s : kstate) (data : list Z) (allowed : bool) (pid : Z) :
  peer_pid s ≠ 0 → load32 data 12 = Some pid → int32 pid ≠ peer_pid s →
  ∃ evs, kaodv_netlink_rcv_skb data allowed s = Ok () (traced evs s) ∧
    (evs = [] ∨ ∃ err, evs = [KAck err] ∧ err < 0).
Proof.
  intros Hpeer Hpid Hne. unfold kaodv_netlink_rcv_skb.
  destruct (_ <? NLMSG_HDRLEN) eqn:El; [exists []; rewrite traced_nil; auto|].
  apply Z.ltb_ge in El. unfold NLMSG_HDRLEN in El.
  destruct (load32_is_Some data 0) as [l ->]; [lia|lia|].
  destruct (load16_is_Some data 4) as [type ->]; [lia|lia|]. destruct (load16_is_Some data 6) as [flags ->]; [lia|lia|]. rewrite Hpid.
  destruct (_ || _); [exists []; rewrite traced_nil; auto|].
  destruct (_ || _ || _); [exists [KAck (- EINVAL)]; split; [done|right; by eexists]|].
  destruct (has flags MSG_TRUNC); [exists [KAck (- ECOMM)]; split; [done|right; by eexists]|].
  destruct allowed; cbn [negb]; [|exists [KAck (- EPERM)]; split; [done|right; by eexists]].
  unfold bind at 1, gets. rewrite (proj2 (Z.eqb_neq _ _) Hpeer), (proj2 (Z.eqb_neq (peer_pid s) _))
    by done. exists [KAck (- EBUSY)]. split; [done|right; by eexists].
Qed.

(** What is acknowledged. *)
Definition ack_events (flags : Z) : list kevent :=
  if has flags NLM_F_ACK then [KAck 0] else [].

Lemma ack_run flags status s :
  0 <= status →
  (if status <? 0 then kemit (KAck status) else when (has flags NLM_F_ACK) (kemit (KAck 0))) s
  = Ok () (traced (ack_events flags) s).
Proof.
  intros Hs. rewrite (proj2 (Z.ltb_ge _ _)) by done. unfold ack_events.
  destruct (has flags NLM_F_ACK); [done|]. by rewrite traced_nil.
Qed.

(** The message of a request for a route. *)
Definition rt_request (data : list Z) (type flags pid : Z) (m : kaodv_rt_msg) : Prop :=
  request data type flags pid ∧ u8 type = type ∧ read_rt_msg (drop 16 data) = Some m ∧
  NLMSG_HDRLEN + RT_MSG_SIZE <= Z.of_nat (length data).

Lemma with_rt_msg_run data type flags pid m f s :
  rt_request data type flags pid m →
  with_rt_msg (drop 16 data) (Z.of_nat (length data) - NLMSG_HDRLEN) f s = f m s.
Proof.
  intros (_ & _ & Hm & Hlen). unfold with_rt_msg. rewrite (proj2 (Z.ltb_ge _ _)) by lia.
  by rewrite Hm.
Qed.

(** C26: a message of the daemon with a new route, handled from the netlink socket to the packets,
    from the peer or when there is none yet, with fewer than 1024 routes, memory for one, and a
    route that is not over a gateway: the route is installed, exactly the packets that waited for
    its destination continue, in the order they were queued, the others stay, and the message is
    acknowledged when asked for. *)
Theorem addroute_delivers (s : kstate) (data : list Z) (flags pid : Z) (m : kaodv_rt_msg) :
  rt_request data KAODVM_ADDROUTE flags pid m → peer_pid s = 0 ∨ peer_pid s = pid →
  expl_ok 0 s → queue_ok s → expl_map s !! m_dst m = None → expl_len s < EXPL_MAX_LEN →
  kmalloc_ok (kenv_of s) (kmallocs s) = true → has (m_flags m) KAODV_RT_GW_ENCAP = false →
  let mine := filter (λ e, dest_cmp (m_dst m) e = true) (queue_list s) in
  ∃ s', kaodv_netlink_rcv_skb data true s = Ok () s' ∧ peer_pid s' = pid ∧
    expl_map s' = <[m_dst m := mk_expl (expiry_at s (m_time m)) (m_flags m) (m_dst m)
                                 (m_nhop m) (m_ifindex m)]> (expl_map s) ∧
    queue_list s' = filter (λ e, dest_cmp (m_dst m) e = false) (queue_list s) ∧
    ktrace s' = reverse (send_events mine ++ ack_events flags) ++ ktrace s.
Proof.
  intros Hrq Hpeer Ho Hq Hnew Hroom Hmem Hne mine.
  rewrite (rcv_request _ _ _ _ _ (proj1 Hrq) Hpeer).
  set (s0 := set_peer_pid pid s). assert (Ho0 : expl_ok 0 s0) by (by apply (expl_ok_ext 0 s)).
  destruct (expl_add_spec s0 (m_dst m) (m_nhop m) (m_time m) (m_flags m) (m_ifindex m)
    Ho0 Hroom Hmem Hnew) as (l & Hadd & Ho1 & Hmap).
  set (s1 := set_expl (expl_len s0 + 1) l (tick (alloc s0))) in *.
  assert (Hget : kaodv_expl_get (m_dst m) s0 = Ok None s0).
  { unfold kaodv_expl_get, gets. rewrite expl_find_map. by apply (f_equal (λ r, Ok r s0)). }
  assert (Hq1 : queue_ok s1) by by destruct Hq.
  assert (Hf1 : expl_find s1 (m_dst m) = Some (mk_expl (expiry_at s0 (m_time m)) (m_flags m)
    (m_dst m) (m_nhop m) (m_ifindex m))) by (rewrite expl_find_map; unfold expl_map; simpl; rewrite Hmap; apply lookup_insert_eq).
  assert (Hsend := send_all_run s1 (m_dst m) Hq1). cbv zeta in Hsend. rewrite Hf1 in Hsend.
  change (queue_list s1) with (queue_list s) in Hsend. fold mine in Hsend.
  erewrite bind_ok.
  2:{ unfold kaodv_netlink_receive_peer. rewrite (proj1 (proj2 Hrq)), Z.eqb_refl.
      rewrite (with_rt_msg_run _ _ _ _ _ _ _ Hrq). erewrite bind_ok by exact Hget.
      erewrite bind_ok by exact Hadd.
      erewrite bind_ok by (apply Hsend; by intros r [= <-]). reflexivity. }
  rewrite ack_run by lia. eexists. split; [reflexivity|].
  rewrite <- traced_app. by split_and!.
Qed.

(** A message that a known route has changed is acknowledged but not carried out:
    [kaodv_expl_get] never returns a negative value, so the branch that calls
    [kaodv_expl_update] is dead and the old next hop stays. *)
Theorem addroute_keeps_old_route (s : kstate) (data : list Z) (flags pid : Z) (m : kaodv_rt_msg)
    (old : expl_entry) :
  rt_request data KAODVM_ADDROUTE flags pid m → peer_pid s = 0 ∨ peer_pid s = pid →
  queue_ok s → expl_map s !! m_dst m = Some old →
  has (ex_flags old) KAODV_RT_GW_ENCAP = false →
  ∃ s', kaodv_netlink_rcv_skb data true s = Ok () s' ∧ expl_head s' = expl_head s ∧
    ∃ evs, ktrace s' = reverse (ack_events flags) ++ evs ++ ktrace s.
Proof.
  intros Hrq Hpeer Hq Hold Hne. rewrite (rcv_request _ _ _ _ _ (proj1 Hrq) Hpeer).
  set (s0 := set_peer_pid pid s). assert (Hq0 : queue_ok s0) by by destruct Hq.
  assert (Hf0 : expl_find s0 (m_dst m) = Some old) by by rewrite expl_find_map.
  assert (Hsend := send_all_run s0 (m_dst m) Hq0). cbv zeta in Hsend. rewrite Hf0 in Hsend.
  erewrite bind_ok.
  2:{ unfold kaodv_netlink_receive_peer. rewrite (proj1 (proj2 Hrq)), Z.eqb_refl.
      rewrite (with_rt_msg_run _ _ _ _ _ _ _ Hrq).
      erewrite (bind_ok _ _ _ (Some old)) by (unfold kaodv_expl_get, gets; by rewrite Hf0).
      erewrite (bind_ok _ _ _ 0 s0) by
        (etransitivity; [apply expl_add_run|]; by rewrite <- expl_find_map, Hf0).
      erewrite bind_ok by (apply Hsend; by intros r [= <-]). reflexivity. }
  rewrite ack_run by lia. eexists. split; [reflexivity|]. split; [done|].
  eexists. reflexivity.
Qed.

(** When the daemon gives up a destination ([KAODVM_DELROUTE], [KAODVM_NOROUTE_FOUND])
    every packet that waits for it is dropped, with one ICMP message; a deleted route
    is gone and the other routes stay. *)
Theorem route_gone_drops (s : kstate) (data : list Z) (type flags pid : Z) (m : kaodv_rt_msg) :
  rt_request data type flags pid m → type = KAODVM_DELROUTE ∨ type = KAODVM_NOROUTE_FOUND →
  peer_pid s = 0 ∨ peer_pid s = pid → NoDup (ex_daddr <$> expl_head s) → queue_ok s →
  let mine := filter (λ e, dest_cmp (m_dst m) e = true) (queue_list s) in
  ∃ s', kaodv_netlink_rcv_skb data true s = Ok () s' ∧
    queue_list s' = filter (λ e, dest_cmp (m_dst m) e = false) (queue_list s) ∧
    ktrace s' = reverse (drop_events mine ++ ack_events flags) ++ ktrace s ∧
    expl_map s' = if decide (type = KAODVM_DELROUTE) then delete (m_dst m) (expl_map s)
                  else expl_map s.
Proof.
  intros Hrq Htype Hpeer Hnd Hq mine. rewrite (rcv_request _ _ _ _ _ (proj1 Hrq) Hpeer).
  set (s0 := set_peer_pid pid s). unfold kaodv_netlink_receive_peer.
  rewrite (proj1 (proj2 Hrq)). destruct Htype as [-> | ->].
  - rewrite (proj2 (Z.eqb_neq KAODVM_DELROUTE KAODVM_ADDROUTE)), Z.eqb_refl by done.
    destruct (kaodv_expl_del (m_dst m) s0) as [r s1|c|u] eqn:Hdel;
      rewrite expl_del_run in Hdel; [|by destruct (expl_map s0 !! _)..].
    assert (Hkeep : (queue_total s1, queue_list s1, ktrace s1, expl_map s1)
      = (queue_total s, queue_list s, ktrace s, delete (m_dst m) (expl_map s))).
    { change (expl_map s0) with (expl_map s) in Hdel.
      destruct (expl_map s !! m_dst m) eqn:E; injection Hdel as _ <-.
      - unfold expl_map. simpl. by rewrite by_daddr_remove.
      - by rewrite delete_id. }
    injection Hkeep as K1 K2 K3 K4. rewrite <- expl_del_run in Hdel.
    assert (Hq1 : queue_ok s1) by (destruct Hq; split; by rewrite ?K1, ?K2).
    erewrite bind_ok.
    2:{ rewrite (with_rt_msg_run _ _ _ _ _ _ _ Hrq). erewrite bind_ok by exact Hdel.
        erewrite bind_ok by (by apply drop_all_run). reflexivity. }
    rewrite ack_run, <- traced_app by lia. eexists. split; [reflexivity|]. rewrite K2. fold mine.
    split_and!; [simpl; by rewrite K2|simpl; by rewrite K3|rewrite decide_True by done; exact K4].
  - rewrite (proj2 (Z.eqb_neq KAODVM_NOROUTE_FOUND KAODVM_ADDROUTE)),
      (proj2 (Z.eqb_neq KAODVM_NOROUTE_FOUND KAODVM_DELROUTE)), Z.eqb_refl by done.
    erewrite bind_ok.
    2:{ rewrite (with_rt_msg_run _ _ _ _ _ _ _ Hrq).
        erewrite bind_ok by (apply drop_all_run; by destruct Hq). reflexivity. }
    rewrite ack_run, <- traced_app by lia. eexists. by split_and!.
Qed.

(** When the daemon's socket is closed the module forgets everything it did for it: no
    route is left, every queued packet is freed, and another process can become the
    peer. *)
Theorem peer_release_flushes (s : kstate) :
  peer_pid s ≠ 0 → expl_ok 0 s → queue_ok s →
  ∃ s', kaodv_netlink_rcv_nl_event true (peer_pid s) s = Ok () s' ∧
    peer_pid s' = 0 ∧ expl_head s' = [] ∧ expl_len s' = 0 ∧
    queue_list s' = [] ∧ queue_total s' = 0 ∧
    ktrace s' = reverse ((λ e, KFreeSkb (skb_id (qe_skb e))) <$> queue_list s) ++ ktrace s.
Proof.
  intros Hp Ho Hq. unfold kaodv_netlink_rcv_nl_event. erewrite bind_ok by done.
  rewrite (proj2 (Z.eqb_neq _ _) Hp), Z.eqb_refl. cbn [andb negb when].
  erewrite bind_ok by done. erewrite bind_ok by done.
  set (s1 := set_expl _ _ _). assert (Hq1 : queue_ok s1) by by destruct Hq.
  rewrite queue_flush_run by done. eexists. split; [reflexivity|].
  destruct Ho as [_ _ Hm Hc]. unfold EXPL_MAX_LEN in Hm.
  split_and!; [done|done|simpl; rewrite expl_flush_count; lia|done|done|done].
Qed.
