(* ===== verification/KMod.v ===== *)
(** * kernel/kaodv-mod.c and kaodv-mod.h: the netfilter hook *)

From S2P Require Import Prelude.
From S2P Require Import Bytes.
From S2P Require Import Kaodv.
From S2P Require Import KExpl.
From S2P Require Import KIpenc.
From S2P Require Import KQueue.
From S2P Require Import KNetlink.

#[local] Open Scope cm_scope.

Definition NF_INET_PRE_ROUTING : Z := 0.
Definition NF_INET_LOCAL_OUT : Z := 3.
Definition NF_INET_POST_ROUTING : Z := 4.
Definition NF_DROP : Z := 0.
Definition NF_ACCEPT : Z := 1.
Definition NF_STOLEN : Z := 2.
Definition IPPROTO_UDP : Z := 17.
Definition AODV_PORT : Z := 654.
Definition INADDR_BROADCAST : Z := 4294967295.

(** ** Interfaces *)

(** A device; [nd_ifa] is the address and the broadcast address of the entry of its
    address list that carries its name. *)
Record net_device := mk_net_device {
  nd_ifindex : Z; nd_mtu : Z; nd_ifa : option (Z * Z)
}.

(** [junk] is what the allocated memory holds where no address is stored. *)
Definition if_info_add (dev : net_device) (junk : Z * Z) : KM Z :=
  ok ← kmalloc;
  if negb ok then ret (-1) else
  kemit (KAcquire (DevRef (nd_ifindex dev))) ;;
  kemit (KSetMtu (nd_ifindex dev) (nd_mtu dev - Z.of_nat MIPE_SIZE)) ;;
  let '(addr, bc) := default junk (nd_ifa dev) in
  modify (λ s, set_ifihead (mk_kif addr bc (nd_mtu dev) (nd_ifindex dev) :: ifihead s) s) ;;
  ret 0.

Definition if_info_purge : KM () :=
  l ← gets ifihead;
  foreach l () (λ ifi _,
    modify (λ s, set_ifihead (tail (ifihead s)) s) ;;
    kemit (KSetMtu (kif_ifindex ifi) (kif_orig_mtu ifi)) ;;
    kemit (KRelease (DevRef (kif_ifindex ifi)))).

Definition if_info_from_ifindex (s : kstate) (ifindex : Z) : option kif_info :=
  search (λ i, kif_ifindex i =? ifindex) (ifihead s).

(** ** Route timeouts *)

(** A route that is used is given [ACTIVE_ROUTE_TIMEOUT] more, and so is the route to
    its next hop. *)
Definition refresh_expl (daddr ifindex : Z) : KM () :=
  e ← kaodv_expl_get daddr;
  match e with
  | None => ret ()
  | Some e =>
      t ← gets active_route_timeout;
      kaodv_expl_update (ex_daddr e) (ex_nhop e) t (ex_flags e) ifindex ;;
      if ex_nhop e =? ex_daddr e then ret () else
      e ← kaodv_expl_get (ex_nhop e);
      match e with
      | None => ret ()
      | Some e => kaodv_expl_update (ex_daddr e) (ex_nhop e) t (ex_flags e) ifindex ;; ret ()
      end
  end.

Definition kaodv_update_route_timeouts (hooknum ifindex : Z) (iph : list Z) : KM () :=
  ifi ← gets (λ s, if_info_from_ifindex s ifindex);
  match ifi with
  | None => ret ()
  | Some ifi =>
      (if hooknum =? NF_INET_PRE_ROUTING then
         kaodv_netlink_send_rt_update_msg PKT_INBOUND (iph_saddr iph) (iph_daddr iph) ifindex
       else
         when (negb (iph_daddr iph =? INADDR_BROADCAST)
               && negb (iph_daddr iph =? kif_bcaddr ifi))
           (kaodv_netlink_send_rt_update_msg PKT_OUTBOUND (iph_saddr iph) (iph_daddr iph) ifindex)) ;;
      refresh_expl (iph_daddr iph) ifindex ;;
      refresh_expl (iph_saddr iph) ifindex
  end.

(** ** The hook *)

(** Whether a UDP packet is an AODV message: the ports behind the IP header. *)
Definition is_aodv (iph : list Z) : KM bool := λ s,
  if iph_protocol iph =? IPPROTO_UDP then
    if bool_decide (hdr_len iph + 4 <= length iph)%nat
    then Ok ((be_word iph (hdr_len iph + 2) =? AODV_PORT) || (be_word iph (hdr_len iph) =? AODV_PORT)) s
    else Ub RecvBufOverread
  else Ok false s.

Definition in_multicast (daddr : Z) : bool := Z.land (ntohl daddr) 4026531840 =? 3758096384.

(** A NULL device is followed. *)
Definition dev_ifindex (dev : option Z) : KM Z :=
  match dev with Some i => ret i | None => undefined NullDeref end.

(** The part of the hook for packets that arrive.  The result is the verdict and the
    packet as the kernel goes on with it. *)
Definition hook_pre_routing (skb : sk_buff) (i ifaddr okfn : Z) : KM (Z * sk_buff) :=
  let iph := skb_data skb in
  kaodv_update_route_timeouts NF_INET_PRE_ROUTING i iph ;;
  gw ← gets is_gateway;
  if negb (gw =? 0) && (iph_protocol iph =? IPPROTO_MIPE) && (iph_daddr iph =? ifaddr) then
    skb ← ip_pkt_decapsulate skb;
    ret (NF_ACCEPT, skb)
  else if (iph_saddr iph =? ifaddr) || (iph_daddr iph =? ifaddr) then ret (NF_ACCEPT, skb)
  else
    e ← kaodv_expl_get (iph_daddr iph);
    match e with
    | None =>
        kaodv_netlink_send_rerr_msg PKT_INBOUND (iph_saddr iph) (iph_daddr iph) i ;;
        ret (NF_DROP, skb)
    | Some e =>
        if has (ex_flags e) KAODV_RT_REPAIR then
          kaodv_netlink_send_rt_msg KAODVM_REPAIR (iph_saddr iph) (iph_daddr iph) ;;
          kaodv_queue_enqueue_packet skb okfn ;;
          ret (NF_STOLEN, skb)
        else ret (NF_ACCEPT, skb)
    end.

(** The part for packets that this node sends. *)
Definition hook_local_out (skb : sk_buff) (o okfn : Z) : KM (Z * sk_buff) :=
  let iph := skb_data skb in
  e ← kaodv_expl_get (iph_daddr iph);
  let to_queue :=
    queued ← kaodv_queue_find (iph_daddr iph);
    when (negb queued) (kaodv_netlink_send_rt_msg KAODVM_ROUTE_REQ 0 (iph_daddr iph)) ;;
    kaodv_queue_enqueue_packet skb okfn ;;
    ret (NF_STOLEN, skb) in
  match e with
  | None => to_queue
  | Some e =>
      if has (ex_flags e) KAODV_RT_REPAIR then to_queue
      else if has (ex_flags e) KAODV_RT_GW_ENCAP then
        kaodv_update_route_timeouts NF_INET_LOCAL_OUT o iph ;;
        nskb ← ip_pkt_encapsulate skb (ex_nhop e);
        match nskb with
        | None => ret (NF_STOLEN, skb)
        | Some nskb => kemit (KReroute (skb_id nskb)) ;; ret (NF_ACCEPT, skb)
        end
      else ret (NF_ACCEPT, skb)
  end.

Definition kaodv_hook (hooknum : Z) (skb : sk_buff) (indev outdev : option Z) (okfn : Z)
  : KM (Z * sk_buff) :=
  let iph := skb_data skb in
  aodv ← is_aodv iph;
  if aodv : bool then
    match indev with
    | Some i => when (hooknum =? NF_INET_PRE_ROUTING) (kaodv_update_route_timeouts hooknum i iph)
    | None => ret ()
    end ;;
    ret (NF_ACCEPT, skb)
  else
    dev ← dev_ifindex (if hooknum =? NF_INET_PRE_ROUTING then indev else outdev);
    ifi ← gets (λ s, if_info_from_ifindex s dev);
    match ifi with
    | None => ret (NF_ACCEPT, skb)
    | Some ifi =>
        if (iph_daddr iph =? INADDR_BROADCAST) || in_multicast (iph_daddr iph)
           || (iph_daddr iph =? kif_bcaddr ifi) then ret (NF_ACCEPT, skb)
        else if hooknum =? NF_INET_PRE_ROUTING then hook_pre_routing skb dev (kif_addr ifi) okfn
        else if hooknum =? NF_INET_LOCAL_OUT then hook_local_out skb dev okfn
        else if hooknum =? NF_INET_POST_ROUTING then
          kaodv_update_route_timeouts hooknum dev iph ;; ret (NF_ACCEPT, skb)
        else ret (NF_ACCEPT, skb)
    end.

(** ** The invariant of the module *)

(** The IP header of a packet is complete. *)
Definition ip_ok (skb : sk_buff) : Prop :=
  (20 <= hdr_len (skb_data skb) <= length (skb_data skb))%nat.

Record kinv (s : kstate) : Prop := {
  ki_sorted : sorted_expiry (expl_head s);
  ki_nodup : NoDup (ex_daddr <$> expl_head s);
  ki_queue : queue_ok s;
  ki_packets : Forall (λ e, ip_ok (qe_skb e)) (queue_list s)
}.

(** [m] keeps the invariant and returns, or has an undefined behaviour that [E]
    allows. *)
Definition ksafe {A} (E : ub → Prop) (m : KM A) : Prop :=
  ∀ s, kinv s → match m s with Ok _ s' => kinv s' | Exit _ => False | Ub u => E u end.

Section ksafe.
Context (E : ub → Prop).

Lemma ksafe_ret {A} (a : A) : ksafe E (ret a).
Proof. by intros s. Qed.
Lemma ksafe_bind {A B} (m : KM A) (f : A → KM B) :
  ksafe E m → (∀ a, ksafe E (f a)) → ksafe E (bind m f).
Proof.
  intros Hm Hf s Hs. specialize (Hm s Hs). unfold bind. destruct (m s); [|done|done]. by apply Hf.
Qed.
Lemma ksafe_gets {A} (f : kstate → A) : ksafe E (gets f).
Proof. by intros s. Qed.
Lemma ksafe_when b m : ksafe E m → ksafe E (when b m).
Proof. intros Hm. by destruct b; [|intros s]. Qed.
Lemma ksafe_modify f :
  (∀ s, (expl_head (f s), queue_total (f s), queue_list (f s))
        = (expl_head s, queue_total s, queue_list s)) → ksafe E (modify f).
Proof.
  intros Hf s [H1 H2 [H3 H4] H5]. specialize (Hf s). injection Hf as E1 E2 E3.
  split; rewrite ?E1, ?E3; [done|done| |done]. split; by rewrite ?E2, ?E3.
Qed.
Lemma ksafe_emit ev : ksafe E (kemit ev).
Proof. by apply ksafe_modify. Qed.
Lemma ksafe_kmalloc : ksafe E kmalloc.
Proof. unfold kmalloc. apply ksafe_bind; [apply ksafe_gets|intros ok].
  apply ksafe_bind; [by apply ksafe_modify|intros ?; apply ksafe_ret]. Qed.
Lemma ksafe_foreach {A B} (l : list A) (acc : B) body :
  (∀ a b, a ∈ l → ksafe E (body a b)) → ksafe E (foreach l acc body).
Proof.
  revert acc. induction l as [|a l IH]; intros acc Hb; [apply ksafe_ret|]. cbn [foreach].
  apply ksafe_bind; [apply Hb; left|]. intros b. apply IH. intros c d Hc. apply Hb. by right.
Qed.

(** The routes. *)
Lemma ksafe_routes {A} (m : KM A) :
  (∀ s, kinv s → ∃ a n l s0, m s = Ok a (set_expl n l s0) ∧ sorted_expiry l ∧
     NoDup (ex_daddr <$> l) ∧ (queue_total s0, queue_list s0) = (queue_total s, queue_list s)) →
  ksafe E m.
Proof.
  intros Hm s Hs. destruct (Hm s Hs) as (a & n & l & s0 & -> & H1 & H2 & [= E1 E2]).
  destruct Hs as [_ _ [H3 H4] H5].
  split; [done|done| |by rewrite <- E2 in H5]. split; simpl; congruence.
Qed.

Lemma ksafe_expl_get d : ksafe E (kaodv_expl_get d).
Proof. apply ksafe_gets. Qed.

Lemma expl_self s : s = set_expl (expl_len s) (expl_head s) s.
Proof. by destruct s. Qed.

Lemma ksafe_expl_add d nhop t f i : ksafe E (kaodv_expl_add d nhop t f i).
Proof.
  apply ksafe_routes. intros s [H1 H2 _ _]. rewrite expl_add_run.
  destruct (expl_map s !! d) eqn:Ed.
  { exists 0, (expl_len s), (expl_head s), s. by rewrite <- expl_self. }
  destruct (kmalloc_ok _ _).
  - destruct (_ <=? _); do 4 eexists; (split; [reflexivity|]); split_and!; try done.
    + by apply expl_place_sorted.
    + rewrite expl_place_perm. constructor; [by apply by_daddr_None|done].
  - by exists (- ENOMEM), (expl_len s), (expl_head s), (alloc s).
Qed.

Lemma ksafe_expl_update d nhop t f i : ksafe E (kaodv_expl_update d nhop t f i).
Proof.
  apply ksafe_routes. intros s [H1 H2 _ _]. rewrite expl_update_run.
  destruct (expl_map s !! d) eqn:Ed;
    [|exists (-1), (expl_len s), (expl_head s), s; by rewrite <- expl_self].
  cbv zeta. destruct (_ <=? _); do 4 eexists; (split; [reflexivity|]); split_and!; try done;
    try by apply sorted_remove.
  - by apply NoDup_map_remove_first.
  - by apply expl_place_sorted, sorted_remove.
  - rewrite expl_place_perm. constructor; [by apply remove_daddr|by apply NoDup_map_remove_first].
Qed.

Lemma ksafe_expl_del d : ksafe E (kaodv_expl_del d).
Proof.
  apply ksafe_routes. intros s [H1 H2 _ _]. rewrite expl_del_run.
  destruct (expl_map s !! d); [|exists 0, (expl_len s), (expl_head s), s; by rewrite <- expl_self].
  do 4 eexists. split_and!; [reflexivity|by apply sorted_remove|by apply NoDup_map_remove_first|done].
Qed.

Lemma ksafe_expl_flush : ksafe E kaodv_expl_flush.
Proof.
  apply ksafe_routes. intros s _. do 4 eexists. split_and!; [reflexivity|done|by apply NoDup_nil|done].
Qed.

(** The queue. *)
Lemma ksafe_enqueue skb okfn : ip_ok skb → ksafe E (kaodv_queue_enqueue_packet skb okfn).
Proof.
  intros Hok s [H1 H2 H3 H4]. rewrite enqueue_run by done. destruct (can_queue s) eqn:Ec.
  - split; [done|done|by destruct (queue_ok_enqueued s skb okfn H3 Ec)|].
    apply Forall_app. by split; [|constructor].
  - by split; [| |destruct H3|].
Qed.

Lemma ksafe_dequeue_all cmpfn body :
  (∀ e n, off_queue (body e n)) → (∀ e n, ip_ok (qe_skb e) → ksafe E (body e n)) →
  ksafe E (dequeue_all cmpfn body).
Proof.
  intros Ho Hb s Hs. pose proof Hs as [H1 H2 H3 H4]. rewrite dequeue_all_run by done.
  apply (ksafe_foreach (filter (λ e, cmpfn e = true) (queue_list s)) 0 body).
  - intros e n [_ He]%list_elem_of_filter. apply Hb. by apply (proj1 (Forall_forall _ _) H4).
  - split; [done|done|by apply queue_ok_dequeued|]. simpl. apply Forall_forall.
    intros e [_ He]%list_elem_of_filter. by apply (proj1 (Forall_forall _ _) H4).
Qed.
End ksafe.

#[export] Hint Resolve ksafe_ret ksafe_gets ksafe_emit ksafe_kmalloc ksafe_expl_get
  ksafe_expl_add ksafe_expl_update ksafe_expl_del ksafe_expl_flush ksafe_enqueue : kaodv.

Ltac ksafe_go :=
  repeat first
    [ solve [eauto with kaodv]
    | apply ksafe_bind; [|intros ?]
    | apply ksafe_when
    | apply ksafe_modify; done
    | match goal with |- ksafe _ (match ?x with _ => _ end) => destruct x end ].

Section ksafe_ops.
Context (E : ub → Prop).

Lemma ksafe_kfree skb : ksafe E (kfree_skb skb).
Proof. apply ksafe_emit. Qed.
#[local] Hint Resolve ksafe_kfree : kaodv.

Lemma ksafe_encapsulate skb dest : ip_ok skb → ksafe E (ip_pkt_encapsulate skb dest).
Proof.
  intros Hok. unfold ip_pkt_encapsulate. do 3 (apply ksafe_bind; [solve [eauto with kaodv]|intros ?]).
  destruct (negb _); [apply ksafe_ret|]. do 2 (apply ksafe_bind; [apply ksafe_gets|intros ?]).
  unfold encap_bytes. rewrite bool_decide_eq_true_2 by exact Hok. apply ksafe_ret.
Qed.

Lemma ksafe_drop e n : ksafe E (drop_packet e n).
Proof. unfold drop_packet. ksafe_go. Qed.
#[local] Hint Resolve ksafe_encapsulate ksafe_drop : kaodv.

Lemma ksafe_send d e n : ip_ok (qe_skb e) → ksafe E (send_packet d e n).
Proof. intros Hok. unfold send_packet. ksafe_go. Qed.

Lemma ksafe_set_verdict v d : ksafe E (kaodv_queue_set_verdict v d).
Proof.
  unfold kaodv_queue_set_verdict. destruct (_ =? _); [|destruct (_ =? _); [|apply ksafe_ret]].
  - apply ksafe_dequeue_all; [apply off_queue_drop|]. intros e n _. apply ksafe_drop.
  - apply ksafe_dequeue_all; [apply off_queue_send|]. intros e n. apply ksafe_send.
Qed.

Lemma ksafe_queue_flush : ksafe E kaodv_queue_flush.
Proof.
  unfold kaodv_queue_flush. apply ksafe_bind; [|intros ?; apply ksafe_ret].
  apply ksafe_dequeue_all; intros e n; [off_queue_go|intros _; ksafe_go].
Qed.

Lemma ksafe_send_msg t d : ksafe E (send_msg t d).
Proof. unfold send_msg. ksafe_go. Qed.
#[local] Hint Resolve ksafe_send_msg ksafe_set_verdict ksafe_queue_flush : kaodv.

Lemma ksafe_refresh d i : ksafe E (refresh_expl d i).
Proof. unfold refresh_expl. ksafe_go. Qed.
#[local] Hint Resolve ksafe_refresh : kaodv.

Lemma ksafe_update_route_timeouts h i iph : ksafe E (kaodv_update_route_timeouts h i iph).
Proof.
  unfold kaodv_update_route_timeouts, kaodv_netlink_send_rt_update_msg. ksafe_go.
Qed.

Lemma ksafe_if_info_add dev junk : ksafe E (if_info_add dev junk).
Proof. unfold if_info_add. ksafe_go. Qed.

Lemma ksafe_nl_event ours pid : ksafe E (kaodv_netlink_rcv_nl_event ours pid).
Proof. unfold kaodv_netlink_rcv_nl_event. ksafe_go. Qed.

Lemma ksafe_with_rt_msg msg len f :
  (RT_MSG_SIZE <= len → is_Some (read_rt_msg msg)) → (∀ m, ksafe E (f m)) →
  ksafe E (with_rt_msg msg len f).
Proof.
  intros Hr Hf. unfold with_rt_msg. destruct (_ <? _) eqn:El; [apply ksafe_ret|].
  apply Z.ltb_ge in El. destruct (Hr El) as [m ->]. apply Hf.
Qed.

Lemma read_rt_msg_is_Some msg :
  RT_MSG_SIZE <= Z.of_nat (length msg) → is_Some (read_rt_msg msg).
Proof.
  unfold RT_MSG_SIZE. intros Hl. unfold read_rt_msg, load64.
  destruct (load8_is_Some msg 0) as [? ->]; [lia|].
  destruct (load32_is_Some msg 4) as [? ->]; [lia|lia|].
  destruct (load32_is_Some msg 8) as [? ->]; [lia|lia|].
  destruct (load32_is_Some msg 12) as [? ->]; [lia|lia|].
  destruct (load8_is_Some msg 16) as [? ->]; [lia|].
  destruct (load32_is_Some msg 20) as [? ->]; [lia|lia|].
  destruct (load32_is_Some msg 24) as [? ->]; [lia|lia|].
  destruct (load32_is_Some msg (24 + 4)) as [? ->]; [lia|lia|]. simpl. eauto.
Qed.

Lemma ksafe_receive_peer t msg :
  ksafe E (kaodv_netlink_receive_peer t msg (Z.of_nat (length msg))).
Proof.
  unfold kaodv_netlink_receive_peer.
  repeat (destruct (t =? _);
    [try solve [apply ksafe_with_rt_msg; [apply read_rt_msg_is_Some|intros m; ksafe_go]]|]).
  - unfold CONF_MSG_SIZE. destruct (_ <? 12) eqn:El; [apply ksafe_ret|]. apply Z.ltb_ge in El.
    destruct (load32_is_Some msg 0) as [? ->]; [lia|lia|].
    destruct (load32_is_Some msg 4) as [? ->]; [lia|lia|].
    destruct (load32_is_Some msg 8) as [? ->]; [lia|lia|]. ksafe_go.
  - apply ksafe_ret.
Qed.

(** No message of any process makes the module overrun the message. *)
Lemma ksafe_rcv_skb data allowed : ksafe E (kaodv_netlink_rcv_skb data allowed).
Proof.
  unfold kaodv_netlink_rcv_skb. destruct (_ <? NLMSG_HDRLEN) eqn:El; [apply ksafe_ret|].
  apply Z.ltb_ge in El. unfold NLMSG_HDRLEN in *.
  destruct (load32_is_Some data 0) as [l ->]; [lia|lia|]. destruct (load16_is_Some data 4) as [type ->]; [lia|lia|].
  destruct (load16_is_Some data 6) as [flags ->]; [lia|lia|]. destruct (load32_is_Some data 12) as [p ->]; [lia|lia|].
  replace (Z.of_nat (length data) - 16) with (Z.of_nat (length (drop (Z.to_nat 16) data)))
    by (rewrite length_drop; lia).
  repeat (destruct (_ : bool); [solve [eauto with kaodv]|]).
  apply ksafe_bind; [apply ksafe_gets|intros peer]. destruct (_ && _); [apply ksafe_emit|].
  apply ksafe_bind; [apply ksafe_when; by apply ksafe_modify|intros _].
  apply ksafe_bind; [apply ksafe_receive_peer|intros st]. ksafe_go.
Qed.
End ksafe_ops.

#[export] Hint Resolve ksafe_update_route_timeouts ksafe_send_msg ksafe_encapsulate : kaodv.
