(* ===== verification/KHook.v ===== *)
(** * kernel/kaodv-mod.c: what the hook does

    The module overruns no packet but one without a complete transport header; a route that
    carries a packet is refreshed; the verdicts on packets that pass and packets that
    are sent; and the cases in which a packet is lost or used after it was freed. *)

From S2P Require Import Prelude.
From S2P Require Import Bytes.
From S2P Require Import Kaodv.
From S2P Require Import KExpl.
From S2P Require Import KIpenc.
From S2P Require Import KQueue.
From S2P Require Import KNetlink.
From S2P Require Import KMod.

#[local] Open Scope cm_scope.

(** ** The module as a whole *)

(** What reaches the module: a packet at a hook, a message on the netlink socket, a
    closed netlink socket. *)
Inductive kinput :=
  | KPacket (hooknum : Z) (skb : sk_buff) (indev outdev : option Z) (okfn : Z)
  | KMessage (data : list Z) (allowed : bool)
  | KClosed (ours : bool) (pid : Z).

Definition kmod_exec (inp : kinput) : KM () :=
  match inp with
  | KPacket hooknum skb indev outdev okfn => kaodv_hook hooknum skb indev outdev okfn ;; ret ()
  | KMessage data allowed => kaodv_netlink_rcv_skb data allowed
  | KClosed ours pid => kaodv_netlink_rcv_nl_event ours pid
  end.

Definition kmod_run (inputs : list kinput) : KM () := foreach inputs () (λ inp _, kmod_exec inp).

(** What the network stack guarantees about a packet at a hook: its IP header is
    complete and the device is there. *)
Record packet_ok (hooknum : Z) (skb : sk_buff) (indev outdev : option Z) : Prop := {
  pk_ip : ip_ok skb;
  pk_dev : is_Some (if hooknum =? NF_INET_PRE_ROUTING then indev else outdev)
}.

Definition kinput_ok (inp : kinput) : Prop :=
  match inp with
  | KPacket hooknum skb indev outdev _ => packet_ok hooknum skb indev outdev
  | _ => True
  end.

(** What it does not guarantee, and the module does not check: that the ports of a UDP packet and
    the encapsulation header of a packet of protocol 55 are in the packet. *)
Definition cut_short (inp : kinput) : Prop :=
  match inp with
  | KPacket _ skb _ _ _ =>
      let iph := skb_data skb in
      (iph_protocol iph = IPPROTO_UDP ∧ (length iph < hdr_len iph + 4)%nat) ∨
      (iph_protocol iph = IPPROTO_MIPE ∧ (length iph < hdr_len iph + MIPE_SIZE)%nat)
  | _ => False
  end.

Definition never (u : ub) : Prop := False.
Definition overread (P : Prop) (u : ub) : Prop := u = RecvBufOverread ∧ P.

Lemma ksafe_weaken {A} (E E' : ub → Prop) (m : KM A) :
  ksafe E m → (∀ u, E u → E' u) → ksafe E' m.
Proof. intros Hm HE s Hs. specialize (Hm s Hs). destruct (m s); auto. Qed.

Lemma ksafe_decapsulate (P : Prop) skb :
  (20 <= hdr_len (skb_data skb))%nat →
  ((length (skb_data skb) < hdr_len (skb_data skb) + MIPE_SIZE)%nat → P) →
  ksafe (overread P) (ip_pkt_decapsulate skb).
Proof.
  intros H1 H2 s Hs. unfold ip_pkt_decapsulate, bind, gets, decap_bytes.
  case_bool_decide as H; [done|]. split; [done|]. apply H2. lia.
Qed.

Lemma ksafe_hook hooknum skb indev outdev okfn :
  packet_ok hooknum skb indev outdev →
  ksafe (overread (cut_short (KPacket hooknum skb indev outdev okfn)))
    (kaodv_hook hooknum skb indev outdev okfn).
Proof.
  intros [Hip [dev Hdev]]. unfold kaodv_hook. apply ksafe_bind.
  { intros s Hs. unfold is_aodv. destruct (_ =? IPPROTO_UDP) eqn:E; [|done]. apply Z.eqb_eq in E.
    case_bool_decide; [done|]. split; [done|]. left. split; [done|lia]. }
  intros []; [ksafe_go|]. rewrite Hdev. apply ksafe_bind; [apply ksafe_ret|intros i].
  apply ksafe_bind; [apply ksafe_gets|intros [ifi|]]; [|apply ksafe_ret].
  destruct (_ || _); [apply ksafe_ret|]. destruct (_ =? _); [|destruct (_ =? _); [|ksafe_go]].
  - unfold hook_pre_routing, kaodv_netlink_send_rerr_msg, kaodv_netlink_send_rt_msg.
    apply ksafe_bind; [apply ksafe_update_route_timeouts|intros _].
    apply ksafe_bind; [apply ksafe_gets|intros gw]. destruct (_ && _) eqn:E; [|ksafe_go].
    apply andb_true_iff in E as [[_ E%Z.eqb_eq]%andb_true_iff _].
    apply ksafe_bind; [|intros ?; apply ksafe_ret].
    apply ksafe_decapsulate; [apply Hip|]. intros H. right. split; [done|exact H].
  - unfold hook_local_out, kaodv_queue_find, kaodv_netlink_send_rt_msg. cbv zeta. ksafe_go.
Qed.

Lemma ksafe_run inputs :
  Forall kinput_ok inputs → ksafe (overread (Exists cut_short inputs)) (kmod_run inputs).
Proof.
  intros Hin. apply ksafe_foreach. intros inp [] Hi. pose proof (proj1 (Forall_forall _ _) Hin _ Hi) as Hok.
  destruct inp as [h skb i o okfn|data al|ours pid]; cbn [kmod_exec kinput_ok] in *.
  - apply ksafe_bind; [|intros ?; apply ksafe_ret]. eapply ksafe_weaken; [by apply ksafe_hook|].
    intros u [Hu Hc]. split; [done|]. apply Exists_exists. by eexists.
  - apply ksafe_rcv_skb.
  - apply ksafe_nl_event.
Qed.


(** ** Route timeouts *)

(** The routes to [T] have a new expiry time, from a reading of the clock in between,
    and the interface [i]; nothing else has changed. *)
Record refreshed (T : gset Z) (i : Z) (s s' : kstate) : Prop := {
  rf_state : ∃ l, s' = set_expl (expl_len s) l (set_jiffies_reads (jiffies_reads s') s);
  rf_clock : (jiffies_reads s <= jiffies_reads s')%nat;
  rf_ok : expl_ok 0 s';
  rf_others : ∀ d, d ∉ T → expl_map s' !! d = expl_map s !! d;
  rf_none : ∀ d, expl_map s !! d = None → expl_map s' !! d = None;
  rf_routes : ∀ d e, d ∈ T → expl_map s !! d = Some e →
    ∃ k, (jiffies_reads s <= k < jiffies_reads s')%nat ∧
      expl_map s' !! d
      = Some (mk_expl (u64 (jiffies (kenv_of s) k
                            + u64 (active_route_timeout s * HZ (kenv_of s)) / 1000))
                (ex_flags e) d (ex_nhop e) i)
}.

Lemma refreshed_refl i s : expl_ok 0 s → refreshed ∅ i s s.
Proof.
  intros Hs. split; [exists (expl_head s); by destruct s|lia|done|done|done|set_solver].
Qed.

Lemma refreshed_route T i s s' d e :
  refreshed T i s s' → expl_map s !! d = Some e →
  ∃ e', expl_map s' !! d = Some e' ∧ ex_nhop e' = ex_nhop e ∧ ex_flags e' = ex_flags e.
Proof.
  intros H He. destruct (decide (d ∈ T)) as [Hd|Hd].
  - destruct (rf_routes _ _ _ _ H d e Hd He) as (k & _ & ->). by eexists.
  - rewrite (rf_others _ _ _ _ H d Hd). by eexists.
Qed.

Lemma refreshed_trans T1 T2 i s s1 s2 :
  refreshed T1 i s s1 → refreshed T2 i s1 s2 → refreshed (T1 ∪ T2) i s s2.
Proof.
  intros H1 H2. destruct (rf_state _ _ _ _ H1) as [l1 E1], (rf_state _ _ _ _ H2) as [l2 E2].
  pose proof (rf_clock _ _ _ _ H1). pose proof (rf_clock _ _ _ _ H2).
  assert (Hen : kenv_of s1 = kenv_of s) by by rewrite E1.
  assert (Ht : active_route_timeout s1 = active_route_timeout s) by by rewrite E1.
  split; [exists l2|lia|apply H2| | |].
  - rewrite E2. rewrite E1 at 1. rewrite E1. done.
  - intros d Hd. rewrite (rf_others _ _ _ _ H2), (rf_others _ _ _ _ H1) by set_solver. done.
  - intros d Hd. by apply (rf_none _ _ _ _ H2), (rf_none _ _ _ _ H1).
  - intros d e Hd He. destruct (decide (d ∈ T2)) as [Hd2|Hd2].
    + destruct (refreshed_route _ _ _ _ _ _ H1 He) as (e1 & He1 & En & Ef).
      destruct (rf_routes _ _ _ _ H2 d e1 Hd2 He1) as (k & Hk & ->).
      exists k. rewrite Hen, Ht, En, Ef. split; [lia|done].
    + destruct (rf_routes _ _ _ _ H1 d e) as (k & Hk & E); [set_solver|done|].
      exists k. rewrite (rf_others _ _ _ _ H2 d Hd2), E. split; [lia|done].
Qed.

Lemma update_refreshes s d e i :
  expl_ok 0 s → expl_len s < EXPL_MAX_LEN → expl_map s !! d = Some e →
  ∃ s', kaodv_expl_update d (ex_nhop e) (active_route_timeout s) (ex_flags e) i s = Ok 0 s' ∧
    refreshed {[d]} i s s'.
Proof.
  intros Ho Hroom He.
  destruct (expl_update_spec s d (ex_nhop e) (active_route_timeout s) (ex_flags e) i e Ho Hroom He)
    as (l & R & Hok & Hl).
  set (s' := set_expl _ _ _) in *. change (by_daddr l) with (expl_map s') in Hl.
  exists s'. split; [done|]. split; [by exists l|simpl; lia|done| | |]; rewrite Hl.
  - intros x Hx. rewrite lookup_insert_ne by set_solver. done.
  - intros x Hx. rewrite lookup_insert_ne; [done|]. intros <-. by rewrite He in Hx.
  - intros x e0 ->%elem_of_singleton E0. exists (jiffies_reads s). rewrite He in E0. injection E0 as <-.
    rewrite lookup_insert_eq. split; [simpl; lia|done].
Qed.

(** The routes that carry a packet to [d]: that to [d] and that to its next hop. *)
Definition carriers (s : kstate) (d : Z) : gset Z :=
  match expl_map s !! d with Some e => {[d; ex_nhop e]} | None => ∅ end.

Lemma carriers_refreshed T i s s' d : refreshed T i s s' → carriers s' d = carriers s d.
Proof.
  intros H. unfold carriers. destruct (expl_map s !! d) as [e|] eqn:E.
  - by destruct (refreshed_route _ _ _ _ _ _ H E) as (e' & -> & -> & _).
  - by rewrite (rf_none _ _ _ _ H d E).
Qed.

Lemma refreshed_len T i s s' : refreshed T i s s' → expl_len s' = expl_len s.
Proof. intros H. destruct (rf_state _ _ _ _ H) as [l ->]. done. Qed.

Lemma refreshed_timeout T i s s' :
  refreshed T i s s' → active_route_timeout s' = active_route_timeout s.
Proof. intros H. destruct (rf_state _ _ _ _ H) as [l ->]. done. Qed.

(** A set that also names destinations without a route. *)
Lemma refreshed_weaken T T' i s s' :
  refreshed T i s s' → T ⊆ T' → (∀ d, d ∈ T' → d ∉ T → expl_map s !! d = None) →
  refreshed T' i s s'.
Proof.
  intros [H1 H2 H3 H4 H5 H6] Hsub Hn. split; [done|done|done|set_solver|done|].
  intros d e Hd He. destruct (decide (d ∈ T)) as [Ht|Ht]; [by apply H6|].
  by rewrite (Hn d Hd Ht) in He.
Qed.

Lemma get_run s d : kaodv_expl_get d s = Ok (expl_map s !! d) s.
Proof. unfold kaodv_expl_get, gets. by rewrite expl_find_map. Qed.

Lemma refresh_run s d i :
  expl_ok 0 s → expl_len s < EXPL_MAX_LEN →
  ∃ s', refresh_expl d i s = Ok () s' ∧ refreshed (carriers s d) i s s'.
Proof.
  intros Ho Hroom. unfold refresh_expl, carriers. erewrite bind_ok by apply get_run.
  destruct (expl_map s !! d) as [e|] eqn:He; [|exists s; split; [done|by apply refreshed_refl]].
  pose proof (find_daddr _ _ _ He) as Hd. rewrite Hd. erewrite bind_ok by done.
  destruct (update_refreshes s d e i Ho Hroom He) as (s1 & R1 & H1). erewrite bind_ok by exact R1.
  destruct (ex_nhop e =? d) eqn:Eq.
  { apply Z.eqb_eq in Eq. exists s1. split; [done|].
    replace ({[d; ex_nhop e]} : gset Z) with ({[d]} : gset Z) by set_solver. done. }
  apply Z.eqb_neq in Eq. erewrite bind_ok by apply get_run.
  destruct (expl_map s1 !! ex_nhop e) as [e2|] eqn:E2.
  - pose proof (refreshed_len _ _ _ _ H1) as Hlen. rewrite (find_daddr _ _ _ E2).
    destruct (update_refreshes s1 (ex_nhop e) e2 i) as (s2 & R2 & H2); [apply H1|lia|done|].
    rewrite (refreshed_timeout _ _ _ _ H1) in R2. erewrite bind_ok by exact R2.
    exists s2. split; [done|]. by apply (refreshed_trans _ _ _ _ s1).
  - exists s1. split; [done|]. apply (refreshed_weaken {[d]}); [done|set_solver|].
    intros x Hx Hxd. assert (x = ex_nhop e) as -> by set_solver.
    rewrite <- E2. symmetry. by apply (rf_others _ _ _ _ H1).
Qed.

(** The daemon is sent a message; there is memory for it. *)
Definition note (type : Z) (m : kaodv_rt_msg) : kevent := KNotify (nlmsg_bytes type (rt_msg_bytes m)).
Definition told (ev : kevent) (s : kstate) : kstate := set_ktrace (ev :: ktrace s) (alloc s).
Definition memory (s : kstate) : Prop := ∀ n, kmalloc_ok (kenv_of s) n = true.

Lemma send_msg_run s type m :
  memory s → send_msg type (rt_msg_bytes m) s = Ok () (told (note type m) s).
Proof.
  intros Hm. unfold send_msg, kmalloc, bind, gets, modify, ret. by rewrite Hm.
Qed.

(** The daemon hears of the packets that pass, except of broadcasts sent. *)
Definition announced (hooknum i bcaddr : Z) (iph : list Z) (s : kstate) : kstate :=
  let update dir := note KAODVM_ROUTE_UPDATE
                      (mk_rt_msg dir (iph_saddr iph) (iph_daddr iph) 0 0 i 0) in
  if hooknum =? NF_INET_PRE_ROUTING then told (update PKT_INBOUND) s
  else if (iph_daddr iph =? INADDR_BROADCAST) || (iph_daddr iph =? bcaddr) then s
  else told (update PKT_OUTBOUND) s.

Lemma announced_keeps h i bc iph s :
  expl_map (announced h i bc iph s) = expl_map s ∧ expl_len (announced h i bc iph s) = expl_len s ∧
  (expl_ok 0 s → expl_ok 0 (announced h i bc iph s)).
Proof.
  unfold announced. destruct (_ =? _); [|destruct (_ || _)]; split_and!; try done; apply expl_ok_ext; done.
Qed.

Lemma update_timeouts_run s h i ifi iph :
  memory s → expl_ok 0 s → expl_len s < EXPL_MAX_LEN → if_info_from_ifindex s i = Some ifi →
  ∃ s', kaodv_update_route_timeouts h i iph s = Ok () s' ∧
    refreshed (carriers s (iph_daddr iph) ∪ carriers s (iph_saddr iph)) i
      (announced h i (kif_bcaddr ifi) iph s) s'.
Proof.
  intros Hm Ho Hroom Hifi. unfold kaodv_update_route_timeouts. unfold bind at 1, gets at 1. rewrite Hifi.
  set (s0 := announced h i (kif_bcaddr ifi) iph s).
  destruct (announced_keeps h i (kif_bcaddr ifi) iph s) as (Emap & Elen & Hok). fold s0 in Emap, Elen, Hok.
  rewrite (bind_ok _ _ s () s0).
  2:{ subst s0. unfold announced, kaodv_netlink_send_rt_update_msg.
      destruct (h =? _); [by apply send_msg_run|]. rewrite <- negb_orb.
      destruct (_ || _); [done|]. by apply send_msg_run. }
  destruct (refresh_run s0 (iph_daddr iph) i) as (s1 & R1 & H1); [by apply Hok|lia|].
  pose proof (refreshed_len _ _ _ _ H1).
  destruct (refresh_run s1 (iph_saddr iph) i) as (s2 & R2 & H2); [apply H1|lia|].
  rewrite (carriers_refreshed _ _ _ _ (iph_saddr iph) H1) in H2.
  erewrite bind_ok by exact R1. exists s2. split; [done|].
  unfold carriers in *. rewrite !Emap in *. by apply (refreshed_trans _ _ _ _ s1).
Qed.

(** A packet that passes keeps the routes it uses alive: the routes to its destination
    and to its source, and those to their next hops, get [active_route_timeout] more
    from the clock as it is read then and keep their next hops and flags; all other
    routes are unchanged, none appears or disappears; the daemon is told once, unless
    the packet is a broadcast that is sent. *)
Theorem route_timeouts_refreshed (s : kstate) (h i : Z) (ifi : kif_info) (iph : list Z) :
  memory s → expl_ok 0 s → expl_len s < EXPL_MAX_LEN → if_info_from_ifindex s i = Some ifi →
  let used := carriers s (iph_daddr iph) ∪ carriers s (iph_saddr iph) in
  ∃ s', kaodv_update_route_timeouts h i iph s = Ok () s' ∧ expl_ok 0 s' ∧
    (∀ d, d ∉ used → expl_map s' !! d = expl_map s !! d) ∧
    (∀ d, expl_map s !! d = None → expl_map s' !! d = None) ∧
    (∀ d e, d ∈ used → expl_map s !! d = Some e →
      ∃ k, (jiffies_reads s <= k < jiffies_reads s')%nat ∧
        expl_map s' !! d
        = Some (mk_expl (u64 (jiffies (kenv_of s) k
                              + u64 (active_route_timeout s * HZ (kenv_of s)) / 1000))
                  (ex_flags e) d (ex_nhop e) i)) ∧
    ktrace s' = ktrace (announced h i (kif_bcaddr ifi) iph s) ∧
    queue_list s' = queue_list s.
Proof.
  intros Hm Ho Hroom Hifi used.
  destruct (update_timeouts_run s h i ifi iph Hm Ho Hroom Hifi) as (s' & R & H).
  exists s'. split; [done|]. destruct (rf_state _ _ _ _ H) as [l E], H as [_ _ Hok H1 H2 H3].
  destruct (announced_keeps h i (kif_bcaddr ifi) iph s) as (Emap & _ & _). rewrite Emap in *.
  assert (Hkeep : jiffies_reads (announced h i (kif_bcaddr ifi) iph s) = jiffies_reads s ∧
    kenv_of (announced h i (kif_bcaddr ifi) iph s) = kenv_of s ∧
    active_route_timeout (announced h i (kif_bcaddr ifi) iph s) = active_route_timeout s ∧
    queue_list (announced h i (kif_bcaddr ifi) iph s) = queue_list s)
    by (unfold announced; destruct (_ =? _); [done|by destruct (_ || _)]).
  destruct Hkeep as (E1 & E2 & E3 & E4). rewrite E1, E2, E3 in H3.
  split_and!; [done|done|done|done|by rewrite E|by rewrite E].
Qed.

(** ** Verdicts *)

(** A packet that concerns the module: no AODV message, on an interface it knows, to
    one host. *)
Record data_packet (s : kstate) (skb : sk_buff) (dev : Z) (ifi : kif_info) : Prop := {
  dp_aodv : is_aodv (skb_data skb) s = Ok false s;
  dp_iface : if_info_from_ifindex s dev = Some ifi;
  dp_unicast : (iph_daddr (skb_data skb) =? INADDR_BROADCAST) || in_multicast (iph_daddr (skb_data skb))
               || (iph_daddr (skb_data skb) =? kif_bcaddr ifi) = false
}.

Lemma hook_enter s h skb dev ifi indev outdev okfn :
  data_packet s skb dev ifi → (if h =? NF_INET_PRE_ROUTING then indev else outdev) = Some dev →
  kaodv_hook h skb indev outdev okfn s =
  (if h =? NF_INET_PRE_ROUTING then hook_pre_routing skb dev (kif_addr ifi) okfn
   else if h =? NF_INET_LOCAL_OUT then hook_local_out skb dev okfn
   else if h =? NF_INET_POST_ROUTING then
     kaodv_update_route_timeouts h dev (skb_data skb) ;; ret (NF_ACCEPT, skb)
   else ret (NF_ACCEPT, skb)) s.
Proof.
  intros [H1 H2 H3] Hdev. unfold kaodv_hook. erewrite bind_ok by exact H1.
  rewrite Hdev. erewrite bind_ok by done. unfold bind at 1, gets at 1. rewrite H2, H3. done.
Qed.

(** Whether the queue has room. *)
Definition has_space (s : kstate) : bool := queue_total s <? KAODV_QUEUE_QMAX_DEFAULT.

(** What becomes of a packet that the module keeps while there is memory: it is the last one in the
    queue; or, when the queue is full, it is nowhere, neither queued nor freed. *)
Definition kept (s s' : kstate) (skb : sk_buff) (okfn : Z) : Prop :=
  if has_space s then queue_list s' = queue_list s ++ [entry_of skb okfn]
  else queue_list s' = queue_list s ∧ KFreeSkb (skb_id skb) ∉ take (length (ktrace s') - length (ktrace s)) (ktrace s').

Lemma enqueue_effect s skb okfn :
  memory s → queue_ok s →
  ∃ r s', kaodv_queue_enqueue_packet skb okfn s = Ok r s' ∧
    queue_list s' = (if has_space s then queue_list s ++ [entry_of skb okfn] else queue_list s) ∧
    ktrace s' = ktrace s ∧ expl_head s' = expl_head s.
Proof.
  intros Hm Hq. rewrite enqueue_run by done. unfold can_queue, has_space. rewrite Hm. cbn [andb].
  destruct (_ <? _); do 2 eexists; (split; [reflexivity|done]).
Qed.

(** The events before those of [s]. *)
Lemma kept_intro s s' skb okfn evs :
  queue_list s' = (if has_space s then queue_list s ++ [entry_of skb okfn] else queue_list s) →
  ktrace s' = evs ++ ktrace s → KFreeSkb (skb_id skb) ∉ evs → kept s s' skb okfn.
Proof.
  intros Hq Ht Hn. unfold kept. destruct (has_space s); [done|]. split; [done|].
  rewrite Ht, length_app, Nat.add_sub, take_app_length. done.
Qed.

(** C25: the verdict on a packet that another node sent to a third one, with memory and fewer than
    1024 routes.  With no route to its destination it is dropped and the daemon is asked for a
    RERR.  With a route under repair it is stolen from the stack and the daemon is asked for the
    repair; it is the last packet of the queue then, or, when the queue is full, lost: neither
    queued nor freed.  Otherwise it passes.  In each case the next hops and flags of all routes are
    as before, and the packet itself is unchanged. *)
Theorem forward_verdict (s : kstate) (skb : sk_buff) (dev okfn : Z) (ifi : kif_info)
    (outdev : option Z) :
  memory s → expl_ok 0 s → queue_ok s → expl_len s < EXPL_MAX_LEN → data_packet s skb dev ifi →
  let src := iph_saddr (skb_data skb) in
  let dst := iph_daddr (skb_data skb) in
  src ≠ kif_addr ifi → dst ≠ kif_addr ifi →
  let update := note KAODVM_ROUTE_UPDATE (mk_rt_msg PKT_INBOUND src dst 0 0 dev 0) in
  ∃ v s', kaodv_hook NF_INET_PRE_ROUTING skb (Some dev) outdev okfn s = Ok (v, skb) s' ∧
    match expl_map s !! dst with
    | None =>
        v = NF_DROP ∧ queue_list s' = queue_list s ∧
        ktrace s' = note KAODVM_SEND_RERR (mk_rt_msg PKT_INBOUND src dst 0 0 dev 0)
                    :: update :: ktrace s
    | Some e =>
        if has (ex_flags e) KAODV_RT_REPAIR then
          v = NF_STOLEN ∧ kept s s' skb okfn ∧
          ktrace s' = note KAODVM_REPAIR (mk_rt_msg 0 src dst 0 0 0 0) :: update :: ktrace s
        else v = NF_ACCEPT ∧ queue_list s' = queue_list s ∧ ktrace s' = update :: ktrace s
    end ∧
    ∀ d e, expl_map s !! d = Some e →
      ∃ e', expl_map s' !! d = Some e' ∧ ex_nhop e' = ex_nhop e ∧ ex_flags e' = ex_flags e.
Proof.
  intros Hm Ho Hq Hroom Hp src dst Hsrc Hdst update.
  rewrite (hook_enter _ _ _ _ _ (Some dev) outdev okfn Hp) by done. rewrite Z.eqb_refl.
  unfold hook_pre_routing. fold src dst.
  destruct (update_timeouts_run s NF_INET_PRE_ROUTING dev ifi (skb_data skb)) as (s1 & R & H);
    [done|done|done|apply Hp|]. erewrite bind_ok by exact R. unfold bind at 1, gets at 1.
  change (announced _ _ _ _ _) with (told update s) in H.
  destruct (rf_state _ _ _ _ H) as [l E].
  assert (Hm1 : memory s1) by (rewrite E; exact Hm).
  assert (Hq1 : queue_ok s1) by (rewrite E; by destruct Hq).
  assert (Hql : queue_list s1 = queue_list s) by by rewrite E.
  assert (Hqt : queue_total s1 = queue_total s) by by rewrite E.
  assert (Htr : ktrace s1 = update :: ktrace s) by by rewrite E.
  assert (Hroutes := λ d e, refreshed_route _ _ _ _ d e H).
  change (expl_map (told update s)) with (expl_map s) in Hroutes.
  rewrite (proj2 (Z.eqb_neq _ _) Hsrc), (proj2 (Z.eqb_neq _ _) Hdst), andb_false_r. cbn [orb].
  erewrite bind_ok by apply get_run. destruct (expl_map s !! dst) as [e|] eqn:He.
  - destruct (Hroutes dst e He) as (e' & -> & _ & ->). destruct (has _ _).
    + unfold kaodv_netlink_send_rt_msg. erewrite bind_ok by by apply send_msg_run.
      set (s2 := told _ s1). assert (Hq2 : queue_ok s2) by by destruct Hq1.
      destruct (enqueue_effect s2 skb okfn Hm1 Hq2) as (r & s3 & R3 & Q3 & T3 & X3).
      erewrite bind_ok by exact R3. exists NF_STOLEN, s3. split; [done|]. split.
      * assert (Ht3 : ktrace s3 = note KAODVM_REPAIR (mk_rt_msg 0 src dst 0 0 0 0) :: update :: ktrace s)
          by (rewrite T3; simpl; by rewrite Htr).
        split_and!; [done| |done]. apply (kept_intro s s3 skb okfn [note KAODVM_REPAIR (mk_rt_msg 0 src dst 0 0 0 0); update]); [|exact Ht3|].
        -- rewrite Q3. unfold has_space. simpl. by rewrite Hql, Hqt.
        -- rewrite !elem_of_cons, elem_of_nil. by intros [[=]|[[=]|[]]].
      * intros d e0 Hd. unfold expl_map. rewrite X3. by apply Hroutes.
    + exists NF_ACCEPT, s1. split; [done|]. by split_and!.
  - rewrite (rf_none _ _ _ _ H dst He).
    unfold kaodv_netlink_send_rerr_msg. erewrite bind_ok by by apply send_msg_run.
    exists NF_DROP, (told (note KAODVM_SEND_RERR (mk_rt_msg PKT_INBOUND src dst 0 0 dev 0)) s1).
    split; [done|]. split; [|done]. split_and!; [done|done|]. simpl. by rewrite Htr.
Qed.

(** Whether a packet to [d] is waiting. *)
Definition waiting (s : kstate) (d : Z) : bool :=
  match search (dest_cmp d) (queue_list s) with Some _ => true | None => false end.

Lemma queue_find_run s d : kaodv_queue_find d s = Ok (waiting s d) s.
Proof. unfold kaodv_queue_find, waiting, bind, gets, ret. by destruct (search _ _). Qed.

(** The verdict on a packet that this node sends.  Without a usable route it is taken
    from the stack and queued, or lost when the queue is full, and the daemon is asked for
    a route for the first packet to the destination only; with a route it
    passes and nothing changes. *)
Theorem local_verdict (s : kstate) (skb : sk_buff) (dev okfn : Z) (ifi : kif_info)
    (indev : option Z) :
  memory s → queue_ok s → data_packet s skb dev ifi →
  let dst := iph_daddr (skb_data skb) in
  let usable := match expl_map s !! dst with
                | Some e => negb (has (ex_flags e) KAODV_RT_REPAIR)
                | None => false
                end in
  (usable = false →
     ∃ s', kaodv_hook NF_INET_LOCAL_OUT skb indev (Some dev) okfn s = Ok (NF_STOLEN, skb) s' ∧
       kept s s' skb okfn ∧ expl_head s' = expl_head s ∧
       ktrace s' = (if waiting s dst then []
                    else [note KAODVM_ROUTE_REQ (mk_rt_msg 0 0 dst 0 0 0 0)]) ++ ktrace s) ∧
  (usable = true → ∀ e, expl_map s !! dst = Some e → has (ex_flags e) KAODV_RT_GW_ENCAP = false →
     kaodv_hook NF_INET_LOCAL_OUT skb indev (Some dev) okfn s = Ok (NF_ACCEPT, skb) s).
Proof.
  intros Hm Hq Hp dst usable. rewrite (hook_enter _ _ _ _ _ indev (Some dev) okfn Hp) by done.
  cbn [Z.eqb NF_INET_LOCAL_OUT NF_INET_PRE_ROUTING]. rewrite Pos.eqb_refl.
  unfold hook_local_out. fold dst. erewrite bind_ok by apply get_run. cbv zeta. split.
  - intros Hu. assert (E : ∀ f : expl_entry → KM (Z * sk_buff), ∀ g,
      match expl_map s !! dst with
      | Some e => if has (ex_flags e) KAODV_RT_REPAIR then g else f e
      | None => g
      end s = g s).
    { intros f g. subst usable. destruct (expl_map s !! dst) as [e|]; [|done]. by destruct (has _ _). }
    rewrite E. erewrite bind_ok by apply queue_find_run.
    set (s1 := if waiting s dst then s
               else told (note KAODVM_ROUTE_REQ (mk_rt_msg 0 0 dst 0 0 0 0)) s).
    rewrite (bind_ok _ _ s () s1).
    2:{ subst s1. destruct (waiting s dst); [done|]. by apply send_msg_run. }
    assert (Hm1 : memory s1) by (subst s1; by destruct (waiting s dst)).
    assert (Hq1 : queue_ok s1) by (subst s1; destruct Hq; by destruct (waiting s dst)).
    destruct (enqueue_effect s1 skb okfn Hm1 Hq1) as (r & s2 & R & Q & T & X).
    erewrite bind_ok by exact R. exists s2. split; [done|].
    assert (Ht2 : ktrace s2 = (if waiting s dst then [] else [note KAODVM_ROUTE_REQ (mk_rt_msg 0 0 dst 0 0 0 0)]) ++ ktrace s)
      by (rewrite T; subst s1; by destruct (waiting s dst)).
    split_and!; [|rewrite X; subst s1; by destruct (waiting s dst)|exact Ht2].
    eapply kept_intro; [|exact Ht2|].
    + rewrite Q. subst s1. by destruct (waiting s dst).
    + destruct (waiting s dst); [by apply not_elem_of_nil|]. rewrite elem_of_cons, elem_of_nil. by intros [[=]|[]].
  - intros Hu e He Hg. subst usable. rewrite He in *. apply negb_true_iff in Hu. by rewrite Hu, Hg.
Qed.

(** A packet that this node sends through a gateway is freed and then handed back: the
    encapsulated copy is routed, but the verdict [NF_ACCEPT] makes the stack go
    on with the packet it passed in, which [ip_pkt_encapsulate] has freed; nobody owns
    the copy. *)
Theorem gateway_packet_used_after_free (s : kstate) (skb : sk_buff) (dev okfn : Z)
    (ifi : kif_info) (indev : option Z) (e : expl_entry) :
  memory s → expl_ok 0 s → expl_len s < EXPL_MAX_LEN → data_packet s skb dev ifi → ip_ok skb →
  expl_map s !! iph_daddr (skb_data skb) = Some e →
  has (ex_flags e) KAODV_RT_REPAIR = false → has (ex_flags e) KAODV_RT_GW_ENCAP = true →
  ∃ s' copy before, kaodv_hook NF_INET_LOCAL_OUT skb indev (Some dev) okfn s = Ok (NF_ACCEPT, skb) s' ∧
    ktrace s' = KReroute copy :: KFreeSkb (skb_id skb) :: before ∧ queue_list s' = queue_list s.
Proof.
  intros Hm Ho Hroom Hp Hip He Hr Hg.
  rewrite (hook_enter _ _ _ _ _ indev (Some dev) okfn Hp) by done.
  cbn [Z.eqb NF_INET_LOCAL_OUT NF_INET_PRE_ROUTING]. rewrite Pos.eqb_refl.
  unfold hook_local_out. erewrite bind_ok by apply get_run. cbv zeta. rewrite He, Hr, Hg.
  destruct (update_timeouts_run s NF_INET_LOCAL_OUT dev ifi (skb_data skb)) as (s1 & R & H);
    [done|done|done|apply Hp|]. rewrite (bind_ok _ _ s () s1 R).
  destruct (rf_state _ _ _ _ H) as [l E].
  assert (Hm1 : memory s1 ∧ queue_list s1 = queue_list s).
  { rewrite E. unfold announced. destruct (_ =? _); [done|by destruct (_ || _)]. }
  destruct Hm1 as [Hm1 Hq1]. unfold ip_pkt_encapsulate, kmalloc, bind, gets, modify, ret. rewrite Hm1.
  cbn [negb]. unfold kfree_skb, kemit, modify, encap_bytes. rewrite bool_decide_eq_true_2 by exact Hip.
  do 3 eexists. split; [reflexivity|]. by split.
Qed.

(** A gateway reads past the end of a packet of protocol 55 that is addressed to it
    and has no room for the encapsulation header; nothing checks the length. *)
Theorem short_encapsulation_overruns (s : kstate) (skb : sk_buff) (dev okfn : Z) (ifi : kif_info)
    (outdev : option Z) :
  memory s → expl_ok 0 s → expl_len s < EXPL_MAX_LEN → data_packet s skb dev ifi →
  is_gateway s ≠ 0 → iph_protocol (skb_data skb) = IPPROTO_MIPE →
  iph_daddr (skb_data skb) = kif_addr ifi →
  (length (skb_data skb) < hdr_len (skb_data skb) + MIPE_SIZE)%nat →
  kaodv_hook NF_INET_PRE_ROUTING skb (Some dev) outdev okfn s = Ub RecvBufOverread.
Proof.
  intros Hm Ho Hroom Hp Hgw Hmipe Hd Hlen.
  rewrite (hook_enter _ _ _ _ _ (Some dev) outdev okfn Hp) by done. rewrite Z.eqb_refl.
  unfold hook_pre_routing.
  destruct (update_timeouts_run s NF_INET_PRE_ROUTING dev ifi (skb_data skb)) as (s1 & R & H);
    [done|done|done|apply Hp|]. erewrite bind_ok by exact R. unfold bind at 1, gets at 1.
  destruct (rf_state _ _ _ _ H) as [l E]. assert (Hg1 : is_gateway s1 = is_gateway s) by by rewrite E.
  rewrite Hg1, (proj2 (Z.eqb_neq _ _) Hgw), Hmipe, Hd, !Z.eqb_refl. cbn [negb andb].
  unfold ip_pkt_decapsulate, bind, gets, decap_bytes. rewrite bool_decide_eq_false_2 by lia. done.
Qed.
