(* ===== verification/KInit.v ===== *)
(** * kernel/kaodv-mod.c: loading and unloading the module

    [kaodv_init] registers the parts of the module one after the other and undoes what
    it has done when one fails; [kaodv_exit] takes everything back. *)

From S2P Require Import Prelude.
From S2P Require Import Bytes.
From S2P Require Import Kaodv.
From S2P Require Import KExpl.
From S2P Require Import KIpenc.
From S2P Require Import KQueue.
From S2P Require Import KNetlink.
From S2P Require Import KMod.
From S2P Require Import KHook.

#[local] Open Scope cm_scope.

Definition MAX_INTERFACES : nat := 10.

(** The answers of the kernel while the module is loaded: whether the entry of the queue
    in /proc/net and the netlink socket can be created, what [nf_register_hook]
    returns, and the devices of the names in [ifname], with what the memory for them
    holds. *)
Record kload := mk_kload {
  queue_proc_ok : bool;
  nl_socket_ok : bool;
  hook_ret : nat → Z;
  ifnames : list (option (net_device * (Z * Z)))
}.

(** [init_or_cleanup] of kaodv-queue.c, with 1 and with 0. *)
Definition kaodv_queue_init (ld : kload) : KM Z :=
  modify (λ s, set_queue 0 (queue_list s) s) ;;
  if queue_proc_ok ld then kemit (KAcquire ProcQueue) ;; ret 1 else ret (-1).

Definition kaodv_queue_fini : KM () :=
  kaodv_queue_flush ;;
  kemit (KRelease ProcQueue).

Definition kaodv_netlink_init (ld : kload) : KM Z :=
  kemit (KAcquire NlNotifier) ;;
  if nl_socket_ok ld then kemit (KAcquire NlSocket) ;; ret 0
  else kemit (KRelease NlNotifier) ;; ret (-1).

Definition kaodv_netlink_fini : KM () :=
  kemit (KRelease NlSocket) ;;
  kemit (KRelease NlNotifier).

Definition kaodv_expl_fini : KM () :=
  kaodv_expl_flush ;;
  kemit (KRelease ProcExpl).

Definition nf_register_hook (ld : kload) (i : nat) : KM Z :=
  when (0 <=? hook_ret ld i) (kemit (KAcquire (NfHook i))) ;;
  ret (hook_ret ld i).

Definition nf_unregister_hook (i : nat) : KM () := kemit (KRelease (NfHook i)).

(** The loop over the interfaces named; a device that is not there is skipped. *)
Definition prefetch_devices (ld : kload) : KM () :=
  foreach (take MAX_INTERFACES (ifnames ld)) () (λ dev _,
    match dev with
    | None => ret ()
    | Some (dev, junk) =>
        kemit (KAcquire (DevRef (nd_ifindex dev))) ;;
        if_info_add dev junk ;;
        kemit (KRelease (DevRef (nd_ifindex dev)))
    end).

Definition kaodv_init (ld : kload) : KM Z :=
  kaodv_expl_init ;;
  r ← kaodv_queue_init ld;
  if r <? 0 then ret r else
  r ← kaodv_netlink_init ld;
  if r <? 0 then kaodv_queue_fini ;; ret r else
  r ← nf_register_hook ld 0;
  if r <? 0 then kaodv_netlink_fini ;; kaodv_queue_fini ;; ret r else
  r ← nf_register_hook ld 1;
  if r <? 0 then nf_unregister_hook 0 ;; kaodv_netlink_fini ;; kaodv_queue_fini ;; ret r else
  r ← nf_register_hook ld 2;
  if r <? 0 then
    nf_unregister_hook 1 ;; nf_unregister_hook 0 ;; kaodv_netlink_fini ;; kaodv_queue_fini ;; ret r
  else
  prefetch_devices ld ;;
  kemit (KAcquire ProcMod) ;;
  ret r.

Definition kaodv_exit : KM () :=
  if_info_purge ;;
  nf_unregister_hook 0 ;; nf_unregister_hook 1 ;; nf_unregister_hook 2 ;;
  kemit (KRelease ProcMod) ;;
  kaodv_queue_fini ;;
  kaodv_expl_fini ;;
  kaodv_netlink_fini.

(** ** What is registered *)

#[export] Instance kres_eq_dec : EqDecision kres.
Proof. solve_decision. Defined.

(** How many times [r] is registered after the events. *)
Definition weight (r : kres) (ev : kevent) : Z :=
  match ev with
  | KAcquire r' => if decide (r = r') then 1 else 0
  | KRelease r' => if decide (r = r') then -1 else 0
  | _ => 0
  end.

Definition registered (r : kres) (s : kstate) : Z := foldr (λ ev n, weight r ev + n) 0 (ktrace s).

(** The references to the device with index [i] that the table of interfaces holds. *)
Definition references (r : kres) (l : list kif_info) : Z :=
  match r with
  | DevRef i => Z.of_nat (length (filter (λ ifi, kif_ifindex ifi = i) l))
  | _ => 0
  end.

(** [m] registers nothing and leaves the table of interfaces alone. *)
Definition quiet {A} (m : KM A) : Prop := ∀ s,
  match m s with
  | Ok _ s' => ifihead s' = ifihead s ∧ ∀ r, registered r s' = registered r s
  | _ => True
  end.

Lemma quiet_ret {A} (a : A) : quiet (ret a).
Proof. by intros s. Qed.
Lemma quiet_undefined {A} u : quiet (undefined u : KM A).
Proof. by intros s. Qed.
Lemma quiet_bind {A B} (m : KM A) (f : A → KM B) : quiet m → (∀ a, quiet (f a)) → quiet (bind m f).
Proof.
  intros Hm Hf s. specialize (Hm s). unfold bind. destruct (m s) as [a s1| |]; [|done|done].
  specialize (Hf a s1). destruct (f a s1) as [b s2| |]; [|done|done].
  destruct Hm as [H1 H2], Hf as [H3 H4]. split; [congruence|]. intros r. by rewrite H4.
Qed.
Lemma quiet_gets {A} (f : kstate → A) : quiet (gets f).
Proof. by intros s. Qed.
Lemma quiet_when b m : quiet m → quiet (when b m).
Proof. intros Hm. by destruct b; [|intros s]. Qed.
Lemma quiet_modify f :
  (∀ s, (ifihead (f s), ktrace (f s)) = (ifihead s, ktrace s)) → quiet (modify f).
Proof.
  intros Hf s. specialize (Hf s). injection Hf as E1 E2. split; [done|].
  intros r. unfold registered. by rewrite E2.
Qed.
Lemma quiet_emit ev : (∀ r, weight r ev = 0) → quiet (kemit ev).
Proof. intros He s. split; [done|]. intros r. unfold registered. simpl. by rewrite He. Qed.
Lemma quiet_foreach {A B} (l : list A) (acc : B) body :
  (∀ a b, quiet (body a b)) → quiet (foreach l acc body).
Proof.
  intros Hb. revert acc. induction l as [|a l IH]; intros acc; [apply quiet_ret|].
  apply quiet_bind; [apply Hb|apply IH].
Qed.

Ltac quiet_go :=
  repeat first
    [ apply quiet_ret | apply quiet_gets | apply quiet_undefined
    | apply quiet_emit; done
    | apply quiet_modify; done
    | solve [eauto with quiet]
    | apply quiet_bind; [|intros ?]
    | apply quiet_when
    | match goal with |- quiet (match ?x with _ => _ end) => destruct x end
    | progress cbv zeta ].

Create HintDb quiet.

Lemma quiet_dequeue_all cmpfn body : (∀ e n, quiet (body e n)) → quiet (dequeue_all cmpfn body).
Proof.
  intros Hb. unfold dequeue_all. apply quiet_bind; [quiet_go|]. intros n. generalize 0 as acc.
  induction (S n) as [|k IH]; intros acc; [quiet_go|]. cbn [dequeue_loop].
  apply quiet_bind; [unfold queue_find_dequeue_entry; quiet_go|].
  intros [e|]; [|quiet_go]. apply quiet_bind; [apply Hb|intros ?; apply IH].
Qed.

Lemma quiet_queue_flush : quiet kaodv_queue_flush.
Proof.
  unfold kaodv_queue_flush. apply quiet_bind; [|quiet_go].
  apply quiet_dequeue_all. intros e n. unfold kfree_skb. quiet_go.
Qed.
Lemma quiet_send_msg t d : quiet (send_msg t d).
Proof. unfold send_msg, kmalloc. quiet_go. Qed.
Lemma quiet_set_verdict v d : quiet (kaodv_queue_set_verdict v d).
Proof.
  unfold kaodv_queue_set_verdict. destruct (_ =? _); [|destruct (_ =? _); [|quiet_go]];
    apply quiet_dequeue_all; intros e n.
  - unfold drop_packet, kfree_skb. quiet_go.
  - unfold send_packet, ip_pkt_encapsulate, kaodv_expl_get, kmalloc, kfree_skb. quiet_go.
Qed.
Lemma quiet_update d nhop t f i : quiet (kaodv_expl_update d nhop t f i).
Proof. unfold kaodv_expl_update, expl_link, expiry, read_jiffies. quiet_go. Qed.
#[local] Hint Resolve quiet_queue_flush quiet_send_msg quiet_set_verdict quiet_update : quiet.

Lemma quiet_update_timeouts h i iph : quiet (kaodv_update_route_timeouts h i iph).
Proof.
  unfold kaodv_update_route_timeouts, refresh_expl, kaodv_expl_get, kaodv_netlink_send_rt_update_msg.
  quiet_go.
Qed.
#[local] Hint Resolve quiet_update_timeouts : quiet.

Lemma quiet_enqueue skb okfn : quiet (kaodv_queue_enqueue_packet skb okfn).
Proof. unfold kaodv_queue_enqueue_packet, queue_enqueue_entry, kmalloc. quiet_go. Qed.
Lemma quiet_is_aodv iph : quiet (is_aodv iph).
Proof. intros s. unfold is_aodv. destruct (_ =? _); [|done]. by destruct (bool_decide _). Qed.
#[local] Hint Resolve quiet_enqueue quiet_is_aodv : quiet.

Lemma quiet_exec inp : quiet (kmod_exec inp).
Proof.
  destruct inp as [h skb i o okfn|data al|ours pid]; simpl.
  - unfold kaodv_hook, hook_pre_routing, hook_local_out, kaodv_expl_get, kaodv_queue_find, dev_ifindex,
      kaodv_netlink_send_rerr_msg, kaodv_netlink_send_rt_msg, ip_pkt_encapsulate, ip_pkt_decapsulate,
      kmalloc, kfree_skb. quiet_go.
  - unfold kaodv_netlink_rcv_skb, kaodv_netlink_receive_peer, with_rt_msg, kaodv_expl_get,
      kaodv_expl_add, kaodv_expl_del, expl_link, expiry, read_jiffies, kmalloc. quiet_go.
  - unfold kaodv_netlink_rcv_nl_event, kaodv_expl_flush. quiet_go.
Qed.

(** ** From loading to unloading *)

(** Everything in [b] is registered, and one reference per interface is held. *)
Definition balanced (b : kres → Z) (s : kstate) : Prop :=
  ∀ r, registered r s = b r + references r (ifihead s).

Definition loaded (r : kres) : Z :=
  match r with
  | NfHook i => if (i <? 3)%nat then 1 else 0
  | DevRef _ => 0
  | _ => 1
  end.

Lemma registered_cons r ev s : registered r (set_ktrace (ev :: ktrace s) s) = weight r ev + registered r s.
Proof. done. Qed.

Lemma references_cons r i l :
  references r (i :: l) = weight r (KAcquire (DevRef (kif_ifindex i))) + references r l.
Proof.
  destruct r as [| | | | | |d]; try done. unfold references, weight. rewrite filter_cons.
  destruct (decide (kif_ifindex i = d)) as [<-|Hn].
  - rewrite decide_True by done. cbn [length]. lia.
  - rewrite decide_False by congruence. lia.
Qed.

Lemma weight_release r x : weight r (KRelease x) = - weight r (KAcquire x).
Proof. unfold weight. by destruct (decide _). Qed.

Lemma if_info_add_balanced b dev junk s :
  balanced b s → kinv s → ∃ r s', if_info_add dev junk s = Ok r s' ∧ balanced b s' ∧ kinv s'.
Proof.
  intros Hb Hs. pose proof (ksafe_if_info_add never dev junk s Hs) as Hk.
  unfold if_info_add, kmalloc, bind, gets, modify, ret in *. cbn [kmallocs kenv_of] in *.
  destruct (kmalloc_ok _ _); cbn [negb] in *; [|by do 2 eexists].
  unfold kemit, modify in *. destruct (default junk (nd_ifa dev)) as [addr bc].
  do 2 eexists. split_and!; [reflexivity| |done].
  intros r. cbn [ifihead set_ifihead]. rewrite references_cons. cbn [kif_ifindex].
  specialize (Hb r). unfold registered in *. cbn [ktrace set_ktrace set_ifihead set_kmallocs foldr].
  change (weight r (KSetMtu _ _)) with 0. rewrite Hb. cbn [ifihead set_ktrace set_kmallocs]. lia.
Qed.

Lemma kinv_emit ev s : kinv s → kinv (set_ktrace (ev :: ktrace s) s).
Proof. apply (ksafe_emit never ev). Qed.

Lemma prefetch_run b ld s :
  balanced b s → kinv s → ∃ s', prefetch_devices ld s = Ok () s' ∧ balanced b s' ∧ kinv s'.
Proof.
  unfold prefetch_devices. generalize (take MAX_INTERFACES (ifnames ld)) as l. intros l. revert s.
  induction l as [|[[dev junk]|] l IH]; intros s Hb Hs; [by exists s| |by apply IH].
  cbn [foreach]. set (d := DevRef (nd_ifindex dev)).
  set (s1 := set_ktrace (KAcquire d :: ktrace s) s).
  destruct (if_info_add_balanced (λ r, b r + weight r (KAcquire d)) dev junk s1) as (r & s2 & R & Hb2 & Hs2).
  { intros r. unfold s1. rewrite registered_cons, Hb. cbn [ifihead set_ktrace]. lia. }
  { by apply kinv_emit. }
  erewrite bind_ok.
  2:{ unfold bind at 1, kemit at 1, modify at 1. fold d s1. erewrite bind_ok by exact R. reflexivity. }
  apply IH; [|by apply kinv_emit]. intros x. rewrite registered_cons, Hb2.
  cbn [ifihead set_ktrace]. rewrite weight_release. lia.
Qed.

Lemma purge_run b s :
  balanced b s → kinv s →
  ∃ s', if_info_purge s = Ok () s' ∧ balanced b s' ∧ kinv s' ∧ ifihead s' = [].
Proof.
  unfold if_info_purge. unfold bind at 1, gets at 1.
  remember (ifihead s) as l eqn:El. revert s El.
  induction l as [|i l IH]; intros s El Hb Hs; [by exists s|]. cbn [foreach].
  erewrite bind_ok by reflexivity. apply IH.
  - cbn. by rewrite <- El.
  - intros r. specialize (Hb r). rewrite <- El, references_cons in Hb. unfold registered in *.
    cbn [ktrace ifihead set_ktrace set_ifihead foldr]. rewrite <- El. cbn [tail].
    rewrite weight_release. change (weight r (KSetMtu _ _)) with 0. lia.
  - do 2 apply kinv_emit. by destruct Hs as [? ? [] ?].
Qed.

Lemma quiet_run inputs : quiet (kmod_run inputs).
Proof. apply quiet_foreach. intros inp []. apply quiet_exec. Qed.

(** The module while it is loaded, with the events so far. *)
Definition booted (e : kenv) (tr : list kevent) : kstate := set_ktrace tr (kboot e).

Lemma booted_emit e tr ev (k : () → KM Z) :
  bind (kemit ev) k (booted e tr) = k () (booted e (ev :: tr)).
Proof. done. Qed.
Lemma booted_netlink_fini e tr (k : () → KM Z) :
  bind kaodv_netlink_fini k (booted e tr)
  = k () (booted e (KRelease NlNotifier :: KRelease NlSocket :: tr)).
Proof. done. Qed.
Lemma booted_queue_fini e tr (k : () → KM Z) :
  bind kaodv_queue_fini k (booted e tr) = k () (booted e (KRelease ProcQueue :: tr)).
Proof. done. Qed.
Lemma booted_queue_init e ld tr (k : Z → KM Z) :
  bind (kaodv_queue_init ld) k (booted e tr)
  = if queue_proc_ok ld then k 1 (booted e (KAcquire ProcQueue :: tr)) else k (-1) (booted e tr).
Proof. unfold kaodv_queue_init. by destruct (queue_proc_ok ld). Qed.
Lemma booted_netlink_init e ld tr (k : Z → KM Z) :
  bind (kaodv_netlink_init ld) k (booted e tr)
  = if nl_socket_ok ld then k 0 (booted e (KAcquire NlSocket :: KAcquire NlNotifier :: tr))
    else k (-1) (booted e (KRelease NlNotifier :: KAcquire NlNotifier :: tr)).
Proof. unfold kaodv_netlink_init. by destruct (nl_socket_ok ld). Qed.
Lemma booted_register e ld i tr (f k : Z → KM Z) :
  bind (nf_register_hook ld i) (λ r, if r <? 0 then f r else k r) (booted e tr)
  = if hook_ret ld i <? 0 then f (hook_ret ld i) (booted e tr)
    else k (hook_ret ld i) (booted e (KAcquire (NfHook i) :: tr)).
Proof.
  unfold nf_register_hook. rewrite Z.leb_antisym.
  unfold bind at 1. by destruct (hook_ret ld i <? 0) eqn:E; cbn; rewrite E.
Qed.

Ltac load_fails :=
  left; do 2 eexists; split_and!;
    [unfold nf_unregister_hook;
     rewrite ?booted_emit, ?booted_netlink_fini, ?booted_queue_fini; reflexivity
    |lia|by intros [| | | | |[|[|[|]]]|]].

(** Loading fails without a trace, but for one /proc entry, or it works. *)
Lemma init_outcome e ld :
  (∃ r s, kaodv_init ld (kboot e) = Ok r s ∧ r < 0 ∧
     ∀ x, registered x s = if decide (x = ProcExpl) then 1 else 0) ∨
  (∃ r s, kaodv_init ld (kboot e) = Ok r s ∧ 0 <= r ∧ balanced loaded s ∧ kinv s).
Proof.
  unfold kaodv_init. rewrite (bind_ok _ _ _ () (booted e [KAcquire ProcExpl])) by done.
  rewrite booted_queue_init. destruct (queue_proc_ok ld); cbn [Z.ltb Z.compare]; [|load_fails].
  rewrite booted_netlink_init. destruct (nl_socket_ok ld); cbn [Z.ltb Z.compare]; [|load_fails].
  rewrite booted_register. destruct (Z.ltb_spec (hook_ret ld 0) 0); [load_fails|].
  rewrite booted_register. destruct (Z.ltb_spec (hook_ret ld 1) 0); [load_fails|].
  rewrite booted_register. destruct (Z.ltb_spec (hook_ret ld 2) 0); [load_fails|].
  right. set (s0 := booted _ _).
  destruct (prefetch_run (λ r, loaded r - weight r (KAcquire ProcMod)) ld s0) as (s1 & R & Hb & Hs).
  { by intros [| | | | |[|[|[|]]]|]. }
  { split; simpl; [done|by apply NoDup_nil|done|done]. }
  erewrite bind_ok by exact R. do 2 eexists. split_and!; [reflexivity|done| |by apply kinv_emit].
  intros r. rewrite registered_cons, Hb. cbn [ifihead set_ktrace]. lia.
Qed.

Lemma exit_releases s :
  balanced loaded s → kinv s →
  ∃ s', kaodv_exit s = Ok () s' ∧ (∀ x, registered x s' = 0) ∧
    ifihead s' = [] ∧ queue_list s' = [] ∧ expl_head s' = [].
Proof.
  intros Hb Hs. unfold kaodv_exit. destruct (purge_run loaded s Hb Hs) as (s1 & R & Hb1 & Hs1 & Hi1).
  erewrite bind_ok by exact R. do 4 (erewrite bind_ok by reflexivity).
  set (s2 := set_ktrace _ _). assert (Hq2 : queue_ok s2) by (by destruct Hs1 as [? ? [] ?]).
  pose proof (quiet_queue_flush s2) as Hfl. rewrite queue_flush_run in Hfl by done.
  set (s3 := traced _ _) in Hfl. destruct Hfl as [Hi3 Hr3].
  erewrite bind_ok.
  2:{ unfold kaodv_queue_fini. erewrite bind_ok by by apply queue_flush_run. reflexivity. }
  fold s3. erewrite bind_ok by reflexivity. eexists. split; [reflexivity|]. split_and!; [|exact Hi1|done|done].
  intros r. unfold registered. cbn [ktrace set_ktrace set_expl foldr].
  change (foldr _ 0 (ktrace s3)) with (registered r s3). rewrite Hr3. subst s2.
  rewrite !registered_cons. unfold registered. cbn [ktrace set_ktrace foldr].
  change (foldr _ 0 (ktrace s1)) with (registered r s1). rewrite (Hb1 r), Hi1.
  by destruct r as [| | | | |[|[|[|]]]|].
Qed.

(** C22: the life of the module.  Loading it either succeeds or fails and then undoes what
    it registered, except the /proc entry of the routes, which stays.  A module that
    was loaded and then given any packets with a complete IP header and any messages has returned
    from every call, unless a packet lacked its transport header ([kmod_safe]).  Unloading it
    returns and leaves nothing behind: every hook, socket, notifier, /proc entry and device
    reference is released, and the lists of interfaces, queued packets and routes are empty. *)
Theorem kmod_lifecycle (e : kenv) (ld : kload) (inputs : list kinput) :
  Forall kinput_ok inputs →
  ∃ r s, kaodv_init ld (kboot e) = Ok r s ∧
    if r <? 0 then ∀ x, registered x s = if decide (x = ProcExpl) then 1 else 0
    else match kmod_run inputs s with
         | Ok _ s1 => ∃ s2, kaodv_exit s1 = Ok () s2 ∧ (∀ x, registered x s2 = 0) ∧
             ifihead s2 = [] ∧ queue_list s2 = [] ∧ expl_head s2 = []
         | Exit _ => False
         | Ub u => u = RecvBufOverread ∧ Exists cut_short inputs
         end.
Proof.
  intros Hin. destruct (init_outcome e ld) as [(r & s & R & Hr & H)|(r & s & R & Hr & Hb & Hs)];
    exists r, s; (split; [done|]).
  - by rewrite (proj2 (Z.ltb_lt _ _) Hr).
  - rewrite (proj2 (Z.ltb_ge _ _) Hr). pose proof (ksafe_run inputs Hin s Hs) as H1.
    pose proof (quiet_run inputs s) as H2. destruct (kmod_run inputs s) as [[] s1| |]; [|done|done].
    apply exit_releases; [|done].
    destruct H2 as [Hi Hreg]. intros x. rewrite Hreg, Hi. apply Hb.
Qed.
