(* ===== verification/KProc.v ===== *)
(** * src/kernel: the files in /proc and the debug messages

    The kernel hands a page of memory to the functions that fill a file of /proc, and calls
    them once for every part that is read.  The theorems: reading in parts gives the whole
    text; the list of routes fits the page up to 52 routes, and from 85 routes on it is
    written past its end. *)

From Stdlib Require Import Ascii String.
From S2P Require Import Prelude.
From S2P Require Import Format.
From S2P Require Import Kaodv.
From S2P Require Import KExpl.
From S2P Require Import KQueue.
From S2P Require Import KNetlink.
From S2P Require Import KMod.

#[local] Open Scope cm_scope.

Definition PAGE_SIZE : nat := 4096.
Definition nl : list Z := [10].

(** ** The part of a file that is read *)

(** [*start] as an offset into the page, and the length. *)
Definition window (page : list Z) (off count : Z) : Z * Z :=
  let len := Z.of_nat (length page) - off in
  (off, if count <? len then count else if len <? 0 then 0 else len).

(** The bytes that the reader gets, and a reader that asks for [count] bytes at a time until there
    are no more; [fuel] bounds its calls. *)
Definition part (page : list Z) (w : Z * Z) : list Z := take (Z.to_nat w.2) (drop (Z.to_nat w.1) page).
Fixpoint read_all (page : list Z) (count : Z) (fuel : nat) (off : Z) : option (list Z) :=
  match fuel with
  | O => None
  | S fuel =>
      let w := window page off count in
      if w.2 =? 0 then Some [] else
      match read_all page count fuel (off + w.2) with
      | Some rest => Some (part page w ++ rest)
      | None => None
      end
  end.

(** ** The files *)

Section files.

(** [dev_get_by_index]: the name of an interface, if there is one. *)
Context (dev_name : Z → option (list Z)).

Definition flags_text (flags : Z) : list Z :=
  flag_letters [(has flags KAODV_RT_GW_ENCAP, ch "E"); (has flags KAODV_RT_REPAIR, ch "R")].

Definition route_text (e : expl_entry) (addr nhop flags name : list Z) (hz now : Z) : list Z :=
  str "  " ++ pad_right 15 addr ++ str " " ++ pad_right 15 nhop ++ str " " ++ pad_right 5 flags ++ str " " ++
  pad_right 5 name ++ str " " ++ fmt_lu (u64 (u64 (expires e - now) * 1000) / hz) ++ nl.

(** The loop over the routes; [buf] holds the text so far. *)
Fixpoint print_routes (l : list expl_entry) (buf : list Z) : KM (list Z) :=
  match l with
  | [] => ret buf
  | e :: l =>
      match dev_name (ex_ifindex e) with
      | None => print_routes l buf
      | Some name =>
          addr ← sprintf 16 [] (dotted (ex_daddr e));
          nhop ← sprintf 16 [] (dotted (ex_nhop e));
          flags ← sprintf 4 [] (flags_text (ex_flags e));
          now ← read_jiffies;
          hz ← gets (λ s, HZ (kenv_of s));
          buf ← sprintf PAGE_SIZE buf (route_text e addr nhop flags name hz now);
          print_routes l buf
      end
  end.

Definition expl_columns : list Z :=
  str "# " ++ pad_right 15 (str "Addr") ++ str " " ++ pad_right 15 (str "Nhop") ++ str " " ++
  pad_right 5 (str "Flags") ++ str " " ++ pad_right 5 (str "Iface") ++ str " Expires" ++ nl.

Definition kaodv_expl_print : KM (list Z) :=
  n ← gets expl_len;
  buf ← sprintf PAGE_SIZE [] (str "# Total entries: " ++ fmt_u n ++ nl);
  buf ← sprintf PAGE_SIZE buf expl_columns;
  l ← gets expl_head;
  print_routes l buf.

(** The functions that the kernel calls return the page and the part of it. *)
Definition kaodv_expl_proc_info (off count : Z) : KM (list Z * (Z * Z)) :=
  page ← kaodv_expl_print; ret (page, window page off count).

Definition kaodv_queue_get_info (off count : Z) : KM (list Z * (Z * Z)) :=
  n ← gets queue_total;
  page ← sprintf PAGE_SIZE [] (str "Queue length      : " ++ fmt_u n ++ nl ++
    str "Queue max. length : " ++ fmt_u KAODV_QUEUE_QMAX_DEFAULT ++ nl);
  ret (page, window page off count).

(** [qual] and [pkts_dropped] change only in builds with [CONFIG_QUAL_THRESHOLD]. *)
Definition kaodv_read_proc (qual pkts_dropped off count : Z) : KM (list Z * (Z * Z)) :=
  q ← gets qual_th; g ← gets is_gateway;
  page ← sprintf PAGE_SIZE [] (str "qual threshold=" ++ fmt_d q ++ nl ++ str "pkts dropped=" ++
    fmt_lu pkts_dropped ++ nl ++ str "last qual=" ++ fmt_d qual ++ nl ++ str "gateway_mode=" ++ fmt_d g ++ nl);
  ret (page, window page off count).

(** ** kaodv-debug.c *)

Definition TRACE_SIZE : nat := 512.

Definition kaodv_netlink_send_debug_msg (data : list Z) : KM () := send_msg KAODVM_DEBUG data.

(** [trace] of a message that formats to [msg]: [vsnprintf] writes what fits and returns the length
    of all of it, so many bytes and one are taken from the buffer. *)
Definition trace (msg : list Z) : KM Z :=
  if (TRACE_SIZE <? length msg + 1)%nat then undefined Uninitialised
  else kaodv_netlink_send_debug_msg (msg ++ [0]) ;; ret 0.

(** ** Reading in parts *)

Lemma part_step page count off :
  0 <= off <= Z.of_nat (length page) → 0 < count →
  let w := window page off count in
  0 <= w.2 ∧ off + w.2 <= Z.of_nat (length page) ∧ (w.2 = 0 ↔ off = Z.of_nat (length page)) ∧
  part page w ++ drop (Z.to_nat (off + w.2)) page = drop (Z.to_nat off) page.
Proof.
  intros Ho Hc. unfold window, part. cbn [fst snd].
  set (n := if _ <? _ then _ else _).
  assert (Hn : 0 <= n <= Z.of_nat (length page) - off ∧ (n = 0 ↔ off = Z.of_nat (length page))).
  { unfold n. destruct (Z.ltb_spec count (Z.of_nat (length page) - off)); [lia|].
    destruct (Z.ltb_spec (Z.of_nat (length page) - off) 0); lia. }
  split_and!; [lia|lia|apply Hn|]. rewrite Z2Nat.inj_add, <- drop_drop by lia. apply take_drop.
Qed.

Lemma read_all_from page count : 0 < count → ∀ fuel off,
  0 <= off <= Z.of_nat (length page) → (length page - Z.to_nat off < fuel)%nat →
  read_all page count fuel off = Some (drop (Z.to_nat off) page).
Proof.
  intros Hc fuel. induction fuel as [|fuel IH]; intros off Ho Hf; [lia|]. cbn [read_all].
  destruct (part_step page count off Ho Hc) as (Hw & Hle & Hz & Hp).
  destruct (Z.eqb_spec (window page off count).2 0) as [E|E].
  - rewrite drop_ge by lia. done.
  - rewrite IH by lia. by rewrite Hp.
Qed.

(** Reading a file of /proc in parts gives the whole of it.  Whatever number of bytes the
    reader asks for at a time, the parts that the module hands out follow each other
    without gap or overlap, and the reading ends. *)
Theorem proc_read_whole (page : list Z) (count : Z) :
  0 < count → read_all page count (S (length page)) 0 = Some page.
Proof. intros Hc. rewrite (read_all_from page count Hc) by lia. done. Qed.

(** ** The size of the list of routes *)

(** The text of the routes from the [k]-th reading of the clock on. *)
Fixpoint routes_text (env : kenv) (k : nat) (l : list expl_entry) : list Z :=
  match l with
  | [] => []
  | e :: l =>
      match dev_name (ex_ifindex e) with
      | None => routes_text env k l
      | Some name =>
          route_text e (dotted (ex_daddr e)) (dotted (ex_nhop e)) (flags_text (ex_flags e)) name (HZ env) (jiffies env k)
          ++ routes_text env (S k) l
      end
  end.

Definition listed (l : list expl_entry) : nat :=
  length (filter (λ e, is_Some (dev_name (ex_ifindex e))) l).

Lemma flags_text_length flags : (length (flags_text flags) <= 2)%nat.
Proof. apply (flag_letters_length [_; _]). Qed.

Ltac klen :=
  cbn [length app]; rewrite ?length_app, ?pad_right_length;
  width fmt_u fmt_u_length; width fmt_d fmt_d_length; width fmt_lu fmt_lu_length;
  repeat match goal with
  | |- context[length (str ?s)] => len_const (str s)
  | |- context[length nl] => len_const nl
  | |- context[length expl_columns] => len_const expl_columns
  end;
  unfold PAGE_SIZE; lia.

Lemma route_text_length e name hz now :
  (48 <= length (route_text e (dotted (ex_daddr e)) (dotted (ex_nhop e)) (flags_text (ex_flags e)) name hz now)
   <= 62 + Nat.max 5 (length name))%nat.
Proof.
  unfold route_text. pose proof (dotted_length (ex_daddr e)). pose proof (dotted_length (ex_nhop e)).
  pose proof (flags_text_length (ex_flags e)). split; [|klen].
  assert ((1 <= length (fmt_lu (u64 (u64 (expires e - now) * 1000) / hz)))%nat) by apply digits_nonempty. klen.
Qed.

Lemma print_routes_run l : ∀ buf (s : kstate),
  (length buf < PAGE_SIZE)%nat →
  let text := routes_text (kenv_of s) (jiffies_reads s) l in
  print_routes l buf s =
    if (length buf + length text <? PAGE_SIZE)%nat
    then Ok (buf ++ text) (set_jiffies_reads (jiffies_reads s + listed l) s) else Ub StringOverflow.
Proof.
  induction l as [|e l IH]; intros buf s Hb; cbn [print_routes routes_text].
  { cbn [length app listed filter list_filter]. rewrite Nat.add_0_r, app_nil_r, (proj2 (Nat.ltb_lt _ _) Hb).
    unfold listed. cbn. rewrite Nat.add_0_r. by destruct s. }
  assert (Hl : listed (e :: l) = (match dev_name (ex_ifindex e) with Some _ => 1 | None => 0 end + listed l)%nat).
  { unfold listed. rewrite filter_cons. destruct (dev_name (ex_ifindex e)) eqn:E; [rewrite decide_True|rewrite decide_False];
      [done|by eexists|done|]. by intros [? ?]. }
  rewrite Hl. destruct (dev_name (ex_ifindex e)) as [name|]; [|by apply IH].
  pose proof (dotted_length (ex_daddr e)). pose proof (dotted_length (ex_nhop e)). pose proof (flags_text_length (ex_flags e)).
  do 3 erewrite bind_ok by (apply sprintf_run; cbn [length]; lia). erewrite bind_ok by done. erewrite bind_ok by done.
  cbn [app kenv_of set_jiffies_reads].
  set (line := route_text e _ _ _ name _ _). set (s1 := set_jiffies_reads (S (jiffies_reads s)) s).
  rewrite length_app. destruct (Nat.ltb_spec (length buf + length line + 1) (S PAGE_SIZE)).
  - erewrite bind_ok by (apply sprintf_run; lia). rewrite (IH (buf ++ line) s1) by (rewrite length_app; lia).
    rewrite length_app, <- Nat.add_assoc, <- app_assoc. cbn [kenv_of jiffies_reads s1 set_jiffies_reads].
    destruct (_ <? _)%nat; [|done]. f_equal. unfold s1, set_jiffies_reads. cbn. f_equal. lia.
  - unfold bind at 1. rewrite sprintf_long by lia. by rewrite (proj2 (Nat.ltb_ge _ _)) by lia.
Qed.

Definition expl_text (s : kstate) : list Z :=
  str "# Total entries: " ++ fmt_u (expl_len s) ++ nl ++ expl_columns ++
  routes_text (kenv_of s) (jiffies_reads s) (expl_head s).

Lemma expl_print_run s :
  kaodv_expl_print s =
    if (length (expl_text s) <? PAGE_SIZE)%nat
    then Ok (expl_text s) (set_jiffies_reads (jiffies_reads s + listed (expl_head s)) s) else Ub StringOverflow.
Proof.
  unfold kaodv_expl_print. pose proof (fmt_u_length (expl_len s)). erewrite bind_ok by done.
  erewrite bind_ok by (apply sprintf_run; klen). erewrite bind_ok by (apply sprintf_run; klen).
  erewrite bind_ok by done. cbn [app]. rewrite print_routes_run by klen. unfold expl_text.
  rewrite !length_app, <- !app_assoc, <- !Nat.add_assoc. done.
Qed.

Lemma routes_text_length env l : ∀ k,
  Forall (λ e, ∀ name, dev_name (ex_ifindex e) = Some name → (length name <= 15)%nat) l →
  (48 * listed l <= length (routes_text env k l) <= 77 * listed l)%nat.
Proof.
  induction l as [|e l IH]; intros k Hn; [cbn; lia|]. apply Forall_cons in Hn as [Hn Hns].
  unfold listed in *. cbn [routes_text]. rewrite filter_cons. destruct (dev_name (ex_ifindex e)) as [name|] eqn:E.
  - rewrite decide_True by by eexists. rewrite length_app. specialize (IH (S k) Hns). specialize (Hn name eq_refl).
    pose proof (route_text_length e name (HZ env) (jiffies env k)). cbn [length]. lia.
  - rewrite decide_False by by intros [? ?]. by apply IH.
Qed.

(** C34: the list of routes and the page it is written to.  With up to 52 routes on interfaces
    that exist the text has the total, the columns and one line for each of them, and ends
    within the page; with 85 or more it is written past the end of the page, although the
    list may have 1024. *)
Theorem expl_print_bounds (s : kstate) :
  Forall (λ e, ∀ name, dev_name (ex_ifindex e) = Some name → (length name <= 15)%nat) (expl_head s) →
  ((listed (expl_head s) <= 52)%nat →
     kaodv_expl_print s = Ok (expl_text s) (set_jiffies_reads (jiffies_reads s + listed (expl_head s)) s)) ∧
  ((85 <= listed (expl_head s))%nat → kaodv_expl_print s = Ub StringOverflow).
Proof.
  intros Hn. pose proof (routes_text_length (kenv_of s) (expl_head s) (jiffies_reads s) Hn) as Hr.
  rewrite expl_print_run. pose proof (fmt_u_length (expl_len s)) as Hu.
  split; intros Hl; [rewrite (proj2 (Nat.ltb_lt _ _))|rewrite (proj2 (Nat.ltb_ge _ _))]; try done; unfold expl_text; klen.
Qed.
End files.

(** A debug message of the module reaches the daemon as it is, with a final NUL, when it has
    fewer than 512 characters; a longer one makes the module send what lies on its stack
    behind the buffer. *)
Theorem trace_delivers (msg : list Z) (s : kstate) :
  trace msg s =
    if (length msg <? 512)%nat then
      Ok 0 (if kmalloc_ok (kenv_of s) (kmallocs s)
            then set_ktrace (KNotify (nlmsg_bytes KAODVM_DEBUG (msg ++ [0])) :: ktrace s) (set_kmallocs (S (kmallocs s)) s)
            else set_kmallocs (S (kmallocs s)) s)
    else Ub Uninitialised.
Proof.
  unfold trace, TRACE_SIZE. destruct (Nat.ltb_spec (length msg) 512).
  - rewrite (proj2 (Nat.ltb_ge _ _)) by lia. unfold kaodv_netlink_send_debug_msg, send_msg, kmalloc, bind, gets, modify, ret, when.
    cbn. by destruct (kmalloc_ok _ _).
  - by rewrite (proj2 (Nat.ltb_lt _ _)) by lia.
Qed.
