(* ===== verification/KScenarios.v ===== *)
(** * The kernel module on concrete inputs

    The module on a node 10.0.0.1 with the interface 2: a route to 10.0.0.3, a route to
    10.0.0.4 under repair, an Internet destination behind the gateway 10.0.0.3, and
    packets that wait.  The states instantiate the theorems about the module. *)

From Stdlib Require Import String.
From S2P Require Import Prelude.
From S2P Require Import Bytes.
From S2P Require Import Kaodv.
From S2P Require Import KExpl.
From S2P Require Import KIpenc.
From S2P Require Import KQueue.
From S2P Require Import KNetlink.
From S2P Require Import KMod.
From S2P Require Import KHook.
From S2P Require Import KInit.
From S2P Require Import Format.
From S2P Require Import KProc.

#[local] Open Scope cm_scope.

Ltac by_eval := vm_compute; reflexivity.
Ltac by_le := vm_compute; discriminate.
Ltac by_decide := apply (bool_decide_unpack _); by_eval.

(** ** The node *)

Definition addr (a b c d : Z) : Z := a + 2 ^ 8 * b + 2 ^ 16 * c + 2 ^ 24 * d.
Definition self : Z := addr 10 0 0 1.
Definition host (n : Z) : Z := addr 10 0 0 n.

Definition env0 : kenv :=
  mk_kenv 1000 (λ n, 5000 + Z.of_nat n) (λ _, true) (λ h, ip_csum (le_words h)) (λ _, 7)
    (λ n, 900 + Z.of_nat n).
Definition dev0 : net_device := mk_net_device 2 1500 (Some (self, addr 10 0 0 255)).
Definition ifi0 : kif_info := mk_kif self (addr 10 0 0 255) 1500 2.

(** A packet of 28 bytes with a correct checksum. *)
Definition packet (id proto src dst : Z) : sk_buff :=
  let hdr := [69; 0; 0; 28; 0; 1; 0; 0; 64; proto; 0; 0] ++ le_bytes32 src ++ le_bytes32 dst in
  mk_skb id (ip_send_check (fast_csum env0) hdr ++ [1; 2; 3; 4; 5; 6; 7; 8]).

Definition routes0 : list expl_entry :=
  [mk_expl 6000 0 (host 3) (host 3) 2; mk_expl 7000 KAODV_RT_REPAIR (host 4) (host 3) 2;
   mk_expl 8000 KAODV_RT_GW_ENCAP (addr 8 8 8 8) (host 3) 2].
Definition waiting0 : list kaodv_queue_entry :=
  [entry_of (packet 1 6 self (host 5)) 70; entry_of (packet 2 6 self (host 4)) 70;
   entry_of (packet 3 6 self (host 5)) 70].

Definition state0 : kstate :=
  mk_kstate env0 0 0 3 routes0 3 waiting0 77 3000 0 1 [ifi0] [].

Lemma state0_expl : expl_ok 0 state0.
Proof. split; [repeat constructor; by_le|by_decide|by_le|split; by_le]. Qed.
Lemma state0_queue : queue_ok state0.
Proof. split; [by_eval|by_le]. Qed.
Lemma state0_memory : memory state0.
Proof. done. Qed.

(** A message of the process 77 that asks for an acknowledgement. *)
Definition message (type : Z) (m : kaodv_rt_msg) : list Z :=
  le_bytes32 48 ++ le_bytes16 type ++ le_bytes16 5 ++ le_bytes32 0 ++ le_bytes32 77 ++ rt_msg_bytes m.

Definition route_to (d nhop : Z) : kaodv_rt_msg := mk_rt_msg 0 0 d nhop 0 2 3000.

Lemma message_ok type m : type ∈ [101; 102; 106] → read_rt_msg (drop 16 (message type m)) = Some m →
  rt_request (message type m) type 5 77 m.
Proof.
  intros Ht Hm. rewrite !elem_of_cons, elem_of_nil in Ht.
  destruct Ht as [->|[->|[->|[]]]]; (split; [split|split_and!; [by_eval|exact Hm|by_le]]);
    try done; try (eexists; split; [by_eval|]; try split; (by_eval || by_le)).
Qed.

(** ** The list of routes *)

Lemma expl_invariant_witness :
  let s := set_expl 1 [mk_expl 8000 0 (host 3) (host 3) 2] (tick (alloc (kboot env0))) in
  sorted_expiry (expl_head s) ∧ NoDup (ex_daddr <$> expl_head s).
Proof.
  cbv zeta. destruct (expl_invariant env0 1 (set_expl 1 [mk_expl 8000 0 (host 3) (host 3) 2]
    (tick (alloc (kboot env0))))) as (H1 & H2 & _); [unfold EXPL_MAX_LEN; lia| |exact (conj H1 H2)].
  apply (expl_run_step env0 0 (kboot env0)); [apply expl_run_init|].
  apply (step_expl_add _ (host 3) (host 3) 3000 0 2 1). reflexivity.
Defined.

Lemma expl_refines_map_witness :
  ∃ s', kaodv_expl_update (host 4) (host 4) 3000 0 2 state0 = Ok 0 s' ∧
    expl_map s' = <[host 4 := mk_expl 8000 0 (host 4) (host 4) 2]> (expl_map state0).
Proof.
  destruct (expl_refines_map state0 (host 4) (host 4) 3000 0 2 state0_expl ltac:(by_eval)
    ltac:(by_eval)) as (_ & _ & (r & s' & R & _ & H) & _).
  exists s'. destruct (expl_map state0 !! host 4) eqn:E; [|vm_compute in E; discriminate E].
  destruct H as [-> H]. exact (conj R H).
Defined.

(** ** The queue *)

Lemma queue_set_verdict_exact_witness :
  ∃ s', kaodv_queue_set_verdict KAODV_QUEUE_DROP (host 5) state0 = Ok 2 s' ∧
    ktrace s' = [KFreeSkb 3; KFreeSkb 1; KIcmpUnreach 1].
Proof.
  destruct (queue_set_verdict_exact state0 (host 5) state0_queue) as ((s' & R & _ & _ & T) & _).
  exists s'. split; [exact R|]. rewrite T. by_eval.
Defined.

(** ** Encapsulation *)

Lemma ipenc_roundtrip_witness :
  let data := skb_data (packet 1 6 self (addr 8 8 8 8)) in
  ∃ data', encap_bytes (fast_csum env0) (new_ident env0) (host 3) data = Some data' ∧
    decap_bytes (fast_csum env0) data' = Some data.
Proof.
  cbv zeta. destruct (ipenc_roundtrip (fast_csum env0) (new_ident env0) (host 3)
    (skb_data (packet 1 6 self (addr 8 8 8 8)))) as (data' & R & _ & _ & _ & _ & D).
  - by_decide.
  - by_decide.
  - by_eval.
  - by_le.
  - by_eval.
  - exists data'. exact (conj R D).
Defined.

(** ** Messages of the daemon *)

(** The route that two packets wait for. *)
Lemma addroute_delivers_witness :
  ∃ s', kaodv_netlink_rcv_skb (message 101 (route_to (host 5) (host 3))) true state0 = Ok () s' ∧
    queue_list s' = [entry_of (packet 2 6 self (host 4)) 70] ∧ head (ktrace s') = Some (KAck 0).
Proof.
  destruct (addroute_delivers state0 (message 101 (route_to (host 5) (host 3))) 5 77
    (route_to (host 5) (host 3))) as (s' & R & _ & _ & Q & T).
  - apply message_ok; [set_solver|by_eval].
  - right. reflexivity.
  - exact state0_expl.
  - exact state0_queue.
  - by_eval.
  - by_eval.
  - by_eval.
  - by_eval.
  - exists s'. split; [exact R|]. split; [rewrite Q; by_eval|]. rewrite T. by_eval.
Defined.

(** A new next hop for 10.0.0.3. *)
Lemma addroute_keeps_old_route_witness :
  ∃ s', kaodv_netlink_rcv_skb (message 101 (route_to (host 3) (host 6))) true state0 = Ok () s' ∧
    expl_head s' = routes0.
Proof.
  destruct (addroute_keeps_old_route state0 (message 101 (route_to (host 3) (host 6))) 5 77
    (route_to (host 3) (host 6)) (mk_expl 6000 0 (host 3) (host 3) 2)) as (s' & R & H & _).
  - apply message_ok; [set_solver|by_eval].
  - right. reflexivity.
  - exact state0_queue.
  - by_eval.
  - by_eval.
  - exists s'. exact (conj R H).
Defined.

(** ** The hook *)

Lemma data_packet0 id proto src dst :
  is_aodv (skb_data (packet id proto src dst)) state0 = Ok false state0 →
  (iph_daddr (skb_data (packet id proto src dst)) =? INADDR_BROADCAST)
  || in_multicast (iph_daddr (skb_data (packet id proto src dst)))
  || (iph_daddr (skb_data (packet id proto src dst)) =? kif_bcaddr ifi0) = false →
  data_packet state0 (packet id proto src dst) 2 ifi0.
Proof. intros H1 H2. split; [exact H1|by_eval|exact H2]. Qed.

(** A packet from 10.0.0.2 to 10.0.0.9, to which there is no route. *)
Lemma forward_verdict_witness :
  ∃ s', kaodv_hook NF_INET_PRE_ROUTING (packet 9 6 (host 2) (host 9)) (Some 2) None 70 state0
        = Ok (NF_DROP, packet 9 6 (host 2) (host 9)) s' ∧
    queue_list s' = waiting0 ∧ length (ktrace s') = 2%nat.
Proof.
  destruct (forward_verdict state0 (packet 9 6 (host 2) (host 9)) 2 70 ifi0 None)
    as (v & s' & R & H & _).
  - exact state0_memory.
  - exact state0_expl.
  - exact state0_queue.
  - by_eval.
  - apply data_packet0; [reflexivity|by_eval].
  - by_le.
  - by_le.
  - destruct (expl_map state0 !! _) eqn:E in H; [vm_compute in E; discriminate E|].
    destruct H as (-> & Q & T). exists s'. split; [exact R|]. split; [exact Q|]. by rewrite T.
Defined.

(** A packet of the node itself to 10.0.0.9. *)
Lemma local_verdict_witness :
  ∃ s', kaodv_hook NF_INET_LOCAL_OUT (packet 9 6 self (host 9)) None (Some 2) 70 state0
        = Ok (NF_STOLEN, packet 9 6 self (host 9)) s' ∧
    queue_list s' = waiting0 ++ [entry_of (packet 9 6 self (host 9)) 70].
Proof.
  destruct (local_verdict state0 (packet 9 6 self (host 9)) 2 70 ifi0 None) as [H _].
  - exact state0_memory.
  - exact state0_queue.
  - apply data_packet0; [reflexivity|by_eval].
  - destruct (H ltac:(by_eval)) as (s' & R & Q & _). exists s'. split; [exact R|].
    assert (Hsp : has_space state0 = true) by by_eval. unfold kept in Q. rewrite Hsp in Q.
    rewrite Q. by_eval.
Defined.

(** A packet from 10.0.0.3 to 8.8.8.8 refreshes both routes. *)
Lemma route_timeouts_refreshed_witness :
  ∃ s', kaodv_update_route_timeouts NF_INET_PRE_ROUTING 2
          (skb_data (packet 9 6 (host 3) (addr 8 8 8 8))) state0 = Ok () s' ∧
    expl_map s' !! host 4 = Some (mk_expl 7000 KAODV_RT_REPAIR (host 4) (host 3) 2) ∧
    ∃ k, expl_map s' !! addr 8 8 8 8
         = Some (mk_expl (u64 (5000 + Z.of_nat k + u64 (3000 * 1000) / 1000))
                   KAODV_RT_GW_ENCAP (addr 8 8 8 8) (host 3) 2).
Proof.
  destruct (route_timeouts_refreshed state0 NF_INET_PRE_ROUTING 2 ifi0
    (skb_data (packet 9 6 (host 3) (addr 8 8 8 8)))) as (s' & R & _ & Hother & _ & Hused & _).
  - exact state0_memory.
  - exact state0_expl.
  - by_eval.
  - by_eval.
  - exists s'. split; [exact R|]. split.
    + rewrite Hother by (by_decide). by_eval.
    + destruct (Hused (addr 8 8 8 8) (mk_expl 8000 KAODV_RT_GW_ENCAP (addr 8 8 8 8) (host 3) 2))
        as (k & _ & E); [by_decide|by_eval|]. exists k. exact E.
Defined.

Lemma gateway_packet_used_after_free_witness :
  ∃ s' copy before,
    kaodv_hook NF_INET_LOCAL_OUT (packet 9 6 self (addr 8 8 8 8)) None (Some 2) 70 state0
      = Ok (NF_ACCEPT, packet 9 6 self (addr 8 8 8 8)) s' ∧
    ktrace s' = KReroute copy :: KFreeSkb 9 :: before.
Proof.
  destruct (gateway_packet_used_after_free state0 (packet 9 6 self (addr 8 8 8 8)) 2 70 ifi0 None
    (mk_expl 8000 KAODV_RT_GW_ENCAP (addr 8 8 8 8) (host 3) 2)) as (s' & copy & before & R & T & _).
  - exact state0_memory.
  - exact state0_expl.
  - by_eval.
  - apply data_packet0; [reflexivity|by_eval].
  - by_decide.
  - by_eval.
  - by_eval.
  - by_eval.
  - exists s', copy, before. exact (conj R T).
Defined.

(** ** The module *)

Definition inputs0 : list kinput :=
  [KPacket NF_INET_PRE_ROUTING (packet 9 6 (host 2) (host 9)) (Some 2) None 70;
   KMessage (message 101 (route_to (host 5) (host 3))) true;
   KPacket NF_INET_LOCAL_OUT (packet 10 6 self (host 5)) None (Some 2) 70;
   KMessage [1; 2; 3] true; KClosed true 77].

Lemma inputs0_ok : Forall kinput_ok inputs0.
Proof.
  repeat constructor; simpl; (by_decide || by eexists).
Qed.


(** A UDP packet that ends with its IP header. *)
Theorem short_udp_overruns :
  kmod_run [KPacket NF_INET_PRE_ROUTING (mk_skb 9 (take 20 (skb_data (packet 9 17 (host 2) (host 9)))))
    (Some 2) None 70] state0 = Ub RecvBufOverread.
Proof. by_eval. Qed.

(** Loaded with the interface 2 and a name that does not exist. *)
Definition load0 : kload := mk_kload true true (λ _, 0) [Some (dev0, (0, 0)); None].

Lemma kmod_lifecycle_witness :
  ∃ s s1 s2, kaodv_init load0 (kboot env0) = Ok 0 s ∧ kmod_run inputs0 s = Ok () s1 ∧
    kaodv_exit s1 = Ok () s2 ∧ registered NlSocket s2 = 0 ∧ registered (DevRef 2) s2 = 0.
Proof.
  destruct (kmod_lifecycle env0 load0 inputs0 inputs0_ok) as (r & s & R & H).
  assert (Hr : match kaodv_init load0 (kboot env0) with Ok r _ => r | _ => 1 end = 0) by by_eval.
  rewrite R in Hr. simpl in Hr. subst r.
  assert (Hk : match kaodv_init load0 (kboot env0) with
               | Ok _ s => match kmod_run inputs0 s with Ok _ _ => true | _ => false end
               | _ => false end = true) by by_eval.
  rewrite R in Hk. cbn [Z.ltb Z.compare] in H.
  destruct (kmod_run inputs0 s) as [[] s1|c|u] eqn:R1; [|discriminate Hk..].
  destruct H as (s2 & R2 & Hreg & _). exists s, s1, s2. by split_and!.
Defined.

(** ** /proc *)

Definition names0 (ifindex : Z) : option (list Z) := if ifindex =? 2 then Some (str "eth0"%string) else None.

Lemma proc_read_whole_witness :
  read_all (str "Queue length      : 3"%string) 7 22 0 = Some (str "Queue length      : 3"%string).
Proof. apply (proc_read_whole (str "Queue length      : 3"%string) 7). by_eval. Defined.

Definition state0_list : list Z :=
  str "# Total entries: 3"%string ++ nl ++ str "# Addr            Nhop            Flags Iface Expires"%string ++ nl ++
  str "  10.0.0.3        10.0.0.3              eth0  1000"%string ++ nl ++
  str "  10.0.0.4        10.0.0.3        R     eth0  1999"%string ++ nl ++
  str "  8.8.8.8         10.0.0.3        E     eth0  2998"%string ++ nl.

Lemma expl_print_bounds_witness :
  kaodv_expl_print names0 state0 = Ok state0_list (set_jiffies_reads 3 state0).
Proof.
  assert (Hn : Forall (λ e, ∀ name, names0 (ex_ifindex e) = Some name → (length name <= 15)%nat) (expl_head state0)).
  { apply Forall_forall. intros e _ name. unfold names0. destruct (_ =? _); [|discriminate].
    intros H. injection H as <-. vm_compute. lia. }
  exact (proj1 (expl_print_bounds names0 state0 Hn) ltac:(vm_compute; lia)).
Defined.

(** The daemon adds 85 routes, and someone reads the file: the kernel writes past the page. *)
Definition add_routes (n : nat) : KM () :=
  foreach (seq 1 n) () (λ i _, kaodv_expl_add (host (Z.of_nat i)) (host 3) 3000 0 2 ;; ret ()).

Theorem proc_page_overrun :
  (add_routes 85 ;; kaodv_expl_print names0) (kboot env0) = Ub StringOverflow.
Proof. by_eval. Qed.
