(* ===== verification/Wire.v ===== *)
(** * What the daemon puts on the wire

    A closed network is one in which every AODV message comes from a daemon.  [frame_ok]
    is what the daemons promise each other about a message: it consists of bytes, a
    RREQ and a RREP have no extension, and the node they make a route to is a member
    of the network.  [wired] is the part of a daemon's state this depends on, and the
    triples [hold P m Q] of this file show that every operation keeps it, given that
    the message it works on is [frame_ok]. *)

From S2P Require Import Prelude.
From S2P Require Import Params.
From S2P Require Import Bytes.
From S2P Require Import TimerQueue.
From S2P Require Import State.
From S2P Require Import Frame.
From S2P Require Import Nl.
From S2P Require Import RtTable.
From S2P Require Import PacketQueue.
From S2P Require Import SeekList.
From S2P Require Import Socket.
From S2P Require Import Rerr.
From S2P Require Import RtUpdate.
From S2P Require Import Rrep.
From S2P Require Import Rreq.
From S2P Require Import Timeouts.
From S2P Require Import PacketInput.
From S2P Require Import Daemon.

#[local] Open Scope cm_scope.

(** ** Triples *)

(** Whenever [m], started in [P], returns, [Q] holds. *)
Definition hold {A} (P : state → Prop) (m : M A) (Q : A → state → Prop) : Prop :=
  ∀ s a s', P s → m s = Ok a s' → Q a s'.

Section rules.
Context {A B : Type}.
Implicit Types (P : state → Prop).

Lemma hold_ret P (a : A) (Q : A → state → Prop) : (∀ s, P s → Q a s) → hold P (ret a) Q.
Proof. intros H s b s' HP [= <- <-]. auto. Qed.

Lemma hold_bind P (m : M A) (f : A → M B) R Q :
  hold P m R → (∀ a, hold (R a) (f a) Q) → hold P (bind m f) Q.
Proof. intros Hm Hf s b s' HP (a & s1 & H1 & H2)%bind_inv. eapply Hf; [by eapply Hm|done]. Qed.

Lemma hold_conseq P P' (m : M A) (Q Q' : A → state → Prop) :
  hold P m Q → (∀ s, P' s → P s) → (∀ a s, Q a s → Q' a s) → hold P' m Q'.
Proof. intros Hm HP HQ s a s' Hs Hr. eapply HQ, Hm; [by apply HP|done]. Qed.

Lemma hold_pre P P' (m : M A) (Q : A → state → Prop) :
  hold P m Q → (∀ s, P' s → P s) → hold P' m Q.
Proof. intros Hm HP. by eapply hold_conseq. Qed.

Lemma hold_pure P (Φ : Prop) (m : M A) (Q : A → state → Prop) :
  (Φ → hold P m Q) → hold (λ s, P s ∧ Φ) m Q.
Proof. intros Hm s a s' [HP HΦ]. by apply Hm. Qed.

(** A value that is read: what is known about it comes from the state. *)
Lemma hold_gets P (f : state → A) (k : A → M B) Q :
  (∀ s, P s → hold P (k (f s)) Q) → hold P (bind (gets f) k) Q.
Proof. intros H s b s' HP (a & s1 & [= <- <-] & Hr)%bind_inv. by eapply H. Qed.

Lemma hold_exit P c (Q : A → state → Prop) : hold P (cexit c) Q.
Proof. by intros s a s' _ H. Qed.

Lemma hold_undefined P u (Q : A → state → Prop) : hold P (undefined u) Q.
Proof. by intros s a s' _ H. Qed.

Lemma hold_frames {C} (g : state → C) (m : M A) P (Q : A → state → Prop) :
  frames g m → (∀ s s' a, g s' = g s → P s → Q a s') → hold P m Q.
Proof. intros Hf H s a s' HP Hr. eapply H; [by eapply Hf|done]. Qed.
End rules.

Lemma hold_modify P f (Q : () → state → Prop) : (∀ s, P s → Q () (f s)) → hold P (modify f) Q.
Proof. intros H s [] s' HP [= <-]. auto. Qed.

Lemma hold_when (P : state → Prop) b m :
  (b = true → hold P m (λ _, P)) → hold P (when b m) (λ _, P).
Proof. intros Hm. destruct b; [by apply Hm|]. by apply hold_ret. Qed.

Lemma hold_foreach {A B} (P : B → state → Prop) (l : list A) acc body :
  (∀ a b, a ∈ l → hold (P b) (body a b) P) → hold (P acc) (foreach l acc body) P.
Proof.
  revert acc. induction l as [|a l IH]; intros acc Hb; cbn [foreach]; [by apply hold_ret|].
  eapply hold_bind; [apply Hb; left|]. intros b. apply IH. intros. apply Hb. by right.
Qed.

(** An entry that a pointer leads to. *)
Lemma hold_deref {B} (P : state → Prop) k (f : rt_table_t → M B) Q :
  (∀ e s, P s → rt_lookup (rt_tbl s) k = Some e → hold P (f e) Q) →
  hold P (bind (rt_deref k) f) Q.
Proof.
  intros H s b s' HP (e & s1 & He & Hr)%bind_inv. unfold rt_deref in He.
  destruct (rt_lookup _ _) as [e'|] eqn:E; [|done]. injection He as <- <-. by eapply H.
Qed.

Lemma hold_load8 {B} P off (f : Z → M B) Q :
  (∀ v s, P s → load8 (recv_buf s) off = Some v → hold P (f v) Q) →
  hold P (bind (recv_load8 off) f) Q.
Proof.
  intros H s b s' HP (v & s1 & Hv & Hr)%bind_inv. unfold recv_load8 in Hv.
  destruct (load8 _ _) as [v'|] eqn:E; [|done]. injection Hv as <- <-. by eapply H.
Qed.

Lemma hold_load32 {B} P off (f : Z → M B) Q :
  (∀ v s, P s → load32 (recv_buf s) off = Some v → hold P (f v) Q) →
  hold P (bind (recv_load32 off) f) Q.
Proof.
  intros H s b s' HP (v & s1 & Hv & Hr)%bind_inv. unfold recv_load32 in Hv.
  destruct (load32 _ _) as [v'|] eqn:E; [|done]. injection Hv as <- <-. by eapply H.
Qed.

(** A store into the send buffer. *)
Lemma hold_store (P : state → Prop) f (Q : () → state → Prop) :
  (∀ s b, P s → f (send_buf s) = Some b → Q () (set_send_buf b s)) → hold P (send_store f) Q.
Proof.
  intros H s [] s' HP. unfold send_store. destruct (f (send_buf s)) eqn:E; [|done].
  intros [= <-]. auto.
Qed.

(** ** Parts of the state that only sending, receiving and new routes touch *)

(** What no assignment to an entry changes. *)
Definition ident (e : rt_table_t) : Z * Z := (rt_dest_addr e, rt_ifindex e).

(** [inert g]: [g] does not depend on the clock, the timers, the fields of the routes other than
    their destinations and interfaces, the requests to the kernel, the verdicts, and the lists of
    sought destinations and queued packets. *)
Class inert {C} (g : state → C) : Prop := {
  inert_clock s n : g (set_clock_reads n s) = g s;
  inert_tq s q : g (set_tq q s) = g s;
  inert_nl s n : g (set_rtnl_seq n s) = g s;
  inert_route s r : g (set_trace (EvRoute r :: trace s) s) = g s;
  inert_verdict s i v : g (set_trace (EvVerdict i v :: trace s) s) = g s;
  inert_active s n : g (set_rt_tbl (set_num_active n (rt_tbl s)) s) = g s;
  inert_entry s k f : (∀ e, ident (f e) = ident e) →
    g (set_rt_tbl (tbl_modify (rt_tbl s) k f) s) = g s;
  inert_seek s l : g (set_seekhead l s) = g s;
  inert_PQ s q : g (set_PQ q s) = g s
}.

Lemma frames_entry {C} (g : state → C) `{!inert g} k f : 
  (∀ e, ident (f e) = ident e) → frames g (rt_modify k f).
Proof.
  intros Hf. apply frames_bind; [apply frames_rt_deref|]. intros _. apply frames_modify.
  intros s. by apply (inert_entry s k f).
Qed.

#[export] Hint Extern 0 (inert _) => apply _ : aodv.

(** A frame of an inert part of the state, from the structure of the program. *)
Ltac inert_leaf :=
  lazymatch goal with
  | |- ?h _ = _ =>
      first [exact (inert_active (g:=h) _ _)|exact (inert_nl (g:=h) _ _)|exact (inert_clock (g:=h) _ _)
            |exact (inert_seek (g:=h) _ _)|exact (inert_PQ (g:=h) _ _)|exact (inert_tq (g:=h) _ _)
            |exact (inert_route (g:=h) _ _)|exact (inert_verdict (g:=h) _ _ _)|reflexivity]
  end.
Ltac inert_step :=
  lazymatch goal with
  | |- frames _ (modify _) => apply frames_modify; intros ?; cbv beta; inert_leaf
  | |- frames _ (on_tq _) => apply frames_on_tq; intros ? ?; inert_leaf
  | |- frames _ gettimeofday => unfold gettimeofday
  | |- frames _ (emit _) => unfold emit
  | |- frames _ (rt_modify _ _) => apply frames_entry; [apply _|intros ?; reflexivity]
  | |- _ => frame_step
  end.
Ltac inert_go := repeat inert_step.

Section inert.
Context {C : Type} (g : state → C) `{!inert g}.

Lemma inert_add_route d n m i : frames g (nl_send_add_route_msg d n m i).
Proof. unfold nl_send_add_route_msg, nl_kern_route, nl_send. inert_go. Qed.
Lemma inert_del_route d n m : frames g (nl_send_del_route_msg d n m).
Proof. unfold nl_send_del_route_msg, nl_kern_route, nl_send. inert_go. Qed.
Lemma inert_precursor_add k a : frames g (precursor_add k a).
Proof. unfold precursor_add. inert_go. Qed.
Lemma inert_precursors k : frames g (precursor_list_destroy k).
Proof. unfold precursor_list_destroy. inert_go. Qed.
Lemma inert_update_timeout k l : frames g (rt_table_update_timeout k l).
Proof. unfold rt_table_update_timeout. inert_go. Qed.
Lemma inert_is_valid k : frames g (rt_is_valid k).
Proof. unfold rt_is_valid. inert_go. Qed.
End inert.
#[export] Hint Resolve inert_add_route inert_del_route inert_precursor_add inert_precursors
  inert_update_timeout inert_is_valid : aodv.

Section inert2.
Context {C : Type} (g : state → C) `{!inert g}.

Lemma inert_invalidate k : frames g (rt_table_invalidate k).
Proof. unfold rt_table_invalidate. inert_go. Qed.
Lemma inert_refresh_route k b : frames g (refresh_route k b).
Proof. unfold refresh_route. inert_go. Qed.
Lemma inert_verdict_of i v : frames g (nfqueue_set_packet_verdict i v).
Proof. unfold nfqueue_set_packet_verdict. inert_go. Qed.
Lemma inert_drain p v : frames g (drain p v).
Proof.
  assert (Hl : ∀ todo kept count, frames g (drain_loop p v kept todo count)).
  { induction todo as [|qp todo IH]; intros kept count; cbn [drain_loop]; [apply frames_ret|].
    destruct (p qp); [|apply IH]. unfold nfqueue_set_packet_verdict.
    repeat (apply frames_bind; [inert_go|intros ?]). apply IH. }
  unfold drain. apply frames_bind; [apply frames_gets|]. intros q. apply Hl.
Qed.
Lemma inert_queue_add i d : frames g (packet_queue_add i d).
Proof. unfold packet_queue_add, nfqueue_set_packet_verdict. inert_go. Qed.
Lemma inert_seek_find d : frames g (seek_list_find d).
Proof. apply frames_gets. Qed.
Lemma inert_seek_insert d n t f : frames g (seek_list_insert d n t f).
Proof. unfold seek_list_insert. inert_go. Qed.
Lemma inert_seek_remove e : frames g (seek_list_remove e).
Proof. unfold seek_list_remove. inert_go. Qed.
Lemma inert_seek_deref d : frames g (seek_deref d).
Proof. intros s e s'. unfold seek_deref. destruct (seek_lookup _ _); [|done]. by intros [= _ <-]. Qed.
Lemma inert_keep k now : frames g (keep_while_seeking k now).
Proof. unfold keep_while_seeking. inert_go. Qed.
Lemma inert_hello_update k now t : frames g (hello_update_timeout k now t).
Proof. unfold hello_update_timeout. inert_go. Qed.
End inert2.
#[export] Hint Resolve inert_invalidate inert_refresh_route inert_verdict_of inert_drain inert_queue_add
  inert_seek_find inert_seek_insert inert_seek_remove inert_seek_deref inert_keep inert_hello_update : aodv.

Section inert3.
Context {C : Type} (g : state → C) `{!inert g}.

Lemma inert_seek_modify d f : frames g (seek_modify d f).
Proof. unfold seek_modify. inert_go. Qed.
Lemma inert_set_verdict d v : frames g (packet_queue_set_verdict d v).
Proof. unfold packet_queue_set_verdict, refresh_released. inert_go. Qed.
Lemma inert_route_timeouts f r : frames g (rt_table_update_route_timeouts f r).
Proof. unfold rt_table_update_route_timeouts. inert_go. Qed.
End inert3.
#[export] Hint Resolve inert_seek_modify inert_set_verdict inert_route_timeouts : aodv.

Section inert4.
Context {C : Type} (g : state → C) `{!inert g}.

Lemma inert_release k : frames g (release_packets k).
Proof. unfold release_packets. inert_go. Qed.
End inert4.
#[export] Hint Resolve inert_release : aodv.

(** ** Messages and the state they come from *)

(** The messages sent so far. *)
Definition sent (s : state) : list (list Z) :=
  omap (λ ev, match ev with EvSend _ _ _ p => Some p | _ => None end) (trace s).

Definition wire (s : state) :=
  (env s, devs (this_host s), rt_keys s, send_buf s, sent s, recv_buf s).

Lemma rt_keys_modify s k f :
  (∀ e, rt_dest_addr (f e) = rt_dest_addr e) →
  rt_keys (set_rt_tbl (tbl_modify (rt_tbl s) k f) s) = rt_keys s.
Proof.
  intros Hf. unfold rt_keys, tbl_modify, bucket. simpl.
  change (map rt_dest_addr (concat ?l)) with (map rt_dest_addr (concat l)).
  change (rt_dest_addr <$> ?l) with (map rt_dest_addr l). rewrite !concat_map. f_equal.
  apply list_eq. intros i. change (map (map rt_dest_addr) ?l) with (map rt_dest_addr <$> l).
  rewrite !list_lookup_fmap. destruct (decide (i = hash_index k)) as [->|Hne].
  - destruct (tbl (rt_tbl s) !! hash_index k) as [b|] eqn:E.
    + rewrite list_lookup_insert_eq by by eapply lookup_lt_Some.
      simpl. f_equal. by apply map_modify_first.
    + rewrite list_insert_ge by by apply lookup_ge_None. by rewrite E.
  - by rewrite list_lookup_insert_ne.
Qed.

#[export] Instance wire_inert : inert wire.
Proof.
  split; try done. intros s k f Hf. unfold wire. rewrite rt_keys_modify; [done|].
  intros e. by injection (Hf e).
Qed.

(** Bytes before the end of a prefix. *)
Lemma load8_take b n i : 0 <= i < Z.of_nat n → load8 (take n b) i = load8 b i.
Proof.
  intros Hi. unfold load8. destruct (i <? 0); [done|]. apply lookup_take_lt. lia.
Qed.

Lemma load32_take b n i : 0 <= i → i + 4 <= Z.of_nat n → load32 (take n b) i = load32 b i.
Proof. intros H0 Hi. apply load32_ext. intros j Hj. apply load8_take. lia. Qed.

Section members.
(** The addresses of the network, and that of an interface that is not configured. *)
Context (members : gset Z) (members_addr : ∀ a, a ∈ members → 0 <= a < 2 ^ 32).

(** What the daemons promise each other about a message. *)
Record frame_ok (p : list Z) : Prop := {
  fr_bytes : bytes_ok p;
  fr_nonempty : p ≠ [];
  fr_rreq : load8 p 0 = Some AODV_RREQ →
    length p = 24%nat ∧ ∃ orig, load32 p 16 = Some orig ∧ orig ∈ members;
  fr_rrep : load8 p 0 = Some AODV_RREP →
    length p = 20%nat ∧ ∃ dest, load32 p 4 = Some dest ∧ dest ∈ members
}.

(** The state of a daemon of the network. *)
Record wired (s : state) : Prop := {
  wd_unidir : unidir_hack (opts s) = false;
  wd_devs i : dev_ipaddr (DEV_NR s i) ∈ members;
  wd_keys : Forall (λ k, k ∈ members) (rt_keys s);
  wd_send : bytes_ok (send_buf s);
  wd_send_len : length (send_buf s) = Z.to_nat SEND_BUF_SIZE;
  wd_sent : Forall frame_ok (sent s);
  wd_recv : bytes_ok (recv_buf s);
  wd_recv_len : length (recv_buf s) = Z.to_nat RECV_BUF_SIZE
}.

(** A message of another type than RREQ and RREP. *)
Lemma frame_ok_other b n t :
  bytes_ok b → load8 b 0 = Some t → t ≠ AODV_RREQ → t ≠ AODV_RREP → (0 < n)%nat →
  frame_ok (take n b).
Proof.
  intros Hb Ht H1 H2 Hn. assert (Hl : load8 (take n b) 0 = Some t)
    by (rewrite load8_take by lia; done).
  split; [by apply Forall_take| |congruence|congruence].
  intros He. by rewrite He in Hl.
Qed.

Lemma frame_ok_rrep b d :
  bytes_ok b → length b = Z.to_nat SEND_BUF_SIZE → load8 b 0 = Some AODV_RREP →
  load32 b 4 = Some d → d ∈ members → frame_ok (take 20 b).
Proof.
  intros Hb Hl Ht Hd Hm.
  assert (Hlen : length (take 20 b) = 20%nat) by (rewrite length_take, Hl; unfold SEND_BUF_SIZE; simpl; lia).
  split.
  - by apply Forall_take.
  - intros He. by rewrite He in Hlen.
  - rewrite load8_take, Ht by lia. done.
  - intros _. split; [done|]. exists d. by rewrite load32_take by lia.
Qed.

Lemma frame_ok_rreq b o :
  bytes_ok b → length b = Z.to_nat SEND_BUF_SIZE → load8 b 0 = Some AODV_RREQ →
  load32 b 16 = Some o → o ∈ members → frame_ok (take 24 b).
Proof.
  intros Hb Hl Ht Hd Hm.
  assert (Hlen : length (take 24 b) = 24%nat) by (rewrite length_take, Hl; unfold SEND_BUF_SIZE; simpl; lia).
  split.
  - by apply Forall_take.
  - intros He. by rewrite He in Hlen.
  - intros _. split; [done|]. exists o. by rewrite load32_take by lia.
  - rewrite load8_take, Ht by lia. done.
Qed.

(** A message stays what it is when other bytes of it change. *)
Lemma frame_ok_change b b' n :
  bytes_ok b' → length b' = length b →
  (∀ i, i = 0 ∨ 4 <= i < 8 ∨ 16 <= i < 20 → load8 b' i = load8 b i) →
  frame_ok (take n b) → frame_ok (take n b').
Proof.
  intros Hb Hl Hi [Fb Fn Fq Fp].
  assert (Hlen : length (take n b') = length (take n b)) by by rewrite !length_take, Hl.
  assert (H8 : ∀ i, i = 0 ∨ 4 <= i < 8 ∨ 16 <= i < 20 → load8 (take n b') i = load8 (take n b) i).
  { intros i Hin. specialize (Hi i Hin). destruct (decide (i < Z.of_nat n)).
    - rewrite !load8_take by lia. done.
    - unfold load8. destruct (i <? 0) eqn:E; [done|].
      rewrite !lookup_ge_None_2; [done|rewrite length_take; lia|rewrite length_take; lia]. }
  split.
  - by apply Forall_take.
  - intros He. rewrite He in Hlen. destruct (take n b); [done|]. done.
  - rewrite H8 by auto. intros [? (o & Ho & Hm)]%Fq. split; [congruence|]. exists o.
    split; [|done]. rewrite <- Ho. apply load32_ext. intros. apply H8. lia.
  - rewrite H8 by auto. intros [? (o & Ho & Hm)]%Fp. split; [congruence|]. exists o.
    split; [|done]. rewrite <- Ho. apply load32_ext. intros. apply H8. lia.
Qed.

(** ** The invariant between two statements *)

(** The message in the send buffer can be sent with the length of a RREP. *)
Definition ready (s : state) : Prop := frame_ok (take 20 (send_buf s)).

(** The message in the receive buffer: its type and its length. *)
Definition rx_ok (rx : option (Z * nat)) (s : state) : Prop :=
  match rx with
  | None => True
  | Some (t, n) => load8 (recv_buf s) 0 = Some t ∧ frame_ok (take n (recv_buf s))
  end.

Definition okw (r : bool) (rx : option (Z * nat)) (s : state) : Prop :=
  wired s ∧ (r = true → ready s) ∧ rx_ok rx s.

Abbreviation keeps r rx m := (hold (okw r rx) m (λ _, okw r rx)).

Lemma okw_wire r rx s s' : wire s' = wire s → okw r rx s → okw r rx s'.
Proof.
  unfold wire. intros [= He Hd Hk Hs Ht Hr] ([] & Hy & Hx). split_and!.
  - split; unfold opts, DEV_NR in *; congruence.
  - unfold ready. rewrite Hs. done.
  - destruct rx as [[t n]|]; [|done]. unfold rx_ok in *. by rewrite Hr.
Qed.

Lemma keeps_frames {A} r rx (m : M A) : frames wire m → keeps r rx m.
Proof. intros Hf. eapply hold_frames; [exact Hf|]. intros s s' _ He. by apply okw_wire. Qed.

(** The same with what is known about the send buffer. *)
Lemma hold_frames_buf {A} r rx (R : list Z → Prop) (m : M A) :
  frames wire m → hold (λ s, okw r rx s ∧ R (send_buf s)) m (λ _ s, okw r rx s ∧ R (send_buf s)).
Proof.
  intros Hf. eapply hold_frames; [exact Hf|]. intros s s' _ He [Hk HR].
  split; [by eapply okw_wire|]. unfold wire in He. injection He as _ _ _ He _ _. by rewrite He.
Qed.

Lemma okw_weaken r rx s : okw r rx s → okw false rx s.
Proof. by intros (? & ? & ?). Qed.

Lemma keeps_frame_ok_live r rx s e k :
  okw r rx s → rt_lookup (rt_tbl s) k = Some e → rt_dest_addr e ∈ members.
Proof.
  intros ([_ _ Hk _ _ _ _ _] & _) He. unfold rt_keys in Hk. rewrite Forall_fmap in Hk.
  apply search_Some in He as [He _]. unfold bucket in He.
  destruct (tbl (rt_tbl s) !! hash_index k) as [b|] eqn:Hb; [|by apply not_elem_of_nil in He].
  eapply (proj1 (Forall_forall _ _) Hk). by eapply elem_of_concat_lookup.
Qed.

(** Step over an operation that touches nothing of this. *)
Tactic Notation "hskip" "as" simple_intropattern(p) :=
  eapply hold_bind; [apply keeps_frames; inert_go|intros p; cbv beta].
Tactic Notation "hskip" := hskip as ?.
Tactic Notation "hskip_buf" "as" simple_intropattern(p) :=
  eapply hold_bind; [apply hold_frames_buf; inert_go|intros p; cbv beta].
Tactic Notation "hskip_buf" := hskip_buf as ?.

(** *** Sending *)

Definition sendable (n : nat) (b : list Z) : Prop := frame_ok (take n b).

Lemma hold_sendto r rx dev dst len ttl :
  hold (λ s, okw r rx s ∧ sendable (Z.to_nat len) (send_buf s)) (sendto dev dst len ttl)
       (λ _ s, okw r rx s ∧ sendable (Z.to_nat len) (send_buf s)).
Proof.
  unfold sendto. apply hold_gets. intros s0 [_ H0]. destruct (_ || _); [apply hold_undefined|].
  hskip_buf as ok. apply hold_when. intros _.
  intros s [] s' [([H1 H2 H3 H4 H5 H6 H7 H8] & Hy & Hx) Hb] [= <-]. split; [|done].
  split_and!; [|done|done]. split; try done. constructor; [|done]. exact H0.
Qed.

Lemma hold_socket_send r rx dst len ttl dev :
  hold (λ s, okw r rx s ∧ sendable (Z.to_nat len) (send_buf s)) (aodv_socket_send dst len ttl dev)
       (λ _ s, okw r rx s ∧ sendable (Z.to_nat len) (send_buf s)).
Proof.
  unfold aodv_socket_send. hskip_buf as ty.
  hskip_buf as worb.
  destruct (_ && _); [by apply hold_ret|].
  hskip_buf as ok.
  destruct (negb ok); [by apply hold_ret|].
  eapply hold_bind; [apply hold_frames_buf; unfold ratelimit_check; inert_go|]. intros pass.
  destruct (negb pass); [by apply hold_ret|]. destruct (dst =? AODV_BROADCAST); [|apply hold_sendto].
  hskip_buf as now.
  eapply hold_bind; [apply hold_frames_buf; inert_go|]. intros ?. apply hold_sendto.
Qed.

Lemma hold_send_on_all r rx dst len ttl :
  hold (λ s, okw r rx s ∧ sendable (Z.to_nat len) (send_buf s)) (send_on_all dst len ttl)
       (λ _ s, okw r rx s ∧ sendable (Z.to_nat len) (send_buf s)).
Proof.
  unfold send_on_all. hskip_buf as l.
  apply (hold_foreach (λ _ s, okw r rx s ∧ sendable (Z.to_nat len) (send_buf s))).
  intros. apply hold_socket_send.
Qed.

(** *** Writing a message *)

Definition typed (t : Z) (b : list Z) : Prop := load8 b 0 = Some t.

(** The type of a message without a promise. *)
Definition other (t : Z) : Prop := t ≠ AODV_RREQ ∧ t ≠ AODV_RREP.

Lemma okw_buf r rx s b :
  okw r rx s → bytes_ok b → length b = length (send_buf s) →
  (r = true → frame_ok (take 20 b)) → okw r rx (set_send_buf b s).
Proof.
  intros ([] & Hy & Hx) Hb Hl Hr. split_and!; [|done|done]. split; try done.
  simpl. congruence.
Qed.

Lemma typed_sendable r rx s t n :
  okw r rx s → typed t (send_buf s) → other t → (0 < n)%nat → sendable n (send_buf s).
Proof. intros ([] & _) Ht [? ?] Hn. by eapply frame_ok_other. Qed.

Section write.
Context (r : bool) (rx : option (Z * nat)).
Abbreviation with_type t := (λ s, okw r rx s ∧ typed t (send_buf s)).

Lemma hold_typed f t t' :
  (∀ b b', bytes_ok b → typed t b → f b = Some b' → bytes_ok b' ∧ length b' = length b ∧ typed t' b') →
  other t' → hold (with_type t) (send_store f) (λ _, with_type t').
Proof.
  intros Hf [H1 H2]. apply hold_store. intros s b' [Hk Ht] Hb.
  destruct (Hf _ _ (wd_send _ (proj1 Hk)) Ht Hb) as (Hb' & Hl & Ht'). split; [|done].
  apply okw_buf; [done|done|done|]. intros ?. by eapply frame_ok_other; [| | | |lia].
Qed.

Lemma hold_new_msg : hold (okw r rx) aodv_socket_new_msg (λ _, with_type 0).
Proof.
  apply hold_modify. intros s Hk. split; [|done].
  assert (Hb : bytes_ok (replicate (Z.to_nat SEND_BUF_SIZE) 0)) by by apply Forall_replicate.
  apply okw_buf; [done|done| |].
  - rewrite length_replicate. symmetry. apply Hk.
  - intros ?. eapply frame_ok_other; [done|reflexivity|done|done|lia].
Qed.

Lemma hold_type8 t v : other (u8 v) → hold (with_type t) (send_store8 0 v) (λ _, with_type (u8 v)).
Proof.
  apply hold_typed. intros b b' Hb Ht Hs. split_and!.
  - by eapply bytes_ok_store8. - by eapply store8_length. - by eapply load8_store8_eq.
Qed.

Lemma hold_field8 t off v :
  other t → off ≠ 0 → hold (with_type t) (send_store8 off v) (λ _, with_type t).
Proof.
  intros Ho Hoff. apply hold_typed; [|done]. intros b b' Hb Ht Hs. split_and!.
  - by eapply bytes_ok_store8. - by eapply store8_length.
  - unfold typed. by rewrite (load8_store8_ne _ _ _ _ 0 Hs).
Qed.

Lemma hold_field32 t off v :
  other t → 0 < off → hold (with_type t) (send_store32 off v) (λ _, with_type t).
Proof.
  intros Ho Hoff. apply hold_typed; [|done]. intros b b' Hb Ht Hs. split_and!.
  - by eapply bytes_ok_store_bytes. - by eapply store32_length.
  - unfold typed. rewrite (load8_store32_ne _ _ _ _ 0 Hs) by lia. done.
Qed.

Lemma other_rerr : other AODV_RERR.
Proof. done. Qed.

Lemma hold_rerr_create f d n : hold (okw r rx) (rerr_create f d n) (λ _, with_type AODV_RERR).
Proof.
  unfold rerr_create. eapply hold_bind; [apply hold_new_msg|]. intros ?; cbv beta.
  eapply hold_bind; [by apply hold_type8|]. intros ?; cbv beta.
  repeat (eapply hold_bind; [first [by apply hold_field8|by apply hold_field32]|intros ?; cbv beta]).
  by apply hold_field8.
Qed.

Lemma hold_rerr_add_udest d n :
  hold (with_type AODV_RERR) (rerr_add_udest d n) (λ _, with_type AODV_RERR).
Proof.
  unfold rerr_add_udest, rerr_dest_count. intros s a s' Hk (c & s1 & Hc & Hr)%bind_inv.
  unfold send_load8 in Hc. destruct (load8 _ _) as [v|] eqn:E; [|done]. injection Hc as <- <-.
  pose proof (load8_range _ _ _ (wd_send _ (proj1 (proj1 Hk))) E) as Hv.
  assert (Ho : 0 < RERR_CALC_SIZE v)
    by (unfold RERR_CALC_SIZE, RERR_SIZE, RERR_UDEST_SIZE; lia).
  assert (H : hold (with_type AODV_RERR) (send_store32 (RERR_CALC_SIZE v) d ;;
    send_store32 (RERR_CALC_SIZE v + 4) (htonl n) ;; send_store8 3 (v + 1))
    (λ _, with_type AODV_RERR)); [|by eapply H].
  do 2 (eapply hold_bind; [apply hold_field32; [done|lia]|intros ?; cbv beta]). by apply hold_field8.
Qed.

(** A RERR of any length, to one node or to all. *)
Lemma hold_rerr_send dst n ttl dev :
  (0 < n) → hold (with_type AODV_RERR) (aodv_socket_send dst n ttl dev) (λ _, okw r rx).
Proof.
  intros Hn. eapply hold_conseq; [apply hold_socket_send| |].
  - intros s [Hk Ht]. split; [done|]. eapply typed_sendable; [done|done|done|lia].
  - by intros a s [? _].
Qed.

Lemma hold_rerr_send_all dst n ttl :
  (0 < n) → hold (with_type AODV_RERR) (send_on_all dst n ttl) (λ _, okw r rx).
Proof.
  intros Hn. eapply hold_conseq; [apply hold_send_on_all| |].
  - intros s [Hk Ht]. split; [done|]. eapply typed_sendable; [done|done|done|lia].
  - by intros a s [? _].
Qed.

(** The number of destinations and the transmission that uses it. *)
Lemma hold_dest_count {B} (P : state → Prop) (f : Z → M B) Q :
  (∀ s, P s → bytes_ok (send_buf s)) → (∀ n, 0 <= n → hold P (f n) Q) →
  hold P (bind rerr_dest_count f) Q.
Proof.
  intros HP Hf s a s' Hk (c & s1 & Hc & Hr)%bind_inv. unfold rerr_dest_count, send_load8 in Hc.
  destruct (load8 _ _) as [v|] eqn:E; [|done]. injection Hc as <- <-.
  eapply (Hf v); [|done|done]. apply load8_range in E; [lia|auto].
Qed.
End write.

Lemma with_type_bytes r rx t s : okw r rx s ∧ typed t (send_buf s) → bytes_ok (send_buf s).
Proof. intros [Hk _]. apply Hk. Qed.
Lemma okw_bytes r rx s : okw r rx s → bytes_ok (send_buf s).
Proof. intros Hk. apply Hk. Qed.

Lemma calc_size_pos n : 0 <= n → 0 < RERR_CALC_SIZE n.
Proof. unfold RERR_CALC_SIZE, RERR_SIZE, RERR_UDEST_SIZE. lia. Qed.

(** *** Errors and broken links *)

(** A RERR that has been created is in the send buffer. *)
Definition okacc (r : bool) (rx : option (Z * nat)) (acc : rerr_acc) (s : state) : Prop :=
  okw r rx s ∧ (acc_created acc = true → typed AODV_RERR (send_buf s)).

Lemma okacc_frames {A} r rx acc (m : M A) :
  frames wire m → hold (okacc r rx acc) m (λ _, okacc r rx acc).
Proof. apply (hold_frames_buf r rx (λ b, acc_created acc = true → typed AODV_RERR b)). Qed.

Tactic Notation "hskip_acc" "as" simple_intropattern(p) :=
  eapply hold_bind; [apply okacc_frames; inert_go|intros p; cbv beta].
Tactic Notation "hskip_acc" := hskip_acc as ?.

Section rerr.
Context (r : bool) (rx : option (Z * nat)).

Lemma hold_rerr_include f k acc : hold (okacc r rx acc) (rerr_include f k acc) (okacc r rx).
Proof.
  unfold rerr_include. apply hold_deref. intros e s _ _. destruct (acc_created acc) eqn:Hc; simpl.
  - eapply hold_bind; [|intros ?; cbv beta; apply hold_ret; intros s' H; exact H].
    eapply hold_conseq; [apply hold_rerr_add_udest| |].
    + intros s1 [Hk Ht]. split; [exact Hk|by apply Ht].
    + intros _ s1 [Hk Ht]. by split.
  - eapply hold_bind; [|intros ?; cbv beta; apply hold_ret; intros s' H; exact H].
    eapply hold_conseq; [apply hold_rerr_create| |].
    + intros s1 [Hk _]. exact Hk.
    + intros _ s1 [Hk Ht]. by split.
Qed.

Lemma hold_rerr_transmit acc : hold (okacc r rx acc) (rerr_transmit acc) (λ _, okw r rx).
Proof.
  unfold rerr_transmit. destruct (acc_created acc) eqn:Hc; simpl.
  2:{ apply hold_ret. by intros s [? _]. }
  apply (hold_pre (λ s, okw r rx s ∧ typed AODV_RERR (send_buf s)));
    [|intros s [Hk Ht]; split; [exact Hk|by apply Ht]].
  hskip_buf as u.
  apply hold_dest_count; [apply with_type_bytes|]. intros n Hn. apply calc_size_pos in Hn.
  assert (Hall : hold (λ s, okw r rx s ∧ typed AODV_RERR (send_buf s))
    (when (0 <? n) (send_on_all AODV_BROADCAST (RERR_CALC_SIZE n) 1)) (λ _, okw r rx)).
  { destruct (0 <? n); [by apply hold_rerr_send_all|]. apply hold_ret. by intros s [? _]. }
  destruct u as [u|]; [|exact Hall]. destruct (_ && _); [|exact Hall].
  hskip_buf as ifi.
  hskip_buf as dev. by apply hold_rerr_send.
Qed.

Lemma hold_link_break_entry k u acc : hold (okacc r rx acc) (link_break_entry k u acc) (okacc r rx).
Proof.
  unfold link_break_entry.
  do 2 hskip_acc.
  destruct (_ && _); [|by apply hold_ret]. destruct (_ && _).
  - do 2 hskip_acc.
    by apply hold_ret.
  - do 2 hskip_acc.
    eapply hold_bind; [instantiate (1 := okacc r rx);
      destruct (negb _); [apply hold_rerr_include|by apply hold_ret]|].
    intros acc'. hskip_acc.
    by apply hold_ret.
Qed.

Lemma okacc_start s : okw r rx s → okacc r rx (mk_rerr_acc false 0) s.
Proof. by split. Qed.

Lemma hold_link_break k : keeps r rx (neighbor_link_break k).
Proof.
  unfold neighbor_link_break. hskip as e.
  destruct (negb _); [by apply hold_ret|].
  apply (hold_pre (okacc r rx (mk_rerr_acc false 0))); [|apply okacc_start].
  eapply hold_bind; [instantiate (1 := okacc r rx)|].
  - unfold link_break_self.
    do 2 hskip_acc.
    eapply hold_bind; [instantiate (1 := okacc r rx);
      destruct (_ && _); [apply hold_rerr_include|by apply hold_ret]|].
    intros acc. hskip_acc.
    by apply hold_ret.
  - intros acc. hskip_acc as keys.
    eapply hold_bind; [apply (hold_foreach (okacc r rx)); intros; apply hold_link_break_entry|].
    intros acc'. apply hold_rerr_transmit.
Qed.

(** A RERR for one destination. *)
Lemma hold_rerr_one f d n (m : M ()) :
  hold (λ s, okw r rx s ∧ typed AODV_RERR (send_buf s)) m (λ _, okw r rx) →
  keeps r rx (rerr_create f d n ;; m).
Proof. intros Hm. eapply hold_bind; [apply hold_rerr_create|]. intros ?; cbv beta. exact Hm. Qed.
End rerr.

(** The received message, with bytes of it changed. *)
Lemma keeps_recv_store r rx f :
  (∀ b b', bytes_ok b → f b = Some b' → bytes_ok b' ∧ length b' = length b ∧
     (∀ i, i = 0 ∨ 4 <= i < 8 ∨ 16 <= i < 20 → load8 b' i = load8 b i)) →
  keeps r rx (recv_store f).
Proof.
  intros Hf s a s' ([] & Hy & Hx). unfold recv_store. destruct (f (recv_buf s)) as [b|] eqn:E; [|done].
  intros [= _ <-]. destruct (Hf _ _ wd_recv0 E) as (Hb & Hl & Hi). split_and!; [split; simpl; try done; congruence|done|].
  destruct rx as [[t n]|]; [|done]. destruct Hx as [Ht Hfr]. split; simpl.
  - rewrite Hi by auto. done.
  - by eapply frame_ok_change.
Qed.

Lemma keeps_recv_store8 r rx off v :
  1 <= off < 4 → keeps r rx (recv_store (λ b, store8 b off v)).
Proof.
  intros Ho. apply keeps_recv_store. intros b b' Hb Hs. split_and!.
  - by eapply bytes_ok_store8. - by eapply store8_length.
  - intros i Hi. eapply load8_store8_ne; [exact Hs|lia].
Qed.

Lemma keeps_recv_store32 r rx v : keeps r rx (recv_store (λ b, store32 b 12 v)).
Proof.
  apply keeps_recv_store. intros b b' Hb Hs. split_and!.
  - by eapply bytes_ok_store_bytes. - by eapply store32_length.
  - intros i Hi. eapply load8_store32_ne; [exact Hs|lia].
Qed.

Lemma hold_rerr_process r rx len src : keeps r rx (rerr_process len src).
Proof.
  unfold rerr_process. hskip as c.
  destruct (_ <? _); [by apply hold_ret|].
  hskip as fl.
  apply (hold_pre (okacc r rx (mk_rerr_acc false 0))); [|apply okacc_start].
  eapply hold_bind; [|intros acc; apply hold_rerr_transmit].
  apply (hold_foreach (okacc r rx)). intros i acc _. eapply hold_bind; [instantiate (1 := okacc r rx)|].
  - unfold rerr_process_udest.
    do 3 hskip_acc.
    destruct a1 as [k|]; [|by apply hold_ret].
    hskip_acc as e.
    destruct (_ && _); [|by apply hold_ret].
    do 3 hskip_acc.
    eapply hold_bind; [instantiate (1 := okacc r rx);
      destruct (_ && _); [apply hold_rerr_include|by apply hold_ret]|].
    intros acc'. do 2 hskip_acc.
    by apply hold_ret.
  - intros acc'. eapply hold_bind; [|intros ?; cbv beta; apply hold_ret; intros s H; exact H].
    intros s1 u s2 [Hk Ht] Hr. split.
    + by eapply (keeps_recv_store8 r rx 3).
    + unfold recv_store in Hr. destruct (store8 _ _ _); [|done]. by injection Hr as _ <-.
Qed.

(** *** Replies and requests *)

Lemma members_u32 a : a ∈ members → u32 a = a.
Proof. intros Ha. apply u32_small. by apply members_addr. Qed.

(** A store while nothing is known about the send buffer but [R]. *)
Lemma hold_raw rx f (R R' : list Z → Prop) :
  (∀ b b', R b → bytes_ok b → f b = Some b' → bytes_ok b' ∧ length b' = length b ∧ R' b') →
  hold (λ s, okw false rx s ∧ R (send_buf s)) (send_store f) (λ _ s, okw false rx s ∧ R' (send_buf s)).
Proof.
  intros Hf. apply hold_store. intros s b' [Hk HR] Hb.
  destruct (Hf _ _ HR (okw_bytes _ _ _ Hk) Hb) as (? & ? & ?). split; [|done]. by apply okw_buf.
Qed.

(** A RREP for [d] in the send buffer. *)
Definition rrep_for (d : Z) (b : list Z) : Prop := typed AODV_RREP b ∧ load32 b 4 = Some d.
Definition rreq_from (o : Z) (b : list Z) : Prop := typed AODV_RREQ b ∧ load32 b 16 = Some o.

Ltac raw_store :=
  apply hold_raw; intros ? ? ? ? Hs; split_and!;
  [first [by eapply bytes_ok_store8|by eapply bytes_ok_store_bytes]
  |first [by eapply store8_length|by eapply store32_length]
  |unfold rrep_for, rreq_from, typed in *; load_simp; (done || by destruct_and?)].

Ltac raw_step rx R :=
  eapply (hold_bind _ _ _ (λ _ s, okw false rx s ∧ R (send_buf s))); [|intros ?; cbv beta].

Lemma hold_rrep_create rx fl p h d n o l :
  d ∈ members → hold (okw false rx) (rrep_create fl p h d n o l) (λ _, okw true rx).
Proof.
  intros Hd. unfold rrep_create.
  eapply hold_bind; [apply hold_new_msg|intros ?; cbv beta].
  eapply (hold_conseq _ _ _ (λ _ s, okw false rx s ∧ rrep_for d (send_buf s)));
    [|intros s H; exact H|].
  - raw_step rx (typed AODV_RREP); [raw_store|].
    do 2 (raw_step rx (typed AODV_RREP); [raw_store|]).
    raw_step rx (rrep_for d).
    { apply hold_raw. intros b b' Ht Hb Hs. split_and!.
      - by eapply bytes_ok_store_bytes. - by eapply store32_length.
      - split; [unfold typed in *; load_simp; done|].
        rewrite (load32_store32_eq _ _ _ _ Hs). by rewrite members_u32. }
    do 3 (raw_step rx (rrep_for d); [raw_store|]). raw_store.
  - intros ? s [([] & _ & Hx) [Ht Hl]]. split_and!; [done| |done]. intros _.
    by eapply frame_ok_rrep.
Qed.

Lemma hold_rreq_create rx fl d n o :
  o ∈ members →
  hold (okw false rx) (rreq_create fl d n o) (λ _ s, okw false rx s ∧ sendable 24 (send_buf s)).
Proof.
  intros Ho. unfold rreq_create.
  eapply hold_bind; [apply hold_new_msg|intros ?; cbv beta].
  eapply (hold_conseq _ _ _ (λ _ s, okw false rx s ∧ rreq_from o (send_buf s)));
    [|intros s H; exact H|].
  - do 3 (raw_step rx (typed AODV_RREQ); [raw_store|]).
    hskip_buf as hi.
    raw_step rx (typed AODV_RREQ); [raw_store|].
    hskip_buf.
    do 2 (raw_step rx (typed AODV_RREQ); [raw_store|]).
    raw_step rx (rreq_from o).
    { apply hold_raw. intros b b' Ht Hb Hs. split_and!.
      - by eapply bytes_ok_store_bytes. - by eapply store32_length.
      - split; [unfold typed in *; load_simp; done|].
        rewrite (load32_store32_eq _ _ _ _ Hs). by rewrite members_u32. }
    hskip_buf.
    hskip_buf.
    raw_step rx (rreq_from o); [raw_store|]. raw_store.
  - intros ? s [Hk [Ht Hl]]. split; [done|]. destruct Hk as ([] & _). by eapply frame_ok_rreq.
Qed.

Lemma hold_rreq_send rx d n ttl fl : keeps false rx (rreq_send d n ttl fl).
Proof.
  unfold rreq_send. do 2 hskip.
  apply (hold_foreach (λ _, okw false rx)). intros i _ _. apply hold_gets. intros s Hk.
  eapply hold_bind; [apply hold_rreq_create; apply Hk|intros ?; cbv beta].
  eapply hold_conseq; [apply (hold_socket_send false rx)|intros s1 H; exact H|by intros ? ? [? _]].
Qed.

(** The message in the receive buffer is passed on. *)
Lemma hold_queue_msg r t n size :
  n = Z.to_nat size →
  hold (okw r (Some (t, n))) (aodv_socket_queue_msg size)
    (λ _ s, okw false (Some (t, n)) s ∧ sendable n (send_buf s)).
Proof.
  intros Hn s a s' (Hw & Hy & Ht & Hf). unfold aodv_socket_queue_msg.
  destruct ((size <? 0) || (SEND_BUF_SIZE <? size)) eqn:E; [done|]. rewrite <- Hn.
  intros [= _ <-]. apply orb_false_iff in E as [E1%Z.ltb_ge E2%Z.ltb_ge].
  pose proof (wd_recv_len _ Hw) as Hr. pose proof (wd_send_len _ Hw) as Hs.
  change RECV_BUF_SIZE with 812 in *. change SEND_BUF_SIZE with 812 in *.
  assert (Hlen : length (take n (recv_buf s)) = n) by (rewrite length_take; lia). split.
  - apply okw_buf; [split_and!; done| | |done].
    + apply Forall_app. split; [apply Forall_take, Hw|apply Forall_drop, Hw].
    + rewrite length_app, Hlen, length_drop. lia.
  - unfold sendable. simpl. by rewrite take_app_le, take_take, Nat.min_id by lia.
Qed.

Lemma hold_hop_count rx n v :
  hold (λ s, okw false rx s ∧ sendable n (send_buf s)) (send_store8 3 v)
       (λ _ s, okw false rx s ∧ sendable n (send_buf s)).
Proof.
  apply hold_raw. intros b b' Hb Hk Hs. split_and!.
  - by eapply bytes_ok_store8. - by eapply store8_length.
  - eapply frame_ok_change; [by eapply bytes_ok_store8|by eapply store8_length| |done].
    intros i Hi. eapply load8_store8_ne; [exact Hs|lia].
Qed.

Lemma hold_rreq_forward t size ttl :
  keeps false (Some (t, Z.to_nat size)) (rreq_forward size ttl).
Proof.
  unfold rreq_forward. eapply hold_bind; [by apply hold_queue_msg|intros ?; cbv beta].
  hskip_buf as h.
  eapply hold_bind; [apply hold_hop_count|intros ?; cbv beta].
  eapply hold_conseq; [apply (hold_send_on_all false)|intros s1 H; exact H|by intros ? ? [? _]].
Qed.

Lemma hold_rrep_forward t size rev fwd ttl :
  keeps false (Some (t, Z.to_nat size)) (rrep_forward size rev fwd ttl).
Proof.
  unfold rrep_forward. destruct fwd as [f|]; [|by apply hold_ret].
  destruct rev as [v|]; [|by apply hold_ret].
  eapply hold_bind; [by apply hold_queue_msg|intros ?; cbv beta].
  do 2 hskip_buf.
  eapply hold_bind; [apply hold_hop_count|intros ?; cbv beta].
  hskip_buf.
  eapply hold_bind; [apply hold_socket_send|intros ?; cbv beta].
  eapply hold_conseq; [apply (hold_frames_buf false (Some (t, Z.to_nat size)) (λ _, True)); inert_go| |].
  - by intros s [? _]. - by intros ? ? [? _].
Qed.

(** *** The routing table *)

Lemma keys_insert s i b :
  Forall (λ k, k ∈ members) (rt_keys s) → Forall (λ e, rt_dest_addr e ∈ members) b →
  Forall (λ e, rt_dest_addr e ∈ members) (concat (<[i := b]> (tbl (rt_tbl s)))).
Proof.
  unfold rt_keys. rewrite Forall_fmap, !Forall_concat. intros Hk Hb. by apply Forall_insert.
Qed.

Lemma keys_bucket s i :
  Forall (λ k, k ∈ members) (rt_keys s) → Forall (λ e, rt_dest_addr e ∈ members) (bucket (rt_tbl s) i).
Proof.
  unfold rt_keys, bucket. rewrite Forall_fmap, Forall_concat. intros Hk.
  destruct (_ !! i) eqn:E; [|constructor]. by eapply (Forall_lookup_1 _ _ _ _ Hk).
Qed.

(** A new table whose destinations are members. *)
Lemma okw_table r rx s t :
  okw r rx s → Forall (λ k, k ∈ members) (rt_keys (set_rt_tbl t s)) → okw r rx (set_rt_tbl t s).
Proof. intros ([] & Hy & Hx) Hk. split_and!; [|done|done]. by split. Qed.

Section table.
Context (r : bool) (rx : option (Z * nat)).

Lemma hold_rt_table_insert d n h q l st f i :
  d ∈ members → keeps r rx (rt_table_insert d n h q l st f i).
Proof.
  intros Hd. unfold rt_table_insert. hskip.
  destruct a; [by apply hold_ret|].
  do 2 hskip.
  destruct (_ <=? _); [apply hold_exit|].
  do 3 hskip.
  eapply (hold_bind _ _ _ (λ _, okw r rx)).
  { apply hold_modify. intros s Hk. apply okw_table; [done|]. unfold rt_keys, tbl_add. simpl.
    rewrite Forall_fmap. apply keys_insert; [apply Hk|].
    constructor; [done|]. apply keys_bucket, Hk. }
  intros ?. apply keeps_frames. inert_go.
Qed.

Lemma hold_rt_table_update k n h q l st f : keeps r rx (rt_table_update k n h q l st f).
Proof.
  unfold rt_table_update. do 2 hskip.
  eapply (hold_bind _ _ _ (λ _, okw r rx)); [|intros ?; apply keeps_frames; inert_go].
  apply hold_when. intros _.
  do 2 hskip.
  apply hold_link_break.
Qed.

Lemma hold_rt_table_delete k : keeps r rx (rt_table_delete k).
Proof.
  unfold rt_table_delete. do 2 hskip.
  eapply (hold_bind _ _ _ (λ _, okw r rx)).
  { apply hold_modify. intros s Hk. apply okw_table; [done|]. unfold rt_keys, tbl_detach. simpl.
    rewrite Forall_fmap. apply keys_insert; [apply Hk|]. apply Forall_forall. intros e He.
    apply elem_of_remove_first in He.
    exact (proj1 (Forall_forall _ _) (keys_bucket s _ (wd_keys _ (proj1 Hk))) e He). }
  intros ?. apply keeps_frames. inert_go.
Qed.
End table.

(** *** Hello messages *)

Lemma hold_hello_send rx : keeps false rx hello_send.
Proof.
  unfold hello_send. do 3 hskip.
  destruct (_ && _); [apply keeps_frames; unfold hello_stop; inert_go|].
  eapply hold_bind; [apply keeps_frames; unfold hello_jitter; inert_go|intros j; cbv beta].
  destruct (_ <=? _); [|destruct (_ <? _); apply keeps_frames; inert_go].
  hskip as devs.
  eapply (hold_bind _ _ _ (λ _, okw false rx)); [|intros ?; apply keeps_frames; inert_go].
  eapply hold_conseq; [apply (hold_foreach (λ acc s, okw false rx s ∧ acc.2 = RREP_SIZE))
    |by intros s Hk|by intros ? ? [? _]].
  intros i [x sz] _. unfold hello_send_on. apply hold_pure. simpl. intros ->.
  hskip as h.
  apply hold_gets. intros s1 Hk1. apply hold_gets. intros s2 Hk2. rewrite (wd_unidir _ (proj1 Hk2)).
  eapply hold_bind; [apply hold_rrep_create; apply Hk1|intros ?; cbv beta].
  eapply (hold_bind _ _ _ (λ acc s, okw true rx s ∧ acc.2 = RREP_SIZE)); [by apply hold_ret|].
  intros acc. apply hold_pure. intros Ha. rewrite Ha.
  eapply hold_bind; [eapply hold_pre; [apply (hold_socket_send false rx)|]|].
  - intros s Hk. split; [by eapply okw_weaken|]. by apply Hk.
  - intros ?; cbv beta. apply hold_ret. by intros s [? _].
Qed.

Lemma hold_hello_start rx : keeps false rx hello_start.
Proof.
  unfold hello_start. hskip as u.
  destruct u; [by apply hold_ret|].
  do 3 hskip. apply hold_hello_send.
Qed.

Lemma hold_hello_start_if rx : keeps false rx hello_start_if_optimized.
Proof.
  unfold hello_start_if_optimized. hskip as o.
  apply hold_when. intros _. apply hold_hello_start.
Qed.

(** *** Sending and processing replies *)

Lemma hold_rrep_check_unidir r rx k : keeps r rx (rrep_check_unidir k).
Proof.
  unfold rrep_check_unidir. do 2 hskip.
  destruct (_ || _); [|by apply hold_ret].
  hskip as nb.
  destruct nb as [nb|]; [|by apply hold_ret].
  do 2 hskip.
  apply hold_when. intros _.
  do 2 hskip.
  eapply hold_bind; [apply hold_link_break|intros ?; cbv beta]. apply keeps_frames. inert_go.
Qed.

Lemma hold_rrep_send rx rev fwd :
  hold (okw true rx) (rrep_send rev fwd RREP_SIZE) (λ _, okw false rx).
Proof.
  unfold rrep_send. destruct rev as [k|]; [|apply hold_ret; intros s; apply okw_weaken].
  eapply hold_bind; [apply hold_rrep_check_unidir|intros ?; cbv beta].
  do 2 hskip.
  eapply (hold_bind _ _ _ (λ _, okw false rx)).
  { eapply hold_conseq; [apply (hold_socket_send false rx)| |by intros ? ? [? _]].
    intros s Hk. split; [by eapply okw_weaken|]. by apply Hk. }
  intros ?; cbv beta. eapply hold_bind; [|intros ?; cbv beta; apply hold_hello_start_if].
  destruct fwd as [f|]; [|by apply hold_ret]. apply keeps_frames. inert_go.
Qed.

Lemma hold_rrep_finish t fwd rev h f us len ttl :
  keeps false (Some (t, Z.to_nat len)) (rrep_finish fwd rev h f us len ttl).
Proof.
  unfold rrep_finish. hskip as b1.
  eapply (hold_bind _ _ _ (λ _, okw false (Some (t, Z.to_nat len)))).
  { apply hold_when. intros _. unfold rrep_ack_create.
    eapply hold_bind.
    { eapply hold_bind; [apply hold_new_msg|intros ?; cbv beta]. by apply hold_type8. }
    intros ?; cbv beta. do 2 hskip_buf.
    eapply (hold_bind _ _ _ (λ _, okw false (Some (t, Z.to_nat len)))).
    { eapply hold_conseq; [apply (hold_socket_send false (Some (t, Z.to_nat len)))| |by intros ? ? [? _]].
      intros s [Hk Ht]. split; [done|]. eapply typed_sendable; [exact Hk|exact Ht|done|].
      unfold NEXT_HOP_WAIT, NODE_TRAVERSAL_TIME. lia. }
    intros ?; cbv beta. by apply keeps_recv_store8. }
  intros ?; cbv beta. eapply hold_bind; [|intros ?; cbv beta; apply hold_hello_start_if].
  destruct us.
  - unfold rrep_repair_rerr. hskip as e.
    apply hold_when. intros _. apply hold_rerr_one. apply hold_dest_count; [apply with_type_bytes|].
    intros n Hn. hskip_buf as dev.
    destruct (negb _); [|apply hold_ret; by intros s [? _]].
    by apply hold_rerr_send, calc_size_pos.
  - destruct rev as [k|]; [|by apply hold_ret].
    hskip as v.
    apply hold_when. intros _. apply hold_rrep_forward.
Qed.

(** The addresses in a received message. *)
Lemma rx_rrep_dest r n s v :
  okw r (Some (AODV_RREP, n)) s → load32 (recv_buf s) 4 = Some v → v ∈ members.
Proof.
  intros (_ & _ & Ht & Hf) Hv.
  assert (Hn : (0 < n)%nat) by (destruct n; [by destruct (fr_nonempty _ Hf)|lia]).
  destruct (fr_rrep _ Hf) as [Hl (d & Hd & Hm)]; [by rewrite load8_take by lia|].
  rewrite length_take in Hl. rewrite load32_take in Hd by lia. congruence.
Qed.

Lemma rx_rreq_orig_member r n s v :
  okw r (Some (AODV_RREQ, n)) s → load32 (recv_buf s) 16 = Some v → v ∈ members.
Proof.
  intros (_ & _ & Ht & Hf) Hv.
  assert (Hn : (0 < n)%nat) by (destruct n; [by destruct (fr_nonempty _ Hf)|lia]).
  destruct (fr_rreq _ Hf) as [Hl (d & Hd & Hm)]; [by rewrite load8_take by lia|].
  rewrite length_take in Hl. rewrite load32_take in Hd by lia. congruence.
Qed.

Lemma frames_ext_loop fuel : ∀ size len extlen off, frames wire (ext_loop fuel size len extlen off).
Proof. induction fuel; intros; cbn [ext_loop]; inert_go. Qed.

Lemma frames_hello_neighbors i d l acc : frames wire (hello_neighbors i d l acc).
Proof. unfold hello_neighbors. inert_go. Qed.

Lemma frames_hello_ext_loop fuel : ∀ i len off acc, frames wire (hello_ext_loop fuel i len off acc).
Proof.
  induction fuel; intros; cbn [hello_ext_loop]; inert_go. apply frames_hello_neighbors.
Qed.

Lemma hold_rrep_process len src ttl ifi :
  keeps false (Some (AODV_RREP, Z.to_nat len)) (rrep_process len src ttl ifi).
Proof.
  unfold rrep_process. apply hold_load32. intros d s Hk Hd. pose proof (rx_rrep_dest _ _ _ _ Hk Hd).
  do 4 hskip.
  destruct (_ <? _); [by apply hold_ret|].
  hskip as my.
  destruct (_ =? _); [by apply hold_ret|].
  eapply hold_bind; [apply keeps_frames, frames_ext_loop|intros ?; cbv beta].
  do 2 hskip.
  destruct a4 as [k|].
  - hskip as e.
    destruct (rrep_accepts _ _ _); [|by apply hold_ret].
    eapply hold_bind; [apply hold_rt_table_update|intros ?; cbv beta]. apply hold_rrep_finish.
  - eapply hold_bind; [by apply hold_rt_table_insert|intros k; cbv beta].
    destruct k; [apply hold_rrep_finish|apply hold_undefined].
Qed.

Lemma hold_hello_process len ifi n :
  keeps false (Some (AODV_RREP, n)) (hello_process len ifi).
Proof.
  unfold hello_process. hskip as now.
  apply hold_load32. intros d s Hk Hd. pose proof (rx_rrep_dest _ _ _ _ Hk Hd).
  do 4 hskip.
  eapply hold_bind; [apply keeps_frames, frames_hello_ext_loop|intros acc; cbv beta].
  destruct a1 as [k|].
  - hskip as e.
    destruct (_ && _); [apply keeps_frames; inert_go|].
    destruct (_ && _); [apply keeps_frames; inert_go|].
    eapply hold_bind; [apply hold_rt_table_update|intros ?; cbv beta]. apply keeps_frames. inert_go.
  - eapply hold_bind; [by apply hold_rt_table_insert|intros k; cbv beta].
    destruct k; [|apply hold_undefined]. apply keeps_frames. inert_go.
Qed.

(** *** Processing requests *)

Lemma frames_record_insert o i : frames wire (rreq_record_insert o i).
Proof. unfold rreq_record_insert, rreq_record_find. inert_go. Qed.
Lemma frames_blacklist_insert d : frames wire (rreq_blacklist_insert d).
Proof. unfold rreq_blacklist_insert, rreq_blacklist_find. inert_go. Qed.

Lemma hold_rreq_do_forward t f len ttl n :
  keeps false (Some (t, Z.to_nat len)) (rreq_do_forward f len ttl n).
Proof.
  unfold rreq_do_forward. apply hold_when. intros _.
  eapply (hold_bind _ _ _ (λ _, okw false (Some (t, Z.to_nat len))));
    [|intros ?; apply hold_rreq_forward].
  destruct f as [f|]; [|by apply hold_ret].
  hskip as e.
  apply hold_when. intros _. apply keeps_recv_store32.
Qed.

Lemma hold_reply_as_intermediate rx rev fwd g now :
  keeps false rx (rreq_reply_as_intermediate rev fwd g now).
Proof.
  unfold rreq_reply_as_intermediate. hskip as tm.
  apply hold_deref. intros e s Hk He. pose proof (keeps_frame_ok_live _ _ _ _ _ Hk He).
  hskip as e2.
  eapply hold_bind; [by apply hold_rrep_create|intros ?; cbv beta].
  eapply hold_bind; [apply hold_rrep_send|intros ?; cbv beta].
  apply hold_when. intros _. hskip as e3.
  apply hold_deref. intros e' s' Hk' He'. pose proof (keeps_frame_ok_live _ _ _ _ _ Hk' He').
  eapply hold_bind; [by apply hold_rrep_create|intros ?; cbv beta]. apply hold_rrep_send.
Qed.

Lemma hold_reply_as_dest rx rev n : keeps false rx (rreq_reply_as_dest rev n).
Proof.
  unfold rreq_reply_as_dest.
  do 4 hskip.
  apply hold_gets. intros s Hk.
  eapply hold_bind; [apply hold_rrep_create; apply Hk|intros ?; cbv beta]. apply hold_rrep_send.
Qed.

Lemma hold_reverse_route r rx o src h q i :
  o ∈ members → keeps r rx (rreq_reverse_route o src h q i).
Proof.
  intros Ho. unfold rreq_reverse_route.
  hskip as rev.
  destruct rev as [k|]; [|by apply hold_rt_table_insert].
  hskip as e.
  eapply (hold_bind _ _ _ (λ _, okw r rx)); [|intros ?; by apply hold_ret].
  apply hold_when. intros _. apply hold_rt_table_update.
Qed.

Lemma hold_rreq_process len src ttl ifi :
  keeps false (Some (AODV_RREQ, Z.to_nat len)) (rreq_process len src ttl ifi).
Proof.
  unfold rreq_process. hskip as dest.
  apply hold_load32. intros o s Hk Ho. pose proof (rx_rreq_orig_member _ _ _ _ Hk Ho).
  do 5 hskip.
  destruct (_ =? _); [by apply hold_ret|]. destruct (_ <? _); [by apply hold_ret|].
  eapply hold_bind; [apply keeps_frames; unfold rreq_blacklist_find; inert_go|intros bl; cbv beta].
  destruct (bool_decide _); [by apply hold_ret|].
  eapply hold_bind; [apply keeps_frames; unfold rreq_record_find; inert_go|intros rc; cbv beta].
  destruct (bool_decide _); [by apply hold_ret|].
  eapply hold_bind; [apply keeps_frames, frames_record_insert|intros ?; cbv beta].
  eapply hold_bind; [apply keeps_frames, frames_ext_loop|intros ?; cbv beta].
  eapply hold_bind; [by apply hold_reverse_route|intros rev; cbv beta].
  destruct rev as [k|]; [|apply hold_undefined]. destruct (_ =? _); [apply hold_reply_as_dest|].
  hskip as b1. unfold rreq_intermediate.
  hskip as fwd.
  destruct fwd as [f|]; [|apply hold_rreq_do_forward].
  hskip as e.
  destruct (_ && _); [|apply hold_rreq_do_forward].
  hskip as now.
  destruct (_ && _); [apply hold_reply_as_intermediate|apply hold_rreq_do_forward].
Qed.

Lemma hold_start_seeking rx d q ttl f ms :
  keeps false rx (rreq_send d q ttl f ;; x ← seek_list_insert d q ttl f; set_timeout (SeekTimer x) ms).
Proof.
  eapply hold_bind; [apply hold_rreq_send|intros ?; cbv beta]. apply keeps_frames. inert_go.
Qed.

Lemma hold_route_discovery rx d f : keeps false rx (rreq_route_discovery d f).
Proof.
  unfold rreq_route_discovery.
  do 3 hskip.
  destruct (bool_decide _); [by apply hold_ret|].
  do 2 hskip.
  destruct a3. apply hold_start_seeking.
Qed.

Lemma hold_local_repair rx k src : keeps false rx (rreq_local_repair k src).
Proof.
  unfold rreq_local_repair.
  do 2 hskip.
  destruct (bool_decide _); [by apply hold_ret|]. destruct (negb _); [by apply hold_ret|].
  do 7 hskip.
  apply hold_start_seeking.
Qed.

(** *** Timeouts and packets *)

Lemma hold_neighbor_add r rx src ifi : src ∈ members → keeps r rx (neighbor_add src ifi).
Proof.
  intros Hs. unfold neighbor_add.
  do 3 hskip.
  eapply (hold_bind _ _ _ (λ _, okw r rx)).
  - destruct a1 as [k|].
    + hskip as e.
      destruct (has _ _); [by apply hold_ret|].
      eapply hold_bind; [apply hold_rt_table_update|intros ?; cbv beta]. by apply hold_ret.
    + eapply hold_bind; [by apply hold_rt_table_insert|intros k; cbv beta].
      destruct k; [by apply hold_ret|apply hold_undefined].
  - intros [k|]; [|by apply hold_ret]. apply keeps_frames. inert_go.
Qed.

Lemma hold_local_repair_timeout r rx k : keeps r rx (local_repair_timeout_h k).
Proof.
  unfold local_repair_timeout_h.
  do 4 hskip.
  eapply (hold_bind _ _ _ (λ _, okw r rx)); [|intros ?; apply keeps_frames; inert_go].
  apply hold_when. intros _. apply hold_rerr_one. apply hold_dest_count; [apply with_type_bytes|].
  intros n Hn%calc_size_pos. destruct (_ =? 1); [|by apply hold_rerr_send_all].
  hskip_buf as dev. by apply hold_rerr_send.
Qed.

Lemma hold_discovery_timeout rx d : keeps false rx (route_discovery_timeout_h d).
Proof.
  unfold route_discovery_timeout_h.
  do 3 hskip.
  destruct (_ <? _).
  - destruct (next_ring _ _ _) as [[reqs ttl] wait].
    do 5 hskip. apply hold_rreq_send.
  - eapply hold_bind; [apply keeps_frames; unfold nl_send_no_route_found_msg; inert_go|intros ?; cbv beta].
    do 2 hskip.
    destruct a3 as [k|]; [|by apply hold_ret].
    hskip as f.
    apply hold_when. intros _. apply hold_local_repair_timeout.
Qed.

Lemma hold_run_handler h id : keeps false None (run_handler h id).
Proof.
  unfold run_handler. destruct h; try (destruct id; try apply hold_undefined).
  - unfold route_expire_timeout_h.
    hskip as hc.
    destruct (hc =? 1); [apply hold_link_break|apply keeps_frames; inert_go].
  - apply hold_rt_table_delete.
  - apply hold_local_repair_timeout.
  - unfold rrep_ack_timeout_h.
    hskip as d.
    apply keeps_frames, frames_blacklist_insert.
  - unfold hello_timeout_h. do 3 hskip.
    apply hold_when. intros _. hskip.
    apply hold_link_break.
  - apply hold_discovery_timeout.
  - apply keeps_frames. unfold rreq_record_timeout_h. inert_go.
  - apply keeps_frames. unfold rreq_blacklist_timeout_h. inert_go.
  - apply hold_hello_send.
  - apply keeps_frames. unfold wait_on_reboot_timeout_h. inert_go.
  - apply keeps_frames. unfold packet_queue_timeout_h, packet_queue_garbage_collect. inert_go.
  - apply keeps_frames. unfold print_rt_table_h, print_routes, print_route. inert_go.
Qed.

Lemma hold_run_expired fuel : keeps false None (run_expired fuel).
Proof.
  induction fuel as [|fuel IH]; cbn [run_expired]; [apply hold_undefined|].
  eapply hold_bind; [apply keeps_frames; inert_go|intros [[id [h|]]|]; cbv beta];
    [|exact IH|by apply hold_ret].
  eapply hold_bind; [apply hold_run_handler|intros ?; cbv beta]. exact IH.
Qed.

Lemma hold_timer_age_queue : keeps false None timer_age_queue.
Proof.
  unfold timer_age_queue, timer_timeout.
  do 2 hskip.
  destruct a0; [by apply hold_ret|].
  eapply (hold_bind _ _ _ (λ _, okw false None)); [|intros ?; apply keeps_frames; inert_go].
  do 2 hskip. apply hold_run_expired.
Qed.

Lemma hold_send_rerr r rx d f v i : keeps r rx (send_rerr_for_unknown_dest d f v i).
Proof.
  unfold send_rerr_for_unknown_dest.
  hskip as o.
  eapply (hold_bind _ _ _ (λ _ s, okw r rx s ∧ typed AODV_RERR (send_buf s))).
  { destruct f as [f|]; [|apply hold_rerr_create].
    hskip as e.
    eapply hold_bind; [apply hold_rerr_create|intros ?; cbv beta]. apply hold_frames_buf. inert_go. }
  intros ?; cbv beta. hskip_buf as dst.
  apply hold_dest_count; [apply with_type_bytes|]. intros n Hn%calc_size_pos.
  hskip_buf as dev.
  eapply hold_bind; [by apply hold_rerr_send|intros ?; cbv beta]. apply keeps_frames. inert_go.
Qed.

Lemma hold_nfqueue_cb rx p : keeps false rx (nfqueue_packet_cb p).
Proof.
  unfold nfqueue_packet_cb. destruct (nf_hdr p) as [[id hook]|]; [|by apply hold_ret].
  eapply (hold_bind _ _ _ (λ _, okw false rx)); [|intros v; destruct (_ =? _);
    [by apply hold_ret|apply keeps_frames; inert_go]].
  unfold packet_input_handle_packet. destruct (nf_payload p) as [b|]; [|by apply hold_ret].
  do 2 (destruct (_ <? _); [by apply hold_ret|]).
  hskip as pass.
  destruct pass; [by apply hold_ret|].
  do 3 hskip.
  unfold packet_input_dispatch.
  eapply hold_bind; [apply keeps_frames; inert_go|intros [usable repair]; cbv beta].
  destruct usable; [by apply hold_ret|]. destruct (_ && _).
  - eapply hold_bind; [apply hold_send_rerr|intros ?; cbv beta]. by apply hold_ret.
  - hskip.
    eapply (hold_bind _ _ _ (λ _, okw false rx)); [|intros ?; by apply hold_ret].
    destruct a0 as [f|]; [destruct repair|];
      [apply hold_local_repair|apply hold_route_discovery..].
Qed.

(** *** A received message *)

Lemma hold_process_packet t len src dst ttl ifi :
  src ∈ members → keeps false (Some (t, Z.to_nat len)) (aodv_socket_process_packet len src dst ttl ifi).
Proof.
  intros Hs. unfold aodv_socket_process_packet. apply hold_load8. intros v s (_ & _ & Ht & _) Hv.
  assert (v = t) as -> by congruence. destruct (_ && _) eqn:E.
  { rewrite !andb_true_iff, Z.eqb_eq in E. destruct E as [[-> _] _]. apply hold_hello_process. }
  eapply hold_bind; [by apply hold_neighbor_add|intros ?; cbv beta].
  destruct (Z.eqb_spec t AODV_RREQ) as [->|_]; [apply hold_rreq_process|].
  destruct (Z.eqb_spec t AODV_RREP) as [->|_]; [apply hold_rrep_process|].
  destruct (_ =? AODV_RERR); [apply hold_rerr_process|].
  destruct (_ =? AODV_RREP_ACK); [|by apply hold_ret].
  apply keeps_frames. unfold rrep_ack_process. inert_go.
Qed.

(** What a daemon of the network can be given: packets from its kernel, and the
    messages of the others. *)
Definition member_input (i : input) : Prop :=
  match i with
  | InAodv _ (Some m) => frame_ok (dg_bytes m) ∧ dg_src m ∈ members
  | _ => True
  end.

Lemma frame_ok_prefix p : frame_ok p → frame_ok (take (Z.to_nat RECV_BUF_SIZE) p).
Proof.
  intros Hf. destruct (decide (length p <= Z.to_nat RECV_BUF_SIZE)%nat) as [Hl|Hl].
  { by rewrite take_ge. }
  assert (Hlen : ∀ t, load8 p 0 = Some t → t ≠ AODV_RREQ ∧ t ≠ AODV_RREP).
  { intros t Ht. change RECV_BUF_SIZE with 812 in *. split; intros ->.
    - destruct (fr_rreq _ Hf Ht) as [? _]. lia.
    - destruct (fr_rrep _ Hf Ht) as [? _]. lia. }
  destruct (load8_is_Some p 0) as [t Ht]; [lia|]. destruct (Hlen t Ht).
  eapply frame_ok_other; [apply Hf|done|done|done|]. change RECV_BUF_SIZE with 812. lia.
Qed.

Lemma hold_socket_read fd m :
  member_input (InAodv fd m) → keeps false None (aodv_socket_read fd m).
Proof.
  unfold aodv_socket_read. destruct m as [m|]; [|intros _; by apply hold_ret].
  intros [Hf%frame_ok_prefix Hs]. set (data := take _ _) in *.
  destruct (load8_is_Some data 0) as [t Ht].
  { pose proof (fr_nonempty _ Hf). destruct data; [done|]. simpl. lia. }
  apply (hold_conseq (okw false None) (okw false None) _ (λ _, okw false (Some (t, length data))));
    [|done|by intros ? ? (? & ? & _)].
  eapply (hold_bind _ _ _ (λ _, okw false (Some (t, length data)))).
  - apply hold_modify. intros s ([] & _ & _).
    assert (Hl : (length data <= Z.to_nat RECV_BUF_SIZE)%nat) by (unfold data; rewrite length_take; lia).
    split_and!; [|done|].
    + split; simpl; try done.
      * apply Forall_app. split; [apply Hf|by apply Forall_drop].
      * rewrite length_app, length_drop. lia.
    + assert (E : take (length data) (data ++ drop (length data) (recv_buf s)) = data)
        by by rewrite take_app_le, take_ge by lia.
      split; simpl; [|by rewrite E].
      rewrite <- (load8_take _ (length data)); [by rewrite E|].
      pose proof (fr_nonempty _ Hf). destruct data; [done|simpl; lia].
  - intros ?; cbv beta. destruct (foldl _ _ _) as [ttl dst]. destruct (_ <? _); [by apply hold_ret|].
    hskip as loc.
    destruct loc; [by apply hold_ret|].
    hskip as d.
    destruct d as [d|]; [|apply hold_exit].
    pose proof (hold_process_packet t (Z.of_nat (length data)) (dg_src m) dst ttl (dev_ifindex d) Hs) as H.
    rewrite Nat2Z.id in H. exact H.
Qed.

Lemma hold_run_callback i : member_input i → keeps false None (run_callback i).
Proof.
  intros Hi. destruct i as [fd m|pkts|r]; cbn [run_callback]; [by apply hold_socket_read| |].
  - apply (hold_foreach (λ _, okw false None)). intros. apply hold_nfqueue_cb.
  - intros s a s' Hs R. by rewrite (wp_ok _ _ _ _ _ _ (netlink_callback_spec r s) R).
Qed.
End members.

(** The same steps for the clients of this file. *)
Tactic Notation "hskip" "as" simple_intropattern(p) :=
  eapply hold_bind; [apply keeps_frames; inert_go|intros p; cbv beta].
Tactic Notation "hskip" := hskip as ?.
