(* ===== verification/Steady.v ===== *)
(** * Routes that change while nothing is sent

    Most of what a node does with a message changes its routing table only: it adds a
    neighbour, a way back or a route, and releases packets.  [steady] says what stays the
    same meanwhile; the lemmas [..._run] say what an operation has done when it returns. *)

From S2P Require Import Prelude.
From S2P Require Import Params.
From S2P Require Import Bytes.
From S2P Require Import TimerQueue.
From S2P Require Import State.
From S2P Require Import Frame.
From S2P Require Import Nl.
From S2P Require Import RtTable.
From S2P Require Import Inv.
From S2P Require Import Total.
From S2P Require Import PacketQueue.
From S2P Require Import SeekList.
From S2P Require Import Socket.
From S2P Require Import Rerr.
From S2P Require Import RtUpdate.
From S2P Require Import Rrep.
From S2P Require Import Rreq.
From S2P Require Import Timeouts.
From S2P Require Import PacketInput.
From S2P Require Import Daemon.
From S2P Require Import Progress.
From S2P Require Import Wire.

#[local] Open Scope cm_scope.

(** The messages sent so far, the last one first: interface, destination, TTL and bytes. *)
Definition sends (s : state) : list (nat * Z * Z * list Z) :=
  omap (λ ev, match ev with EvSend dev dst ttl p => Some (dev, dst, ttl, p) | _ => None end) (trace s).

(** What changes only when messages are sent and received. *)
Definition calm (s : state) :=
  (env s, wait_on_reboot s, this_host s, dev_indices s, (num_rreq s, rreq_records s, rreq_blacklist s),
   (send_buf s, recv_buf s, sends s)).

#[export] Instance calm_inert : inert calm.
Proof. by split. Qed.

(** *** One field of all routes *)

Section views.
Context {C : Type} (φ : rt_table_t → C) (dest : C → Z) (dest_φ : ∀ e, dest (φ e) = rt_dest_addr e).

Definition views (s : state) : list (list C) := map (map φ) (tbl (rt_tbl s)).

Lemma views_modify s k f :
  (∀ e, φ (f e) = φ e) → views (set_rt_tbl (tbl_modify (rt_tbl s) k f) s) = views s.
Proof.
  intros Hf. unfold views, tbl_modify, bucket. simpl. apply list_eq. intros i.
  change (map (map φ) ?l) with (map φ <$> l).
  rewrite !list_lookup_fmap. destruct (decide (i = hash_index k)) as [->|Hne].
  - destruct (tbl (rt_tbl s) !! hash_index k) as [b|] eqn:E.
    + rewrite list_lookup_insert_eq by by eapply lookup_lt_Some.
      simpl. f_equal. by apply map_modify_first.
    + rewrite list_insert_ge by by apply lookup_ge_None. by rewrite E.
  - by rewrite list_lookup_insert_ne.
Qed.

Lemma views_lookup s s' k :
  views s' = views s → φ <$> rt_lookup (rt_tbl s') k = φ <$> rt_lookup (rt_tbl s) k.
Proof.
  unfold views, rt_lookup, bucket. intros H. apply (f_equal (λ l, l !! hash_index k)) in H.
  change (map (map φ) ?l) with (map φ <$> l) in H. rewrite !list_lookup_fmap in H.
  assert (Hs : ∀ b b', map φ b = map φ b' →
    φ <$> search (λ e, rt_dest_addr e =? k) b = φ <$> search (λ e, rt_dest_addr e =? k) b').
  { induction b as [|e b IH]; intros [|e' b'] Hb; try done. injection Hb as H1 Hb. simpl.
    rewrite <- (dest_φ e), <- (dest_φ e'), H1. destruct (_ =? k); [|by apply IH].
    simpl. congruence. }
  destruct (tbl (rt_tbl s') !! _) as [b'|], (tbl (rt_tbl s) !! _) as [b|]; try done.
  simpl in *. apply Hs. congruence.
Qed.
End views.

(** The interfaces of the routes. *)
Definition ifaces : state → list (list (Z * Z)) := views ident.

#[export] Instance ifaces_inert : inert ifaces.
Proof. split; try done. apply views_modify. Qed.

(** All routes go over the interface [ifi]. *)
Definition on_if (ifi : Z) (s : state) : Prop :=
  ∀ k e, rt_lookup (rt_tbl s) k = Some e → rt_ifindex e = ifi.

Lemma on_if_ifaces ifi s s' : ifaces s' = ifaces s → on_if ifi s → on_if ifi s'.
Proof.
  intros H Ho k e' He'. apply (views_lookup ident fst ltac:(done) _ _ k) in H. rewrite He' in H.
  destruct (rt_lookup (rt_tbl s) k) as [e|] eqn:He; [|done]. injection H as _ ->. by eapply Ho.
Qed.

(** The link to [d] is marked as unidirectional. *)
Definition mark (e : rt_table_t) : Z * bool := (rt_dest_addr e, has (rt_flags e) RT_UNIDIR).
Definition one_way (s : state) (d : Z) : bool :=
  match rt_lookup (rt_tbl s) d with Some e => has (rt_flags e) RT_UNIDIR | None => false end.

Lemma one_way_marks s s' d : views mark s' = views mark s → one_way s' d = one_way s d.
Proof.
  intros H. apply (views_lookup mark fst ltac:(done) _ _ d) in H. unfold one_way.
  destruct (rt_lookup (rt_tbl s') d), (rt_lookup (rt_tbl s) d); try done. by injection H.
Qed.

(** ** Changes of the routing table *)

(** A new route. *)
Lemma insert_calm s d next hops sq life flags ifi r s' :
  inv s → rt_lookup (rt_tbl s) d = None → 0 <= sq < 4294967296 →
  rt_table_insert d next hops sq life VALID flags ifi s = Ok r s' →
  r = Some d ∧ inv s' ∧ calm s' = calm s ∧
  rt_lookup (rt_tbl s') d = Some (mk_rt d sq ifi next (u8 hops) flags VALID tv_zero 0 d 0 []) ∧
  ∀ j, j ≠ d → rt_lookup (rt_tbl s') j = rt_lookup (rt_tbl s) j.
Proof.
  intros Hi Hd Hsq R. assert (Hn : ¬ rt_live (rt_tbl s) d) by (unfold rt_live; rewrite Hd; by intros []).
  destruct (wp_ok _ _ _ _ _ _ (rt_table_insert_full s d next hops sq life VALID flags ifi Hi Hn Hsq
    (or_intror eq_refl)) R) as ((-> & Hi' & _ & _) & He).
  assert (Hlk : ∀ j, rt_lookup (rt_tbl s') j = rt_lookup (tbl_add (rt_tbl s)
    (mk_rt d sq ifi next (u8 hops) flags VALID tv_zero 0 d 0 [])) j).
  { intros j. unfold entries in He. unfold rt_lookup, bucket. by rewrite He. }
  split_and!; [done|done| | |].
  - assert (Hf : frames calm (rt_table_insert d next hops sq life VALID flags ifi)); [|by eapply Hf].
    unfold rt_table_insert. inert_go.
  - rewrite Hlk, rt_lookup_add by apply Hi. by rewrite decide_True.
  - intros j Hj. rewrite Hlk, rt_lookup_add by apply Hi. by rewrite decide_False.
Qed.

(** [rt_table_update] up to the release of the packets, when no link breaks. *)
Definition renew_flags (next hops flags : Z) (e : rt_table_t) : M Z :=
  if (rt_state e =? INVALID) && (VALID =? VALID) then
    modify (λ s, set_rt_tbl
      (set_num_active (u32 (num_active (rt_tbl s) + 1)) (rt_tbl s)) s) ;;
    let flags := if has (rt_flags e) RT_REPAIR
                 then Z.land flags (Z.lnot RT_REPAIR) else flags in
    nl_send_add_route_msg (rt_dest_addr e) next hops (rt_ifindex e) ;;
    ret flags
  else
    when (negb (rt_next_hop e =? 0) && negb (rt_next_hop e =? next))
      (nl_send_add_route_msg (rt_dest_addr e) next hops (rt_ifindex e)) ;;
    ret flags.

Definition renew (k next hops seqno lifetime flags : Z) (e : rt_table_t) : M () :=
  flags ← renew_flags next (u8 hops) flags e;
  rt_modify k (λ e, set_rt_hcnt (u8 hops) (set_rt_next_hop next
                      (set_rt_dest_seqno seqno (set_rt_flags flags e)))) ;;
  set_handler (RtTimer k) route_expire_timeout ;;
  e ← rt_deref k;
  when (negb (has (rt_flags e) RT_INET_DEST)) (rt_table_update_timeout k lifetime) ;;
  rt_modify k (set_rt_state VALID).

Lemma update_renew s k next hops sq life flags e :
  rt_lookup (rt_tbl s) k = Some e → u8 hops <= 1 ∨ rt_hcnt e ≠ 1 →
  rt_table_update k next hops sq life VALID flags s
  = (renew k next hops sq life flags e ;; release_packets k) s.
Proof.
  intros He Hb. unfold rt_table_update, renew.
  erewrite bind_ok by (unfold rt_deref; by rewrite He).
  replace ((1 <? u8 hops) && (rt_hcnt e =? 1)) with false by lia. cbn [when].
  lazymatch goal with |- bind ?m _ _ = _ => change m with (renew_flags next (u8 hops) flags e) end.
  unfold bind, ret.
  destruct (renew_flags next (u8 hops) flags e s) as [fl s1| |]; [|done|done].
  destruct (rt_modify _ _ _) as [? s2| |]; [|done|done].
  destruct (set_handler _ _ _) as [? s3| |]; [|done|done].
  destruct (rt_deref _ _) as [e' s4| |]; [|done|done].
  by destruct (when _ _ _) as [? s5| |].
Qed.

(** Only the repair flag may go. *)
Lemma renew_flags_unidir s next hops flags e :
  wp buf_ub (renew_flags next hops flags e) (λ fl _, has fl RT_UNIDIR = has flags RT_UNIDIR) s.
Proof.
  assert (Hm : has (Z.land flags (Z.lnot RT_REPAIR)) RT_UNIDIR = has flags RT_UNIDIR)
    by (unfold has; by rewrite <- Z.land_assoc).
  unfold renew_flags. destruct (_ && _).
  - change (has (if has (rt_flags e) RT_REPAIR then Z.land flags (Z.lnot RT_REPAIR) else flags) RT_UNIDIR
      = has flags RT_UNIDIR). by destruct (has (rt_flags e) RT_REPAIR).
  - by destruct (_ && _).
Qed.

(** The entry after an update. *)
Definition renewed (next hops sq flags : Z) (e : rt_table_t) : rt_table_t :=
  set_rt_state VALID (set_rt_hcnt (u8 hops) (set_rt_next_hop next
    (set_rt_dest_seqno sq (set_rt_flags flags e)))).

Lemma renew_spec s k next hops sq life flags e :
  inv s → rt_lookup (rt_tbl s) k = Some e → 0 <= sq < 4294967296 →
  wp buf_ub (renew k next hops sq life flags e) (λ _ s',
    inv s' ∧ (∃ fl, has fl RT_UNIDIR = has flags RT_UNIDIR ∧
                    rt_lookup (rt_tbl s') k = Some (renewed next hops sq fl e)) ∧
    ∀ j, j ≠ k → rt_lookup (rt_tbl s') j = rt_lookup (rt_tbl s) j) s.
Proof.
  intros Hi He Hsq. unfold renew.
  apply wp_bind. eapply wp_mono; [apply wp_and; [apply renew_flags_unidir|]|].
  { unfold renew_flags. apply (eff_entries k e); [safe_go|frame_go|done|done]. }
  intros fl s1 (Hfl & Hi1 & Ho1). rewrite <- Ho1 in He. apply wp_bind.
  set (f := λ e, set_rt_hcnt (u8 hops) (set_rt_next_hop next
              (set_rt_dest_seqno sq (set_rt_flags fl e)))).
  eapply wp_mono; [apply (eff_modify k e f); [done|entry|done|done]|].
  intros _ s3 (Hi3 & _ & He3 & Ho3). apply wp_bind.
  eapply wp_mono; [apply (eff_entries k (f e)); [safe_go|frame_go|done|done]|].
  intros _ s4 (Hi4 & Ho4). rewrite <- Ho4 in He3.
  eapply wp_run; [unfold rt_deref; by rewrite He3|]. apply wp_bind.
  eapply wp_mono; [apply (eff_entries k (f e)); [safe_go|frame_go|done|done]|].
  intros _ s5 (Hi5 & Ho5). rewrite <- Ho5 in He3.
  eapply wp_mono; [apply (eff_modify k (f e) (set_rt_state VALID)); [done|entry|done|done]|].
  intros _ s6 (Hi6 & _ & He6 & Ho6). split_and!; [done|by exists fl|].
  intros j Hj. by rewrite Ho6, Ho5, Ho4, Ho3, Ho1 by done.
Qed.

Section renew_inert.
Context {C : Type} (g : state → C) `{!inert g}.
Lemma inert_renew k next hops sq life flags e : frames g (renew k next hops sq life flags e).
Proof. unfold renew, renew_flags. inert_go. Qed.
End renew_inert.

(** An update: the entry is renewed, then the packets are released. *)
Lemma update_split s k next hops sq life flags e u s' :
  inv s → rt_lookup (rt_tbl s) k = Some e → 0 <= sq < 4294967296 →
  u8 hops <= 1 ∨ rt_hcnt e ≠ 1 →
  rt_table_update k next hops sq life VALID flags s = Ok u s' →
  ∃ sx fl, renew k next hops sq life flags e s = Ok () sx ∧ release_packets k sx = Ok u s' ∧
    inv sx ∧ has fl RT_UNIDIR = has flags RT_UNIDIR ∧
    rt_lookup (rt_tbl sx) k = Some (renewed next hops sq fl e) ∧
    ∀ j, j ≠ k → rt_lookup (rt_tbl sx) j = rt_lookup (rt_tbl s) j.
Proof.
  intros Hi He Hsq Hb R. rewrite (update_renew _ _ _ _ _ _ _ _ He Hb) in R.
  apply bind_inv in R as ([] & sx & R1 & R2).
  destruct (wp_ok _ _ _ _ _ _ (renew_spec s k next hops sq life flags e Hi He Hsq) R1)
    as (? & (fl & ? & ?) & ?).
  by exists sx, fl.
Qed.

(** Releasing packets touches neither the routes nor what is sent. *)
Lemma release_calm s k u s' :
  inv s → rt_live (rt_tbl s) k → release_packets k s = Ok u s' →
  inv s' ∧ calm s' = calm s ∧ ifaces s' = ifaces s ∧
  ∀ j, rt_lookup (rt_tbl s') j = rt_lookup (rt_tbl s) j.
Proof.
  intros Hi Hk R. split_and!.
  - by eapply (wp_ok _ _ _ _ _ _ (safe_release_packets [k] k ltac:(elem) s Hi ltac:(by apply Forall_singleton))) in R as (? & _).
  - by eapply (inert_release calm).
  - by eapply (inert_release ifaces).
  - intros j. by eapply rt_lookup_entries, frames_release_packets.
Qed.

(** The state changes only in the routing table, the timers and what the kernel is asked. *)
Definition steady (ifi : Z) (s s' : state) : Prop :=
  inv s' ∧ calm s' = calm s ∧ (on_if ifi s → on_if ifi s') ∧ (∀ d, one_way s' d = one_way s d).

Lemma steady_trans ifi s1 s2 s3 : steady ifi s1 s2 → steady ifi s2 s3 → steady ifi s1 s3.
Proof.
  intros (_ & H1 & H2 & H3) (? & H4 & H5 & H6). split_and!; [done|congruence|auto|].
  intros d. by rewrite H6.
Qed.

(** An operation that keeps all routes. *)
Lemma steady_inert {A} ifi ks (m : M A) s a s' :
  inv s → live_all s ks → safe Full ks m nop → frames calm m → frames ifaces m →
  frames (views mark) m → m s = Ok a s' → steady ifi s s'.
Proof.
  intros Hi Hl Hs Hc Hf Hv R. split_and!;
    [|by eapply Hc|apply on_if_ifaces; by eapply Hf|intros d; by eapply one_way_marks, Hv].
  by destruct (wp_ok _ _ _ _ _ _ (Hs s Hi Hl) R) as (? & _).
Qed.

Lemma on_if_insert ifi s s' d e :
  rt_lookup (rt_tbl s') d = Some e → rt_ifindex e = ifi →
  (∀ j, j ≠ d → rt_lookup (rt_tbl s') j = rt_lookup (rt_tbl s) j) → on_if ifi s → on_if ifi s'.
Proof.
  intros Hd He Ho Hs k e' Hk. destruct (decide (k = d)) as [->|Hne]; [congruence|].
  rewrite Ho in Hk by done. by eapply Hs.
Qed.

(** Peels one operation off a run. *)
Tactic Notation "peel" hyp(H) "as" simple_intropattern(a) ident(s1) ident(H1) :=
  apply bind_inv in H as (a & s1 & H1 & H).
Tactic Notation "peel_read" hyp(H) :=
  let a := fresh "v" in let s1 := fresh "s" in let E := fresh "E" in
  apply bind_inv in H as (a & s1 & E & H); injection E as <- <-.

Lemma find_run s d r s' :
  inv s → rt_table_find d s = Ok r s' → s' = s ∧ r = rt_dest_addr <$> rt_lookup (rt_tbl s) d.
Proof.
  intros Hi [= <- <-]. by rewrite find_entry_lookup by apply Hi.
Qed.

Lemma deref_run s k e s' : rt_deref k s = Ok e s' → s' = s ∧ rt_lookup (rt_tbl s) k = Some e.
Proof. unfold rt_deref. destruct (rt_lookup _ _); [|done]. by intros [= <- <-]. Qed.

Lemma clock_run s now s' : gettimeofday s = Ok now s' → s' = set_clock_reads (S (clock_reads s)) s.
Proof. by intros [= _ <-]. Qed.

Lemma steady_clock ifi s n : inv s → steady ifi s (set_clock_reads n s).
Proof. intros Hi. split_and!; [by destruct Hi|done|done|done]. Qed.

(** The route to [d]: destination, next hop, hop count, sequence number and state. *)
Definition way (s : state) (d : Z) : option (Z * Z * Z * Z * Z) := route_of <$> rt_lookup (rt_tbl s) d.

Lemma way_table s s' d : rt_tbl s' = rt_tbl s → way s' d = way s d.
Proof. unfold way. by intros ->. Qed.

Lemma way_lookup s s' d : rt_lookup (rt_tbl s') d = rt_lookup (rt_tbl s) d → way s' d = way s d.
Proof. unfold way. by intros ->. Qed.

Lemma way_frames {A} (m : M A) s a s' d : frames routes m → m s = Ok a s' → way s' d = way s d.
Proof. intros Hf R. by apply routes_lookup, (Hf _ _ _ R). Qed.

Lemma way_entry s d w : way s d = Some w → ∃ e, rt_lookup (rt_tbl s) d = Some e ∧ w = route_of e.
Proof. unfold way. intros (e & ? & ?)%fmap_Some. by exists e. Qed.

(** The known sequence number for [d]; 0 when there is none. *)
Definition known_seqno (s : state) (d : Z) : Z :=
  match way s d with Some (_, _, _, q, _) => q | None => 0 end.

Lemma known_seqno_entry s d e :
  rt_lookup (rt_tbl s) d = Some e → known_seqno s d = rt_dest_seqno e.
Proof. unfold known_seqno, way. by intros ->. Qed.

Lemma update_run ifi s k next hops sq life e u s' :
  inv s → rt_lookup (rt_tbl s) k = Some e → 0 <= sq < 4294967296 →
  u8 hops <= 1 ∨ rt_hcnt e ≠ 1 →
  rt_table_update k next hops sq life VALID (rt_flags e) s = Ok u s' →
  steady ifi s s' ∧ way s' k = Some (k, next, u8 hops, sq, VALID) ∧
  ∀ j, j ≠ k → way s' j = way s j.
Proof.
  intros Hi He Hsq Hb R.
  destruct (update_split s k next hops sq life _ e u s' Hi He Hsq Hb R)
    as (sx & fl & R1 & R2 & Hix & Hfl & Hex & Hox).
  apply release_calm in R2 as (Hi' & Hc & Hf & Hlk); [|done|by eexists].
  rewrite <- Hlk in Hex.
  split; [split_and!; [done| | |]|split].
  - rewrite Hc. by eapply (inert_renew calm).
  - apply on_if_ifaces. rewrite Hf. by eapply (inert_renew ifaces).
  - intros j. unfold one_way. destruct (decide (j = k)) as [->|Hne]; [|by rewrite Hlk, Hox].
    by rewrite Hex, He.
  - unfold way. rewrite Hex. simpl. by rewrite <- (rt_lookup_dest _ _ _ He).
  - intros j Hj. apply way_lookup. by rewrite Hlk, Hox.
Qed.

Lemma insert_run ifi s d next hops sq life r s' :
  inv s → rt_lookup (rt_tbl s) d = None → 0 <= sq < 4294967296 →
  rt_table_insert d next hops sq life VALID 0 ifi s = Ok r s' →
  r = Some d ∧ steady ifi s s' ∧ way s' d = Some (d, next, u8 hops, sq, VALID) ∧
  ∀ j, j ≠ d → way s' j = way s j.
Proof.
  intros Hi Hd Hsq R.
  destruct (insert_calm s d next hops sq life 0 ifi r s' Hi Hd Hsq R) as (-> & Hi' & Hc & He & Ho).
  split; [done|]. split; [split_and!; [done|done|by eapply on_if_insert|]|split].
  - intros j. unfold one_way. destruct (decide (j = d)) as [->|Hne]; [|by rewrite Ho].
    by rewrite He, Hd.
  - unfold way. by rewrite He.
  - intros j Hj. by apply way_lookup, Ho.
Qed.

Lemma marks_hello_update k now time : frames (views mark) (hello_update_timeout k now time).
Proof.
  unfold hello_update_timeout. apply frames_bind; [frame_go|]. intros _. unfold rt_modify.
  apply frames_bind; [apply frames_rt_deref|]. intros e. apply frames_modify. intros s. by apply views_modify.
Qed.
#[local] Hint Resolve routes_hello_update marks_hello_update : aodv.

(** The sender of a message becomes a neighbour; what was known of its sequence number
    stays. *)
Lemma neighbor_add_run s src ifi s' :
  inv s → neighbor_add src ifi s = Ok () s' →
  steady ifi s s' ∧ (∀ j, j ≠ src → way s' j = way s j) ∧
  known_seqno s' src = known_seqno s src.
Proof.
  intros Hi R. unfold neighbor_add in R. peel R as now s1 H1. apply clock_run in H1.
  assert (Hs1 : steady ifi s s1) by (subst s1; by apply steady_clock).
  assert (Ht1 : ∀ j, way s1 j = way s j) by by subst s1. clear H1. pose proof (proj1 Hs1) as Hi1.
  peel_read R. peel R as rt s2 H2. apply find_run in H2 as [-> ->]; [|done].
  assert (Hend : ∀ s3, steady ifi s1 s3 → rt_live (rt_tbl s3) src →
    (used ← timer_used (HelloTimer src);
     when (negb (llfeedback (opts s1)) && used)
       (hello_update_timeout src now (ALLOWED_HELLO_LOSS * HELLO_INTERVAL))) s3 = Ok () s' →
    steady ifi s s' ∧ ∀ j, way s' j = way s3 j).
  { intros s3 Hs3 Hl R3. split.
    - eapply steady_trans; [done|]. eapply steady_trans; [done|].
      eapply (steady_inert _ [src]); [apply Hs3|by apply Forall_singleton| | | | |exact R3];
        unfold timer_used; [safe_go|inert_go|inert_go|frame_go].
    - intros j. eapply way_frames; [|exact R3]. unfold timer_used. frame_go. }
  destruct (rt_lookup (rt_tbl s1) src) as [e|] eqn:He; simpl in R; peel R as k s2 H2.
  - rewrite (rt_lookup_dest _ _ _ He) in H2. peel H2 as e2 s3 H3.
    apply deref_run in H3 as [-> He2]. assert (e2 = e) as -> by congruence.
    destruct (has _ _).
    { injection H2 as <- <-. injection R as <-. split_and!; [done|by intros|].
      unfold known_seqno. by rewrite Ht1. }
    peel H2 as u s3 H3. injection H2 as <- <-.
    apply (update_run ifi _ _ _ _ _ _ e) in H3 as (Hs3 & Hw & Ho);
      [|done|done|by eapply ok_seqno, rt_lookup_ok; [apply Hi1|]|by left].
    apply Hend in R as [Hs' Hw']; [|done|destruct (way_entry _ _ _ Hw) as (? & ? & _); by eexists].
    split_and!; [done|intros j Hj; by rewrite Hw', Ho|].
    unfold known_seqno. rewrite Hw', Hw, <- Ht1. unfold way. by rewrite He.
  - peel H2 as r s3 H3. apply insert_run in H3 as (-> & Hs3 & Hw & Ho); [|done|done|done].
    injection H2 as <- <-.
    apply Hend in R as [Hs' Hw']; [|done|destruct (way_entry _ _ _ Hw) as (? & ? & _); by eexists].
    split_and!; [done|intros j Hj; by rewrite Hw', Ho|].
    unfold known_seqno. rewrite Hw', Hw, <- Ht1. unfold way. by rewrite He.
Qed.

(** What is known about [d] is older than the sequence number [q]. *)
Definition older (s : state) (d q : Z) : Prop :=
  known_seqno s d = 0 ∨ int32 (known_seqno s d) < int32 q.

(** [d] is not known as a neighbour. *)
Definition far (s : state) (d : Z) : Prop :=
  match way s d with Some (_, _, h, _, _) => h ≠ 1 | None => True end.

(** The way back to the originator of a RREQ. *)
Lemma reverse_route_run s o src h sq ifi r s' :
  inv s → 0 <= sq < 4294967296 → older s o sq → u8 h <= 1 ∨ far s o →
  rreq_reverse_route o src h sq ifi s = Ok r s' →
  r = Some o ∧ steady ifi s s' ∧ way s' o = Some (o, src, u8 h, sq, VALID) ∧
  ∀ j, j ≠ o → way s' j = way s j.
Proof.
  intros Hi Hsq Hold Hfar R. unfold rreq_reverse_route in R.
  peel R as rt s1 H1. apply find_run in H1 as [-> ->]; [|done].
  destruct (rt_lookup (rt_tbl s) o) as [e|] eqn:He; simpl in R; [|by apply insert_run in R].
  rewrite (rt_lookup_dest _ _ _ He) in R. peel R as e1 s1 H1.
  apply deref_run in H1 as [-> He1]. assert (e1 = e) as -> by congruence.
  assert (Ha : rreq_accepts e sq h = true).
  { unfold older in Hold. rewrite (known_seqno_entry _ _ _ He) in Hold. unfold rreq_accepts.
    destruct Hold as [->|Hlt]; [done|]. apply Z.ltb_lt in Hlt. rewrite Hlt. by destruct (_ =? 0). }
  rewrite Ha in R. cbn [when] in R. peel R as u s1 H1. injection R as <- <-. split; [done|].
  eapply update_run; [done|done|done| |exact H1].
  destruct Hfar as [?|Hfar]; [by left|right]. unfold far, way in Hfar. by rewrite He in Hfar.
Qed.
