(* ===== verification/Waiting.v ===== *)
(** * Packets that wait for a route

    The packets that wait at a node for a route to a destination stay where they are until
    the route is added or renewed, and are sent on then. *)

From S2P Require Import Prelude.
From S2P Require Import Params.
From S2P Require Import Bytes.
From S2P Require Import TimerQueue.
From S2P Require Import State.
From S2P Require Import Frame.
From S2P Require Import Nl.
From S2P Require Import RtTable.
From S2P Require Import Inv.
From S2P Require Import Total.
From S2P Require Import PacketQueue.
From S2P Require Import SeekList.
From S2P Require Import Socket.
From S2P Require Import Rerr.
From S2P Require Import RtUpdate.
From S2P Require Import Rrep.
From S2P Require Import Rreq.
From S2P Require Import Timeouts.
From S2P Require Import PacketInput.
From S2P Require Import Daemon.
From S2P Require Import Progress.
From S2P Require Import Wire.
From S2P Require Import Steady.

#[local] Open Scope cm_scope.

(** ** The packets of the originator *)

(** The verdicts given so far. *)
Definition verdicts (s : state) : list (Z * Z) :=
  omap (λ ev, match ev with EvVerdict i v => Some (i, v) | _ => None end) (trace s).

(** Sought destinations, queued packets and verdicts. *)
Definition waitroom (s : state) := (PQ s, seekhead s, nfq_queue s, verdicts s).

Definition sought (s : state) (d : Z) : Prop := d ∈ (sk_dest_addr <$> seekhead s).
#[local] Instance sought_dec s d : Decision (sought s d).
Proof. unfold sought. apply _. Defined.
Definition pending (s : state) (d : Z) : list Z :=
  qp_packet_id <$> filter (λ qp, (qp_dest_addr qp =? d) = true) (pq_head (PQ s)).

(** The packets [ids] wait for a route to [d]. *)
Definition waiting (d : Z) (ids : list Z) (s : state) : Prop :=
  sought s d ∧ pending s d = ids ∧ nfq_queue s = true.

(** The packets [ids] have been sent on, and no other packet to [d] waits. *)
Definition released (d : Z) (ids : list Z) (s : state) : Prop :=
  ¬ sought s d ∧ pending s d = [] ∧ Forall (λ i, (i, NF_ACCEPT) ∈ verdicts s) ids.

Definition settling (d : Z) (ids : list Z) (s : state) : Prop := waiting d ids s ∨ released d ids s.

Lemma settling_frame d ids s s' : waitroom s' = waitroom s → settling d ids s → settling d ids s'.
Proof.
  intros [= H1 H2 H3 H4]. unfold settling, waiting, released, sought, pending.
  by rewrite H1, H2, H3, H4.
Qed.

Lemma verdicts_app l s s' :
  trace s' = l ++ trace s →
  verdicts s' = omap (λ ev, match ev with EvVerdict i v => Some (i, v) | _ => None end) l ++ verdicts s.
Proof. unfold verdicts. intros ->. apply omap_app. Qed.

#[local] Instance nfq_inert : inert nfq_queue.
Proof. by split. Qed.

(** Releasing the packets to [k]. *)
Lemma release_settling d ids s k e u s' :
  inv s → rt_lookup (rt_tbl s) k = Some e → rt_state e = VALID → settling d ids s →
  release_packets k s = Ok u s' →
  settling d ids s' ∧ (k = d → released d ids s').
Proof.
  intros Hi He Hv Hst R. destruct (decide (sought s k)) as [Hk|Hk].
  - destruct (release_packets_run s k e Hi He Hv Hk) as (s1 & R1 & Hs & Hq & Ht).
    rewrite R1 in R. injection R as _ <-.
    assert (Hn : nfq_queue s1 = nfq_queue s) by by eapply (inert_release nfq_queue).
    pose proof (verdicts_app _ _ _ Ht) as Hvs.
    assert (Hmono : ∀ x, x ∈ verdicts s → x ∈ verdicts s1) by (intros x Hx; rewrite Hvs; by apply elem_of_app; right).
    destruct (decide (k = d)) as [->|Hne].
    + assert (Hr : released d ids s1); [|by split; [right|]].
      destruct Hst as [(_ & Hp & Hnf)|[? _]]; [|done]. split_and!.
      * unfold sought. rewrite Hs. tauto.
      * unfold pending. rewrite Hq. replace (filter _ (filter _ _)) with (@nil q_pkt); [done|].
        symmetry. apply elem_of_nil_inv. intros x Hx. rewrite !list_elem_of_filter in Hx.
        destruct Hx as (? & ? & _). congruence.
      * apply Forall_forall. intros i Hi1. rewrite Hvs, Hnf. apply elem_of_app. left.
        rewrite <- Hp in Hi1. apply list_elem_of_fmap in Hi1 as (qp & -> & Hqp).
        apply list_elem_of_omap. exists (EvVerdict (qp_packet_id qp) NF_ACCEPT). split; [|done].
        apply elem_of_reverse. apply list_elem_of_fmap. by exists qp.
    + split; [|done].
      assert (Hpe : pending s1 d = pending s d).
      { unfold pending. rewrite Hq, list_filter_filter_l; [done|].
        intros x Hx%Z.eqb_eq. apply Z.eqb_neq. congruence. }
      assert (Hso : sought s1 d ↔ sought s d) by (unfold sought; rewrite Hs; split; [by intros [_ ?]|by split; [congruence|]]).
      unfold settling, waiting, released. rewrite Hpe, Hso, Hn.
      destruct Hst as [?|(? & ? & ?)]; [by left|right]. split_and!; [done|done|].
      eapply Forall_impl; [done|]. intros i. apply Hmono.
  - assert (s' = s) as ->.
    { unfold release_packets in R. apply bind_inv in R as (e1 & s1 & H1 & R).
      apply deref_run in H1 as [-> He1]. assert (e1 = e) as -> by congruence.
      rewrite Hv, (rt_lookup_dest _ _ _ He), Z.eqb_refl in R.
      apply bind_inv in R as (en & s1 & [= <- <-] & R).
      destruct (seek_lookup (seekhead s) k) as [x|] eqn:E.
      { destruct Hk. apply seek_lookup_elem. by exists x. }
      by injection R. }
    split; [done|]. intros ->. destruct Hst as [[? _]|]; [done|done].
Qed.

(** A run of an operation that keeps the invariant and the waiting packets. *)
Lemma keeps_waitroom {A} ks (m : M A) s a s' :
  inv s → live_all s ks → safe Full ks m nop → frames waitroom m → m s = Ok a s' →
  inv s' ∧ waitroom s' = waitroom s ∧ live_all s' ks.
Proof.
  intros Hi Hl Hs Hf R. destruct (wp_ok _ _ _ _ _ _ (Hs s Hi Hl) R) as (Hi' & Hx & _).
  split_and!; [done|by eapply Hf|by eapply live_all_ext].
Qed.

Lemma waitroom_nl_add d n m i : frames waitroom (nl_send_add_route_msg d n m i).
Proof. unfold nl_send_add_route_msg, nl_kern_route, nl_send. frame_go. Qed.
Lemma waitroom_rt_modify k f : frames waitroom (rt_modify k f).
Proof. unfold rt_modify. frame_go. Qed.
#[export] Hint Resolve waitroom_nl_add waitroom_rt_modify : aodv.
Lemma waitroom_update_timeout k l : frames waitroom (rt_table_update_timeout k l).
Proof. unfold rt_table_update_timeout. frame_go. Qed.
Lemma waitroom_hello_update k now t : frames waitroom (hello_update_timeout k now t).
Proof. unfold hello_update_timeout. frame_go. Qed.
Lemma waitroom_send dst len ttl dev : frames waitroom (aodv_socket_send dst len ttl dev).
Proof. unfold aodv_socket_send, ratelimit_check, sendto. frame_go. Qed.
Lemma waitroom_queue_msg n : frames waitroom (aodv_socket_queue_msg n).
Proof.
  intros s a s'. unfold aodv_socket_queue_msg. destruct (_ || _); [done|]. by intros [= _ <-].
Qed.
Lemma waitroom_precursor_add k a : frames waitroom (precursor_add k a).
Proof. unfold precursor_add. frame_go. Qed.
#[export] Hint Resolve waitroom_update_timeout waitroom_hello_update waitroom_send waitroom_queue_msg
  waitroom_precursor_add : aodv.

(** A new route to [d] releases the packets that wait for it. *)
Lemma insert_settling d ids s k next hops sq life ifi r s' :
  inv s → rt_lookup (rt_tbl s) k = None → 0 <= sq < 4294967296 → settling d ids s →
  rt_table_insert k next hops sq life VALID 0 ifi s = Ok r s' →
  settling d ids s' ∧ (k = d → released d ids s').
Proof.
  intros Hi Hk Hsq Hst R. unfold rt_table_insert in R.
  assert (Hn : ¬ rt_live (rt_tbl s) k) by (unfold rt_live; rewrite Hk; by intros []).
  peel_read R. destruct (existsb _ _) eqn:Hex.
  { destruct Hn. apply existsb_dest_live; [apply Hi|done]. }
  do 2 peel_read R. destruct (_ <=? _) eqn:Hheap; [done|]. apply Z.leb_gt in Hheap.
  destruct (insert_entry s k next hops sq VALID 0 ifi Hi Hn Hsq (or_intror eq_refl) Hheap)
    as (q1 & q2 & q3 & R1 & R2 & R3 & Hi1 & _ & Hl1 & _).
  rewrite (bind_ok _ _ _ _ _ (on_tq_ok _ _ _ _ R1)) in R.
  rewrite (bind_ok _ _ _ _ _ (on_tq_ok _ (set_tq q1 s) _ _ R2)) in R.
  rewrite (bind_ok _ _ _ _ _ (on_tq_ok _ (set_tq q2 (set_tq q1 s)) _ _ R3)) in R.
  peel R as [] s1 H1. injection H1 as H1.
  assert (Hw1 : waitroom s1 = waitroom s) by by rewrite <- H1.
  assert (He1 : ∃ e, rt_lookup (rt_tbl s1) k = Some e ∧ rt_state e = VALID).
  { rewrite <- H1. simpl. eexists. split; [rewrite rt_lookup_add by apply Hi; by rewrite decide_True|done]. }
  lazymatch type of H1 with ?t = _ => assert (Hi1' : inv t) by exact Hi1 end.
  rewrite H1 in Hi1'. clear Hi1 Hl1 H1 R1 R2 R3.
  assert (Hl1 : live_all s1 [k]) by (apply Forall_singleton; destruct He1 as (e & ? & _); by exists e).
  peel_read R. cbn [VALID INVALID Z.eqb Pos.eqb] in R.
  peel R as l s2 H2. assert (He2 : entries s2 = entries s1).
  { eassert (Hf : frames entries _); [|by apply Hf in H2]. frame_go. }
  apply (keeps_waitroom [k]) in H2 as (Hi2 & Hw2 & Hl2); [|done|done|safe_go|frame_go].
  peel R as [] s3 H3. assert (He3 : entries s3 = entries s2).
  { eassert (Hf : frames entries _); [|by apply Hf in H3]. frame_go. }
  apply (keeps_waitroom [k]) in H3 as (Hi3 & Hw3 & Hl3); [|done|done|safe_go|frame_go].
  peel R as [] s4 H4. injection R as _ <-.
  destruct He1 as (e & He & Hv). rewrite <- (rt_lookup_entries s1 s3) in He by congruence.
  eapply release_settling; [exact Hi3|done|done| |done].
  eapply settling_frame; [|done]. congruence.
Qed.

Lemma update_settling d ids s k next hops sq life e u s' :
  inv s → rt_lookup (rt_tbl s) k = Some e → 0 <= sq < 4294967296 →
  u8 hops <= 1 ∨ rt_hcnt e ≠ 1 → settling d ids s →
  rt_table_update k next hops sq life VALID (rt_flags e) s = Ok u s' →
  settling d ids s' ∧ (k = d → released d ids s').
Proof.
  intros Hi He Hsq Hb Hst R.
  destruct (update_split s k next hops sq life _ e u s' Hi He Hsq Hb R)
    as (sx & fl & R1 & R2 & Hix & _ & Hex & _).
  eapply release_settling; [exact Hix|exact Hex|done| |exact R2].
  eapply settling_frame; [|exact Hst].
  assert (Hf : frames waitroom (renew k next hops sq life (rt_flags e) e)); [|by eapply Hf].
  unfold renew, renew_flags. frame_go.
Qed.

Lemma neighbor_settling d ids s src ifi u s' :
  inv s → settling d ids s → neighbor_add src ifi s = Ok u s' → settling d ids s'.
Proof.
  intros Hi Hst R. unfold neighbor_add in R. peel R as now s1 H1. apply clock_run in H1.
  assert (Hi1 : inv s1) by (subst s1; by destruct Hi).
  assert (Hst1 : settling d ids s1) by by subst s1. clear H1.
  peel_read R. peel R as rt s2 H2. apply find_run in H2 as [-> ->]; [|done].
  peel R as k s2 H2. assert (Hst2 : settling d ids s2).
  { destruct (rt_lookup (rt_tbl s1) src) as [e|] eqn:He; simpl in H2.
    - rewrite (rt_lookup_dest _ _ _ He) in H2. peel H2 as e2 s3 H3.
      apply deref_run in H3 as [-> He2]. assert (e2 = e) as -> by congruence.
      destruct (has _ _); [by injection H2 as _ <-|]. peel H2 as u1 s3 H3. injection H2 as _ <-.
      eapply update_settling in H3 as [? _]; [done|done|done| |by left|done].
      by eapply ok_seqno, rt_lookup_ok; [apply Hi1|].
    - peel H2 as r s3 H3. eapply insert_settling in H3 as [? _]; [|done|done|done|done].
      destruct r; [by injection H2 as _ <-|done]. }
  eapply settling_frame; [|exact Hst2].
  destruct k as [k|]; [|by injection R as _ <-].
  eassert (Hf : frames waitroom _); [|by apply Hf in R]. unfold timer_used. frame_go.
Qed.
