(* ===== verification/Hop.v ===== *)
(** * One hop of a route discovery

    What a node does with a RREQ or RREP it receives, down to the message it sends on:
    it relays a RREQ it has not seen and remembers the way back, it answers a RREQ for
    itself or for a destination it has a fresh route to, and it passes a RREP on along the
    way back. *)

From S2P Require Import Prelude.
From S2P Require Import Params.
From S2P Require Import Bytes.
From S2P Require Import TimerQueue.
From S2P Require Import State.
From S2P Require Import Frame.
From S2P Require Import Nl.
From S2P Require Import RtTable.
From S2P Require Import Inv.
From S2P Require Import Total.
From S2P Require Import PacketQueue.
From S2P Require Import SeekList.
From S2P Require Import Socket.
From S2P Require Import Rerr.
From S2P Require Import RtUpdate.
From S2P Require Import Rrep.
From S2P Require Import Rreq.
From S2P Require Import Timeouts.
From S2P Require Import PacketInput.
From S2P Require Import Daemon.
From S2P Require Import Progress.
From S2P Require Import Wire.
From S2P Require Import Steady.
From S2P Require Import Waiting.

#[local] Open Scope cm_scope.

(** ** Sending *)

(** The socket calls of the node succeed, and it is not waiting after a reboot. *)
Definition sending (s : state) : Prop := (∀ i, env_sys_ok (env s) i = true) ∧ wait_on_reboot s = false.

Lemma sys_call_run s ok s' :
  (∀ i, env_sys_ok (env s) i = true) → sys_call s = Ok ok s' →
  ok = true ∧ s' = set_sys_calls (S (sys_calls s)) s.
Proof. intros Hsys [= <- <-]. by rewrite Hsys. Qed.

(** Few messages of the kind have been sent. *)
Definition under_limit (type : Z) (s : state) : Prop :=
  type ≠ AODV_RERR ∧ (type = AODV_RREQ → ratelimit (opts s) = false ∨ num_rreq s < 9).

Lemma ratelimit_run s type pass s' :
  under_limit type s → ratelimit_check type s = Ok pass s' →
  pass = true ∧ (env s', send_buf s', sends s') = (env s, send_buf s, sends s).
Proof.
  intros [Hne Hrate] R. split.
  2:{ assert (Hf : frames (λ s, (env s, send_buf s, sends s)) (ratelimit_check type)); [|by apply Hf in R].
      unfold ratelimit_check. frame_go. }
  unfold ratelimit_check in R. peel_read R.
  destruct (ratelimit (opts s)) eqn:Er; [|by injection R].
  peel R as now s1 H1. apply clock_run in H1 as ->. destruct (type =? AODV_RREQ) eqn:Et.
  - apply Z.eqb_eq in Et. destruct (Hrate Et) as [?|Hn]; [congruence|]. do 2 peel_read R.
    unfold rate_limit, RREQ_RATELIMIT in R. cbn in R. rewrite (proj2 (Z.eqb_neq _ _)) in R by lia.
    by injection R.
  - rewrite (proj2 (Z.eqb_neq _ _) Hne) in R. by injection R.
Qed.

(** A message that passes the rate limiter is sent. *)
Lemma send_passed s dst len ttl dev type u s' :
  sending s → load8 (send_buf s) 0 = Some type → aodv_socket_send dst len ttl dev s = Ok u s' →
  ∃ pass s1, ratelimit_check type (set_sys_calls (S (sys_calls s)) s) = Ok pass s1 ∧
    (pass = true → (env s1, send_buf s1, sends s1) = (env s, send_buf s, sends s) →
     sends s' = (dev, dst, u8 ttl, take (Z.to_nat len) (send_buf s)) :: sends s ∧ num_rerr s' = num_rerr s1).
Proof.
  intros [Hsys Hw] Ht R. unfold aodv_socket_send in R.
  peel R as t s1 H1. unfold send_load8 in H1. rewrite Ht in H1. injection H1 as <- <-.
  peel_read R. rewrite Hw in R. cbn [andb] in R.
  peel R as ok s1 H1. apply sys_call_run in H1 as [-> ->]; [|done]. cbn [negb] in R.
  peel R as pass s1 H1. exists pass, s1. split; [done|]. intros -> E1. cbn [negb] in R.
  assert (Hto : ∀ s2 u, (env s2, send_buf s2, sends s2, num_rerr s2) = (env s, send_buf s, sends s, num_rerr s1) →
    sendto dev dst len (u8 ttl) s2 = Ok u s' →
    sends s' = (dev, dst, u8 ttl, take (Z.to_nat len) (send_buf s)) :: sends s ∧ num_rerr s' = num_rerr s1).
  { intros s2 u2 [= He2 Hb2 Hs2 Hn2] R2. unfold sendto in R2. peel_read R2. destruct (_ || _); [done|].
    peel R2 as ok s3 H3. apply sys_call_run in H3 as [-> ->]; [|by rewrite He2].
    injection R2 as _ <-. split; [|done]. unfold sends at 1. cbn [trace set_trace omap].
    by rewrite <- Hs2, <- Hb2. }
  injection E1 as E1 E2 E3. destruct (dst =? AODV_BROADCAST).
  - peel R as now s2 H2. apply clock_run in H2 as ->. peel R as u1 s2 H2. injection H2 as _ <-.
    refine (Hto _ _ _ R). by rewrite <- E1, <- E2, <- E3.
  - refine (Hto _ _ _ R). by rewrite <- E1, <- E2, <- E3.
Qed.

(** The message in the send buffer is sent. *)
Lemma send_run s dst len ttl dev type u s' :
  sending s → load8 (send_buf s) 0 = Some type → under_limit type s →
  aodv_socket_send dst len ttl dev s = Ok u s' →
  sends s' = (dev, dst, u8 ttl, take (Z.to_nat len) (send_buf s)) :: sends s.
Proof.
  intros Hse Ht Hrate R. destruct (send_passed _ _ _ _ _ _ _ _ Hse Ht R) as (pass & s1 & H1 & Hs).
  apply ratelimit_run in H1 as [Hp E1]; [|done]. by apply Hs.
Qed.

(** ** Messages *)

(** The buffer [b] begins with a RREQ without flags. *)
Record rreq_in (b : list Z) (h id d dsq o osq : Z) : Prop := {
  ri_type : load8 b 0 = Some AODV_RREQ;
  ri_flags : load8 b 1 = Some 0;
  ri_hcnt : load8 b 3 = Some h;
  ri_id : ntohl <$> load32 b 4 = Some id;
  ri_dest : load32 b 8 = Some d;
  ri_dseq : ntohl <$> load32 b 12 = Some dsq;
  ri_orig : load32 b 16 = Some o;
  ri_oseq : ntohl <$> load32 b 20 = Some osq
}.

(** The buffer [b] begins with a RREP without flags. *)
Record rrep_in (b : list Z) (h d sq o : Z) : Prop := {
  rp_type : load8 b 0 = Some AODV_RREP;
  rp_flags : load8 b 1 = Some 0;
  rp_hcnt : load8 b 3 = Some h;
  rp_dest : load32 b 4 = Some d;
  rp_seq : ntohl <$> load32 b 8 = Some sq;
  rp_orig : load32 b 12 = Some o
}.

Definition agree (n : nat) (b b' : list Z) : Prop := ∀ i, 0 <= i < Z.of_nat n → load8 b' i = load8 b i.

Lemma agree32 n b b' i : agree n b b' → 0 <= i → i + 4 <= Z.of_nat n → load32 b' i = load32 b i.
Proof. intros H H0 Hn. apply load32_ext. intros j Hj. apply H. lia. Qed.

Lemma rreq_in_agree b b' h id d dsq o osq :
  agree 24 b b' → rreq_in b h id d dsq o osq → rreq_in b' h id d dsq o osq.
Proof.
  intros H []. split; by rewrite ?(agree32 24 b b'), ?H by (done || lia).
Qed.

Lemma rrep_in_agree b b' h d sq o : agree 20 b b' → rrep_in b h d sq o → rrep_in b' h d sq o.
Proof. intros H []. split; by rewrite ?(agree32 20 b b'), ?H by (done || lia). Qed.

Lemma agree_take n b : agree n b (take n b).
Proof. intros i Hi. by apply load8_take. Qed.

Lemma agree_app p r : agree (length p) p (p ++ r).
Proof.
  intros i Hi. unfold load8. destruct (i <? 0); [done|]. apply lookup_app_l. lia.
Qed.

Lemma agree_sym n b b' : agree n b b' → agree n b' b.
Proof. intros H i Hi. by rewrite H. Qed.
Lemma agree_trans n b1 b2 b3 : agree n b1 b2 → agree n b2 b3 → agree n b1 b3.
Proof. intros H1 H2 i Hi. by rewrite H2, H1. Qed.

(** A message on the air. *)
Definition rreq_msg (p : list Z) (h id d dsq o osq : Z) : Prop :=
  length p = 24%nat ∧ bytes_ok p ∧ rreq_in p h id d dsq o osq.
Definition rrep_msg (p : list Z) (h d sq o : Z) : Prop :=
  length p = 20%nat ∧ bytes_ok p ∧ rrep_in p h d sq o.

(** A message in the receive buffer goes to the send buffer. *)
Lemma queue_msg_run s n u s' :
  inv s → 0 <= n <= RECV_BUF_SIZE → aodv_socket_queue_msg n s = Ok u s' →
  s' = set_send_buf (send_buf s') s ∧ length (send_buf s') = Z.to_nat SEND_BUF_SIZE ∧
  agree (Z.to_nat n) (recv_buf s) (send_buf s') ∧ bytes_ok (take (Z.to_nat n) (send_buf s')).
Proof.
  intros Hi Hn R. unfold aodv_socket_queue_msg in R. destruct (_ || _) eqn:E; [done|].
  injection R as _ <-. split; [reflexivity|]. cbn [send_buf set_send_buf]. pose proof (inv_recv _ Hi) as Hl. pose proof (inv_send _ Hi) as Hs.
  assert (Hlt : length (take (Z.to_nat n) (recv_buf s)) = Z.to_nat n) by (rewrite length_take; lia).
  split_and!; [rewrite length_app, length_drop; lia| |].
  - eapply agree_trans; [apply agree_take|]. pose proof (agree_app (take (Z.to_nat n) (recv_buf s))
      (drop (Z.to_nat n) (send_buf s))) as H. by rewrite Hlt in H.
  - rewrite take_app_le, take_ge by lia. by apply Forall_take, Hi.
Qed.

(** A byte of the message is overwritten. *)
Lemma store_msg_run s i v n u s' :
  length (send_buf s) = Z.to_nat SEND_BUF_SIZE → bytes_ok (take n (send_buf s)) →
  send_store8 i v s = Ok u s' →
  ∃ b, s' = set_send_buf b s ∧ store8 (send_buf s) i v = Some b ∧
    length b = Z.to_nat SEND_BUF_SIZE ∧ bytes_ok (take n b).
Proof.
  intros Hl Hb R. unfold send_store8, send_store in R.
  destruct (store8 (send_buf s) i v) as [b|] eqn:E; [|done]. injection R as <-.
  exists b. split_and!; [done|done|by rewrite (store8_length _ _ _ _ E)|].
  unfold store8 in E. destruct (_ && _); [|done]. injection E as <-.
  destruct (decide (Z.to_nat i < n)%nat).
  - rewrite take_insert_lt by done. apply Forall_insert; [done|apply u8_range].
  - by rewrite take_insert_ge by lia.
Qed.

(** A RREQ is relayed, with one hop more. *)
Lemma rreq_forward_run s h id d dsq o osq ttl u s' :
  inv s → sending s → under_limit AODV_RREQ s → enabled_devs s = [0%nat] →
  rreq_in (recv_buf s) h id d dsq o osq → 0 <= h < 255 → 0 <= ttl < 256 →
  rreq_forward 24 ttl s = Ok u s' →
  ∃ p, sends s' = (0%nat, AODV_BROADCAST, ttl, p) :: sends s ∧ rreq_msg p (h + 1) id d dsq o osq.
Proof.
  intros Hi Hse Hun Hdev Hin Hh Httl R. unfold rreq_forward in R.
  peel R as u1 s1 H1. apply queue_msg_run in H1 as (E1 & Hl1 & Ha1 & Hb1); [|done|done].
  assert (Hin1 : rreq_in (send_buf s1) h id d dsq o osq) by by eapply rreq_in_agree.
  peel R as h1 s2 H2. unfold send_load8 in H2. rewrite (ri_hcnt _ _ _ _ _ _ _ Hin1) in H2.
  injection H2 as <- <-. peel R as u2 s2 H2.
  apply (store_msg_run _ _ _ 24) in H2 as (b & -> & S & Hl & Hb); [|done|done].
  unfold send_on_all in R. peel_read R.
  replace (enabled_devs _) with [0%nat] in R by (rewrite E1; by rewrite <- Hdev).
  cbn [foreach] in R. peel R as u3 s3 H3. injection R as _ <-.
  assert (Hin2 : rreq_in b (h + 1) id d dsq o osq).
  { destruct Hin1. split; load_simp; try done. by rewrite u8_small by lia. }
  exists (take 24 b). split.
  - rewrite E1 in H3. eapply (send_run _ _ _ _ _ AODV_RREQ) in H3; [|done|by apply Hin2|done].
    rewrite H3. by rewrite (u8_small ttl) by lia.
  - split_and!; [by rewrite length_take, Hl|done|].
    by eapply rreq_in_agree; [apply agree_take|].
Qed.

(** The relayed RREQ asks for the newest sequence number that is known. *)
Lemma rreq_do_forward_run s fwd h id d dsq o osq ttl u s' :
  inv s → sending s → under_limit AODV_RREQ s → enabled_devs s = [0%nat] →
  rreq_in (recv_buf s) h id d dsq o osq → 0 <= h < 255 → 1 < ttl < 256 → fwd = None ∨ fwd = Some d →
  rreq_do_forward fwd 24 ttl dsq s = Ok u s' →
  ∃ p dsq', sends s' = (0%nat, AODV_BROADCAST, ttl - 1, p) :: sends s ∧
    rreq_msg p (h + 1) id d dsq' o osq ∧ (dsq' = dsq ∨ dsq' = known_seqno s d).
Proof.
  intros Hi Hse Hun Hdev Hin Hh Httl Hfwd R. unfold rreq_do_forward in R.
  rewrite (proj2 (Z.ltb_lt _ _)) in R by lia. cbn [when] in R. peel R as u1 s1 H1.
  assert (Hsame : s1 = s → ∃ p dsq', sends s' = (0%nat, AODV_BROADCAST, ttl - 1, p) :: sends s ∧
    rreq_msg p (h + 1) id d dsq' o osq ∧ (dsq' = dsq ∨ dsq' = known_seqno s d)).
  { intros ->. eapply rreq_forward_run in R as (p & Hs & Hp); [|done..|lia].
    exists p, dsq. by split_and!; [| |left]. }
  destruct Hfwd as [->| ->]; [injection H1 as _ <-; auto|].
  peel H1 as f s2 H2. apply deref_run in H2 as [-> Hf].
  destruct (negb _ && _); [|injection H1 as _ <-; auto]. clear Hsame. cbn [when] in H1.
  pose proof (safe_recv_store32 Full [] 12 (htonl (rt_dest_seqno f)) s Hi ltac:(constructor)) as Hw.
  apply (wp_ok _ _ _ _ _ _ Hw) in H1 as H1'. destruct H1' as (Hi1 & _).
  unfold recv_store in H1. destruct (store32 (recv_buf s) 12 _) as [b|] eqn:S; [|done].
  injection H1 as _ <-.
  assert (Hq : 0 <= rt_dest_seqno f < 4294967296) by by eapply ok_seqno, rt_lookup_ok; [apply Hi|].
  eapply (rreq_forward_run _ h id d (rt_dest_seqno f) o osq) in R as (p & Hs & Hp);
    [|done|done|done|done| |done|lia].
  - exists p, (rt_dest_seqno f). split_and!; [done|done|right]. by rewrite (known_seqno_entry _ _ f).
  - cbn [recv_buf set_recv_buf]. destruct Hin. split; load_simp; try done.
    simpl. by rewrite ntohl_u32_htonl, u32_small by done.
Qed.

(** The node has no route to [d] that is good enough for the RREQ. *)
Definition cannot_answer (s : state) (d dsq : Z) : Prop :=
  match way s d with
  | Some (_, _, _, q, st) => st ≠ VALID ∨ q = 0 ∨ int32 q < int32 dsq
  | None => True
  end.

Lemma routes_do_forward fwd len ttl dsq : frames routes (rreq_do_forward fwd len ttl dsq).
Proof. unfold rreq_do_forward, rreq_forward, send_on_all. frame_go. Qed.
Lemma ifaces_send dst len ttl dev : frames ifaces (aodv_socket_send dst len ttl dev).
Proof. unfold aodv_socket_send, ratelimit_check, sendto. inert_go. Qed.
Lemma ifaces_queue_msg n : frames ifaces (aodv_socket_queue_msg n).
Proof.
  intros s a s'. unfold aodv_socket_queue_msg. destruct (_ || _); [done|]. by intros [= _ <-].
Qed.
#[local] Hint Resolve ifaces_send ifaces_queue_msg : aodv.
Lemma ifaces_do_forward fwd len ttl dsq : frames ifaces (rreq_do_forward fwd len ttl dsq).
Proof. unfold rreq_do_forward, rreq_forward, send_on_all. inert_go. Qed.

Lemma rreq_intermediate_relays s rev h id d dsq o osq ttl u s' :
  inv s → sending s → under_limit AODV_RREQ s → enabled_devs s = [0%nat] →
  rreq_in (recv_buf s) h id d dsq o osq → 0 <= h < 255 → 1 < ttl < 256 → cannot_answer s d dsq →
  rreq_intermediate rev d 24 ttl dsq 0 s = Ok u s' →
  (∃ p dsq', sends s' = (0%nat, AODV_BROADCAST, ttl - 1, p) :: sends s ∧
    rreq_msg p (h + 1) id d dsq' o osq ∧ (dsq' = dsq ∨ dsq' = known_seqno s d)) ∧
  (∀ j, way s' j = way s j) ∧ ifaces s' = ifaces s.
Proof.
  intros Hi Hse Hun Hdev Hin Hh Httl Hc R. unfold rreq_intermediate in R.
  peel R as rt s1 H1. apply find_run in H1 as [-> ->]; [|done].
  assert (Hgo : ∀ n fwd, fwd = None ∨ fwd = Some d →
    rreq_do_forward fwd 24 ttl dsq (set_clock_reads n s) = Ok u s' →
    (∃ p dsq', sends s' = (0%nat, AODV_BROADCAST, ttl - 1, p) :: sends s ∧
      rreq_msg p (h + 1) id d dsq' o osq ∧ (dsq' = dsq ∨ dsq' = known_seqno s d)) ∧
    (∀ j, way s' j = way s j) ∧ ifaces s' = ifaces s).
  { intros n fwd Hf R'. split_and!.
    - eapply (rreq_do_forward_run (set_clock_reads n s)); [by destruct Hi|done..].
    - intros j. by rewrite (way_frames _ _ _ _ j (routes_do_forward _ _ _ _) R').
    - by rewrite (ifaces_do_forward _ _ _ _ _ _ _ R'). }
  unfold cannot_answer, way in Hc.
  assert (Hself : s = set_clock_reads (clock_reads s) s) by by destruct s.
  destruct (rt_lookup (rt_tbl s) d) as [f|] eqn:Hf; simpl in R.
  2:{ rewrite Hself in R. by eapply (Hgo _ None); [left|]. }
  rewrite (rt_lookup_dest _ _ _ Hf) in R. peel R as f1 s1 H1.
  apply deref_run in H1 as [-> Hf1]. assert (f1 = f) as -> by congruence. simpl in Hc.
  destruct (_ && _) eqn:Ev.
  2:{ rewrite Hself in R. by eapply (Hgo _ (Some d)); [right|]. }
  peel R as now s1 H1. apply clock_run in H1 as ->.
  destruct (_ && _) eqn:Eq in R; [|by eapply (Hgo _ (Some d)); [right|]].
  exfalso. rewrite andb_true_iff, negb_true_iff, Z.eqb_neq, Z.leb_le in Eq.
  rewrite andb_true_r, Z.eqb_eq in Ev. destruct Hc as [?|[?|?]]; [done|tauto|lia].
Qed.

(** ** A router *)

(** A node with one interface whose address is [a]; its socket calls succeed, and it sends
    HELLOs only when their timer runs out. *)
Record router (a : Z) (s : state) : Prop := {
  ro_inv : inv s;
  ro_sending : sending s;
  ro_unidir : unidir_hack (opts s) = false;
  ro_hellos : optimized_hellos (opts s) = false;
  ro_devs : enabled_devs s = [0%nat];
  ro_addr : dev_ipaddr (DEV_NR s 0) = a;
  ro_sock : devfromsock s (dev_sock (DEV_NR s 0)) = Some (DEV_NR s 0);
  ro_index : ifindex2devindex s (dev_ifindex (DEV_NR s 0)) = 0%nat;
  ro_routes : on_if (dev_ifindex (DEV_NR s 0)) s
}.

(** The index of its interface. *)
Definition the_if (s : state) : Z := dev_ifindex (DEV_NR s 0).

(** What a router is, apart from its routes. *)
Definition config (s : state) :=
  (env s, wait_on_reboot s, devs (this_host s), nif (this_host s), dev_indices s).

Lemma router_config a s s' :
  router a s → config s' = config s → inv s' → on_if (the_if s) s' → router a s'.
Proof.
  intros [] [= He Hw Hd Hn Hx] Hi Ho.
  assert (Hnr : ∀ i, DEV_NR s' i = DEV_NR s i) by (intros i; unfold DEV_NR; by rewrite Hd).
  assert (Hen : enabled_devs s' = enabled_devs s).
  { unfold enabled_devs. apply list_filter_iff. intros i. by rewrite Hnr. }
  split; try done.
  - unfold sending. by rewrite He, Hw.
  - unfold opts. by rewrite He.
  - unfold opts. by rewrite He.
  - congruence.
  - by rewrite Hnr.
  - rewrite Hnr. unfold devfromsock. by rewrite Hd, Hn.
  - rewrite Hnr. unfold ifindex2devindex. by rewrite Hn, Hx.
  - by rewrite Hnr.
Qed.

Lemma calm_parts s s' :
  calm s' = calm s →
  config s' = config s ∧ this_host s' = this_host s ∧ num_rreq s' = num_rreq s ∧
  rreq_records s' = rreq_records s ∧ rreq_blacklist s' = rreq_blacklist s ∧
  recv_buf s' = recv_buf s ∧ sends s' = sends s.
Proof. unfold calm, config. intros [=]. split_and!; congruence. Qed.

(** A message from the address [src] arrives on the interface. *)
Definition deliver (src dst ttl : Z) (p : list Z) : M () :=
  fd ← gets (λ s, dev_sock (DEV_NR s 0));
  aodv_socket_read fd (Some (mk_datagram p src [CmsgTtl ttl; CmsgPktinfo dst])).

Lemma deliver_completes a s src dst ttl p :
  router a s → has_room 2 s → bytes_ok p → plain p →
  ∃ s', deliver src dst ttl p s = Ok () s' ∧ grows 2 s s' ∧ inv s' ∧ config s' = config s.
Proof.
  intros Hro Hr Hb Hp. pose proof (ro_inv _ _ Hro) as Hi. unfold deliver. erewrite bind_ok by done.
  set (m := Some _).
  assert (Hh : handled s (InAodv (dev_sock (DEV_NR s 0)) m)).
  { split_and!; [done|done|]. by rewrite (ro_sock _ _ Hro). }
  destruct (completes_wp _ _ _ _ _ (socket_read_completes s _ m Hi Hr Hh)
    (safe_socket_read [] _ m (handled_ok _ _ Hh) s Hi ltac:(constructor))) as ([] & s' & R & G & Hi' & [] & _).
  exists s'. split_and!; [done|done|done|]. unfold config. destruct (ro_sending _ _ Hro) as [_ Hw].
  rewrite (proj1 (proj2 G) Hw). congruence.
Qed.

Lemma take_short (p : list Z) : (length p <= 800)%nat → take (Z.to_nat RECV_BUF_SIZE) p = p.
Proof. intros H. apply take_ge. replace (Z.to_nat RECV_BUF_SIZE) with 812%nat by done. lia. Qed.

Lemma plain_rreq p h id d dsq o osq : rreq_msg p h id d dsq o osq → plain p.
Proof.
  intros (Hl & _ & Hin). unfold plain. rewrite take_short by lia.
  destruct p as [|t p]; [done|]. rewrite Hl. destruct Hin. injection ri_type0 as ->. by split.
Qed.

Lemma plain_rrep p h d sq o : rrep_msg p h d sq o → plain p.
Proof.
  intros (Hl & _ & Hin). unfold plain. rewrite take_short by lia.
  destruct p as [|t p]; [done|]. rewrite Hl. destruct Hin. injection rp_type0 as ->. by split.
Qed.

(** The message reaches the function that processes it. *)
Lemma deliver_run a s src dst ttl p u s' :
  router a s → src ≠ a → 0 <= ttl < 256 → bytes_ok p → (length p <= 800)%nat →
  deliver src dst ttl p s = Ok u s' →
  let s1 := set_recv_buf (p ++ drop (length p) (recv_buf s)) s in
  inv s1 ∧ agree (length p) p (recv_buf s1) ∧
  aodv_socket_process_packet (Z.of_nat (length p)) src dst ttl (the_if s) s1 = Ok u s'.
Proof.
  intros Hro Hne Httl Hb Hl R. cbv zeta. unfold deliver in R. peel_read R.
  unfold aodv_socket_read in R. cbn [dg_bytes dg_src dg_cmsgs] in R.
  pose proof (take_short p Hl) as Ht. rewrite Ht in R. peel R as u1 s1 H1.
  pose proof (safe_recv_data [] p Hb s (ro_inv _ _ Hro) ltac:(constructor)) as Hw. rewrite Ht in Hw.
  apply (wp_ok _ _ _ _ _ _ Hw) in H1 as H1'. destruct H1' as (Hi1 & _). injection H1 as _ <-.
  split; [done|]. split; [apply agree_app|].
  cbn [foldl read_cmsg fst snd] in R. rewrite u8_small, (proj2 (Z.ltb_ge _ _)) in R by lia.
  peel_read R. unfold is_local_source in R.
  replace (enabled_devs _) with [0%nat] in R by (rewrite <- (ro_devs _ _ Hro); done).
  cbn [existsb] in R. replace (dev_ipaddr (DEV_NR _ 0) =? src) with false in R.
  2:{ symmetry. apply Z.eqb_neq. intros H. apply Hne. rewrite <- H. apply Hro. }
  cbn [orb] in R. peel_read R.
  replace (devfromsock _ _) with (Some (DEV_NR s 0)) in R by (rewrite <- (ro_sock _ _ Hro); done).
  exact R.
Qed.

(** ** Receiving a RREQ *)

(** The RREQ [id] of [o] is new to the node [a], and it comes over a neighbour that is
    nearer to [o]. *)
Record unseen (a : Z) (s : state) (src h id o osq : Z) : Prop := {
  un_src : src ≠ a;
  un_orig : o ≠ a;
  un_black : src ∉ rreq_blacklist s;
  un_rec : mk_rreq_record o id ∉ rreq_records s;
  un_old : older s o osq;
  un_far : src = o ∧ h = 0 ∨ src ≠ o ∧ far s o
}.

Lemma load8_run s off v s' : recv_load8 off s = Ok v s' → s' = s ∧ load8 (recv_buf s) off = Some v.
Proof. unfold recv_load8. destruct (load8 _ _); [|done]. by intros [= <- <-]. Qed.
Lemma load32_run s off v s' : recv_load32 off s = Ok v s' → s' = s ∧ load32 (recv_buf s) off = Some v.
Proof. unfold recv_load32. destruct (load32 _ _); [|done]. by intros [= <- <-]. Qed.

(** The record of the RREQ touches nothing else. *)
Lemma record_insert_run s o id u s' :
  inv s → rreq_record_insert o id s = Ok u s' →
  inv s' ∧ rt_tbl s' = rt_tbl s ∧ this_host s' = this_host s ∧
  (config s', num_rreq s', (recv_buf s', sends s')) = (config s, num_rreq s, (recv_buf s, sends s)).
Proof.
  intros Hi R. pose proof (safe_rreq_record_insert Full [] o id s Hi ltac:(constructor)) as Hw.
  destruct (wp_ok _ _ _ _ _ _ Hw R) as (? & _).
  assert (Hf : frames (λ s, (rt_tbl s, this_host s, config s, num_rreq s, (recv_buf s, sends s)))
    (rreq_record_insert o id)) by (unfold rreq_record_insert, rreq_record_find; frame_go).
  apply Hf in R. injection R as ?????????. split_and!; [done..|]. unfold config. congruence.
Qed.

Lemma ext_loop_run s size n off u s' :
  inv s → 20 <= off → ext_loop ext_fuel size n 0 off s = Ok u s' → s' = s.
Proof.
  intros Hi Ho R. destruct (ext_fuel_enough off) as [Hf1 Hf2]; [done|].
  by eapply wp_ok in R; [|by apply ext_loop_pure].
Qed.

Lemma my_addr a s : router a s → dev_ipaddr (DEV_IFINDEX s (the_if s)) = a.
Proof. intros Hro. unfold DEV_IFINDEX, the_if. rewrite (ro_index _ _ Hro). apply Hro. Qed.

Lemma the_if_config s s' : config s' = config s → the_if s' = the_if s.
Proof. unfold the_if, DEV_NR. by intros [= _ _ -> _ _]. Qed.

(** The node notes the RREQ and the way back to its originator. *)
Lemma rreq_process_run a s src ttl h id d dsq o osq u s' :
  router a s → rreq_in (recv_buf s) h id d dsq o osq → 0 <= h < 255 → unseen a s src h id o osq →
  rreq_process 24 src ttl (the_if s) s = Ok u s' →
  ∃ s1, router a s1 ∧ config s1 = config s ∧ this_host s1 = this_host s ∧
    num_rreq s1 = num_rreq s ∧ sends s1 = sends s ∧ rreq_in (recv_buf s1) h id d dsq o osq ∧
    way s1 o = Some (o, src, h + 1, osq, VALID) ∧ (∀ j, j ≠ o → way s1 j = way s j) ∧
    (∀ j, one_way s1 j = one_way s j) ∧
    (if d =? a then rreq_reply_as_dest o dsq else rreq_intermediate o d 24 ttl dsq 0) s1 = Ok u s'.
Proof.
  intros Hro Hin Hh [_ Hoa Hbl Hrec Hold Hfar] R. unfold rreq_process in R.
  pose proof Hin as [_ Hfl Hhc Hid Hd Hds Ho Hos].
  do 5 (let v := fresh "v" in let s := fresh "s" in let H := fresh "H" in
    peel R as v s H; apply load32_run in H as [-> H]).
  let H := fresh "H" in let s := fresh "s" in
    peel R as hc s H; apply load8_run in H as [-> H]. peel_read R.
  rewrite (my_addr a) in R by done. simplify_option_eq. rewrite (proj2 (Z.eqb_neq _ _)) in R by done.
  unfold rreq_blacklist_find in R. peel_read R. rewrite bool_decide_eq_false_2 in R.
  2:{ intros [x Hx]. apply search_Some in Hx as [Hx E]. apply Z.eqb_eq in E. subst x. done. }
  unfold rreq_record_find in R. peel_read R. rewrite (proj2 (record_search_None _ _ _) Hrec) in R.
  rewrite bool_decide_eq_false_2 in R by by intros [].
  pose proof (ro_inv _ _ Hro) as Hi. peel R as [] s1 H1'.
  apply record_insert_run in H1' as (Hi1 & Ht1 & Hh1 & E1); [|done].
  peel R as [] s2 H2'. apply ext_loop_run in H2' as ->; [|done|done].
  peel R as rev s2 H2'. apply reverse_route_run in H2' as (-> & (Hi2 & Hc2 & Ho2 & Hu2) & Hw2 & Hj2);
    [|done|apply ntohl_range|by unfold older, known_seqno, way in *; rewrite Ht1|].
  2:{ destruct Hfar as [[_ ->]|[_ Hfar]]; [by left|right]. unfold far, way in *. by rewrite Ht1. }
  rewrite u8_small in Hw2 by lia. apply calm_parts in Hc2 as (Hcf2 & Hh2 & Hn2 & _ & _ & Hrb2 & Hs2).
  assert (Hcf : config s2 = config s) by (rewrite Hcf2; unfold config in *; congruence).
  exists s2. split_and!; try congruence.
  - apply (router_config _ s); [done|done|done|]. apply Ho2. intros k e. rewrite Ht1. apply Hro.
  - intros j Hj. rewrite Hj2 by done. by apply way_table.
  - intros j. rewrite Hu2. unfold one_way. by rewrite Ht1.
  - case_match; [done|]. peel R as b1 s3 Hb1. apply load8_run in Hb1 as [-> Hb1].
    replace (recv_buf s2) with (recv_buf s) in Hb1 by congruence. by simplify_option_eq.
Qed.

Lemma rreq_received a s src ttl p h id d dsq o osq u s' :
  router a s → rreq_msg p h id d dsq o osq → 0 <= h < 255 → 0 <= ttl < 256 →
  unseen a s src h id o osq →
  deliver src AODV_BROADCAST ttl p s = Ok u s' →
  ∃ s1, router a s1 ∧ config s1 = config s ∧ this_host s1 = this_host s ∧
    num_rreq s1 = num_rreq s ∧ sends s1 = sends s ∧ rreq_in (recv_buf s1) h id d dsq o osq ∧
    way s1 o = Some (o, src, h + 1, osq, VALID) ∧ (∀ j, j ≠ o → j ≠ src → way s1 j = way s j) ∧
    (∀ j, one_way s1 j = one_way s j) ∧
    (if d =? a then rreq_reply_as_dest o dsq else rreq_intermediate o d 24 ttl dsq 0) s1 = Ok u s'.
Proof.
  intros Hro (Hl & Hb & Hin) Hh Httl Hun R.
  apply (deliver_run a) in R as (Hi1 & Ha1 & R); [|done|apply Hun|done|done|lia].
  set (s1 := set_recv_buf _ s) in *. rewrite Hl in Ha1, R.
  assert (Hin1 : rreq_in (recv_buf s1) h id d dsq o osq) by by eapply rreq_in_agree.
  assert (Hro1 : router a s1) by (apply (router_config _ s); [done|done|done|apply Hro]).
  unfold aodv_socket_process_packet in R. peel R as t s2 H2. apply load8_run in H2 as [-> Ht].
  rewrite (ri_type _ _ _ _ _ _ _ Hin1) in Ht. injection Ht as <-.
  cbn [AODV_RREQ AODV_RREP Z.eqb Pos.eqb andb] in R. peel R as [] s2 H2.
  apply neighbor_add_run in H2 as ((Hi2 & Hc2 & Ho2 & Hu2) & Hw2 & Hk2); [|done].
  apply calm_parts in Hc2 as (Hcf2 & Hh2 & Hn2 & Hrec2 & Hbl2 & Hrb2 & Hs2).
  assert (Hcf : config s2 = config s) by exact Hcf2.
  rewrite <- (the_if_config _ _ Hcf) in R.
  apply (rreq_process_run a _ _ _ h id d dsq o osq) in R
    as (s3 & ? & Hcf3 & Hh3 & Hn3 & Hs3 & ? & ? & Hw3 & Hu3 & ?).
  - exists s3. split_and!; try done.
    + by rewrite Hcf3.
    + by rewrite Hh3.
    + by rewrite Hn3.
    + by rewrite Hs3.
    + intros j Hj1 Hj2. by rewrite Hw3, Hw2 by done.
    + intros j. by rewrite Hu3, Hu2.
  - apply (router_config _ s); [done|done|done|apply Ho2, Hro1].
  - by rewrite Hrb2.
  - done.
  - destruct Hun as [H1 H2 H3 H4 H5 H6]. split; [done|done|by rewrite Hbl2|by rewrite Hrec2| |].
    + unfold older in *. assert (known_seqno s2 o = known_seqno s o) as ->; [|done].
      destruct (decide (o = src)) as [->|Hne]; [exact Hk2|].
      unfold known_seqno. by rewrite Hw2.
    + destruct H6 as [?|[Hne Hf]]; [by left|right]. split; [done|]. unfold far in *. by rewrite Hw2.
Qed.

Lemma under_limit_config t s s' :
  config s' = config s → num_rreq s' = num_rreq s → under_limit t s → under_limit t s'.
Proof. unfold under_limit, opts. by intros [= -> _ _ _ _] ->. Qed.

(** A node that cannot answer a new RREQ relays it, with one hop more, and keeps the way
    back to its originator. *)
Lemma rreq_relayed a s src ttl p h id d dsq o osq :
  router a s → has_room 2 s → rreq_msg p h id d dsq o osq → 0 <= h < 255 → 1 < ttl < 256 →
  unseen a s src h id o osq → d ≠ a → d ≠ o → d ≠ src →
  under_limit AODV_RREQ s → cannot_answer s d dsq →
  ∃ s' p' dsq', deliver src AODV_BROADCAST ttl p s = Ok () s' ∧ router a s' ∧ grows 2 s s' ∧
    sends s' = (0%nat, AODV_BROADCAST, ttl - 1, p') :: sends s ∧
    rreq_msg p' (h + 1) id d dsq' o osq ∧ (dsq' = dsq ∨ dsq' = known_seqno s d) ∧
    way s' o = Some (o, src, h + 1, osq, VALID) ∧ (∀ j, j ≠ o → j ≠ src → way s' j = way s j).
Proof.
  intros Hro Hr Hp Hh Httl Hun Hda Hdo Hds Hlim Hc.
  destruct (deliver_completes a s src AODV_BROADCAST ttl p Hro Hr ltac:(apply Hp)
    (plain_rreq _ _ _ _ _ _ _ Hp)) as (s' & R & G & Hi' & Hcf).
  exists s'. assert (R' := R).
  eapply rreq_received in R as (s1 & Hro1 & Hcf1 & _ & Hn1 & Hs1 & Hin1 & Hw1 & Hj1 & _ & R); [|done..|lia|done].
  rewrite (proj2 (Z.eqb_neq _ _) Hda) in R.
  assert (Hwd : way s1 d = way s d) by by apply Hj1.
  apply (rreq_intermediate_relays _ _ h id _ _ o osq) in R as ((p' & dsq' & Hs' & Hp' & Hq') & Hw' & Hf'); try done.
  - exists p', dsq'. split_and!; [done| |done|congruence|done| |congruence|intros j ??; by rewrite Hw', Hj1].
    + apply (router_config _ s); [done|done|done|]. rewrite <- (the_if_config _ _ Hcf1).
      by eapply on_if_ifaces, Hro1.
    + unfold known_seqno in *. by rewrite <- Hwd.
  - apply Hro1.
  - apply Hro1.
  - by apply (under_limit_config _ s).
  - apply Hro1.
  - unfold cannot_answer in *. by rewrite Hwd.
Qed.

(** ** Answering a RREQ *)

Lemma hold_bytes f :
  (∀ b b', bytes_ok b → f b = Some b' → bytes_ok b') →
  hold (λ s, bytes_ok (send_buf s)) (send_store f) (λ _ s, bytes_ok (send_buf s)).
Proof. intros Hf. apply hold_store. intros s b Hb. apply (Hf (send_buf s) b Hb). Qed.

Lemma hold_bytes8 off v :
  hold (λ s, bytes_ok (send_buf s)) (send_store8 off v) (λ _ s, bytes_ok (send_buf s)).
Proof. apply hold_bytes. intros b b' Hb. by apply bytes_ok_store8. Qed.
Lemma hold_bytes32 off v :
  hold (λ s, bytes_ok (send_buf s)) (send_store32 off v) (λ _ s, bytes_ok (send_buf s)).
Proof. apply hold_bytes. intros b b' Hb. by apply bytes_ok_store_bytes. Qed.

Lemma hold_bytes_new : hold (λ _, True) aodv_socket_new_msg (λ _ s, bytes_ok (send_buf s)).
Proof. apply hold_modify. intros s _. by apply Forall_replicate. Qed.

Ltac bytes_go :=
  repeat (eapply hold_bind; [first [apply hold_bytes8|apply hold_bytes32]|intros ?; cbv beta]);
  first [apply hold_bytes8|apply hold_bytes32].

(** The rest of the state. *)
Definition unsent (s : state) : state := set_send_buf [] s.

Lemma unsent_eq s s' : unsent s' = unsent s → s' = set_send_buf (send_buf s') s.
Proof.
  intros H. transitivity (set_send_buf (send_buf s') (unsent s')); [by destruct s'|]. by rewrite H.
Qed.

Lemma rrep_create_run s h d n o life u s' :
  0 <= h < 256 → 0 <= d < 4294967296 → 0 <= n < 4294967296 → 0 <= o < 4294967296 →
  rrep_create 0 0 h d n o life s = Ok u s' →
  s' = set_send_buf (send_buf s') s ∧ bytes_ok (send_buf s') ∧ rrep_in (send_buf s') h d n o.
Proof.
  intros Hh Hd Hn Ho R. split_and!.
  - apply unsent_eq. assert (Hf : frames unsent (rrep_create 0 0 h d n o life)); [|by eapply Hf].
    unfold rrep_create, aodv_socket_new_msg. frame_go.
  - assert (Hf : hold (λ _, True) (rrep_create 0 0 h d n o life) (λ _ s, bytes_ok (send_buf s)));
      [|by eapply Hf].
    unfold rrep_create. eapply hold_bind; [apply hold_bytes_new|intros ?; cbv beta]. bytes_go.
  - destruct (rrep_roundtrip s 0 0 h d n o life Hh) as (s1 & R1 & H1 & H2 & H3 & H4 & H5 & _ & _ & H6).
    rewrite R in R1. injection R1 as _ <-. rewrite !u32_small in * by done.
    split; try done. by apply H6.
Qed.

Lemma no_hello_start s u s' :
  optimized_hellos (opts s) = false → hello_start_if_optimized s = Ok u s' → s' = s.
Proof.
  intros Ho R. unfold hello_start_if_optimized in R. peel_read R.
  rewrite Ho, andb_false_r in R. by injection R.
Qed.

Lemma env_send dst len ttl dev : frames env (aodv_socket_send dst len ttl dev).
Proof. unfold aodv_socket_send, ratelimit_check, sendto. frame_go. Qed.

(** The entry behind a route. *)
Lemma way_deref s k e s' d nh h q st :
  way s k = Some (d, nh, h, q, st) → rt_deref k s = Ok e s' →
  s' = s ∧ rt_lookup (rt_tbl s) k = Some e ∧ rt_next_hop e = nh ∧ rt_hcnt e = h ∧
  rt_dest_seqno e = q ∧ rt_state e = st.
Proof.
  intros Hw [-> He]%deref_run. unfold way in Hw. rewrite He in Hw. by injection Hw as <- <- <- <- <-.
Qed.

(** On two-way links a reply does not test the link first. *)
Lemma no_unidir_check a s o nh hc q u s' :
  router a s → way s o = Some (o, nh, hc, q, VALID) → one_way s o = false →
  rrep_check_unidir o s = Ok u s' → s' = s.
Proof.
  intros Hro Hw Hu R. unfold rrep_check_unidir in R. peel_read R. peel R as r s1 H1.
  eapply way_deref in H1 as (-> & He & _); [|done]. unfold one_way in Hu. rewrite He in Hu.
  rewrite (ro_unidir _ _ Hro), Hu, !andb_false_r in R. by injection R.
Qed.

(** What is sent on a route leaves by the interface. *)
Lemma route_dev a s k e : router a s → rt_lookup (rt_tbl s) k = Some e →
  ifindex2devindex s (rt_ifindex e) = 0%nat.
Proof. intros Hro He. rewrite (ro_routes _ _ Hro _ _ He). apply Hro. Qed.

Lemma under_limit_rrep s : under_limit AODV_RREP s.
Proof. by split. Qed.

(** The reply goes to the next hop on the way back. *)
Lemma rrep_send_run a s o nh hc q fwd h d sq u s' :
  router a s → way s o = Some (o, nh, hc, q, VALID) → one_way s o = false →
  bytes_ok (send_buf s) → rrep_in (send_buf s) h d sq o →
  rrep_send (Some o) fwd 20 s = Ok u s' →
  (∃ p, sends s' = (0%nat, nh, 255, p) :: sends s ∧ rrep_msg p h d sq o) ∧
  (∀ j, way s' j = way s j) ∧ ifaces s' = ifaces s.
Proof.
  intros Hro Hw Hu Hb Hin R. unfold rrep_send in R.
  peel R as u1 s1 H1. apply (no_unidir_check a _ _ nh hc q) in H1 as ->; [|done..].
  peel R as r s1 H1. eapply way_deref in H1 as (-> & He & Hnh & _); [|done]. peel_read R.
  rewrite (route_dev a _ o) in R by done. rewrite Hnh in R. peel R as u2 s1 H1.
  assert (Hs1 : sends s1 = (0%nat, nh, 255, take 20 (send_buf s)) :: sends s).
  { eapply send_run in H1; [|apply Hro|apply Hin|apply under_limit_rrep]. exact H1. }
  peel R as u3 s2 H2.
  assert (H2' : calm s2 = calm s1 ∧ ifaces s2 = ifaces s1 ∧ ∀ j, way s2 j = way s1 j).
  { destruct fwd as [fwd|]; [|injection H2 as _ <-; done]. split_and!.
    - eassert (Hf : frames calm _); [|by apply Hf in H2]. inert_go.
    - eassert (Hf : frames ifaces _); [|by apply Hf in H2]. inert_go.
    - intros j. eapply way_frames; [|exact H2]. frame_go. }
  destruct H2' as (Hc2 & Hf2 & Hw2). apply calm_parts in Hc2 as (Hcf2 & _ & _ & _ & _ & _ & Hs2).
  apply no_hello_start in R as ->.
  2:{ unfold opts. injection Hcf2 as -> _ _ _ _. rewrite (env_send _ _ _ _ _ _ _ H1). apply Hro. }
  split_and!.
  - exists (take 20 (send_buf s)). split; [congruence|]. split_and!; [|by apply Forall_take|].
    + by rewrite length_take, (inv_send _ (ro_inv _ _ Hro)).
    + by eapply rrep_in_agree; [apply agree_take|].
  - intros j. rewrite Hw2. by eapply way_frames; [apply routes_socket_send|].
  - rewrite Hf2. by eapply ifaces_send.
Qed.

Lemma buf_range s off v : inv s → load32 (recv_buf s) off = Some v → 0 <= v < 4294967296.
Proof. intros Hi. apply load32_range, Hi. Qed.

(** A reply is built and sent. *)
Lemma reply_run a s o nh hc q fwd h d sq life u s' :
  router a s → way s o = Some (o, nh, hc, q, VALID) → one_way s o = false →
  0 <= h < 256 → 0 <= d < 4294967296 → 0 <= sq < 4294967296 → 0 <= o < 4294967296 →
  (rrep_create 0 0 h d sq o life ;; rrep_send (Some o) fwd RREP_SIZE) s = Ok u s' →
  (∃ p, sends s' = (0%nat, nh, 255, p) :: sends s ∧ rrep_msg p h d sq o) ∧
  (∀ j, way s' j = way s j) ∧ ifaces s' = ifaces s.
Proof.
  intros Hro Hw Hu Hh Hd Hq Ho R. peel R as [] s1 H1.
  assert (Hi1 : inv s1).
  { eapply (wp_ok _ _ _ _ _ _ (safe_rrep_create Full [] 0 0 h d sq o life s (ro_inv _ _ Hro)
      ltac:(constructor))) in H1. apply H1. }
  apply rrep_create_run in H1 as (E1 & Hb1 & Hin1); [|done..].
  assert (Ht : rt_tbl s1 = rt_tbl s ∧ config s1 = config s ∧ sends s1 = sends s) by by rewrite E1.
  destruct Ht as (Ht & Hcf & Hs). clear E1.
  assert (Hro1 : router a s1).
  { apply (router_config _ s); [done|done|done|]. intros k e. rewrite Ht. apply Hro. }
  eapply (rrep_send_run a _ _ nh hc q) in R as ((p & Hp & Hm) & Hw' & Hf); [|done| | |done|done].
  - split_and!; [|by intros j; rewrite Hw'; apply way_table|rewrite Hf; unfold ifaces, views; by rewrite Ht].
    exists p. by rewrite <- Hs.
  - by rewrite (way_table s).
  - unfold one_way. by rewrite Ht.
Qed.

Lemma reply_as_dest_run a s o nh hc q dsq u s' :
  router a s → 0 <= a < 4294967296 → 0 <= o < 4294967296 → 0 <= dsq < 4294967296 →
  way s o = Some (o, nh, hc, q, VALID) → one_way s o = false →
  rreq_reply_as_dest o dsq s = Ok u s' →
  (∃ p, sends s' = (0%nat, nh, 255, p) :: sends s ∧
     rrep_msg p 0 a (dest_seqno_update (seqno (this_host s)) dsq) o) ∧
  (∀ j, way s' j = way s j) ∧ ifaces s' = ifaces s.
Proof.
  intros Hro Ha Ho Hq Hw Hu R. unfold rreq_reply_as_dest in R. set (sq := dest_seqno_update _ dsq).
  assert (Hsq : 0 <= sq < 4294967296) by (apply dest_seqno_update_range; [apply Hro|done]).
  peel R as [] s1 H1. injection H1 as <-. set (s1 := set_this_host _ s) in *.
  assert (Hro1 : router a s1).
  { apply (router_config _ s); [done|done| |apply Hro]. destruct (ro_inv _ _ Hro). by split. }
  peel_read R. peel_read R. peel R as r s2 H2.
  apply (way_deref s1 o r s2 o nh hc q VALID) in H2 as (-> & He & Hnh & _); [|done].
  rewrite (rt_lookup_dest _ _ _ He) in R. peel_read R.
  replace (dev_ipaddr _) with a in R.
  2:{ symmetry. unfold DEV_IFINDEX. rewrite (route_dev a _ o) by done. apply Hro1. }
  eapply (reply_run a s1 o nh hc q) in R; done.
Qed.

(** The route of an intermediate node is offered to the originator. *)
Lemma reply_as_intermediate_run a s o nh hc q d nd h sq now u s' :
  router a s → 0 <= o < 4294967296 → 0 <= d < 4294967296 →
  way s o = Some (o, nh, hc, q, VALID) → one_way s o = false →
  way s d = Some (d, nd, h, sq, VALID) →
  rreq_reply_as_intermediate o d false now s = Ok u s' →
  (∃ p, sends s' = (0%nat, nh, 255, p) :: sends s ∧ rrep_msg p h d sq o) ∧
  (∀ j, way s' j = way s j) ∧ ifaces s' = ifaces s.
Proof.
  intros Hro Ho Hd Hw Hu Hwd R. unfold rreq_reply_as_intermediate in R.
  peel R as t s1 H1. assert (s1 = s) as ->.
  { unfold timer_timeout_of, on_tq, bind, timer_get in H1. destruct (timers _ !! _); [|done].
    injection H1 as _ <-. by destruct s. } clear H1.
  peel R as f s1 H1. apply (way_deref s d f s1 d nd h sq VALID) in H1 as (-> & He & _ & Hh & Hq & _); [|done].
  peel R as r s1 H1. apply (way_deref s o r s1 o nh hc q VALID) in H1 as (-> & Her & _); [|done].
  destruct (rt_lookup_ok _ _ _ (inv_table _ (ro_inv _ _ Hro)) He) as [_ Hr1 Hr2 _ _ _ _].
  rewrite (rt_lookup_dest _ _ _ He), (rt_lookup_dest _ _ _ Her), Hh, Hq in *.
  rewrite <- Hq in Hr1.
  peel R as [] s1 H1. peel R as [] s2 H2. injection R as _ <-.
  eapply (reply_run a s o nh hc q (Some d) h d sq); [done..|by rewrite <- Hq|done|].
  unfold bind. by rewrite H1.
Qed.

(** The node [a] can tell a route to [d] with [h] hops and the sequence number [sq]: it is
    [d], or has a valid route that is new enough. *)
Definition answers (a : Z) (s : state) (d dsq h sq : Z) : Prop :=
  d = a ∧ h = 0 ∧ sq = dest_seqno_update (seqno (this_host s)) dsq ∨
  d ≠ a ∧ (∃ nd, way s d = Some (d, nd, h, sq, VALID)) ∧ sq ≠ 0 ∧ int32 dsq <= int32 sq.

Lemma intermediate_answers a s o nh hc q d nd h sq dsq ttl u s' :
  router a s → 0 <= o < 4294967296 → 0 <= d < 4294967296 →
  way s o = Some (o, nh, hc, q, VALID) → one_way s o = false →
  way s d = Some (d, nd, h, sq, VALID) → sq ≠ 0 → int32 dsq <= int32 sq →
  rreq_intermediate o d 24 ttl dsq 0 s = Ok u s' →
  (∃ p, sends s' = (0%nat, nh, 255, p) :: sends s ∧ rrep_msg p h d sq o) ∧
  (∀ j, way s' j = way s j) ∧ ifaces s' = ifaces s.
Proof.
  intros Hro Ho Hd Hw Hu Hwd Hq Hle R. unfold rreq_intermediate in R.
  peel R as rt s1 H1. apply find_run in H1 as [-> ->]; [|apply Hro].
  destruct (way_entry _ _ _ Hwd) as (f & Hf & _). rewrite Hf in R. simpl in R.
  rewrite (rt_lookup_dest _ _ _ Hf) in R. peel R as f1 s1 H1.
  apply (way_deref s d f1 s1 d nd h sq VALID) in H1 as (-> & _ & _ & _ & Hsq & Hst); [|done].
  rewrite Hst, Hsq in R. cbn [VALID Z.eqb Pos.eqb Z.testbit negb andb] in R.
  peel R as now s1 H1. apply clock_run in H1 as ->.
  rewrite (proj2 (Z.eqb_neq _ _) Hq), (proj2 (Z.leb_le _ _) Hle) in R. cbn [negb andb Z.testbit] in R.
  eapply (reply_as_intermediate_run a (set_clock_reads _ s) o nh hc q d nd h sq) in R; [exact R| |done..].
  apply (router_config _ s); [done|done|by destruct (ro_inv _ _ Hro)|apply Hro].
Qed.

(** A node that can answer a new RREQ does: the reply goes to the neighbour it came from. *)
Lemma rreq_answered a s src ttl p h id d dsq o osq hd sq :
  router a s → has_room 2 s → 0 <= a < 4294967296 → rreq_msg p h id d dsq o osq → 0 <= h < 255 →
  0 <= ttl < 256 → unseen a s src h id o osq → one_way s o = false → d ≠ o → d ≠ src →
  answers a s d dsq hd sq →
  ∃ s' p', deliver src AODV_BROADCAST ttl p s = Ok () s' ∧ router a s' ∧ grows 2 s s' ∧
    sends s' = (0%nat, src, 255, p') :: sends s ∧ rrep_msg p' hd d sq o ∧
    way s' o = Some (o, src, h + 1, osq, VALID) ∧ (∀ j, j ≠ o → j ≠ src → way s' j = way s j).
Proof.
  intros Hro Hr Ha Hp Hh Httl Hun Hu Hdo Hds Hans.
  destruct (deliver_completes a s src AODV_BROADCAST ttl p Hro Hr ltac:(apply Hp)
    (plain_rreq _ _ _ _ _ _ _ Hp)) as (s' & R & G & Hi' & Hcf).
  exists s'. assert (R' := R).
  eapply rreq_received in R as (s1 & Hro1 & Hcf1 & Hh1 & Hn1 & Hs1 & Hin1 & Hw1 & Hj1 & Hu1 & R); [|done..].
  pose proof (ro_inv _ _ Hro1) as Hi1.
  pose proof (buf_range _ _ _ Hi1 (ri_orig _ _ _ _ _ _ _ Hin1)) as Hor.
  pose proof (buf_range _ _ _ Hi1 (ri_dest _ _ _ _ _ _ _ Hin1)) as Hdr.
  assert (Hqr : 0 <= dsq < 4294967296).
  { pose proof (ri_dseq _ _ _ _ _ _ _ Hin1) as Hq. destruct (load32 _ 12); [|done].
    injection Hq as <-. apply ntohl_range. }
  assert (H : (∃ p, sends s' = (0%nat, src, 255, p) :: sends s1 ∧ rrep_msg p hd d sq o) ∧
    (∀ j, way s' j = way s1 j) ∧ ifaces s' = ifaces s1).
  { destruct Hans as [(-> & -> & ->)|(Hda & (nd & Hwd) & Hq & Hle)].
    - rewrite Z.eqb_refl in R. rewrite <- Hh1.
      eapply reply_as_dest_run; [done|done|done|done|done|by rewrite Hu1|done].
    - rewrite (proj2 (Z.eqb_neq _ _) Hda) in R. rewrite <- (Hj1 d) in Hwd by done.
      eapply (intermediate_answers a s1); [done..|by rewrite Hu1|done|done|done|done]. }
  destruct H as ((p' & Hs' & Hp') & Hw' & Hf').
  exists p'. split_and!; [done| |done|congruence|done|congruence|intros j ??; by rewrite Hw', Hj1].
  apply (router_config _ s); [done|done|done|]. rewrite <- (the_if_config _ _ Hcf1).
  by eapply on_if_ifaces, Hro1.
Qed.

(** ** Receiving a RREP *)

(** The RREP for [d] brings something new, over a neighbour that is nearer to [d]. *)
Record welcome (a : Z) (s : state) (src h d sq o : Z) : Prop := {
  we_src : src ≠ a;
  we_dest : d ≠ a;
  we_old : older s d sq;
  we_far : src = d ∧ h = 0 ∨ src ≠ d ∧ far s d;
  we_orig : o ≠ d;
  we_back : o ≠ src
}.

(** The node takes the route, and goes on with the RREP. *)
Lemma rrep_process_run a s src ttl h d sq o u s' :
  router a s → rrep_in (recv_buf s) h d sq o → 0 <= h < 255 → welcome a s src h d sq o →
  rrep_process 20 src ttl (the_if s) s = Ok u s' →
  ∃ s1 hc fl, router a s1 ∧ config s1 = config s ∧ sends s1 = sends s ∧
    rrep_in (recv_buf s1) h d sq o ∧
    way s1 d = Some (d, src, h + 1, sq, VALID) ∧ (∀ j, j ≠ d → way s1 j = way s j) ∧
    (∀ ids, settling d ids s → released d ids s1) ∧
    rrep_finish d (rt_dest_addr <$> rt_lookup (rt_tbl s) o) hc fl (o =? a) 20 ttl s1 = Ok u s'.
Proof.
  intros Hro Hin Hh [_ Hda Hold Hfar _ _] R. unfold rrep_process in R.
  pose proof Hin as [_ Hfl Hhc Hd Hs Ho]. pose proof (ro_inv _ _ Hro) as Hi.
  do 4 (let v := fresh "v" in let s := fresh "s" in let H := fresh "H" in
    peel R as v s H; apply load32_run in H as [-> H]).
  let H := fresh "H" in let s := fresh "s" in
    peel R as hc s H; apply load8_run in H as [-> H].
  simplify_option_eq. peel_read R. rewrite (my_addr a), (proj2 (Z.eqb_neq _ _)) in R by done.
  peel R as [] s2 H2'. apply ext_loop_run in H2' as ->; [|done|done].
  peel R as fwd s2 H2'. apply find_run in H2' as [-> ->]; [|done].
  peel R as rev s2 H2'. apply find_run in H2' as [-> ->]; [|done].
  assert (Hend : ∀ s1 hc' fl, steady (the_if s) s s1 →
    way s1 v = Some (v, src, u8 (hc + 1), ntohl v1, VALID) → (∀ j, j ≠ v → way s1 j = way s j) →
    (∀ ids, settling v ids s → released v ids s1) →
    rrep_finish v (rt_dest_addr <$> rt_lookup (rt_tbl s) v0) hc' fl (v0 =? a) 20 ttl s1 = Ok u s' →
    ∃ s1 hc' fl, router a s1 ∧ config s1 = config s ∧ sends s1 = sends s ∧
      rrep_in (recv_buf s1) hc v (ntohl v1) v0 ∧
      way s1 v = Some (v, src, hc + 1, ntohl v1, VALID) ∧ (∀ j, j ≠ v → way s1 j = way s j) ∧
      (∀ ids, settling v ids s → released v ids s1) ∧
      rrep_finish v (rt_dest_addr <$> rt_lookup (rt_tbl s) v0) hc' fl (v0 =? a) 20 ttl s1 = Ok u s').
  { intros s1 hc' fl (Hi1 & Hc1 & Ho1 & _) Hw Hj Hrel R1.
    apply calm_parts in Hc1 as (Hcf & _ & _ & _ & _ & Hrb & Hse).
    exists s1, hc', fl. split_and!; [|done|done|by rewrite Hrb|by rewrite Hw, u8_small by lia|done|done|done].
    apply (router_config _ s); [done|done|done|apply Ho1, Hro]. }
  destruct (rt_lookup (rt_tbl s) v) as [e|] eqn:He; simpl in R.
  - rewrite (rt_lookup_dest _ _ _ He) in R. peel R as e1 s1 H1'.
    apply deref_run in H1' as [-> He1]. assert (e1 = e) as -> by congruence.
    assert (Ha : rrep_accepts e (ntohl v1) (hc + 1) = true).
    { unfold older in Hold. rewrite (known_seqno_entry _ _ _ He) in Hold. unfold rrep_accepts.
      destruct Hold as [->|Hlt]; [done|]. apply Z.ltb_lt in Hlt. rewrite Hlt. by destruct (_ =? 0). }
    rewrite Ha in R. peel R as u1 s1 H1'.
    assert (Hb : u8 (hc + 1) <= 1 ∨ rt_hcnt e ≠ 1).
    { destruct Hfar as [[_ ->]|[_ Hfar]]; [by left|right]. unfold far, way in Hfar. by rewrite He in Hfar. }
    assert (Hrel : ∀ ids, settling v ids s → released v ids s1).
    { intros ids Hst. eapply update_settling in H1' as [_ H5]; [by apply H5|done|done|apply ntohl_range|done|done]. }
    apply (update_run (the_if s) _ _ _ _ _ _ e) in H1' as (Hst & Hw & Hj);
      [by eapply Hend|done|done|apply ntohl_range|done].
  - peel R as k s1 H1'. assert (Hrel : ∀ ids, settling v ids s → released v ids s1).
    { intros ids Hst. eapply insert_settling in H1' as [_ H5]; [by apply H5|done|done|apply ntohl_range|done]. }
    apply insert_run in H1' as (-> & Hst & Hw & Hj); [by eapply Hend|done|done|apply ntohl_range].
Qed.

Lemma rrep_received a s src dst ttl p h d sq o u s' :
  router a s → rrep_msg p h d sq o → 0 <= h < 255 → 0 <= ttl < 256 → dst ≠ AODV_BROADCAST →
  welcome a s src h d sq o →
  deliver src dst ttl p s = Ok u s' →
  ∃ s0 s1 hc fl, way s0 o = way s o ∧ router a s1 ∧ config s1 = config s ∧ sends s1 = sends s ∧
    rrep_in (recv_buf s1) h d sq o ∧
    way s1 d = Some (d, src, h + 1, sq, VALID) ∧ (∀ j, j ≠ d → j ≠ src → way s1 j = way s j) ∧
    (∀ ids, settling d ids s → released d ids s1) ∧
    rrep_finish d (rt_dest_addr <$> rt_lookup (rt_tbl s0) o) hc fl (o =? a) 20 ttl s1 = Ok u s'.
Proof.
  intros Hro (Hl & Hb & Hin) Hh Httl Hdst Hwe R.
  apply (deliver_run a) in R as (Hi1 & Ha1 & R); [|done|apply Hwe|done|done|lia].
  set (s1 := set_recv_buf _ s) in *. rewrite Hl in Ha1, R.
  assert (Hin1 : rrep_in (recv_buf s1) h d sq o) by by eapply rrep_in_agree.
  assert (Hro1 : router a s1) by (apply (router_config _ s); [done|done|done|apply Hro]).
  unfold aodv_socket_process_packet in R. peel R as t s2 H2. apply load8_run in H2 as [-> Ht].
  rewrite (rp_type _ _ _ _ _ Hin1) in Ht. injection Ht as <-.
  rewrite (proj2 (Z.eqb_neq _ _) Hdst), andb_false_r in R.
  cbn [AODV_RREQ AODV_RREP Z.eqb Pos.eqb andb] in R. peel R as [] s2 H2.
  assert (Hse2 : ∀ ids, settling d ids s → settling d ids s2) by
    (intros ids Hst; by eapply neighbor_settling in H2).
  apply neighbor_add_run in H2 as ((Hi2 & Hc2 & Ho2 & Hu2) & Hw2 & Hk2); [|done].
  apply calm_parts in Hc2 as (Hcf2 & Hh2 & Hn2 & Hrec2 & Hbl2 & Hrb2 & Hs2).
  assert (Hcf : config s2 = config s) by exact Hcf2.
  rewrite <- (the_if_config _ _ Hcf) in R.
  apply (rrep_process_run a _ _ _ h d sq o) in R as (s3 & hc & fl & ? & Hcf3 & Hs3 & ? & ? & Hw3 & Hrel & ?).
  - exists s2, s3, hc, fl. split_and!; try done.
    + rewrite Hw2; [done|]. apply Hwe.
    + by rewrite Hcf3.
    + by rewrite Hs3.
    + intros j Hj1 Hj2. by rewrite Hw3, Hw2 by done.
    + intros ids Hst. by apply Hrel, Hse2.
  - apply (router_config _ s); [done|done|done|apply Ho2, Hro1].
  - by rewrite Hrb2.
  - done.
  - destruct Hwe as [H1 H2 H3 H4 H5 H6]. split; [done|done| | |done|done].
    + unfold older in *. assert (known_seqno s2 d = known_seqno s d) as ->; [|done].
      destruct (decide (d = src)) as [->|Hne]; [exact Hk2|].
      unfold known_seqno. by rewrite Hw2.
    + destruct H4 as [?|[Hne Hf]]; [by left|right]. split; [done|]. unfold far in *. by rewrite Hw2.
Qed.

(** A RREP is passed on, with the hop count of the new route. *)
Lemma rrep_forward_run a s o nh hc q d nd hd qd h sq ttl u s' :
  router a s → rrep_in (recv_buf s) h d sq o → 0 <= ttl < 256 → 0 <= hd < 256 →
  way s o = Some (o, nh, hc, q, VALID) → way s d = Some (d, nd, hd, qd, VALID) →
  rrep_forward 20 (Some o) (Some d) ttl s = Ok u s' →
  (∃ p, sends s' = (0%nat, nh, ttl, p) :: sends s ∧ rrep_msg p hd d sq o) ∧
  (∀ j, way s' j = way s j) ∧ ifaces s' = ifaces s ∧ env s' = env s.
Proof.
  intros Hro Hin Httl Hhd Hwo Hwd R. unfold rrep_forward in R.
  peel R as u1 s1 H1. apply queue_msg_run in H1 as (E1 & Hl1 & Ha1 & Hb1); [|apply Hro|done].
  assert (Hin1 : rrep_in (send_buf s1) h d sq o) by by eapply rrep_in_agree.
  assert (Hw1 : ∀ j, way s1 j = way s j) by (intros j; by rewrite E1).
  peel R as f s2 H2. apply (way_deref s1 d f s2 d nd hd qd VALID) in H2 as (-> & _ & _ & Hf & _);
    [|by rewrite Hw1].
  peel R as r s2 H2. apply (way_deref s1 o r s2 o nh hc q VALID) in H2 as (-> & Hr & Hnh & _);
    [|by rewrite Hw1].
  rewrite Hf, Hnh in R. peel R as u2 s2 H2.
  apply (store_msg_run _ _ _ 20) in H2 as (b & -> & S & Hl & Hb); [|done|done]. peel_read R.
  assert (Hr' : rt_lookup (rt_tbl s) o = Some r) by by rewrite E1 in Hr.
  replace (ifindex2devindex _ _) with 0%nat in R
    by (symmetry; rewrite E1; exact (route_dev a s o r Hro Hr')).
  peel R as u3 s2 H2.
  assert (Hs2 : sends s2 = (0%nat, nh, ttl, take 20 b) :: sends s).
  { rewrite E1 in H2. eapply (send_run _ _ _ _ _ AODV_RREP) in H2;
      [|apply Hro| |apply under_limit_rrep].
    - rewrite H2. by rewrite (u8_small ttl) by lia.
    - cbn [send_buf set_send_buf]. by rewrite (load8_store8_ne _ _ _ _ 0 S), (rp_type _ _ _ _ _ Hin1) by lia. }
  assert (H2' : (∀ j, way s2 j = way s j) ∧ ifaces s2 = ifaces s ∧ env s2 = env s).
  { split_and!.
    - intros j. rewrite (way_frames _ _ _ _ j (routes_socket_send _ _ _ _) H2). apply Hw1.
    - rewrite (ifaces_send _ _ _ _ _ _ _ H2), E1. done.
    - rewrite (env_send _ _ _ _ _ _ _ H2), E1. done. }
  destruct H2' as (Hw2 & Hf2 & He2). split_and!.
  - exists (take 20 b). split.
    + rewrite <- Hs2. eassert (Hfr : frames calm _); [|apply Hfr, calm_parts in R; apply R]. inert_go.
    + split_and!; [by rewrite length_take, Hl|done|]. eapply rrep_in_agree; [apply agree_take|].
      destruct Hin1. split; load_simp; try done. by rewrite u8_small by lia.
  - intros j. rewrite <- Hw2. eapply way_frames; [|exact R]. frame_go.
  - rewrite <- Hf2. eassert (Hfr : frames ifaces _); [|by apply Hfr in R]. inert_go.
  - rewrite <- He2. eassert (Hfr : frames calm _); [|apply Hfr, calm_parts in R as [R _]; by injection R].
    inert_go.
Qed.

(** A node on the way back takes the route and passes the RREP on. *)
Lemma rrep_relayed a s src dst ttl p h d sq o nh hc q :
  router a s → has_room 2 s → rrep_msg p h d sq o → 0 <= h < 255 → 0 < ttl < 256 →
  dst ≠ AODV_BROADCAST → welcome a s src h d sq o → o ≠ a →
  way s o = Some (o, nh, hc, q, VALID) →
  ∃ s' p', deliver src dst ttl p s = Ok () s' ∧ router a s' ∧ grows 2 s s' ∧
    sends s' = (0%nat, nh, ttl - 1, p') :: sends s ∧ rrep_msg p' (h + 1) d sq o ∧
    way s' d = Some (d, src, h + 1, sq, VALID) ∧ (∀ j, j ≠ d → j ≠ src → way s' j = way s j).
Proof.
  intros Hro Hr Hp Hh Httl Hdst Hwe Hoa Hwo.
  destruct (deliver_completes a s src dst ttl p Hro Hr ltac:(apply Hp)
    (plain_rrep _ _ _ _ _ Hp)) as (s' & R & G & Hi' & Hcf).
  exists s'. assert (R' := R).
  eapply rrep_received in R as (s0 & s1 & hd & fl & Hw0 & Hro1 & Hcf1 & Hs1 & Hin1 & Hw1 & Hj1 & _ & R);
    [|done|done|done|lia|done|done].
  rewrite Hwo in Hw0. destruct (way_entry _ _ _ Hw0) as (r0 & Hr0 & _). rewrite Hr0 in R. simpl in R.
  rewrite (rt_lookup_dest _ _ _ Hr0) in R.
  assert (Hwo1 : way s1 o = Some (o, nh, hc, q, VALID)) by (rewrite Hj1; [done|apply Hwe..]).
  unfold rrep_finish in R. peel R as b1 s2 H2. apply load8_run in H2 as [-> H2].
  rewrite (rp_flags _ _ _ _ _ Hin1) in H2. injection H2 as <-. cbn [Z.testbit when] in R.
  peel R as u1 s2 H2. injection H2 as _ <-. rewrite (proj2 (Z.eqb_neq _ _) Hoa) in R.
  peel R as u2 s2 H2. peel H2 as v s3 H3.
  unfold rt_is_valid, rt_get in H3. peel H3 as e s4 H4.
  apply (way_deref s1 o e s4 o nh hc q VALID) in H4 as (-> & _ & _ & _ & _ & Hst); [|done].
  rewrite Hst in H3. injection H3 as <- <-. cbn [VALID Z.eqb Pos.eqb when] in H2.
  eapply (rrep_forward_run a) in H2 as ((p' & Hs' & Hp') & Hw' & Hf' & He'); [|done|done|lia| |done|done]; [|lia].
  apply no_hello_start in R as ->; [|unfold opts; rewrite He'; apply Hro1].
  exists p'. split_and!; [done| |done|congruence|done|congruence|intros j ??; by rewrite Hw', Hj1].
  apply (router_config _ s); [done|done|done|]. rewrite <- (the_if_config _ _ Hcf1).
  by eapply on_if_ifaces, Hro1.
Qed.

(** The end of the processing of a RREP leaves the packets alone. *)
Lemma waitroom_rrep_finish fwd rev h f us len ttl : frames waitroom (rrep_finish fwd rev h f us len ttl).
Proof.
  unfold rrep_finish, rrep_ack_create, rrep_repair_rerr, rrep_forward, rerr_create,
    rerr_dest_count, aodv_socket_new_msg, rt_is_valid, hello_start_if_optimized, hello_start,
    hello_send, hello_stop, hello_jitter, hello_send_on, hello_neighbor_set, rrep_create,
    aodv_socket_new_msg. frame_go.
Qed.

(** The originator takes the route, and the packets that waited for it are sent. *)
Lemma rrep_arrives a s src dst ttl p h d sq ids :
  router a s → has_room 2 s → rrep_msg p h d sq a → 0 <= h < 255 → 0 <= ttl < 256 →
  dst ≠ AODV_BROADCAST → welcome a s src h d sq a → settling d ids s →
  ∃ s', deliver src dst ttl p s = Ok () s' ∧
    way s' d = Some (d, src, h + 1, sq, VALID) ∧ (∀ j, j ≠ d → j ≠ src → way s' j = way s j) ∧
    released d ids s'.
Proof.
  intros Hro Hr Hp Hh Httl Hdst Hwe Hst.
  destruct (deliver_completes a s src dst ttl p Hro Hr ltac:(apply Hp)
    (plain_rrep _ _ _ _ _ Hp)) as (s' & R & _).
  exists s'. split; [done|].
  eapply rrep_received in R as (s0 & s1 & hd & fl & _ & _ & _ & _ & _ & Hw1 & Hj1 & Hrel & R);
    [|done|done|done|done|done|done].
  pose proof (λ j, way_frames _ _ _ _ j (routes_rrep_finish _ _ _ _ _ _ _) R) as Hw'.
  split_and!; [by rewrite Hw'|intros j ??; by rewrite Hw', Hj1|].
  apply Hrel in Hst. apply waitroom_rrep_finish in R as [= H1 H2 H3 H4].
  unfold released, sought, pending. by rewrite H1, H2, H4.
Qed.
