(* ===== verification/Report.v ===== *)
(** * Reports of broken links

    What [neighbor_link_break] tells the other nodes: the RERR lists the lost
    destinations that have precursors, each with its new sequence number, and goes to
    the only precursor of a single destination, or to everyone. *)

From S2P Require Import Prelude.
From S2P Require Import Params.
From S2P Require Import Bytes.
From S2P Require Import TimerQueue.
From S2P Require Import State.
From S2P Require Import Frame.
From S2P Require Import Nl.
From S2P Require Import RtTable.
From S2P Require Import Inv.
From S2P Require Import Total.
From S2P Require Import Socket.
From S2P Require Import Rerr.
From S2P Require Import Wire.
From S2P Require Import Steady.
From S2P Require Import Hop.

#[local] Open Scope cm_scope.

(** ** The destinations to report *)

(** A destination, the number to report, and the precursors of the route. *)
#[local] Abbreviation report := (Z * Z * list Z)%type.

(** The route to [j] when the link to [k] breaks; with [rep] it may be repaired instead. *)
Definition lost_route (s : state) (k : Z) (rep : bool) (j : Z) : option report :=
  match rt_lookup (rt_tbl s) j with
  | Some e =>
      if uses_hop k j e && negb (rep && (rt_hcnt e <=? MAX_REPAIR_TTL)) && negb (rt_nprec e =? 0)
      then Some (j, seqno_incr (rt_dest_seqno e), rt_precursors e) else None
  | None => None
  end.

(** The neighbour itself. *)
Definition lost_self (k : Z) (e : rt_table_t) : list report :=
  if negb (rt_nprec e =? 0) && negb (has (rt_flags e) RT_REPAIR)
  then [(k, if rt_state e =? INVALID then rt_dest_seqno e else seqno_incr (rt_dest_seqno e), rt_precursors e)]
  else [].

Definition unreachable (s : state) (k : Z) (e : rt_table_t) : list report :=
  lost_self k e ++ omap (lost_route s k (has (rt_flags e) RT_REPAIR)) (rt_keys s).

(** ** Collecting them *)

(** The locals and the send buffer hold the report [l]. *)
Definition gathers (l : list report) (acc : rerr_acc) (s : state) : Prop :=
  match l with
  | [] => acc = mk_rerr_acc false 0
  | (_, _, ps) :: rest =>
      acc_created acc = true ∧ rerr_holds (send_buf s) l.*1 ∧
      (rest = [] → acc_unicast acc = match ps with [p] => p | _ => 0 end)
  end.

(** What collecting leaves alone. *)
Definition outside (s : state) :=
  (env s, wait_on_reboot s, this_host s, dev_indices s, num_rerr s, sends s).
#[export] Instance outside_inert : inert outside.
Proof. by split. Qed.

Definition untouched (s s' : state) : Prop :=
  outside s' = outside s ∧ ifaces s' = ifaces s ∧ send_buf s' = send_buf s.

Lemma gathers_frame l acc s s' : send_buf s' = send_buf s → gathers l acc s → gathers l acc s'.
Proof. unfold gathers. by intros ->. Qed.

#[export] Instance send_buf_inert : inert send_buf.
Proof. by split. Qed.

Lemma untouched_inert {A} (m : M A) s a s' :
  (∀ C (g : state → C), inert g → frames g m) → m s = Ok a s' → untouched s s'.
Proof. intros Hf R. split_and!; by eapply Hf; [apply _|]. Qed.

(** One more destination. *)
Lemma include_run s f k e acc l :
  inv s → rt_lookup (rt_tbl s) k = Some e → rt_nprec e ≠ 0 → gathers l acc s → (length l <= 100)%nat →
  ∃ acc' b, rerr_include f k acc s = Ok acc' (set_send_buf b s) ∧
    gathers (l ++ [(k, rt_dest_seqno e, rt_precursors e)]) acc' (set_send_buf b s).
Proof.
  intros Hi He Hp Hl Hlen. unfold rerr_include.
  erewrite bind_ok by (unfold rt_deref; by rewrite He). rewrite (rt_lookup_dest _ _ _ He).
  pose proof (ok_nprec _ (rt_lookup_ok _ _ _ (inv_table _ Hi) He)) as Hn.
  destruct l as [|[[d q] ps] l].
  - assert (Hc : acc_created acc = false) by by rewrite Hl. rewrite Hc. cbn [negb].
    destruct (rerr_create_run s f k (rt_dest_seqno e)) as (b & Hrun & _ & Hh).
    do 2 eexists. split; [by erewrite bind_ok by exact Hrun|].
    split; [done|]. split; [exact Hh|intros _]. cbn [acc_unicast]. rewrite Hn, Hl.
    destruct (rt_precursors e) as [|p [|q ps]]; [done|done|].
    cbn [length]. by rewrite (proj2 (Z.eqb_neq _ _)) by lia.
  - destruct Hl as (Hc & Hh & _). rewrite Hc. cbn [negb].
    destruct (rerr_add_udest_run s (((d, q, ps) :: l).*1) k (rt_dest_seqno e) (inv_send _ Hi) Hh)
      as (b & Hrun & _ & Hh'); [rewrite length_fmap; cbn [length] in *; lia|].
    do 2 eexists. split; [by erewrite bind_ok by exact Hrun|].
    split; [done|]. split; [rewrite fmap_app; exact Hh'|].
    intros Hnil. by apply app_eq_nil in Hnil as [_ ?].
Qed.

(** What happened to the table and to the report. *)
Definition collected (l : list report) (acc : rerr_acc) (s s' : state) : Prop :=
  gathers l acc s' ∧ outside s' = outside s ∧ ifaces s' = ifaces s.

(** One entry. *)
Lemma entry_gathers s k er j e acc l acc' s' :
  inv s → rt_lookup (rt_tbl s) k = Some er → rt_lookup (rt_tbl s) j = Some e →
  gathers l acc s → (length l <= 100)%nat → link_break_entry k j acc s = Ok acc' s' →
  collected (l ++ option_list (lost_route s k (has (rt_flags er) RT_REPAIR) j)) acc' s s'.
Proof.
  intros Hi Hr He Hl Hlen R. unfold link_break_entry in R.
  peel R as er' s1 H1. apply deref_run in H1 as [-> Hr']. assert (er' = er) as -> by congruence.
  peel R as e' s1 H1. apply deref_run in H1 as [-> He']. assert (e' = e) as -> by congruence.
  rewrite (rt_lookup_dest _ _ _ Hr), (rt_lookup_dest _ _ _ He) in R.
  unfold lost_route. rewrite He. unfold uses_hop.
  destruct ((rt_state e =? VALID) && _ && _) eqn:Hu; cbn [andb].
  2:{ injection R as <- <-. rewrite app_nil_r. by split_and!. }
  assert (Hst : rt_state e ≠ INVALID).
  { rewrite !andb_true_iff, Z.eqb_eq in Hu. destruct Hu as [[-> _] _]. done. }
  destruct (has _ _ && _); cbn [negb andb].
  - rewrite app_nil_r. peel R as u1 s1 H1. peel R as u2 s2 H2. injection R as <- <-.
    apply untouched_inert in H1 as (O1 & F1 & B1); [|intros; inert_go].
    apply untouched_inert in H2 as (O2 & F2 & B2); [|intros; inert_go].
    split_and!; [|congruence..]. eapply gathers_frame; [|exact Hl]. congruence.
  - peel R as u1 s1 H1.
    destruct (wp_ok _ _ _ _ _ _ (rt_table_invalidate_eff j e Hst s Hi He) H1) as (Hi1 & _ & He1 & _).
    apply untouched_inert in H1 as (O1 & F1 & B1); [|intros; inert_go].
    apply (gathers_frame _ _ s s1) in Hl; [|done].
    peel R as n s2 H2. unfold rt_get in H2. peel H2 as e2 s3 H3. apply deref_run in H3 as [-> He2].
    assert (e2 = invalidated e) as -> by congruence. injection H2 as <- <-.
    change (rt_nprec (invalidated e)) with (rt_nprec e) in R. peel R as acc2 s3 H3.
    assert (Hc : collected (l ++ option_list (if negb (rt_nprec e =? 0)
        then Some (j, seqno_incr (rt_dest_seqno e), rt_precursors e) else None)) acc2 s1 s3).
    { destruct (rt_nprec e =? 0) eqn:Hn; cbn [negb option_list] in *.
      - injection H3 as <- <-. rewrite app_nil_r. by split_and!.
      - apply Z.eqb_neq in Hn. destruct (include_run s1 0 j (invalidated e) acc l) as (acc3 & b & R3 & Hg); try done.
        rewrite R3 in H3. injection H3 as <- <-. by split_and!. }
    destruct Hc as (Hg & O3 & F3). peel R as u2 s4 H4. injection R as <- <-.
    apply untouched_inert in H4 as (O4 & F4 & B4); [|intros; inert_go].
    split_and!; [|congruence..]. by eapply gathers_frame.
Qed.

(** All entries: what is reported of the later ones is as at the beginning. *)
Lemma lost_route_other s s' k rep j :
  rt_lookup (rt_tbl s') j = rt_lookup (rt_tbl s) j → lost_route s' k rep j = lost_route s k rep j.
Proof. unfold lost_route. by intros ->. Qed.

Lemma lost_routes_ext s s' k rep (js : list Z) :
  (∀ j, j ∈ js → lost_route s' k rep j = lost_route s k rep j) →
  omap (lost_route s' k rep) js = omap (lost_route s k rep) js.
Proof.
  induction js as [|j js IH]; intros H; [done|]. cbn. rewrite IH by (intros; apply H; by right).
  by rewrite H by left.
Qed.

Lemma loop_gathers k er keys : ∀ acc s l acc' s',
  inv s → rt_lookup (rt_tbl s) k = Some er → rt_state er = INVALID → live_all s keys → NoDup keys →
  gathers l acc s → (length l + length keys <= 101)%nat →
  foreach keys acc (link_break_entry k) s = Ok acc' s' →
  inv s' ∧ collected (l ++ omap (lost_route s k (has (rt_flags er) RT_REPAIR)) keys) acc' s s'.
Proof.
  induction keys as [|j keys IH]; intros acc s l acc' s' Hi Hr Hst Hl Hnd Hg Hlen R.
  - injection R as <- <-. cbn. rewrite app_nil_r. by split_and!.
  - apply Forall_cons in Hl as [[e He] Hl]. apply NoDup_cons in Hnd as [Hj Hnd]. cbn [foreach] in R.
    cbn [length] in Hlen. peel R as acc1 s1 H1.
    destruct (wp_ok _ _ _ _ _ _ (link_break_entry_eff k er j e acc s Hi Hr He) H1) as (Hi1 & Hx1 & He1 & Ho1).
    apply (entry_gathers s k er j e acc l) in H1 as (Hg1 & O1 & F1); [|done..|lia].
    assert (Hr1 : rt_lookup (rt_tbl s1) k = Some er).
    { destruct (decide (k = j)) as [->|Hne]; [|by rewrite Ho1].
      rewrite He1. f_equal. simplify_eq. unfold broken, uses_hop. by rewrite Hst. }
    assert (Hone : ∀ o : option report, (length (option_list o) <= 1)%nat) by (intros []; simpl; lia).
    apply (IH acc1 s1 (l ++ option_list (lost_route s k (has (rt_flags er) RT_REPAIR) j))) in R
      as (Hi' & Hg' & O' & F'); [|done|done|done|by eapply live_all_ext|done|done|
        rewrite length_app; pose proof (Hone (lost_route s k (has (rt_flags er) RT_REPAIR) j)); lia].
    split; [done|]. split_and!; [|congruence..].
    rewrite <- app_assoc, (lost_routes_ext s s1) in Hg'.
    + cbn. by destruct (lost_route s k _ j).
    + intros i Hin. apply lost_route_other, Ho1. set_solver.
Qed.

(** The neighbour. *)
Lemma self_gathers s k e acc s' :
  inv s → rt_lookup (rt_tbl s) k = Some e → link_break_self k s = Ok acc s' →
  collected (lost_self k e) acc s s'.
Proof.
  intros Hi He R. unfold link_break_self in R.
  set (e1 := if rt_state e =? INVALID then e else invalidated e).
  peel R as u1 s1 H1.
  assert (He1 : inv s1 ∧ rt_lookup (rt_tbl s1) k = Some e1).
  { unfold e1. destruct (rt_state e =? INVALID) eqn:Hst.
    - unfold rt_table_invalidate in H1. peel H1 as now s2 H2. apply clock_run in H2 as ->.
      peel H1 as e2 s2 H2. apply deref_run in H2 as [-> He2]. assert (e2 = e) as -> by (cbn in He2; congruence).
      rewrite Hst in H1. injection H1 as _ <-. split; [by destruct Hi|done].
    - by destruct (wp_ok _ _ _ _ _ _ (rt_table_invalidate_eff k e (proj1 (Z.eqb_neq _ _) Hst) s Hi He) H1)
        as (? & _ & ? & _). }
  destruct He1 as [Hi1 He1]. apply untouched_inert in H1 as (O1 & F1 & B1); [|intros; inert_go].
  peel R as e2 s2 H2. apply deref_run in H2 as [-> He2]. assert (e2 = e1) as -> by congruence.
  assert (Hf : rt_nprec e1 = rt_nprec e ∧ rt_flags e1 = rt_flags e ∧ rt_precursors e1 = rt_precursors e ∧
    rt_dest_seqno e1 = if rt_state e =? INVALID then rt_dest_seqno e else seqno_incr (rt_dest_seqno e))
    by (unfold e1; by destruct (rt_state e =? INVALID)).
  destruct Hf as (Hn & Hfl & Hp & Hsq). rewrite Hn, Hfl in R. peel R as acc2 s2 H2.
  assert (Hc : collected (lost_self k e) acc2 s1 s2).
  { unfold lost_self. destruct (_ && _) eqn:Hb.
    - rewrite andb_true_iff, !negb_true_iff, Z.eqb_neq in Hb. destruct Hb as [Hb _].
      destruct (include_run s1 0 k e1 (mk_rerr_acc false 0) []) as (acc3 & b & R3 & Hg);
        [done|done|congruence|done|simpl; lia|].
      rewrite R3 in H2. injection H2 as <- <-. rewrite Hsq, Hp in Hg. by split_and!.
    - injection H2 as <- <-. by split_and!. }
  destruct Hc as (Hg & O2 & F2). peel R as u3 s3 H3. injection R as <- <-.
  apply untouched_inert in H3 as (O3 & F3 & B3); [|intros; inert_go].
  split_and!; [|congruence..]. by eapply gathers_frame.
Qed.

(** ** Sending the report *)

(** The rate limiter lets [n] more RERRs pass. *)
Definition rerrs_left (n : nat) (s : state) : Prop :=
  ratelimit (opts s) = false ∨ num_rerr s + Z.of_nat n <= 9.

Lemma rerr_ratelimit_run n s pass s' :
  rerrs_left (S n) s → ratelimit_check AODV_RERR s = Ok pass s' →
  pass = true ∧ rerrs_left n s' ∧
  (env s', wait_on_reboot s', send_buf s', sends s') = (env s, wait_on_reboot s, send_buf s, sends s).
Proof.
  intros Hl R. assert (Hf : (env s', wait_on_reboot s', send_buf s', sends s') = (env s, wait_on_reboot s, send_buf s, sends s)).
  { assert (Hf : frames (λ s, (env s, wait_on_reboot s, send_buf s, sends s)) (ratelimit_check AODV_RERR)); [|by apply Hf in R].
    unfold ratelimit_check. frame_go. }
  unfold ratelimit_check in R. peel_read R. unfold rerrs_left, opts in *. injection Hf as He Hw Hb Hs. rewrite He.
  destruct (ratelimit (env_opts (env s))) eqn:Er; [|injection R as <- <-; split_and!; [done|by left|congruence]].
  destruct Hl as [?|Hl]; [done|]. peel R as now s1 H1. apply clock_run in H1 as ->. cbn [Z.eqb] in R.
  change (AODV_RERR =? AODV_RREQ) with false in R. change (AODV_RERR =? AODV_RERR) with true in R.
  cbv iota in R. do 2 peel_read R. unfold rate_limit, RERR_RATELIMIT in R. cbn in R.
  rewrite (proj2 (Z.eqb_neq _ _)) in R by lia. injection R as <- <-.
  split_and!; [done|right; cbn; lia|congruence].
Qed.

Lemma rerr_send_run n s dst len ttl dev u s' :
  sending s → load8 (send_buf s) 0 = Some AODV_RERR → rerrs_left (S n) s →
  aodv_socket_send dst len ttl dev s = Ok u s' →
  sends s' = (dev, dst, u8 ttl, take (Z.to_nat len) (send_buf s)) :: sends s ∧
  rerrs_left n s' ∧ sending s' ∧ send_buf s' = send_buf s.
Proof.
  intros Hse Ht Hl R. destruct (send_passed _ _ _ _ _ _ _ _ Hse Ht R) as (pass & s1 & H1 & Hs).
  apply (rerr_ratelimit_run n) in H1 as (Hp & Hl1 & [= E1 E2 E3 E4]); [|done].
  destruct (Hs Hp) as [Hs' Hn]; [by rewrite E1, E3, E4|].
  assert (Hf : frames (λ s, (env s, wait_on_reboot s, send_buf s)) (aodv_socket_send dst len ttl dev))
    by (unfold aodv_socket_send, ratelimit_check, sendto; frame_go).
  injection (Hf _ _ _ R) as F1 F2 F3. split_and!; [done| | |done].
  - unfold rerrs_left, opts in *. by rewrite F1, Hn, <- E1.
  - unfold sending. by rewrite F1, F2.
Qed.

Lemma rerr_send_all dst len ttl l : ∀ n s u s',
  sending s → load8 (send_buf s) 0 = Some AODV_RERR → rerrs_left (length l + n) s →
  foreach l () (λ i _, aodv_socket_send dst len ttl i) s = Ok u s' →
  sends s' = map (λ i, (i, dst, u8 ttl, take (Z.to_nat len) (send_buf s))) (reverse l) ++ sends s.
Proof.
  induction l as [|i l IH]; intros n s u s' Hse Ht Hl R.
  - by injection R as _ <-.
  - cbn [foreach] in R. peel R as [] s1 H1.
    destruct (rerr_send_run _ _ _ _ _ _ _ _ Hse Ht Hl H1) as (Hs1 & Hl1 & Hse1 & Hb1).
    rewrite (IH n s1 u s'); [|done|by rewrite Hb1|done|done].
    by rewrite Hb1, Hs1, reverse_cons, map_app, <- app_assoc.
Qed.

(** Where a report goes: interface and address. *)
Definition addressees (s : state) (l : list report) : list (nat * Z) :=
  match l with
  | [(_, _, [p])] =>
      match rt_lookup (rt_tbl s) p with
      | Some e => if p =? 0 then (λ i, (i, AODV_BROADCAST)) <$> enabled_devs s
                  else [(ifindex2devindex s (rt_ifindex e), p)]
      | None => (λ i, (i, AODV_BROADCAST)) <$> enabled_devs s
      end
  | _ => (λ i, (i, AODV_BROADCAST)) <$> enabled_devs s
  end.

Lemma addressees_same s s' l :
  outside s' = outside s → ifaces s' = ifaces s → addressees s' l = addressees s l.
Proof.
  intros [= _ _ Hh Hx _ _] Hf.
  assert (Hen : enabled_devs s' = enabled_devs s).
  { unfold enabled_devs. apply list_filter_iff. intros i. unfold DEV_NR. by rewrite Hh. }
  unfold addressees. rewrite Hen. destruct l as [|[[d q] [|p [|]]] [|]]; try done.
  apply (views_lookup ident fst ltac:(done) _ _ p) in Hf.
  destruct (rt_lookup (rt_tbl s') p) as [e'|], (rt_lookup (rt_tbl s) p) as [e|]; try done.
  injection Hf as _ ->. unfold ifindex2devindex. by rewrite Hh, Hx.
Qed.

Lemma transmit_run s acc l u s' :
  inv s → gathers l acc s → sending s → rerrs_left (length (addressees s l)) s →
  rerr_transmit acc s = Ok u s' →
  sends s' = (if decide (l = []) then [] else
    (λ '(i, a), (i, a, 1, take (Z.to_nat (RERR_CALC_SIZE (Z.of_nat (length l)))) (send_buf s)))
      <$> reverse (addressees s l)) ++ sends s.
Proof.
  intros Hi Hg Hse Hl R. unfold rerr_transmit in R. destruct l as [|[[d q] ps] l].
  { rewrite Hg in R. by injection R as _ <-. }
  destruct Hg as (Hc & (Ht & Hn & _) & Hu). rewrite Hc in R. cbn [when] in R.
  rewrite decide_False by done. rewrite length_fmap in Hn.
  peel R as r s1 H1. apply find_run in H1 as [-> ->]; [|done]. peel R as n s1 H1.
  unfold rerr_dest_count, send_load8 in H1. rewrite Hn in H1. injection H1 as <- <-.
  set (len := RERR_CALC_SIZE (Z.of_nat (length ((d, q, ps) :: l)))) in *.
  assert (Hall : ∀ u', (λ i, (i, AODV_BROADCAST)) <$> enabled_devs s = addressees s ((d, q, ps) :: l) →
    when (0 <? Z.of_nat (length ((d, q, ps) :: l))) (send_on_all AODV_BROADCAST len 1) s = Ok u' s' →
    sends s' = ((λ '(i, a), (i, a, 1, take (Z.to_nat len) (send_buf s)))
      <$> reverse (addressees s ((d, q, ps) :: l))) ++ sends s).
  { intros u' Ha R'. rewrite <- Ha in *. rewrite length_fmap in Hl.
    rewrite (proj2 (Z.ltb_lt _ _)) in R' by (cbn [length]; lia). cbn [when] in R'.
    unfold send_on_all in R'. peel_read R'.
    rewrite (rerr_send_all _ _ _ _ 0 _ _ _ Hse Ht ltac:(by rewrite Nat.add_0_r) R').
    by rewrite <- fmap_reverse, <- list_fmap_compose. }
  destruct (rt_lookup (rt_tbl s) (acc_unicast acc)) as [eu|] eqn:Hlk; cbn [fmap option_fmap option_map] in R.
  2:{ apply (Hall u); [|done]. unfold addressees. destruct ps as [|p [|]], l; try done.
      rewrite (Hu eq_refl) in Hlk. by rewrite Hlk. }
  destruct (_ && _) eqn:Hone in R.
  - rewrite andb_true_iff, negb_true_iff, Z.eqb_eq, Z.eqb_neq in Hone. destruct Hone as [Hone Hnz].
    destruct l as [|]; [|cbn [length] in Hone; lia]. specialize (Hu eq_refl).
    destruct ps as [|p [|]]; [done| |done]. rewrite Hu in *. subst p.
    rewrite (rt_lookup_dest _ _ _ Hlk) in R.
    assert (Ha : addressees s [(d, q, [acc_unicast acc])] = [(ifindex2devindex s (rt_ifindex eu), acc_unicast acc)]).
    { unfold addressees. rewrite Hlk. by rewrite (proj2 (Z.eqb_neq _ _) Hnz). }
    rewrite Ha in *. unfold rt_get in R. peel R as ifi s1 H1. peel H1 as e2 s2 H2.
    apply deref_run in H2 as [-> He2]. assert (e2 = eu) as -> by congruence. injection H1 as <- <-.
    peel_read R. by apply (rerr_send_run 0) in R as (-> & _).
  - apply (Hall u); [|done]. unfold addressees. destruct ps as [|p [|]], l; try done.
    rewrite (Hu eq_refl) in Hlk, Hone. rewrite Hlk. by destruct (p =? 0).
Qed.

(** A report is as long as its destinations need, so it can be cut off there. *)
Lemma rerr_holds_take b l :
  (1 <= length l)%nat → rerr_holds b l →
  rerr_holds (take (Z.to_nat (RERR_CALC_SIZE (Z.of_nat (length l)))) b) l.
Proof.
  intros Hn (Ht & Hc & Hl). unfold rerr_holds, udest_at, RERR_CALC_SIZE, RERR_SIZE, RERR_UDEST_SIZE in *.
  pose proof (agree_take (Z.to_nat (12 + (Z.of_nat (length l) - 1) * 8)) b) as Ha.
  split_and!; [by rewrite Ha by lia|by rewrite Ha by lia|]. intros i a n Hi.
  assert (Hlt : (i < length l)%nat) by by eapply lookup_lt_Some.
  destruct (Hl i a n Hi) as [H1 H2]. by rewrite !(agree32 _ _ _ _ Ha) by lia.
Qed.

Lemma rt_keys_ifaces s s' : ifaces s' = ifaces s → rt_keys s' = rt_keys s.
Proof.
  assert (Hk : ∀ s, rt_keys s = (concat (ifaces s)).*1).
  { intros s0. unfold rt_keys, ifaces, views. rewrite <- concat_map. apply (list_fmap_compose ident fst). }
  intros H. by rewrite !Hk, H.
Qed.

(** C8: a broken link is reported. With a table of at most 100 entries, sends that succeed, outside
    the wait after a reboot and with the rate limit not reached: the RERR lists exactly those of the
    neighbour and the valid routes through it that have precursors and are not to be repaired (as
    the neighbour is when it is marked for repair, and then also the routes of at most
    MAX_REPAIR_TTL hops), the neighbour first, each with its incremented sequence number (a
    neighbour that was invalid before with the number it had). When that is one destination with one
    precursor that has a route, the RERR is sent to the precursor on the interface of its route, and
    otherwise on every interface to everyone; when the list is empty, nothing is sent. *)
Theorem link_break_reports (s : state) (k : Z) (e : rt_table_t) :
  inv s → rt_lookup (rt_tbl s) k = Some e → rt_hcnt e = 1 → has_room 0 s → sending s →
  let l := unreachable s k e in
  rerrs_left (length (addressees s l)) s →
  ∃ s', neighbor_link_break k s = Ok () s' ∧
    (l = [] → sends s' = sends s) ∧
    (l ≠ [] → ∃ p, rerr_holds p l.*1 ∧
       sends s' = ((λ '(i, a), (i, a, 1, p)) <$> reverse (addressees s l)) ++ sends s).
Proof.
  intros Hi He Hh Hr Hse l Hleft.
  destruct (total_returns (Some 0%nat) [k] (neighbor_link_break k) s) as ([] & s' & R);
    [apply total_neighbor_link_break; left|done|apply Forall_singleton; by exists e|done|].
  exists s'. split; [done|]. unfold neighbor_link_break in R.
  peel R as e' s1 H1. apply deref_run in H1 as [-> He']. assert (e' = e) as -> by congruence.
  rewrite Hh in R. cbn [Z.eqb Pos.eqb negb] in R. peel R as acc s1 H1.
  destruct (wp_ok _ _ _ _ _ _ (lost_neighbor_eff k e s Hi He) H1) as (Hi1 & Hx1 & He1 & Ho1).
  apply (self_gathers s k e) in H1 as (Hg1 & O1 & F1); [|done|done].
  destruct (lost_neighbor_fields e) as (Hst & Hfl & _).
  peel_read R. rewrite (rt_keys_ifaces s s1 F1) in R. peel R as acc2 s2 H2.
  apply (loop_gathers k (lost_neighbor e) (rt_keys s) _ s1 (lost_self k e)) in H2 as (Hi2 & Hg2 & O2 & F2); try done.
  2:{ apply Forall_forall. intros j Hj. apply (ext_rt _ _ _ Hx1). by apply elem_of_rt_keys; [apply Hi|]. }
  2:{ apply rt_keys_nodup, Hi. }
  2:{ assert (length (lost_self k e) <= 1)%nat by (unfold lost_self; destruct (_ && _); simpl; lia).
      assert (length (rt_keys s) = rt_count s) by (unfold rt_keys; apply length_fmap).
      destruct Hr as [Hr _]. unfold MAX_REPORTED in Hr. lia. }
  rewrite Hfl, (lost_routes_ext s s1) in Hg2.
  2:{ intros j _. destruct (decide (j = k)) as [->|Hj]; [|by apply lost_route_other, Ho1].
      unfold lost_route. rewrite He, He1. unfold uses_hop. by rewrite Z.eqb_refl, !andb_false_r. }
  fold (unreachable s k e) in Hg2. fold l in Hg2. rewrite O1 in O2. rewrite F1 in F2.
  pose proof (addressees_same s s2 l O2 F2) as Ha. injection O2 as E1 E2 E3 E4 E5 E6.
  apply (transmit_run s2 acc2 l) in R; [|done|done|by unfold sending; rewrite E1, E2|].
  2:{ unfold rerrs_left, opts in *. by rewrite Ha, E1, E5. }
  rewrite Ha, E6 in R. split; intros Hl; [by rewrite decide_True in R|rewrite decide_False in R by done].
  assert (Hn : (1 <= length l)%nat) by (destruct l; [done|simpl; lia]).
  eexists. split; [|exact R]. rewrite <- (length_fmap fst l) in Hn |- *. apply rerr_holds_take; [done|].
  destruct l as [|[[d q] ps] l']; [done|]. apply Hg2.
Qed.
