(* ===== verification/Discovery.v ===== *)
(** * Route discovery along a path

    The RREQ of an originator travels from node to node until one of them can answer it,
    and the RREP travels back: then every node on the path has a route to the destination
    through its successor, and the originator sends the packets that waited for it. *)

From S2P Require Import Prelude.
From S2P Require Import Params.
From S2P Require Import Bytes.
From S2P Require Import TimerQueue.
From S2P Require Import State.
From S2P Require Import Frame.
From S2P Require Import Nl.
From S2P Require Import RtTable.
From S2P Require Import Inv.
From S2P Require Import Total.
From S2P Require Import PacketQueue.
From S2P Require Import SeekList.
From S2P Require Import Socket.
From S2P Require Import Rerr.
From S2P Require Import RtUpdate.
From S2P Require Import Rrep.
From S2P Require Import Rreq.
From S2P Require Import Timeouts.
From S2P Require Import PacketInput.
From S2P Require Import Daemon.
From S2P Require Import Progress.
From S2P Require Import Wire.
From S2P Require Import Steady.
From S2P Require Import Waiting.
From S2P Require Import Hop.

#[local] Open Scope cm_scope.

(** ** The originator *)

(** The state but for the send buffer and the counters of the host. *)
Definition others (s : state) := (config s, rt_tbl s, num_rreq s, sends s, waitroom s).

Lemma rreq_create_run s d dsq o u s' :
  0 <= d < 4294967296 → 0 <= dsq < 4294967296 → 0 <= o < 4294967296 → inv s →
  rreq_create 0 d dsq o s = Ok u s' →
  others s' = others s ∧ bytes_ok (send_buf s') ∧ inv s' ∧
  rreq_in (send_buf s') 0 (u32 (rreq_id (this_host s))) d dsq o (seqno_incr (seqno (this_host s))).
Proof.
  intros Hd Hq Ho Hi R. split_and!.
  - assert (Hf : frames others (rreq_create 0 d dsq o)); [|by eapply Hf].
    unfold rreq_create, aodv_socket_new_msg. frame_go.
  - assert (Hf : hold (λ _, True) (rreq_create 0 d dsq o) (λ _ s, bytes_ok (send_buf s)));
      [|by eapply Hf].
    unfold rreq_create. eapply hold_bind; [apply hold_bytes_new|intros ?; cbv beta].
    repeat first [ apply hold_bytes8 | apply hold_bytes32
                 | eapply (hold_bind _ _ _ (λ _ s, bytes_ok (send_buf s))); [|intros ?; cbv beta]
                 | apply hold_modify; intros ? H; exact H
                 | apply (hold_frames send_buf); [frame_go|intros ? ? ? ->; done] ].
  - eapply (wp_ok _ _ _ _ _ _ (safe_rreq_create Full [] 0 d dsq o s Hi ltac:(constructor))) in R.
    apply R.
  - destruct (rreq_roundtrip s 0 d dsq o) as (s1 & R1 & H1 & H2 & H3 & H4 & H5 & H6 & H7 & _ & H8 & _).
    rewrite R in R1. injection R1 as _ <-. rewrite !(u32_small d), (u32_small dsq), (u32_small o) in * by done.
    rewrite (u32_small (seqno_incr _)) in H7 by apply seqno_incr_range, Hi.
    split; try done. by apply H8.
Qed.

Lemma router_same a s s' :
  router a s → config s' = config s → rt_tbl s' = rt_tbl s → inv s' → router a s'.
Proof.
  intros Hro Hcf Ht Hi. apply (router_config _ s); [done|done|done|].
  intros k e. rewrite Ht. apply Hro.
Qed.

Lemma foreach_one {A B} (a : A) (acc : B) (body : A → B → M B) s :
  foreach [a] acc body s = (b ← body a acc; ret b) s.
Proof. done. Qed.

(** With one interface one RREQ is sent. *)
Lemma rreq_send_one a s d dsq ttl u s' :
  router a s → rreq_gratuitous (opts s) = false → rreq_send d dsq ttl 0 s = Ok u s' →
  ∃ s1, rreq_create 0 d dsq a s = Ok () s1 ∧
    aodv_socket_send AODV_BROADCAST RREQ_SIZE ttl 0 s1 = Ok () s'.
Proof.
  intros Hro Hg R. unfold rreq_send in R.
  apply bind_inv in R as (o & s1 & [= <- <-] & R). rewrite Hg in R. cbv zeta iota in R.
  apply bind_inv in R as (l & s1 & [= <- <-] & R). rewrite (ro_devs _ _ Hro) in R.
  rewrite foreach_one in R. apply bind_inv in R as ([] & s2 & R & [= _ <-]).
  apply bind_inv in R as (dev & s1 & [= <- <-] & R). rewrite (ro_addr _ _ Hro) in R.
  apply bind_inv in R as ([] & s1 & R1 & R). by exists s1.
Qed.

(** The RREQ of the originator. *)
Lemma rreq_send_run a s d dsq ttl u s' :
  router a s → 0 <= a < 4294967296 → 0 <= d < 4294967296 → 0 <= dsq < 4294967296 →
  0 <= ttl < 256 → under_limit AODV_RREQ s → rreq_gratuitous (opts s) = false →
  rreq_send d dsq ttl 0 s = Ok u s' →
  (∃ p, sends s' = (0%nat, AODV_BROADCAST, ttl, p) :: sends s ∧
     rreq_msg p 0 (u32 (rreq_id (this_host s))) d dsq a (seqno_incr (seqno (this_host s)))) ∧
  rt_tbl s' = rt_tbl s ∧ waitroom s' = waitroom s.
Proof.
  intros Hro Ha Hd Hq Httl Hlim Hg (s2 & H2 & H1)%(rreq_send_one a); [|done|done].
  apply rreq_create_run in H2 as (E2 & Hb & Hi2 & Hin); [|done..|apply Hro].
  injection E2 as He Hwr Hdv Hnf Hix Ht Hn Hs Hpq Hse Hnq Hve.
  assert (Hcf : config s2 = config s) by (unfold config; congruence).
  split_and!.
  - exists (take 24 (send_buf s2)). split.
    + eapply send_run in H1; [| |apply Hin|by apply (under_limit_config _ s)].
      * rewrite H1, Hs. by rewrite u8_small by lia.
      * eapply ro_sending, router_same; done.
    + split_and!; [by rewrite length_take, (inv_send _ Hi2)|by apply Forall_take|].
      by eapply rreq_in_agree; [apply agree_take|].
  - rewrite <- Ht. assert (Hf : frames rt_tbl (aodv_socket_send AODV_BROADCAST RREQ_SIZE ttl 0));
      [|by eapply Hf]. unfold aodv_socket_send, ratelimit_check, sendto. frame_go.
  - rewrite (waitroom_send _ _ _ _ _ _ _ H1). unfold waitroom. congruence.
Qed.

(** The TTL of the first RREQ. *)
Definition first_ttl (s : state) (d : Z) : Z :=
  if expanding_ring_search (opts s) then
    match way s d with Some (_, _, h, _, _) => h + TTL_INCREMENT | None => ttl_start (opts s) end
  else NET_DIAMETER.

(** An operation on the timers of a route. *)
Definition timers_only (s s' : state) : Prop :=
  inv s' ∧ calm s' = calm s ∧ rt_tbl s' = rt_tbl s ∧ waitroom s' = waitroom s.

Lemma discovery_asks s d rt now x s' :
  inv s → rt = rt_dest_addr <$> rt_lookup (rt_tbl s) d →
  match rt with
  | None => ret (0, if expanding_ring_search (opts s) then ttl_start (opts s) else NET_DIAMETER)
  | Some k =>
      e ← rt_deref k;
      keep_while_seeking k now ;;
      ret (rt_dest_seqno e,
           if expanding_ring_search (opts s) then rt_hcnt e + TTL_INCREMENT else NET_DIAMETER)
  end s = Ok x s' →
  x = (known_seqno s d, first_ttl s d) ∧ timers_only s s'.
Proof.
  intros Hi -> R. unfold known_seqno, first_ttl, way. destruct (rt_lookup (rt_tbl s) d) as [e|] eqn:He; simpl in R.
  - rewrite (rt_lookup_dest _ _ _ He) in R. peel R as e1 s1 H1. apply deref_run in H1 as [-> He1].
    assert (e1 = e) as -> by congruence. peel R as [] s1 H1. injection R as <- <-. split; [done|].
    assert (Hl : live_all s [d]) by (apply Forall_singleton; by exists e).
    destruct (wp_ok _ _ _ _ _ _ (safe_keep_while_seeking Full [d] d now ltac:(elem) s Hi Hl) H1) as (? & _).
    split_and!; [done|by eapply (inert_keep calm)| |].
    + assert (Hf : frames rt_tbl (keep_while_seeking d now)); [|by eapply Hf].
      unfold keep_while_seeking, rt_table_update_timeout. frame_go.
    + assert (Hf : frames waitroom (keep_while_seeking d now)); [|by eapply Hf].
      unfold keep_while_seeking. frame_go.
  - by injection R as <- <-.
Qed.

(** A discovery begins: the RREQ is sent, and the packets wait. *)
Lemma route_discovery_run a s d u s' :
  router a s → 0 <= a < 4294967296 → 0 <= d < 4294967296 → 0 <= first_ttl s d < 256 →
  under_limit AODV_RREQ s → rreq_gratuitous (opts s) = false → ¬ sought s d →
  rreq_route_discovery d 0 s = Ok u s' →
  (∃ p, sends s' = (0%nat, AODV_BROADCAST, first_ttl s d, p) :: sends s ∧
     rreq_msg p 0 (u32 (rreq_id (this_host s))) d (known_seqno s d) a
       (seqno_incr (seqno (this_host s)))) ∧
  rt_tbl s' = rt_tbl s ∧ sought s' d ∧ pending s' d = pending s d ∧ nfq_queue s' = nfq_queue s.
Proof.
  intros Hro Ha Hd Httl Hlim Hg Hns R.
  assert (Hsk : sought s' d) by by apply route_discovery_seeks in R.
  unfold rreq_route_discovery in R. pose proof (ro_inv _ _ Hro) as Hi.
  peel R as now s1 H1. apply clock_run in H1. assert (Hi1 : inv s1) by (subst s1; by destruct Hi).
  apply bind_inv in R as (o & s2 & [= <- <-] & R). unfold seek_list_find in R.
  apply bind_inv in R as (x & s2 & [= <- <-] & R). rewrite bool_decide_eq_false_2 in R.
  2:{ intros [x Hx]. destruct Hns. apply seek_lookup_elem. apply fmap_Some in Hx as (y & Hy & _).
      subst s1. by exists y. }
  peel R as rt s2 H2. apply find_run in H2 as [-> ->]; [|done].
  peel R as [dsq ttl] s2 H2. apply (discovery_asks s1 d) in H2 as ([= -> ->] & Hi2 & Hc2 & Ht2 & Hw2); [|done|done].
  replace (known_seqno s1 d) with (known_seqno s d) in R by by subst s1.
  replace (first_ttl s1 d) with (first_ttl s d) in R by by subst s1.
  assert (Hc : calm s2 = calm s) by (rewrite Hc2; by subst s1).
  assert (Ht : rt_tbl s2 = rt_tbl s) by (rewrite Ht2; by subst s1).
  assert (Hw : waitroom s2 = waitroom s) by (rewrite Hw2; by subst s1).
  clear H1 Hi1 Hc2 Ht2 Hw2. apply calm_parts in Hc as (Hcf & Hh & Hn & _ & _ & _ & Hs).
  assert (Hdq : 0 <= known_seqno s d < 4294967296).
  { unfold known_seqno, way. destruct (rt_lookup (rt_tbl s) d) as [e|] eqn:He; [|done].
    simpl. by eapply ok_seqno, rt_lookup_ok; [apply Hi|]. }
  peel R as [] s3 H3. apply (rreq_send_run a) in H3 as ((p & Hp & Hm) & Ht3 & Hw3); try done.
  2:{ by apply (router_same a s). }
  2:{ by apply (under_limit_config _ s). }
  2:{ unfold opts. by injection Hcf as -> _ _ _ _. }
  rewrite Hh in Hm. rewrite Hs in Hp. rewrite Ht in Ht3. rewrite Hw in Hw3.
  assert (Hend : ∀ {C} (g : state → C), (∀ s q, g (set_tq q s) = g s) →
    (∀ s l, g (set_seekhead l s) = g s) → (∀ s n, g (set_clock_reads n s) = g s) → g s' = g s3).
  { intros C g Hg1 Hg2 Hg3. eassert (Hf : frames g _); [|by apply Hf in R].
    unfold seek_list_insert, set_timeout, gettimeofday.
    repeat first [ apply frames_modify; intros; solve [auto] | apply frames_on_tq; auto | frame_step ]. }
  split_and!; [|by rewrite (Hend _ rt_tbl)|done| |].
  - exists p. split; [|done]. by rewrite (Hend _ sends).
  - injection Hw3 as Hpq _ _ _. unfold pending. by rewrite (Hend _ PQ), Hpq.
  - injection Hw3 as _ _ Hnq _. by rewrite (Hend _ nfq_queue), Hnq.
Qed.

(** A packet of this node for [d] that the daemon has to find a route for. *)
Record to_route (s : state) (n : nf_packet) (id d : Z) : Prop := {
  tr_hdr : ∃ hook, nf_hdr n = Some (id, hook) ∧ hook ≠ NF_INET_FORWARD ∧
    ∃ p, nf_payload n = Some p ∧ 20 <= Z.of_nat (length p) ∧ ip_ihl p * 4 <= Z.of_nat (length p) ∧
      packet_exempt s p hook (nf_indev n) (nf_outdev n) = false ∧
      ip_protocol p ≠ IPPROTO_TCP ∧ ip_daddr p = d;
  tr_unusable : usable (rt_lookup (rt_tbl s) d) = false;
  tr_repair : repairing (rt_lookup (rt_tbl s) d) = false
}.

(** The packet is queued last. *)
Lemma queue_add_run s id d u s' :
  inv s → pq_len (PQ s) < MAX_QUEUE_LENGTH → packet_queue_add id d s = Ok u s' →
  inv s' ∧ calm s' = calm s ∧ rt_tbl s' = rt_tbl s ∧ seekhead s' = seekhead s ∧
  nfq_queue s' = nfq_queue s ∧ pending s' d = pending s d ++ [id].
Proof.
  intros Hi Hlen R.
  destruct (wp_ok _ _ _ _ _ _ (safe_packet_queue_add Full [] id d s Hi ltac:(constructor)) R) as (Hi' & _).
  unfold packet_queue_add in R. apply bind_inv in R as (q & s1 & [= <- <-] & R).
  peel R as u1 s1 H1. assert (s1 = s) as ->.
  { destruct (pq_head (PQ s)); [by injection H1|]. rewrite (proj2 (Z.leb_gt _ _)) in H1 by lia. by injection H1. }
  peel R as now s2 H2. apply clock_run in H2 as ->. injection R as _ <-. split; [done|].
  split_and!; try done. unfold pending.
  cbn [PQ set_PQ pq_head set_clock_reads]. rewrite filter_app, fmap_app. f_equal.
  rewrite filter_cons_True by apply Z.eqb_refl. done.
Qed.

Lemma routes_to_way s s' j :
  rt_tbl s' = rt_tbl s → known_seqno s' j = known_seqno s j ∧ way s' j = way s j.
Proof. unfold known_seqno, way. by intros ->. Qed.

Lemma found_live s d : live_all s (option_list (rt_dest_addr <$> rt_lookup (rt_tbl s) d)).
Proof.
  destruct (rt_lookup (rt_tbl s) d) as [e|] eqn:He; simpl; [|constructor].
  apply Forall_singleton. rewrite (rt_lookup_dest _ _ _ He). by exists e.
Qed.

Lemma timers_only_refresh s f r u s' :
  inv s → live_all s (option_list f ++ option_list r) →
  rt_table_update_route_timeouts f r s = Ok u s' → timers_only s s'.
Proof.
  intros Hi Hl R.
  assert (Hs : safe Full (option_list f ++ option_list r) (rt_table_update_route_timeouts f r) nop)
    by (apply safe_update_route_timeouts; set_solver).
  destruct (wp_ok _ _ _ _ _ _ (Hs s Hi Hl) R) as (? & _). split_and!; [done| | |].
  - by eapply (inert_route_timeouts calm).
  - assert (Hf : frames rt_tbl (rt_table_update_route_timeouts f r)); [|by eapply Hf].
    unfold rt_table_update_route_timeouts, rt_is_valid, refresh_route, rt_table_update_timeout. frame_go.
  - assert (Hf : frames waitroom (rt_table_update_route_timeouts f r)); [|by eapply Hf].
    unfold rt_table_update_route_timeouts, rt_is_valid, refresh_route. frame_go.
Qed.

(** A packet without a usable route is queued and looked for. *)
Lemma dispatch_run s id d src hook ifi rev act s' :
  inv s → hook ≠ NF_INET_FORWARD → usable (rt_lookup (rt_tbl s) d) = false →
  repairing (rt_lookup (rt_tbl s) d) = false →
  packet_input_dispatch id d src hook ifi 0 (rt_dest_addr <$> rt_lookup (rt_tbl s) d) rev s = Ok act s' →
  act = PACKET_INPUT_QUEUED ∧
  ∃ s1, packet_queue_add id d s = Ok () s1 ∧ rreq_route_discovery d 0 s1 = Ok () s'.
Proof.
  intros Hi Hhook Hus Hre R. unfold packet_input_dispatch in R. peel R as [us re] s1 H1.
  assert (us = false ∧ re = false ∧ s1 = s) as (-> & -> & ->).
  { destruct (rt_lookup (rt_tbl s) d) as [e|] eqn:He; simpl in H1; [|by injection H1 as <- <- <-].
    rewrite (rt_lookup_dest _ _ _ He) in H1. peel H1 as e1 s2 H2. apply deref_run in H2 as [-> He1].
    assert (e1 = e) as -> by congruence. injection H1 as <- <- <-. by split_and!. }
  rewrite (proj2 (Z.eqb_neq _ _) Hhook) in R. cbn [negb andb] in R.
  peel R as [] s1 H2. peel R as [] s2 H3. injection R as <- <-. split; [done|]. exists s1. split; [done|].
  destruct (rt_lookup (rt_tbl s) d) as [e|] eqn:He; simpl in H3; done.
Qed.

(** A packet without a route starts a discovery, and waits. *)
Lemma packet_starts a s n id d :
  router a s → has_room 2 s → 0 <= a < 4294967296 → 0 <= d < 4294967296 →
  0 <= first_ttl s d < 256 → under_limit AODV_RREQ s → rreq_gratuitous (opts s) = false →
  ¬ sought s d → nfq_queue s = true → pq_len (PQ s) < MAX_QUEUE_LENGTH → to_route s n id d →
  ∃ s' p, run_callback (InNfqueue [n]) s = Ok () s' ∧ router a s' ∧ grows 2 s s' ∧
    sends s' = (0%nat, AODV_BROADCAST, first_ttl s d, p) :: sends s ∧
    rreq_msg p 0 (u32 (rreq_id (this_host s))) d (known_seqno s d) a
      (seqno_incr (seqno (this_host s))) ∧
    rt_tbl s' = rt_tbl s ∧ waiting d (pending s d ++ [id]) s'.
Proof.
  intros Hro Hr Ha Hd Httl Hlim Hg Hns Hnq Hlen [(hook & Hhdr & Hhook & p & Hpl & Hl1 & Hl2 & Hex & Htcp & Hdd) Hus Hre].
  pose proof (ro_inv _ _ Hro) as Hi.
  assert (Hworb : wait_on_reboot s = false) by apply Hro.
  destruct (completes_wp _ _ _ _ _ (run_callback_completes s (InNfqueue [n]) Hi Hr Hworb I)
    (run_callback_spec (InNfqueue [n]) s I Hi)) as ([] & s' & R & G & Hi' & Hx).
  exists s'. assert (R' := R). unfold run_callback in R. rewrite foreach_one in R.
  apply bind_inv in R as ([] & s1 & R & [= <-]). unfold nfqueue_packet_cb in R. rewrite Hhdr in R.
  peel R as act s2 H2. unfold packet_input_handle_packet in H2. rewrite Hpl in H2.
  rewrite (proj2 (Z.ltb_ge _ _) Hl1), (proj2 (Z.ltb_ge _ _) Hl2) in H2.
  apply bind_inv in H2 as (pass & s3 & [= <- <-] & H2). rewrite Hex in H2.
  rewrite (proj2 (Z.eqb_neq _ _) Htcp), Hdd in H2.
  peel H2 as rev s3 H3. apply find_run in H3 as [-> ->]; [|done].
  peel H2 as fwd s3 H3. apply find_run in H3 as [-> ->]; [|done].
  peel H2 as u3 s3 H3. apply timers_only_refresh in H3 as (Hi3 & Hc3 & Ht3 & Hw3); [|done|].
  2:{ apply Forall_app. split; apply found_live. }
  rewrite <- Ht3 in H2, Hus, Hre. apply dispatch_run in H2 as (-> & s4 & H4 & H5); [|done..].
  injection R as <-.
  injection Hw3 as Hpq Hsk Hnf _. apply calm_parts in Hc3 as (Hcf3 & Hh3 & Hn3 & _ & _ & _ & Hs3).
  apply queue_add_run in H4 as (Hi4 & Hc4 & Ht4 & Hsk4 & Hnf4 & Hp4); [|done|by rewrite Hpq].
  apply calm_parts in Hc4 as (Hcf4 & Hh4 & Hn4 & _ & _ & _ & Hs4).
  assert (Ht : rt_tbl s4 = rt_tbl s) by congruence.
  assert (Hcf : config s4 = config s) by congruence.
  assert (Hft : first_ttl s4 d = first_ttl s d).
  { unfold first_ttl, way, opts. rewrite Ht. by injection Hcf as -> _ _ _ _. }
  apply (route_discovery_run a) in H5 as ((m & Hm & Hmm) & Ht5 & Hsk5 & Hp5 & Hnf5); try done.
  - exists m. rewrite Hft in Hm. rewrite Hh4, Hh3, (proj1 (routes_to_way s _ d Ht)) in Hmm. split_and!; try done.
    + apply (router_same a s); [done| |congruence|done]. unfold config. destruct Hx.
      destruct (ro_sending _ _ Hro) as [_ Hw]. rewrite (proj1 (proj2 G) Hw). congruence.
    + congruence.
    + congruence.
    + split_and!; [done| |congruence]. rewrite Hp5, Hp4. unfold pending. by rewrite Hpq.
  - by apply (router_same a s).
  - by rewrite Hft.
  - apply (under_limit_config _ s); [done|congruence|done].
  - unfold opts. by injection Hcf as -> _ _ _ _.
  - unfold sought. by rewrite Hsk4, Hsk.
Qed.

(** ** The path *)

(** [to] hears the last message that [from] has sent. *)
Definition hears (from to : state) : option state :=
  match sends from with
  | (dev, dst, ttl, p) :: _ =>
      match deliver (dev_ipaddr (DEV_NR from dev)) dst ttl p to with
      | Ok _ s => Some s
      | _ => None
      end
  | [] => None
  end.

(** The RREQ that [from] has sent goes along the path, and the RREP of the last node comes
    back to the first one. *)
Fixpoint discover (from : state) (path : list state) : option (list state) :=
  match path with
  | [] => None
  | [r] => r ← hears from r; Some [r]
  | r :: path =>
      r ← hears from r;
      path ← discover r path;
      next ← head path;
      r ← hears next r;
      Some (r :: path)
  end%stdpp.

Section path.
(** The originator, the destination, the number and the sequence number of the RREQ, and the
    hop count and the sequence number that the last node knows for the destination. *)
Context (o d id osq hd sq : Z) (Hdo : d ≠ o).

(** The node cannot answer. *)
Definition no_route (s : state) : Prop :=
  match way s d with Some (_, _, _, q, st) => st ≠ VALID ∨ q = 0 | None => True end.

(** The node can: it is the destination, or has a valid route to it. *)
Definition can_tell (a : Z) (s : state) : Prop :=
  d = a ∧ hd = 0 ∧ sq = seqno (this_host s) ∨
  d ≠ a ∧ (∃ nd, way s d = Some (d, nd, hd, sq, VALID)) ∧ sq ≠ 0 ∧ 0 <= int32 sq.

(** A path of nodes, with their addresses: the RREQ comes from [b] with the hop count [h].  All
    but the last relay it, what they know of the destination is older than what the last one
    tells, and only a neighbour may be known as one. *)
Inductive path_ok : Z → Z → list (Z * state) → Prop :=
  | path_last b h a s :
      router a s → has_room 2 s → 0 <= a < 4294967296 → unseen a s b h id o osq → d ≠ b →
      one_way s o = false → can_tell a s → path_ok b h [(a, s)]
  | path_relay b h a s a' s' path :
      router a s → has_room 4 s → unseen a s b h id o osq → a ≠ AODV_BROADCAST → d ≠ a → d ≠ b →
      under_limit AODV_RREQ s → no_route s → older s d sq → a' = d ∨ far s d →
      o ≠ a' → a ≠ a' → path_ok a (h + 1) ((a', s') :: path) →
      path_ok b h ((a, s) :: (a', s') :: path).

(** All nodes but the last have a valid route to [d] through their successor. *)
Inductive led : list (Z * state) → list state → Prop :=
  | led_last a s r : led [(a, s)] [r]
  | led_cons a s a' s' path r rs :
      way r d = Some (d, a', hd + Z.of_nat (S (length path)), sq, VALID) →
      led ((a', s') :: path) rs → led ((a, s) :: (a', s') :: path) (r :: rs).

(** What is asked for is not more than the last node can tell. *)
Definition modest (dsq : Z) : Prop := dsq = 0 ∨ int32 dsq < int32 sq.

Lemma can_tell_answers a s dsq : can_tell a s → modest dsq → answers a s d dsq hd sq.
Proof.
  intros [(Hd & Hh & Hs)|(? & ? & ? & ?)] Hm; [left|right; split_and!; try done].
  - split_and!; [done|done|]. rewrite <- Hs. unfold dest_seqno_update. destruct (dsq =? 0) eqn:E0; [done|].
    apply Z.eqb_neq in E0. destruct Hm as [?|Hm]; [done|]. cbn [negb].
    rewrite (proj2 (Z.ltb_ge _ _)) by lia. destruct (sq =? dsq) eqn:Ed; [|done].
    apply Z.eqb_eq in Ed. rewrite Ed in Hm. lia.
  - destruct Hm as [->|?]; [done|lia].
Qed.

Lemma no_route_cannot s dsq : no_route s → cannot_answer s d dsq.
Proof. unfold no_route, cannot_answer. repeat case_match; tauto. Qed.

Lemma next_is_dest b h a s path : path_ok b h ((a, s) :: path) → a = d → path = [] ∧ hd = 0.
Proof.
  intros Hp ->. inversion Hp as [? ? ? ? ? ? ? ? ? ? Hc|]; subst; [|done]. split; [done|].
  destruct Hc as [(_ & ? & _)|[? _]]; done.
Qed.

Lemma hears_run from to dev dst ttl p rest s :
  sends from = (dev, dst, ttl, p) :: rest →
  deliver (dev_ipaddr (DEV_NR from dev)) dst ttl p to = Ok () s → hears from to = Some s.
Proof. unfold hears. by intros -> ->. Qed.

(** The node [r] has sent the RREP to [b]: it has come over [n] hops. *)
Definition replied (b a : Z) (n : nat) (r : state) : Prop :=
  ∃ p rest, sends r = (0%nat, b, 256 - Z.of_nat n, p) :: rest ∧ dev_ipaddr (DEV_NR r 0) = a ∧
    rrep_msg p (hd + Z.of_nat n - 1) d sq o.

Lemma modest_known s : older s d sq → modest (known_seqno s d).
Proof. done. Qed.

(** The last node answers. *)
Lemma last_answers b h a s f ttl p dsq rest :
  path_ok b h [(a, s)] → sends f = (0%nat, AODV_BROADCAST, ttl, p) :: rest → dev_ipaddr (DEV_NR f 0) = b →
  rreq_msg p h id d dsq o osq → modest dsq → 0 <= h < 255 → 0 <= ttl < 256 →
  ∃ r, hears f s = Some r ∧ replied b a 1 r.
Proof.
  intros Hp Hf Hb Hm Hq Hh Httl.
  inversion Hp as [? ? ? ? Hro Hr Ha Hun Hdb Hu Hc|]; subst; clear Hp.
  destruct (rreq_answered a s (dev_ipaddr (DEV_NR f 0)) ttl p h id d dsq o osq hd sq)
    as (r & p' & R & Hro' & _ & Hs & Hp' & _); try done.
  { by apply can_tell_answers. }
  exists r. split; [by eapply hears_run|]. exists p', (sends s). split_and!; [done|apply Hro'|].
  by replace (hd + Z.of_nat 1 - 1) with hd by lia.
Qed.

(** A node before the last relays the RREQ, and waits for the RREP. *)
Definition relayed (b a h : Z) (s r : state) : Prop :=
  router a r ∧ has_room 2 r ∧ way r o = Some (o, b, h + 1, osq, VALID) ∧ way r d = way s d.

Lemma relay_relays b h a s a' s' path f ttl p dsq rest :
  path_ok b h ((a, s) :: (a', s') :: path) →
  sends f = (0%nat, AODV_BROADCAST, ttl, p) :: rest → dev_ipaddr (DEV_NR f 0) = b →
  rreq_msg p h id d dsq o osq → modest dsq → 0 <= h < 255 → 1 < ttl < 256 →
  ∃ r p' dsq', hears f s = Some r ∧ relayed b a h s r ∧
    sends r = (0%nat, AODV_BROADCAST, ttl - 1, p') :: sends s ∧
    rreq_msg p' (h + 1) id d dsq' o osq ∧ modest dsq'.
Proof.
  intros Hp Hf Hb Hm Hq Hh Httl.
  inversion Hp as [|? ? ? ? ? ? ? Hro Hr Hun Hbc Hda Hdb Hlim Hn Hold Hfar]; subst; clear Hp.
  destruct (rreq_relayed a s (dev_ipaddr (DEV_NR f 0)) ttl p h id d dsq o osq)
    as (r & p' & dsq' & R & Hro' & G & Hs & Hp' & Hq' & Hw & Hj); try done.
  { eapply has_room_le; [done|lia]. }
  { by apply no_route_cannot. }
  exists r, p', dsq'. split_and!; [by eapply hears_run| |done|done|].
  - split_and!; [done|by eapply (has_room_grows 2 2)|done|by apply Hj].
  - destruct Hq' as [->| ->]; [done|]. by apply modest_known.
Qed.

(** The RREP comes back to it. *)
Lemma relay_returns b h a s a' s' path r n :
  path_ok b h ((a, s) :: (a', s') :: path) → relayed b a h s r → replied a a' (S (length path)) n →
  0 <= hd → hd + Z.of_nat (length path) < 254 →
  ∃ r', hears n r = Some r' ∧ replied b a (S (S (length path))) r' ∧
    way r' d = Some (d, a', hd + Z.of_nat (S (length path)), sq, VALID).
Proof.
  intros Hp (Hro' & Hr' & Hw & Hwd) (p & rest & Hs & Ha & Hm) Hh0 Hh.
  inversion Hp as [|? ? ? ? ? ? ? Hro Hr Hun Hbc Hda Hdb Hlim Hn Hold Hfar Hoa' Haa' Hp']; subst.
  replace (hd + Z.of_nat (S (length path)) - 1) with (hd + Z.of_nat (length path)) in Hm by lia.
  destruct (rrep_relayed a r (dev_ipaddr (DEV_NR n 0)) a (256 - Z.of_nat (S (length path))) p
    (hd + Z.of_nat (length path)) d sq o b (h + 1) osq)
    as (r' & p' & R & Hro'' & _ & Hs' & Hm' & Hwd' & _); try done; try lia.
  - split; [done|done| | |done|done].
    + unfold older, known_seqno in *. by rewrite Hwd.
    + destruct (decide (dev_ipaddr (DEV_NR n 0) = d)) as [Hd|Hd].
      * left. destruct (next_is_dest _ _ _ _ _ Hp' Hd) as [-> ->]. by split.
      * right. split; [done|]. destruct Hfar as [?|Hfar]; [done|]. unfold far in *. by rewrite Hwd.
  - apply Hun.
  - exists r'. split_and!.
    + by eapply hears_run.
    + exists p', (sends r). split_and!; [|apply Hro''|].
      { by replace (256 - Z.of_nat (S (S (length path)))) with (256 - Z.of_nat (S (length path)) - 1) by lia. }
      by replace (hd + Z.of_nat (S (S (length path))) - 1) with (hd + Z.of_nat (length path) + 1) by lia.
    + by replace (hd + Z.of_nat (S (length path))) with (hd + Z.of_nat (length path) + 1) by lia.
Qed.

(** The RREQ goes along the whole path, and the RREP comes back. *)
Lemma discover_ok path : ∀ b h f ttl p dsq rest,
  path_ok b h path → sends f = (0%nat, AODV_BROADCAST, ttl, p) :: rest → dev_ipaddr (DEV_NR f 0) = b →
  rreq_msg p h id d dsq o osq → modest dsq → 0 <= h → h + Z.of_nat (length path) <= 255 →
  0 <= hd → hd + Z.of_nat (length path) <= 255 → Z.of_nat (length path) <= ttl < 256 →
  ∃ a s path' r rs, path = (a, s) :: path' ∧ discover f path.*2 = Some (r :: rs) ∧
    led path (r :: rs) ∧ replied b a (length path) r.
Proof.
  induction path as [|[a s] path IH]; intros b h f ttl p dsq rest Hp Hf Hb Hm Hq Hh Hhl Hd0 Hdl Httl;
    [by inversion Hp|].
  destruct path as [|[a' s'] path].
  - destruct (last_answers b h a s f ttl p dsq rest) as (r & Hr & Hrep); try done; simpl in *; try lia.
    exists a, s, [], r, []. rewrite Hr. by split_and!; [| |constructor|].
  - destruct (relay_relays b h a s a' s' path f ttl p dsq rest)
      as (r & p' & dsq' & Hr & Hrel & Hs & Hp' & Hq'); try done; simpl in *; try lia.
    assert (Hpa : path_ok a (h + 1) ((a', s') :: path)) by by inversion Hp.
    destruct (IH a (h + 1) r (ttl - 1) p' dsq' (sends s)) as (a1 & s1 & path1 & r1 & rs & [= <- <- <-] & Hdi & Hled & Hrep);
      try done; try lia; [apply Hrel|].
    destruct (relay_returns b h a s a' s' path r r1) as (r' & Hr' & Hrep' & Hw'); try done; try lia.
    exists a, s, ((a', s') :: path), r', (r1 :: rs). rewrite Hr. simpl in *. rewrite Hdi. simpl. rewrite Hr'.
    split_and!; [done|done|by constructor|done].
Qed.
End path.

