(* ===== verification/Network.v ===== *)
(** * A network of daemons

    Several nodes run [aodvd] and receive nothing on their AODV sockets but each
    other's messages.  The medium is as bad as can be: a message may be lost, delayed,
    duplicated, reordered, and heard by any node with any TTL.  Every node routes
    whatever packets its kernel hands it, and its timers run out at any time. *)

From S2P Require Import Prelude.
From S2P Require Import Params.
From S2P Require Import Bytes.
From S2P Require Import TimerQueue.
From S2P Require Import State.
From S2P Require Import Frame.
From S2P Require Import Nl.
From S2P Require Import NlRecv.
From S2P Require Import RtTable.
From S2P Require Import Inv.
From S2P Require Import Total.
From S2P Require Import PacketQueue.
From S2P Require Import SeekList.
From S2P Require Import Socket.
From S2P Require Import Rerr.
From S2P Require Import RtUpdate.
From S2P Require Import Rrep.
From S2P Require Import Rreq.
From S2P Require Import Timeouts.
From S2P Require Import PacketInput.
From S2P Require Import Daemon.
From S2P Require Import Progress.
From S2P Require Import Wire.

#[local] Open Scope cm_scope.

(** The nodes by name. *)
Abbreviation network := (gmap Z state).

(** [p] was sent from the interface address [src]. *)
Definition on_air (N : network) (src : Z) (p : list Z) : Prop :=
  ∃ b sb dev dst ttl, N !! b = Some sb ∧ EvSend dev dst ttl p ∈ trace sb ∧
    src = dev_ipaddr (DEV_NR sb dev).

(** What node [s] can be given in the network [N]. *)
Definition receivable (N : network) (s : state) (i : input) : Prop :=
  match i with
  | InAodv fd (Some m) => is_Some (devfromsock s fd) ∧ on_air N (dg_src m) (dg_bytes m)
  | InNetlink (Some d) => ∃ l, kernel_msg d l
  | _ => True
  end.

(** One node takes a turn of its main loop. *)
Inductive net_step : network → network → Prop :=
  | net_turn N a s inputs t s' :
      N !! a = Some s → Forall (receivable N s) inputs →
      main_loop_step inputs s = Ok t s' → net_step N (<[a := s']> N).

Section closed.
(** The addresses of the interfaces, among them 0 for an interface that is not
    configured. *)
Context (members : gset Z).

(** A daemon that has just been started, without the wait after a reboot and the
    option for unidirectional links, and with the log of the routing table off or all
    interfaces named and their addresses short enough for it, on interfaces of the network. *)
Definition node_start (s : state) : Prop :=
  ∃ e ifs, env_ok e ∧ MAX_REPORTED <= env_heap e ∧ unidir_hack (env_opts e) = false ∧ log_safe s ∧
    Forall (λ i, if_addr i ∈ members) ifs ∧ daemon_init ifs (boot_state e false) = Ok () s.

(** The network is small enough for a RERR with all its destinations. *)
Record closed : Prop := {
  cl_addr a : a ∈ members → 0 <= a < 2 ^ 32;
  cl_zero : 0 ∈ members;
  cl_size : Z.of_nat (size members) + 2 <= MAX_REPORTED
}.

Context (Hcl : closed).

Abbreviation ok := (okw members false None).

(** ** Start *)

Lemma wired_devs s s' :
  wire s' = (env s, devs (this_host s'), rt_keys s, send_buf s, sent s, recv_buf s) →
  (∀ i, dev_ipaddr (DEV_NR s' i) ∈ members) → ok s → ok s'.
Proof.
  unfold wire. intros [= He Hk Hs Ht Hr] Hd ([] & Hy & Hx). split_and!; [|done|done].
  split; unfold opts in *; congruence.
Qed.

Lemma host_add_if_devs s i :
  if_addr i ∈ members → (∀ j, dev_ipaddr (DEV_NR s j) ∈ members) →
  (∀ j, dev_ipaddr (DEV_NR (host_add_if s i) j) ∈ members).
Proof.
  intros Hi Hd j. unfold host_add_if. case_bool_decide; [apply Hd|].
  assert (Hno : dev_ipaddr no_dev ∈ members) by apply Hcl.
  assert (Hins : ∀ (k : nat) d (l : list dev_info), dev_ipaddr d ∈ members →
    (∀ j : nat, dev_ipaddr (default no_dev (l !! j)) ∈ members) →
    ∀ j : nat, dev_ipaddr (default no_dev (<[k := d]> l !! j)) ∈ members).
  { intros k d l Hd' Hl j'. destruct (decide (j' = k)) as [->|Hne].
    - destruct (decide (k < length l)%nat).
      + by rewrite list_lookup_insert_eq.
      + rewrite list_insert_ge by lia. apply Hl.
    - rewrite list_lookup_insert_ne by done. apply Hl. }
  unfold DEV_NR. simpl. apply Hins; [done|]. intros j'. apply Hins; [apply Hd|apply Hd].
Qed.

Lemma host_add_ifs_wire ifs : ∀ s,
  Forall (λ i, if_addr i ∈ members) ifs → (∀ j, dev_ipaddr (DEV_NR s j) ∈ members) →
  let s' := foldl host_add_if s ifs in
  wire s' = (env s, devs (this_host s'), rt_keys s, send_buf s, sent s, recv_buf s) ∧
  (∀ j, dev_ipaddr (DEV_NR s' j) ∈ members).
Proof.
  induction ifs as [|i ifs IH]; intros s Hin Hd; [done|].
  apply Forall_cons in Hin as [Hi Hin]. simpl.
  destruct (IH (host_add_if s i) Hin (host_add_if_devs s i Hi Hd)) as [Hw Hd'].
  split; [|done]. rewrite Hw. unfold host_add_if. by case_bool_decide.
Qed.

Lemma boot_ok e : unidir_hack (env_opts e) = false → ok (boot_state e false).
Proof.
  intros Hu. split_and!; [|done|done]. split; try done.
  - intros i. unfold DEV_NR. cbn [boot_state this_host devs].
    destruct (_ !! i) as [d|] eqn:E; [apply lookup_replicate in E as [-> _]|]; apply Hcl.
  - by apply Forall_replicate.
  - by apply Forall_replicate.
Qed.

Lemma hold_daemon_init ifs :
  Forall (λ i, if_addr i ∈ members) ifs → hold ok (daemon_init ifs) (λ _, ok).
Proof.
  intros Hin. unfold daemon_init. eapply (hold_bind _ _ _ (λ _, ok)).
  { apply hold_modify. intros s Hk. apply okw_table; [done|]. unfold rt_keys. cbn [rt_tbl set_rt_tbl tbl].
    by rewrite Forall_fmap, Forall_concat; apply Forall_replicate. }
  intros ?; cbv beta. eapply hold_bind; [apply keeps_frames; unfold packet_queue_init; inert_go|].
  intros ?; cbv beta. eapply (hold_bind _ _ _ (λ _, ok)).
  { intros s [] s' Hk. unfold host_init. intros (? & s1 & [= <-] & H1)%bind_inv.
    apply bind_inv in H1 as (now & s2 & [= <- <-] & H2). apply bind_inv in H2 as (? & s3 & [= <-] & H3).
    injection H3 as <-. subst s3 s1. set (s4 := set_this_host _ _).
    destruct (host_add_ifs_wire ifs s4 Hin) as [Hw Hd].
    - intros j. unfold DEV_NR. simpl. do 11 (destruct j; [apply Hcl|]). apply Hcl.
    - apply (wired_devs s); [exact Hw|exact Hd|exact Hk]. }
  intros ?; cbv beta. do 2 hskip. destruct (_ =? 0); [apply hold_exit|]. do 5 hskip.
  eapply (hold_bind _ _ _ (λ _, ok)); [|intros ?; apply keeps_frames; inert_go].
  apply hold_when. intros _. apply hold_hello_start. apply Hcl.
Qed.

(** ** Turns *)

(** A node between two turns. *)
Record node_ok (s : state) : Prop := {
  no_reach : ∃ e, env_ok e ∧ MAX_REPORTED <= env_heap e ∧ reachable e s;
  no_wire : ok s;
  no_worb : wait_on_reboot s = false;
  no_log : log_safe s
}.

(** The destinations in the table are members, so there is room for two more. *)
Lemma member_room s : inv s → ok s → MAX_REPORTED <= env_heap (env s) → has_room 2 s.
Proof.
  intros Hi (Hw & _) Hh.
  assert (Hc : (rt_count s <= size members)%nat).
  { pose proof (rt_keys_nodup _ (inv_table _ Hi)) as Hnd.
    unfold rt_count. rewrite <- (length_fmap rt_dest_addr (concat _)).
    change (rt_dest_addr <$> _) with (rt_keys s). rewrite <- (size_list_to_set (C := gset Z)) by done.
    apply subseteq_size. intros k Hk%elem_of_list_to_set.
    exact (proj1 (Forall_forall _ _) (wd_keys _ _ Hw) k Hk). }
  pose proof (cl_size Hcl). split_and!; [lia|lia|]. right. apply Hw.
Qed.

Lemma member_healthy s :
  inv s → ok s → MAX_REPORTED <= env_heap (env s) → wait_on_reboot s = false → log_safe s → healthy 2 s.
Proof. intros Hi Hk Hh Hw Hl. split_and!; [by apply member_room|apply Hk|done|done]. Qed.

(** A message of the network has no extension. *)
Lemma member_handled s i :
  member_input members i → (∀ fd m, i = InAodv fd (Some m) → is_Some (devfromsock s fd)) →
  (∀ d, i = InNetlink (Some d) → ∃ l, kernel_msg d l) → handled s i.
Proof.
  intros Hm Hd Hn. destruct i as [fd [m|]| |[d|]]; [|done|done|by apply Hn|done]. destruct Hm as [Hf _].
  split_and!; [apply Hf| |by eapply Hd]. apply frame_ok_prefix in Hf. unfold plain.
  destruct (take _ _) as [|t p] eqn:E; [done|].
  assert (H0 : ∀ t', t = t' → load8 (t :: p) 0 = Some t') by by intros ? ->. split; intros Ht%H0.
  - destruct (fr_rreq _ _ Hf Ht) as [-> _]. done.
  - destruct (fr_rrep _ _ Hf Ht) as [-> _]. done.
Qed.

Lemma member_callbacks inputs : ∀ s,
  inv s → ok s → MAX_REPORTED <= env_heap (env s) → wait_on_reboot s = false →
  Forall (λ i, member_input members i ∧ handled s i) inputs →
  ∃ s', foreach inputs () (λ i _, run_callback i) s = Ok () s' ∧ ok s' ∧ wait_on_reboot s' = false.
Proof.
  induction inputs as [|i inputs IH]; intros s Hi Hk Hh Hw Hin; [by exists s|].
  apply Forall_cons in Hin as [[Hm Hd] Hin]. cbn [foreach].
  destruct (completes_wp _ _ _ _ _ (run_callback_completes s i Hi (member_room s Hi Hk Hh) Hw Hd)
    (run_callback_spec i s (handled_ok _ _ Hd) Hi))
    as ([] & s1 & R1 & G1 & Hi1 & X1).
  pose proof (hold_run_callback members (cl_addr Hcl) i Hm s () s1 Hk R1) as Hk1.
  destruct (IH s1 Hi1 Hk1) as (s2 & R2 & Hk2 & Hw2).
  - by rewrite (proj1 G1).
  - by apply G1.
  - eapply Forall_impl; [exact Hin|]. intros j [Hj1 Hj2]. split; [done|].
    eapply handled_devs; [apply X1|apply X1|done].
  - exists s2. split; [by erewrite bind_ok by exact R1|done].
Qed.

Lemma member_turn s inputs :
  node_ok s → Forall (λ i, member_input members i ∧ handled s i) inputs →
  ∃ t s', main_loop_step inputs s = Ok t s' ∧ node_ok s'.
Proof.
  intros [(e & He & Hh & Hr) Hk Hw Hl] Hin. destruct (reachable_is_idle e s He Hr) as [Hs Hes].
  assert (H1 : ∃ r s1, timer_age_queue s = Ok r s1 ∧ grows 0 s s1 ∧
    (is_Some r ∧ idle s1 ∧ same_host s s1)).
  { eapply completes_wp; [apply timer_age_queue_completes; [done|]|by apply timer_age_queue_spec].
    apply (healthy_le 0 2); [|lia]. apply member_healthy; [apply Hs|done|congruence|done|done]. }
  destruct H1 as (r & s1 & R1 & G1 & [t ->] & Hs1 & He1 & Hd1 & Hn1).
  pose proof (hold_timer_age_queue members (cl_addr Hcl) s _ s1 Hk R1) as Hk1.
  destruct (member_callbacks inputs s1) as (s2 & R2 & Hk2 & Hw2).
  - apply Hs1. - done. - by rewrite He1, Hes. - by apply G1.
  - eapply Forall_impl; [exact Hin|]. intros j [Hj1 Hj2]. split; [done|]. by eapply handled_devs.
  - assert (R : main_loop_step inputs s = Ok t s2).
    { unfold main_loop_step. rewrite (bind_ok _ _ _ _ _ R1). cbv iota beta.
      by rewrite (bind_ok _ _ _ _ _ R2). }
    assert (Hok : Forall input_ok inputs).
    { eapply Forall_impl; [exact Hin|]. intros j [_ Hj]. by eapply handled_ok. }
    destruct (wp_ok _ _ _ _ _ _ (main_loop_step_spec s inputs Hs Hok) R) as (_ & He2 & Hd2 & _).
    exists t, s2. split; [done|]. split; [|done|done|by eapply log_safe_same].
    exists e. split_and!; [done|done|]. by eapply reach_step.
Qed.

(** ** Runs *)

Definition net_start (N : network) : Prop := map_Forall (λ _, node_start) N.
Definition net_ok (N : network) : Prop := map_Forall (λ _, node_ok) N.

Lemma node_start_ok s : node_start s → node_ok s.
Proof.
  intros (e & ifs & He & Hh & Hu & Hl & Hin & R). split; [| | |done].
  - exists e. split_and!; [done|done|]. by eapply reach_init.
  - eapply (hold_daemon_init ifs Hin); [by apply boot_ok|done].
  - assert (Hf : frames wait_on_reboot (daemon_init ifs)); [|by rewrite (Hf _ _ _ R)].
    unfold daemon_init, rt_table_init, packet_queue_init, host_init, hello_start, hello_send,
      hello_send_on, hello_neighbor_set, hello_jitter, hello_stop, rrep_create, aodv_socket_new_msg,
      aodv_socket_send, ratelimit_check, sendto.
    repeat (frame_step || (apply frames_modify; intros s0)).
    clear. revert s0. induction ifs as [|i ifs IH]; intros s0; [done|]. simpl. rewrite IH.
    unfold host_add_if. by case_bool_decide.
Qed.

(** A message in the air keeps the promise, and comes from a member. *)
Lemma on_air_ok N src p : net_ok N → on_air N src p → frame_ok members p ∧ src ∈ members.
Proof.
  intros HN (b & sb & dev & dst & ttl & Hb & Hin & ->).
  destruct (no_wire _ (HN _ _ Hb)) as ([_ Hd _ _ _ Hs _ _] & _). split; [|apply Hd].
  apply (proj1 (Forall_forall _ _) Hs). unfold sent. apply list_elem_of_omap.
  by exists (EvSend dev dst ttl p).
Qed.

Lemma receivable_ok N s i :
  net_ok N → receivable N s i → member_input members i ∧ handled s i.
Proof.
  intros HN Hr. assert (Hm : member_input members i).
  { destruct i as [fd [m|]| |[d|]]; [|done..]. destruct Hr as [_ Ha]. by apply (on_air_ok N). }
  split; [done|]. apply member_handled; [done| |].
  - intros fd m ->. exact (proj1 Hr).
  - by intros d ->.
Qed.

Lemma net_step_ok N N' : net_ok N → net_step N N' → net_ok N'.
Proof.
  intros HN Hst. destruct Hst as [N a s inputs t s' Ha Hin R]. apply map_Forall_insert_2; [|exact HN].
  destruct (member_turn s inputs (HN _ _ Ha)) as (t' & s2 & R2 & Hk).
  - eapply Forall_impl; [exact Hin|]. intros i. by apply receivable_ok.
  - rewrite R in R2. by injection R2 as _ <-.
Qed.

Lemma net_run_ok N0 N : net_start N0 → rtc net_step N0 N → net_ok N.
Proof.
  intros H0 Hrun. assert (HN : net_ok N0) by (intros a s Ha; by eapply node_start_ok, H0).
  clear H0. induction Hrun as [|N0 N1 N2 Hst _ IH]; [done|]. by apply IH, (net_step_ok N0).
Qed.

(** C4: a closed network of modest size never fails. Its interfaces have at most 98 addresses; its
    daemons were started without the wait after a reboot and without the option for unidirectional
    links, with memory for 100 routes, and with the log of the routing table off or writable.
    However the messages of the nodes are lost, delayed, duplicated and reordered, whatever packets
    and netlink messages the kernels hand to the daemons and whenever their timers run out: in every
    reachable state of the network every node completes its next turn, without an overrun, a NULL
    pointer, a use after free, an exit or an endless loop; also for the messages that other nodes
    have sent. *)
Theorem network_never_fails (N0 N : network) (a : Z) (s : state) (inputs : list input) :
  net_start N0 → rtc net_step N0 N → N !! a = Some s → Forall (receivable N s) inputs →
  ∃ t s', main_loop_step inputs s = Ok t s'.
Proof.
  intros H0 Hrun Ha Hin. pose proof (net_run_ok N0 N H0 Hrun) as HN.
  destruct (member_turn s inputs (HN _ _ Ha)) as (t & s' & R & _); [|by exists t, s'].
  eapply Forall_impl; [exact Hin|]. intros i. by apply receivable_ok.
Qed.

(** C5: in such a network (at most 98 addresses, no wait after a reboot, no option for
    unidirectional links, memory for 100 routes) the messages on the air are well-formed: all RREQs
    have 24 bytes and name a member as their originator, all RREPs have 20 bytes and offer a route
    to a member; and no node ever has a route to anyone else. *)
Theorem network_messages (N0 N : network) :
  net_start N0 → rtc net_step N0 N →
  (∀ src p, on_air N src p → src ∈ members ∧ frame_ok members p) ∧
  (∀ a s d e, N !! a = Some s → rt_lookup (rt_tbl s) d = Some e → d ∈ members).
Proof.
  intros H0 Hrun. pose proof (net_run_ok N0 N H0 Hrun) as HN. split.
  - intros src p Hp. by apply (on_air_ok N) in Hp as [? ?].
  - intros a s d e Ha He. rewrite <- (rt_lookup_dest _ _ _ He).
    by eapply keeps_frame_ok_live; [apply (HN _ _ Ha)|].
Qed.
End closed.
