(* ===== verification/Llf.v ===== *)
(** * network/llf.c: link-layer feedback

    Compiled with [LLFEEDBACK] instead of HELLO messages: the kernel reports on a
    netlink socket that a frame to a neighbour was dropped, and the route to that
    neighbour is taken for broken.  [iw_extract_event_stream] of libiw, which reads
    the events, is a parameter; the system calls return what [ll_result] says. *)

From S2P Require Import Prelude.
From S2P Require Import Params.
From S2P Require Import Bytes.
From S2P Require Import TimerQueue.
From S2P Require Import State.
From S2P Require Import Nl.
From S2P Require Import NlRecv.
From S2P Require Import RtTable.
From S2P Require Import Inv.
From S2P Require Import Total.
From S2P Require Import RtUpdate.
From S2P Require Import Rerr.

#[local] Open Scope cm_scope.

Definition IWEVTXDROP : Z := 35840.
Definition IFLA_WIRELESS : Z := 11.
Definition RTM_NEWLINK : Z := 16.
(** [NLMSG_ALIGN(sizeof(struct ifinfomsg))] *)
Definition IFINFOMSG_SIZE : Z := 16.

(** ** Data *)

(** An event: its number and the hardware address in it. *)
Record iw_event := mk_iw_event { iw_cmd : Z; iw_addr : list Z }.

(** [struct wireless_iface]: the index and the version of the extensions. *)
Record wireless_iface := mk_wiface { wi_ifindex : Z; wi_version : Z }.

Record lstate := mk_lstate {
  ll_daemon : state;
  ll_result : nat → Z;
  ll_calls : nat;
  interface_cache : list wireless_iface;
  ll_socks : Z                 (* sockets of iw_sockets_open that are open *)
}.

Abbreviation LM := (CM lstate).

Definition on_daemon {A} (m : M A) : LM A := λ l,
  match m (ll_daemon l) with
  | Ok a s => Ok a (mk_lstate s (ll_result l) (ll_calls l) (interface_cache l) (ll_socks l))
  | Exit c => Exit c
  | Ub u => Ub u
  end.

Definition ll_call : LM Z := λ l,
  Ok (ll_result l (ll_calls l))
    (mk_lstate (ll_daemon l) (ll_result l) (S (ll_calls l)) (interface_cache l) (ll_socks l)).

Definition add_socks (n : Z) : LM () :=
  modify (λ l, mk_lstate (ll_daemon l) (ll_result l) (ll_calls l) (interface_cache l) (ll_socks l + n)).

(** ** The interfaces *)

(** The version of an interface is looked up once; the socket is left open when
    something fails. *)
Definition iw_get_interface_data (ifindex : Z) : LM (option wireless_iface) :=
  cache ← gets interface_cache;
  match search (λ w, wi_ifindex w =? ifindex) cache with
  | Some w => ret (Some w)
  | None =>
      skfd ← ll_call;                                     (* iw_sockets_open *)
      if skfd <? 0 then ret None else
      add_socks 1 ;;
      curr ← ll_call;                                     (* calloc *)
      if curr =? 0 then ret None else
      r ← ll_call;                                        (* index2name *)
      if r <? 0 then ret None else
      version ← ll_call;                                  (* iw_get_range_info *)
      add_socks (-1) ;;
      let w := mk_wiface ifindex (if version <? 0 then 0 else version) in
      modify (λ l, mk_lstate (ll_daemon l) (ll_result l) (ll_calls l) (w :: interface_cache l)
                     (ll_socks l)) ;;
      ret (Some w)
  end.

(** ** Events *)

(** The lines of /proc/net/arp behind the header: an address and the hardware address
    that belongs to it, or [None] for a line with fewer than four fields. *)
Fixpoint arp_find (lines : list (option (Z * list Z))) (hwaddr : list Z) : option Z :=
  match lines with
  | [] | None :: _ => None
  | Some (ip, eth) :: lines' =>
      if bool_decide (eth = hwaddr) then Some ip else arp_find lines' hwaddr
  end.

(** [mac_to_ip]; [None] when the file cannot be opened or is empty. *)
Definition mac_to_ip (arp : option (list (option (Z * list Z)))) (hwaddr : list Z) : option Z :=
  match arp with
  | None => None
  | Some lines => arp_find lines hwaddr
  end.

Section llf.
(** [iw_extract_event_stream] with the version of the interface: its result, the event,
    and the rest of the stream. *)
Variable extract : Z → list Z → Z * iw_event * list Z.
Variable arp : option (list (option (Z * list Z))).

Definition llf_print_event (event : iw_event) : M () :=
  if iw_cmd event =? IWEVTXDROP then
    match mac_to_ip arp (iw_addr event) with
    | None => ret ()
    | Some ip =>
        rt ← rt_table_find ip;
        match rt with
        | Some rt => neighbor_link_break rt
        | None => ret ()
        end
    end
  else ret ().

(** The loop over the events of an attribute. *)
Fixpoint events_loop (fuel : nat) (version : Z) (stream : list Z) : LM () :=
  match fuel with
  | O => undefined OutOfFuel
  | S fuel' =>
      let '(r, event, rest) := extract version stream in
      if 0 <? r then
        on_daemon (llf_print_event event) ;;
        events_loop fuel' version rest
      else ret ()
  end.

(** The loop over the attributes of a message, which start at [attr]; [buf] is what has
    been received, and what is behind it in the buffer was not written.  The result
    says whether the caller goes on. *)
Fixpoint attrs_loop (fuel : nat) (buf : list Z) (ifindex attr attrlen : Z) : LM bool :=
  match fuel with
  | O => undefined OutOfFuel
  | S fuel' =>
      if attrlen <? RTATTR_SIZE then ret true else
      match load16 buf attr with
      | None => undefined Uninitialised
      | Some rta_len =>
          if (rta_len <? RTATTR_SIZE) || (attrlen <? rta_len) then ret true else
          match load16 buf (attr + 2) with
          | None => undefined Uninitialised
          | Some rta_type =>
              let next := attrs_loop fuel' buf ifindex (attr + align4 rta_len) (attrlen - align4 rta_len) in
              if rta_type =? IFLA_WIRELESS then
                wireless_data ← iw_get_interface_data ifindex;
                match wireless_data with
                | None => ret false
                | Some w =>
                    if Z.of_nat (length buf) <? attr + rta_len then undefined Uninitialised else
                    let stream := take (Z.to_nat (rta_len - RTATTR_SIZE))
                                    (drop (Z.to_nat (attr + RTATTR_SIZE)) buf) in
                    events_loop (S (length stream)) (wi_version w) stream ;;
                    next
                end
              else next
          end
      end
  end.

(** The loop over the messages of a datagram. *)
Fixpoint messages_loop (fuel : nat) (buf : list Z) (h amt : Z) : LM bool :=
  match fuel with
  | O => undefined OutOfFuel
  | S fuel' =>
      if amt <? NLMSGHDR_SIZE then ret true else
      match load32 buf h, load16 buf (h + 4) with
      | Some nlmsg_len, Some nlmsg_type =>
          let len := int32 nlmsg_len in
          if (len - NLMSGHDR_SIZE <? 0) || (amt <? len) then ret true else
          go ← (if (nlmsg_type =? RTM_NEWLINK) && (IFINFOMSG_SIZE <? nlmsg_len) then
                  match load32 buf (h + NLMSGHDR_SIZE + 4) with
                  | Some ifi_index =>
                      attrs_loop (S (length buf)) buf (int32 ifi_index)
                        (h + NLMSGHDR_SIZE + IFINFOMSG_SIZE) (nlmsg_len - IFINFOMSG_SIZE)
                  | None => undefined Uninitialised
                  end
                else ret true);
          if (go : bool) then messages_loop fuel' buf (h + align4 len) (amt - align4 len)
          else ret false
      | _, _ => undefined Uninitialised
      end
  end.

(** [llf_handle_netlink_events]: the datagrams that can be read without waiting; an empty
    one ends the loop. *)
Fixpoint llf_handle_netlink_events (datagrams : list (list Z)) : LM () :=
  match datagrams with
  | [] | [] :: _ => ret ()
  | buf :: datagrams' =>
      go ← messages_loop (S (length buf)) buf 0 (Z.of_nat (length buf));
      if (go : bool) then llf_handle_netlink_events datagrams' else ret ()
  end.
(** ** Properties *)

(** What libiw promises: an event is taken from the stream. *)
Hypothesis extract_consumes : ∀ version stream r event rest,
  extract version stream = (r, event, rest) → 0 < r → (length rest < length stream)%nat.

Definition llf_ub (u : ub) : Prop := buf_ub u ∨ u = Uninitialised.
Definition linv (l : lstate) : Prop := inv (ll_daemon l).

(** [m] keeps the invariant of the daemon. *)
Definition lsafe {A} (m : LM A) : Prop := ∀ l, linv l → wp llf_ub m (λ _ l', linv l') l.

Lemma lsafe_ret {A} (a : A) : lsafe (ret a).
Proof. by intros l. Qed.
Lemma lsafe_bind {A B} (m : LM A) (f : A → LM B) : lsafe m → (∀ a, lsafe (f a)) → lsafe (bind m f).
Proof.
  intros Hm Hf l Hl. apply wp_bind. eapply wp_mono; [by apply Hm|]. intros a l' Hl'. by apply Hf.
Qed.
Lemma lsafe_gets {A} (f : lstate → A) : lsafe (gets f).
Proof. by intros l. Qed.
Lemma lsafe_call : lsafe ll_call.
Proof. by intros l. Qed.
Lemma lsafe_socks n : lsafe (add_socks n).
Proof. by intros l. Qed.
Lemma lsafe_unread {A} : lsafe (undefined Uninitialised : LM A).
Proof. intros l Hl. by right. Qed.

Lemma safe_print_event md ks event : safe md ks (llf_print_event event) nop.
Proof. unfold llf_print_event. safe_go. Qed.

Lemma lsafe_print_event event : lsafe (on_daemon (llf_print_event event)).
Proof.
  intros l Hl. pose proof (safe_print_event Quiet [] event (ll_daemon l) Hl ltac:(by apply Forall_nil)) as H.
  unfold wp, on_daemon in *. destruct (llf_print_event event (ll_daemon l)) as [a s|c|u];
    [by destruct H|done|by left].
Qed.

Lemma lsafe_interface_data i : lsafe (iw_get_interface_data i).
Proof.
  unfold iw_get_interface_data. apply lsafe_bind; [apply lsafe_gets|intros cache].
  destruct (search _ _); [apply lsafe_ret|].
  apply lsafe_bind; [apply lsafe_call|intros fd]. destruct (_ <? _); [apply lsafe_ret|].
  apply lsafe_bind; [apply lsafe_socks|intros _].
  apply lsafe_bind; [apply lsafe_call|intros p]. destruct (_ =? _); [apply lsafe_ret|].
  apply lsafe_bind; [apply lsafe_call|intros r]. destruct (_ <? _); [apply lsafe_ret|].
  apply lsafe_bind; [apply lsafe_call|intros v].
  apply lsafe_bind; [apply lsafe_socks|intros _]. apply lsafe_bind; [by intros l|intros _; apply lsafe_ret].
Qed.

Lemma lsafe_events fuel : ∀ version stream,
  (length stream < fuel)%nat → lsafe (events_loop fuel version stream).
Proof.
  induction fuel as [|fuel IH]; intros version stream Hf; [lia|]. cbn [events_loop].
  destruct (extract version stream) as [[r event] rest] eqn:E. destruct (0 <? r) eqn:Er; [|apply lsafe_ret].
  apply Z.ltb_lt in Er. pose proof (extract_consumes _ _ _ _ _ E Er).
  apply lsafe_bind; [apply lsafe_print_event|intros _]. apply IH. lia.
Qed.

Lemma lsafe_attrs buf i fuel : ∀ attr attrlen,
  (0 < fuel)%nat → Z.of_nat (length buf) - attr < Z.of_nat fuel →
  lsafe (attrs_loop fuel buf i attr attrlen).
Proof.
  induction fuel as [|fuel IH]; intros attr attrlen H0 Hf; [lia|]. cbn [attrs_loop].
  destruct (_ <? _); [apply lsafe_ret|]. destruct (load16 buf attr) as [len|] eqn:El; [|apply lsafe_unread].
  destruct (_ || _) eqn:Eb; [apply lsafe_ret|]. apply orb_false_iff in Eb as [Hlen%Z.ltb_ge _].
  destruct (load16 buf (attr + 2)) as [type|]; [|apply lsafe_unread]. apply load16_inside in El.
  unfold RTATTR_SIZE in Hlen. pose proof (align4_range len).
  assert (Hnext : lsafe (attrs_loop fuel buf i (attr + align4 len) (attrlen - align4 len)))
    by (apply IH; lia).
  destruct (_ =? _); [|done]. apply lsafe_bind; [apply lsafe_interface_data|intros [w|]]; [|apply lsafe_ret].
  destruct (_ <? _); [apply lsafe_unread|]. apply lsafe_bind; [apply lsafe_events; lia|by intros _].
Qed.

Lemma lsafe_messages buf fuel : ∀ h amt,
  (0 < fuel)%nat → 0 <= h → Z.of_nat (length buf) - h < Z.of_nat fuel →
  lsafe (messages_loop fuel buf h amt).
Proof.
  induction fuel as [|fuel IH]; intros h amt H0 Hh Hf; [lia|]. cbn [messages_loop].
  destruct (_ <? _); [apply lsafe_ret|]. destruct (load32 buf h) as [len|]; [|apply lsafe_unread].
  destruct (load16 buf (h + 4)) as [type|] eqn:Et; [|apply lsafe_unread]. apply load16_inside in Et.
  destruct (_ || _) eqn:Eb; [apply lsafe_ret|]. apply orb_false_iff in Eb as [Hlen%Z.ltb_ge _].
  unfold NLMSGHDR_SIZE in *. pose proof (align4_range (int32 len)).
  apply lsafe_bind.
  - destruct (_ && _); [|apply lsafe_ret].
    destruct (load32 buf (h + 16 + 4)); [|apply lsafe_unread].
    apply lsafe_attrs; unfold IFINFOMSG_SIZE; lia.
  - intros []; [|apply lsafe_ret]. apply IH; lia.
Qed.

(** Whatever the kernel or anyone else sends on the netlink socket, the handler of the
    link-layer feedback ends and keeps the invariant of the daemon, or reads memory
    that was not written (or overruns the message buffers as a broken link may). *)
Theorem llf_keeps_invariant (l : lstate) (datagrams : list (list Z)) :
  inv (ll_daemon l) →
  wp llf_ub (llf_handle_netlink_events datagrams) (λ _ l', inv (ll_daemon l')) l.
Proof.
  assert (H : lsafe (llf_handle_netlink_events datagrams)); [|apply H].
  induction datagrams as [|buf datagrams IH]; [apply lsafe_ret|].
  cbn [llf_handle_netlink_events]. destruct buf as [|b buf]; [apply lsafe_ret|].
  apply lsafe_bind; [apply lsafe_messages; simpl; lia|]. intros []; [exact IH|apply lsafe_ret].
Qed.

(** The neighbour that an event reports to have lost a frame, when it is in the ARP table and the
    node has a route to it. *)
Definition dropped (s : state) (event : iw_event) : option rt_table_t :=
  if iw_cmd event =? IWEVTXDROP then
    mac_to_ip arp (iw_addr event) ≫= rt_lookup (rt_tbl s)
  else None.

(** C40: the report that a frame was dropped breaks one link.  With a table of at most 100 entries
    (and not both the option for unidirectional links and that for optimized hellos), handling an
    event of the wireless driver returns and keeps the invariant.  When it reports that a frame to
    a neighbour was dropped that the ARP table and the routing table know, one hop away, the route to that
    neighbour is invalid afterwards, no valid route leads through it, and the entries with another
    next hop are as they were.  Every other event changes nothing. *)
Theorem llf_drop_breaks_link (s : state) (event : iw_event) :
  inv s → has_room 0 s →
  ∃ s', llf_print_event event s = Ok () s' ∧ inv s' ∧
    match dropped s event with
    | Some e =>
        let ip := rt_dest_addr e in
        if rt_hcnt e =? 1 then
          (∃ e', rt_lookup (rt_tbl s') ip = Some e' ∧ rt_state e' = INVALID) ∧
          (∀ j ej, j ≠ ip → rt_lookup (rt_tbl s') j = Some ej → rt_state ej = VALID → rt_next_hop ej ≠ ip) ∧
          (∀ j ej, j ≠ ip → rt_lookup (rt_tbl s) j = Some ej → rt_next_hop ej ≠ ip →
            rt_lookup (rt_tbl s') j = Some ej)
        else s' = s
    | None => s' = s
    end.
Proof.
  intros Hi Hr. unfold llf_print_event, dropped. destruct (_ =? IWEVTXDROP); [|by exists s].
  destruct (mac_to_ip arp _) as [ip|]; cbn [mbind option_bind]; [|by exists s].
  unfold rt_table_find. erewrite bind_ok by done. rewrite find_entry_lookup by apply Hi.
  destruct (rt_lookup (rt_tbl s) ip) as [e|] eqn:He; cbn [fmap option_fmap option_map]; [|by exists s].
  cbv zeta. rewrite (rt_lookup_dest _ _ _ He). destruct (Z.eqb_spec (rt_hcnt e) 1) as [Hh|Hh].
  2:{ exists s. split; [|done]. unfold neighbor_link_break.
      erewrite bind_ok by (unfold rt_deref; by rewrite He). by rewrite (proj2 (Z.eqb_neq _ _) Hh). }
  apply (wp_returned_unit buf_ub).
  { apply (total_returns (Some 0%nat) [ip]); [|done|apply Forall_singleton; by exists e|done].
    apply total_neighbor_link_break. left. }
  eapply wp_mono; [by apply neighbor_link_break_spec|]. intros _ s' (Hi' & _ & Hj). split_and!; [done| | |].
  - specialize (Hj ip). rewrite decide_True in Hj by done. eexists. split; [exact Hj|].
    apply lost_neighbor_fields.
  - intros j ej Hne Hl Hv Hn. specialize (Hj j). rewrite decide_False, Hl in Hj by done.
    symmetry in Hj. apply fmap_Some in Hj as (e0 & _ & ->).
    pose proof (broken_unused ip j (has (rt_flags e) RT_REPAIR) e0) as Hb. unfold uses_hop in Hb.
    rewrite Hv, Hn, !Z.eqb_refl, (proj2 (Z.eqb_neq j ip)) in Hb by done. discriminate.
  - intros j ej Hne Hl Hn. specialize (Hj j). rewrite decide_False, Hl in Hj by done. rewrite Hj. cbn.
    unfold broken, uses_hop. by rewrite (proj2 (Z.eqb_neq _ _) Hn), andb_false_r.
Qed.

End llf.

(** ** The end of a message *)

Definition attr_ok (a : Z * list Z) : Prop :=
  0 <= a.1 < 65536 ∧ a.1 ≠ IFLA_WIRELESS ∧ attr_len a.2 < 65536.

Section overread.
Variable extract : Z → list Z → Z * iw_event * list Z.
Variable arp : option (list (option (Z * list Z))).

Lemma attrs_overread attrs : ∀ pre i fuel l,
  Forall attr_ok attrs → (length attrs < fuel)%nat →
  attrs_loop extract arp fuel (pre ++ attrs_bytes attrs) i (Z.of_nat (length pre))
    (Z.of_nat (length (attrs_bytes attrs)) + 16) l = Ub Uninitialised.
Proof.
  induction attrs as [|[type payload] attrs IH]; intros pre i fuel l Hok Hf;
    (destruct fuel as [|fuel]; [simpl in Hf; lia|]).
  { cbn. by rewrite app_nil_r, load16_past. }
  apply Forall_cons in Hok as [(Ht & Hw & Hl) Hok]. cbn [fst snd] in *.
  set (n := attr_len payload). pose proof (align4_range n) as Hn.
  assert (Hn4 : 4 <= n) by (unfold n, attr_len, RTATTR_SIZE; lia).
  assert (E : attrs_bytes ((type, payload) :: attrs) = attr_bytes type payload ++ attrs_bytes attrs) by done.
  pose proof (attr_bytes_length type payload) as En. fold n in En.
  rewrite E, length_app. cbn [attrs_loop]. rewrite (proj2 (Z.ltb_ge _ RTATTR_SIZE))
    by (unfold RTATTR_SIZE; lia).
  destruct (attr_loads pre type payload (attrs_bytes attrs) Ht Hl) as [L0 L2]. fold n in L0.
  rewrite L0.
  rewrite (proj2 (Z.ltb_ge n _)), (proj2 (Z.ltb_ge _ n)) by (unfold RTATTR_SIZE; lia). cbn [orb].
  rewrite L2, (proj2 (Z.eqb_neq _ _) Hw).
  rewrite app_assoc. replace (Z.of_nat (length pre) + align4 n) with (Z.of_nat (length (pre ++ attr_bytes type payload)))
    by (rewrite length_app; lia).
  replace (_ - align4 n) with (Z.of_nat (length (attrs_bytes attrs)) + 16) by lia.
  apply IH; [done|simpl in Hf; lia].
Qed.

(** A message about a link: its length, type, the rest of the header, the description of
    the link and its attributes. *)
Definition newlink_msg (hdr ifi : list Z) (attrs : list (Z * list Z)) : list Z :=
  le_bytes32 (32 + Z.of_nat (length (attrs_bytes attrs))) ++ [u8 RTM_NEWLINK; 0] ++ hdr ++ ifi
  ++ attrs_bytes attrs.

(** Every message about a link without wireless events that ends a datagram makes
    the handler read past it: the length of the attributes is computed without the
    message header, so the loop goes on 16 bytes too far. *)
Theorem newlink_overread (l : lstate) (hdr ifi : list Z) (attrs : list (Z * list Z))
    (datagrams : list (list Z)) :
  length hdr = 10%nat → length ifi = 16%nat → Forall attr_ok attrs →
  Z.of_nat (length (attrs_bytes attrs)) < 8192 →
  llf_handle_netlink_events extract arp (newlink_msg hdr ifi attrs :: datagrams) l = Ub Uninitialised.
Proof.
  intros Hh Hi Hok Hlen. set (buf := newlink_msg hdr ifi attrs).
  assert (Hl : Z.of_nat (length buf) = 32 + Z.of_nat (length (attrs_bytes attrs))).
  { unfold buf, newlink_msg. rewrite !length_app, Hh, Hi. simpl length. lia. }
  assert (H0 : load32 buf 0 = Some (Z.of_nat (length buf))).
  { rewrite Hl, <- (u32_small (32 + _)), <- le_value_u32 by lia. done. }
  assert (H4 : load16 buf 4 = Some RTM_NEWLINK) by done.
  assert (Hpre : ∃ pre, buf = pre ++ attrs_bytes attrs ∧ length pre = 32%nat).
  { exists (le_bytes32 (32 + Z.of_nat (length (attrs_bytes attrs))) ++ [u8 RTM_NEWLINK; 0] ++ hdr ++ ifi).
    split; [unfold buf, newlink_msg; by rewrite <- !app_assoc|].
    rewrite !length_app, Hh, Hi. done. }
  destruct Hpre as (pre & Eb & Hpl).
  assert (Hcons : ∃ b buf', buf = b :: buf') by (unfold buf, newlink_msg; by do 2 eexists).
  assert (Hrun : messages_loop extract arp (S (length buf)) buf 0 (Z.of_nat (length buf)) l
    = Ub Uninitialised).
  { cbn [messages_loop]. rewrite (proj2 (Z.ltb_ge _ NLMSGHDR_SIZE)) by (unfold NLMSGHDR_SIZE; lia).
    rewrite H0. change (0 + 4) with 4. rewrite H4.
    assert (Ei : int32 (Z.of_nat (length buf)) = Z.of_nat (length buf)) by
      (destruct (int32_cases (Z.of_nat (length buf))) as [[-> _]|[_ ?]]; lia).
    rewrite Ei, (proj2 (Z.ltb_ge _ 0)), (proj2 (Z.ltb_ge _ (Z.of_nat _))) by (unfold NLMSGHDR_SIZE; lia).
    cbn [orb]. rewrite Z.eqb_refl, (proj2 (Z.ltb_lt IFINFOMSG_SIZE _)) by (unfold IFINFOMSG_SIZE; lia).
    cbn [andb]. destruct (load32_is_Some buf (0 + NLMSGHDR_SIZE + 4)) as [i Hidx];
      [unfold NLMSGHDR_SIZE; lia|unfold NLMSGHDR_SIZE; lia|]. rewrite Hidx. unfold bind at 1.
    replace (0 + NLMSGHDR_SIZE + IFINFOMSG_SIZE) with (Z.of_nat (length pre)) by (rewrite Hpl; done).
    replace (Z.of_nat (length buf) - IFINFOMSG_SIZE)
      with (Z.of_nat (length (attrs_bytes attrs)) + 16) by (unfold IFINFOMSG_SIZE; lia).
    rewrite Eb at 2. rewrite attrs_overread; [done|done|].
    pose proof (attrs_count attrs). lia. }
  destruct Hcons as (b & buf' & Ec). cbn [llf_handle_netlink_events]. rewrite Ec in *.
  unfold bind at 1. by rewrite Hrun.
Qed.
End overread.
