(* ===== verification/Cmdline.v ===== *)
(** * core/main.c: the command line and the names of interfaces

    What [getopt_long] returns is the input: a list of options with their arguments.
    Strings are lists of character codes without the final NUL. *)

From Stdlib Require Import Ascii.
From S2P Require Import Prelude.
From S2P Require Import Params.
From S2P Require Import Format.
From S2P Require Import State.

#[local] Open Scope cm_scope.

(** ** The settings *)

(** The variables [main] sets from the command line. *)
Record cmdline := mk_cmdline {
  cl_opts : options;
  cl_debug : bool;
  cl_daemonize : bool;
  cl_ifname : option (list Z);
  cl_log_to_file : bool;
  cl_qual_threshold : Z;
  cl_internet_gw_mode : bool;
  cl_wait_on_reboot : bool
}.

Definition set_unidir_hack v o := mk_options v (rreq_gratuitous o) (expanding_ring_search o)
  (local_repair o) (receive_n_hellos o) (hello_jittering o) (optimized_hellos o) (ratelimit o)
  (llfeedback o) (rt_log_interval o) (active_route_timeout o) (ttl_start o) (delete_period o).
Definition set_rreq_gratuitous v o := mk_options (unidir_hack o) v (expanding_ring_search o)
  (local_repair o) (receive_n_hellos o) (hello_jittering o) (optimized_hellos o) (ratelimit o)
  (llfeedback o) (rt_log_interval o) (active_route_timeout o) (ttl_start o) (delete_period o).
Definition set_expanding_ring_search v o := mk_options (unidir_hack o) (rreq_gratuitous o) v
  (local_repair o) (receive_n_hellos o) (hello_jittering o) (optimized_hellos o) (ratelimit o)
  (llfeedback o) (rt_log_interval o) (active_route_timeout o) (ttl_start o) (delete_period o).
Definition set_local_repair v o := mk_options (unidir_hack o) (rreq_gratuitous o)
  (expanding_ring_search o) v (receive_n_hellos o) (hello_jittering o) (optimized_hellos o)
  (ratelimit o) (llfeedback o) (rt_log_interval o) (active_route_timeout o) (ttl_start o)
  (delete_period o).
Definition set_receive_n_hellos v o := mk_options (unidir_hack o) (rreq_gratuitous o)
  (expanding_ring_search o) (local_repair o) v (hello_jittering o) (optimized_hellos o)
  (ratelimit o) (llfeedback o) (rt_log_interval o) (active_route_timeout o) (ttl_start o)
  (delete_period o).
Definition set_hello_jittering v o := mk_options (unidir_hack o) (rreq_gratuitous o)
  (expanding_ring_search o) (local_repair o) (receive_n_hellos o) v (optimized_hellos o)
  (ratelimit o) (llfeedback o) (rt_log_interval o) (active_route_timeout o) (ttl_start o)
  (delete_period o).
Definition set_optimized_hellos v o := mk_options (unidir_hack o) (rreq_gratuitous o)
  (expanding_ring_search o) (local_repair o) (receive_n_hellos o) (hello_jittering o) v
  (ratelimit o) (llfeedback o) (rt_log_interval o) (active_route_timeout o) (ttl_start o)
  (delete_period o).
Definition set_ratelimit v o := mk_options (unidir_hack o) (rreq_gratuitous o)
  (expanding_ring_search o) (local_repair o) (receive_n_hellos o) (hello_jittering o)
  (optimized_hellos o) v (llfeedback o) (rt_log_interval o) (active_route_timeout o) (ttl_start
  o) (delete_period o).
Definition set_llfeedback v o := mk_options (unidir_hack o) (rreq_gratuitous o)
  (expanding_ring_search o) (local_repair o) (receive_n_hellos o) (hello_jittering o)
  (optimized_hellos o) (ratelimit o) v (rt_log_interval o) (active_route_timeout o) (ttl_start
  o) (delete_period o).
Definition set_rt_log_interval v o := mk_options (unidir_hack o) (rreq_gratuitous o)
  (expanding_ring_search o) (local_repair o) (receive_n_hellos o) (hello_jittering o)
  (optimized_hellos o) (ratelimit o) (llfeedback o) v (active_route_timeout o) (ttl_start o)
  (delete_period o).
Definition set_active_route_timeout v o := mk_options (unidir_hack o) (rreq_gratuitous o)
  (expanding_ring_search o) (local_repair o) (receive_n_hellos o) (hello_jittering o)
  (optimized_hellos o) (ratelimit o) (llfeedback o) (rt_log_interval o) v (ttl_start o)
  (delete_period o).

Definition set_cl_opts v c := mk_cmdline v (cl_debug c) (cl_daemonize c) (cl_ifname c)
  (cl_log_to_file c) (cl_qual_threshold c) (cl_internet_gw_mode c) (cl_wait_on_reboot c).
Definition set_cl_debug v c := mk_cmdline (cl_opts c) v (cl_daemonize c) (cl_ifname c)
  (cl_log_to_file c) (cl_qual_threshold c) (cl_internet_gw_mode c) (cl_wait_on_reboot c).
Definition set_cl_daemonize v c := mk_cmdline (cl_opts c) (cl_debug c) v (cl_ifname c)
  (cl_log_to_file c) (cl_qual_threshold c) (cl_internet_gw_mode c) (cl_wait_on_reboot c).
Definition set_cl_ifname v c := mk_cmdline (cl_opts c) (cl_debug c) (cl_daemonize c) v
  (cl_log_to_file c) (cl_qual_threshold c) (cl_internet_gw_mode c) (cl_wait_on_reboot c).
Definition set_cl_log_to_file v c := mk_cmdline (cl_opts c) (cl_debug c) (cl_daemonize c)
  (cl_ifname c) v (cl_qual_threshold c) (cl_internet_gw_mode c) (cl_wait_on_reboot c).
Definition set_cl_qual_threshold v c := mk_cmdline (cl_opts c) (cl_debug c) (cl_daemonize c)
  (cl_ifname c) (cl_log_to_file c) v (cl_internet_gw_mode c) (cl_wait_on_reboot c).
Definition set_cl_internet_gw_mode v c := mk_cmdline (cl_opts c) (cl_debug c) (cl_daemonize c)
  (cl_ifname c) (cl_log_to_file c) (cl_qual_threshold c) v (cl_wait_on_reboot c).
Definition set_cl_wait_on_reboot v c := mk_cmdline (cl_opts c) (cl_debug c) (cl_daemonize c)
  (cl_ifname c) (cl_log_to_file c) (cl_qual_threshold c) (cl_internet_gw_mode c) v.

(** The initial values of the variables. *)
Definition cmdline0 : cmdline :=
  mk_cmdline
    (mk_options false false true false 0 true false true false 0
       ACTIVE_ROUTE_TIMEOUT_HELLO TTL_START_HELLO DELETE_PERIOD_HELLO)
    true false None false 0 false true.

Abbreviation PM := (CM cmdline).

Definition isdigit (c : Z) : bool := (48 <=? c) && (c <=? 57).

(** [atoi] of a string that starts with a digit: [(int) strtol(s, NULL, 10)]. *)
Fixpoint digits (acc : Z) (s : list Z) : Z :=
  match s with
  | c :: s' => if isdigit c then digits (acc * 10 + (c - 48)) s' else acc
  | [] => acc
  end.
Definition atoi (s : list Z) : Z := int32 (Z.min (2 ^ 63 - 1) (digits 0 s)).

Definition on_opts (f : options → options) : PM () := modify (λ c, set_cl_opts (f (cl_opts c)) c).

Section parse.
(** [(int)(atof(s) * 1000)], computed in floating point. *)
Variable atof_ms : list Z → Z.

Definition parse_option (opt : Z) (optarg : list Z) : PM () :=
  if opt =? 0 then ret ()
  else if opt =? ch "d" then modify (set_cl_debug false) ;; modify (set_cl_daemonize true)
  else if opt =? ch "f" then
    on_opts (set_llfeedback true) ;; on_opts (set_active_route_timeout ACTIVE_ROUTE_TIMEOUT_LLF)
  else if opt =? ch "g" then on_opts (λ o, set_rreq_gratuitous (negb (rreq_gratuitous o)) o)
  else if opt =? ch "i" then modify (set_cl_ifname (Some optarg))
  else if opt =? ch "j" then on_opts (λ o, set_hello_jittering (negb (hello_jittering o)) o)
  else if opt =? ch "l" then modify (λ c, set_cl_log_to_file (negb (cl_log_to_file c)) c)
  else if opt =? ch "n" then
    if isdigit (hd 0 optarg) then
      on_opts (set_receive_n_hellos (atoi optarg)) ;;
      if atoi optarg <? 2 then cexit (-1) else ret ()
    else ret ()
  else if opt =? ch "o" then on_opts (λ o, set_optimized_hellos (negb (optimized_hellos o)) o)
  else if opt =? ch "q" then
    when (isdigit (hd 0 optarg)) (modify (set_cl_qual_threshold (atoi optarg)))
  else if opt =? ch "r" then
    when (isdigit (hd 0 optarg)) (on_opts (set_rt_log_interval (atof_ms optarg)))
  else if opt =? ch "u" then on_opts (λ o, set_unidir_hack (negb (unidir_hack o)) o)
  else if opt =? ch "w" then modify (λ c, set_cl_internet_gw_mode (negb (cl_internet_gw_mode c)) c)
  else if opt =? ch "x" then
    on_opts (λ o, set_expanding_ring_search (negb (expanding_ring_search o)) o)
  else if opt =? ch "L" then on_opts (λ o, set_local_repair (negb (local_repair o)) o)
  else if opt =? ch "D" then modify (λ c, set_cl_wait_on_reboot (negb (cl_wait_on_reboot c)) c)
  else if opt =? ch "R" then on_opts (λ o, set_ratelimit (negb (ratelimit o)) o)
  else cexit 0.

Definition parse_cmdline (args : list (Z * list Z)) : PM () :=
  foreach args () (λ arg _, parse_option arg.1 arg.2).

(** ** What a command line means *)

(** How often an option is given, and the last argument of those that pass [ok]. *)
Definition times (x : ascii) (args : list (Z * list Z)) : nat :=
  length (filter (λ arg, (arg.1 =? ch x) = true) args).
Definition last_arg (x : ascii) (ok : list Z → bool) (args : list (Z * list Z)) : option (list Z) :=
  snd <$> last (filter (λ arg, (arg.1 =? ch x) && ok arg.2 = true) args).
Definition given (x : ascii) (args : list (Z * list Z)) : bool := negb (times x args =? 0)%nat.
Definition number (s : list Z) : bool := isdigit (hd 0 s).

(** Most options are switches: two of the same cancel out. *)
Definition switch (args : list (Z * list Z)) (init : bool) (x : ascii) : bool :=
  xorb (Nat.odd (times x args)) init.
Definition value (args : list (Z * list Z)) (f : list Z → Z) (x : ascii) : Z :=
  from_option f 0 (last_arg x number args).

Definition meaning (args : list (Z * list Z)) : cmdline :=
  mk_cmdline
    (mk_options (switch args false "u") (switch args false "g") (switch args true "x")
       (switch args false "L") (value args atoi "n") (switch args true "j")
       (switch args false "o") (switch args true "R") (given "f" args) (value args atof_ms "r")
       (if given "f" args then ACTIVE_ROUTE_TIMEOUT_LLF else ACTIVE_ROUTE_TIMEOUT_HELLO)
       TTL_START_HELLO DELETE_PERIOD_HELLO)
    (negb (given "d" args)) (given "d" args) (last_arg "i" (λ _, true) args)
    (switch args false "l") (value args atoi "q") (switch args false "w") (switch args true "D").

(** The options with which the daemon goes on. *)
Definition option_ok (arg : Z * list Z) : bool :=
  if arg.1 =? ch "n" then negb (number arg.2) || (2 <=? atoi arg.2)
  else bool_decide (arg.1 ∈ 0 :: (ch <$> ["d"; "f"; "g"; "i"; "j"; "l"; "o"; "q"; "r"; "u"; "w"; "x";
                                          "L"; "D"; "R"]%char)).

Lemma times_snoc x args arg :
  times x (args ++ [arg]) = (times x args + (if (arg.1 =? ch x)%Z then 1 else 0))%nat.
Proof.
  unfold times. rewrite filter_app, length_app. f_equal. rewrite filter_cons, filter_nil.
  by destruct (_ =? _).
Qed.
Lemma given_snoc x args arg : given x (args ++ [arg]) = given x args || (arg.1 =? ch x).
Proof.
  unfold given. rewrite times_snoc. destruct (arg.1 =? _).
  - rewrite orb_true_r. apply negb_true_iff, Nat.eqb_neq. lia.
  - by rewrite Nat.add_0_r, orb_false_r.
Qed.
Lemma switch_snoc args arg init x :
  switch (args ++ [arg]) init x = xorb (arg.1 =? ch x) (switch args init x).
Proof.
  unfold switch. rewrite times_snoc. destruct (arg.1 =? _); [|by rewrite Nat.add_0_r].
  rewrite Nat.add_1_r, Nat.odd_succ, <- Nat.negb_odd. by destruct (Nat.odd _), init.
Qed.
Lemma last_arg_snoc x ok args arg :
  last_arg x ok (args ++ [arg])
  = if (arg.1 =? ch x) && ok arg.2 then Some arg.2 else last_arg x ok args.
Proof.
  unfold last_arg. rewrite filter_app, filter_cons, filter_nil.
  destruct (_ && _); simpl; [by rewrite last_snoc|by rewrite app_nil_r].
Qed.

Lemma value_snoc args arg f x :
  value (args ++ [arg]) f x
  = if (arg.1 =? ch x) && number arg.2 then f arg.2 else value args f x.
Proof. unfold value. rewrite last_arg_snoc. by destruct (_ && _). Qed.

(** One more option. *)
Lemma parse_option_meaning args o a :
  if option_ok (o, a)
  then parse_option o a (meaning args) = Ok () (meaning (args ++ [(o, a)]))
  else ∃ c, parse_option o a (meaning args) = Exit c.
Proof.
  unfold option_ok, meaning. rewrite !switch_snoc, !given_snoc, !value_snoc, !last_arg_snoc.
  cbn [fst snd].
  destruct (Z.eq_dec o (ch "n")) as [->|Hn]; [|rewrite (proj2 (Z.eqb_neq _ _) Hn)].
  { cbn. rewrite !orb_false_r. unfold parse_option, number. cbn. destruct (isdigit (hd 0 a)); [|done]. cbn. rewrite Z.ltb_antisym.
    by destruct (2 <=? atoi a); [|eexists]. }
  case_bool_decide as Hin.
  - cbn [fmap list_fmap] in Hin. rewrite !elem_of_cons in Hin.
    repeat destruct Hin as [->|Hin]; [..|by apply elem_of_nil in Hin];
      unfold parse_option, number; cbn; rewrite ?orb_false_r, ?orb_true_r;
      try destruct (isdigit (hd 0 a)); done.
  - cbn [fmap list_fmap] in Hin. rewrite !not_elem_of_cons in Hin.
    destruct_and! Hin. unfold parse_option.
    repeat match goal with H : o ≠ _ |- _ => rewrite (proj2 (Z.eqb_neq _ _) H); clear H end.
    by eexists.
Qed.

(** C39: what the command line means. A run of [main] over the options ends with exit when one of
    them asks for help, the version or fewer than two hellos or is unknown; otherwise -d and -f have
    set their values if they were given at all, each other switch (-g -j -l -o -u -w -x -L -D -R,
    also those for which the usage text says enable, disable or force) has its initial value when it
    was given an even number of times and the other value when it was given an odd number of times,
    and the options with an argument have their last valid one. *)
Theorem cmdline_meaning (args : list (Z * list Z)) :
  if forallb option_ok args
  then parse_cmdline args cmdline0 = Ok () (meaning args)
  else ∃ c, parse_cmdline args cmdline0 = Exit c.
Proof.
  change cmdline0 with (meaning []).
  assert (Hgen : ∀ done rest, if forallb option_ok rest
    then parse_cmdline rest (meaning done) = Ok () (meaning (done ++ rest))
    else ∃ c, parse_cmdline rest (meaning done) = Exit c); [|by apply (Hgen [])].
  intros done rest. revert done. induction rest as [|[o a] rest IH]; intros done.
  { cbn. by rewrite app_nil_r. }
  cbn [forallb]. pose proof (parse_option_meaning done o a) as H.
  specialize (IH (done ++ [(o, a)])). rewrite <- app_assoc in IH. simpl in IH.
  unfold parse_cmdline in *. cbn [foreach fst snd]. unfold bind at 1 2.
  destruct (option_ok (o, a)); cbn [andb].
  - rewrite H. exact IH.
  - destruct H as [c ->]. by exists c.
Qed.

End parse.

(** ** Strings *)

(** What the calls of [strtok] return, one after the other: the longest pieces without a
    delimiter, and no empty ones. *)
Fixpoint strtok (delim : Z → bool) (cur s : list Z) : list (list Z) :=
  match s with
  | [] => match cur with [] => [] | _ => [cur] end
  | c :: s' =>
      if delim c then match cur with [] => strtok delim [] s' | _ => cur :: strtok delim [] s' end
      else strtok delim (cur ++ [c]) s'
  end.

(** [sizeof(ifnames)] *)
Definition IFNAMES_SIZE : nat := (IFNAMSIZ + 1) * MAX_NR_INTERFACES.

Definition comma (c : Z) : bool := c =? ch ",".

(** ** The interfaces of [host_init] *)

(** What is stored about an interface. *)
Record if_data := mk_if_data {
  id_name : list Z; id_index : Z; id_addr : Z; id_netmask : Z; id_broadcast : Z
}.

(** The results of the [ioctl] calls; [None] is a failure. *)
Record ioctls := mk_ioctls {
  siocgifindex : list Z → option Z;
  siocgifaddr : list Z → option Z;
  siocgifnetmask : list Z → option Z;
  siocgifbrdaddr : list Z → option Z;
  siocgiwname : list Z → bool
}.

Section host.
Context (io : ioctls).

(** One turn of the interface loop: the name is copied to [ifreq], and the answers are
    stored.  [alog] exits at [LOG_ERR]. *)
Definition host_query (iface : list Z) : CM () if_data :=
  if (IFNAMSIZ <=? length iface)%nat then undefined StringOverflow else
  match siocgifindex io iface with
  | None => cexit (-1)
  | Some i =>
      match siocgifaddr io iface with
      | None => cexit (-1)
      | Some addr =>
          match siocgifnetmask io iface with
          | None => cexit (-1)
          | Some mask =>
              match siocgifbrdaddr io iface with
              | None => cexit (-1)
              | Some bc => ret (mk_if_data iface i addr mask bc)
              end
          end
      end
  end.

Fixpoint host_ifaces (ifaces : list (list Z)) (nif : nat) : CM () (list if_data) :=
  match ifaces with
  | [] => ret []
  | iface :: rest =>
      d ← host_query iface;
      if (MAX_NR_INTERFACES <=? S nif)%nat then ret [d] else
      ds ← host_ifaces rest (S nif);
      ret (d :: ds)
  end.

(** The search for a wireless interface among those [SIOCGIFCONF] reports.  The loop
    goes on to one entry more than there are, and when nothing is found the
    name that is looked at next was never written. *)
Definition first_wireless (reported : list (list Z)) : CM () (list Z) :=
  match search (siocgiwname io) reported with
  | None => undefined Uninitialised
  | Some name => match siocgifindex io name with None => cexit (-1) | Some _ => ret name end
  end.

Definition host_interfaces (ifname : option (list Z)) (reported : list (list Z))
  : CM () (list if_data) :=
  name ← (match ifname with Some name => ret name | None => first_wireless reported end);
  if (IFNAMES_SIZE <=? length name)%nat then undefined StringOverflow else
  match strtok comma [] name with
  | [] => undefined NullDeref
  | ifaces => host_ifaces ifaces 0
  end.
End host.

(** ** The default route *)

Definition blank (c : Z) : bool := (c =? ch " ") || (c =? 9).

Fixpoint find_default_gw (lines : list (list Z)) : CM () Z :=
  match lines with
  | [] => ret 0
  | line :: rest =>
      let toks := strtok blank [] line in
      match toks !! 1%nat with
      | None => find_default_gw rest
      | Some dest =>
          if bool_decide (dest = replicate 8 (ch "0")) then
            match toks !! 3%nat with
            | None => undefined NullDeref
            | Some flags =>
                if bool_decide (flags = ch <$> ["0"; "0"; "0"; "3"]%char) then ret 1
                else find_default_gw rest
            end
          else find_default_gw rest
      end
  end.

(** ** Properties *)

(** The names with commas in between. *)
Fixpoint join (names : list (list Z)) : list Z :=
  match names with
  | [] => []
  | [name] => name
  | name :: names' => name ++ ch "," :: join names'
  end.

(** A name that the kernel accepts. *)
Definition name_ok (name : list Z) : Prop :=
  name ≠ [] ∧ (length name < IFNAMSIZ)%nat ∧ Forall (λ c, comma c = false) name.

Lemma strtok_word delim cur name s :
  Forall (λ c, delim c = false) name → strtok delim cur (name ++ s) = strtok delim (cur ++ name) s.
Proof.
  intros Hn. revert cur. induction Hn as [|c name Hc _ IH]; intros cur; simpl; [by rewrite app_nil_r|].
  by rewrite Hc, IH, <- app_assoc.
Qed.

Lemma strtok_join names : Forall name_ok names → strtok comma [] (join names) = names.
Proof.
  induction 1 as [|name names (Hne & _ & Hc) _ IH]; [done|].
  destruct names as [|name' names].
  - cbn [join]. rewrite <- (app_nil_r name) at 1. rewrite strtok_word by done. simpl.
    by destruct name.
  - change (join (name :: name' :: names)) with (name ++ ch "," :: join (name' :: names)).
    rewrite strtok_word by done. remember (join (name' :: names)) as rest. cbn.
    destruct name; [done|]. by rewrite IH.
Qed.

Lemma length_join names :
  Forall name_ok names → (length (join names) <= IFNAMSIZ * length names)%nat.
Proof.
  induction 1 as [|name names (Hne & Hl & _) _ IH]; [done|].
  unfold IFNAMSIZ in *. destruct names as [|name' names]; [cbn [join length]; lia|].
  change (join (name :: name' :: names)) with (name ++ ch "," :: join (name' :: names)).
  rewrite length_app. cbn [length] in *. lia.
Qed.

Section host_properties.
Context (io : ioctls).

Lemma host_ifaces_run ifaces data nif :
  Forall2 (λ iface d, (length iface < IFNAMSIZ)%nat ∧ host_query io iface () = Ok d ()) ifaces data →
  (nif + length ifaces <= MAX_NR_INTERFACES)%nat →
  host_ifaces io ifaces nif () = Ok data ().
Proof.
  intros H. revert nif. induction H as [|iface d ifaces data [_ Hq] H IH]; intros nif Hn; [done|].
  cbn [host_ifaces]. erewrite bind_ok by exact Hq. cbn [length] in Hn.
  destruct (MAX_NR_INTERFACES <=? S nif)%nat eqn:E.
  - apply Nat.leb_le in E. destruct H; [done|]. simpl in Hn. lia.
  - erewrite bind_ok by (apply IH; lia). done.
Qed.

(** The interfaces named on the command line, separated by commas, are the ones that
    are queried, in their order, and each is stored with its own answers: up to
    [MAX_NR_INTERFACES] names of up to 15 characters fit in the buffers. *)
Theorem interfaces_stored (names : list (list Z)) (reported : list (list Z)) :
  Forall name_ok names → names ≠ [] → (length names <= MAX_NR_INTERFACES)%nat →
  (∀ name, name ∈ names → is_Some (siocgifindex io name) ∧ is_Some (siocgifaddr io name) ∧
     is_Some (siocgifnetmask io name) ∧ is_Some (siocgifbrdaddr io name)) →
  ∃ data, host_interfaces io (Some (join names)) reported () = Ok data () ∧
    Forall2 (λ name d, id_name d = name ∧ siocgifindex io name = Some (id_index d) ∧
      siocgifaddr io name = Some (id_addr d) ∧ siocgifnetmask io name = Some (id_netmask d) ∧
      siocgifbrdaddr io name = Some (id_broadcast d)) names data.
Proof.
  intros Hok Hne Hlen Hio. unfold host_interfaces. erewrite bind_ok by done.
  pose proof (length_join names Hok) as Hj.
  rewrite (proj2 (Nat.leb_gt _ _)) by (unfold IFNAMES_SIZE, IFNAMSIZ, MAX_NR_INTERFACES in *; lia).
  rewrite strtok_join by done.
  assert (Hdata : ∃ data, Forall2 (λ name d,
    ((length name < IFNAMSIZ)%nat ∧ host_query io name () = Ok d ()) ∧
    id_name d = name ∧ siocgifindex io name = Some (id_index d) ∧
      siocgifaddr io name = Some (id_addr d) ∧ siocgifnetmask io name = Some (id_netmask d) ∧
      siocgifbrdaddr io name = Some (id_broadcast d)) names data).
  { clear Hne Hlen Hj. induction Hok as [|name names (_ & Hl & _) _ IH]; [by exists []|].
    destruct IH as [data Hd]; [intros n Hn; apply Hio; by right|].
    destruct (Hio name) as ([i Hi] & [a Ha] & [m Hm] & [b Hb]); [left|].
    exists (mk_if_data name i a m b :: data). constructor; [|done]. split_and!; try done.
    unfold host_query. by rewrite (proj2 (Nat.leb_gt _ _)), Hi, Ha, Hm, Hb by done. }
  destruct Hdata as [data Hdata]. exists data. split.
  - destruct names as [|n ns]; [done|]. apply host_ifaces_run; [|simpl in *; lia].
    eapply Forall2_impl; [exact Hdata|]. by intros ? ? [? _].
  - eapply Forall2_impl; [exact Hdata|]. by intros ? ? [_ ?].
Qed.

(** Nothing checks the length of a name: one of 16 characters or more on the command
    line is copied over the end of [ifreq.ifr_name] (or of [ifnames]), and a command
    line with commas only makes [strcpy] follow NULL. *)
Theorem interface_name_overflows (reported : list (list Z)) :
  (∀ name, Forall (λ c, comma c = false) name → (IFNAMSIZ <= length name)%nat →
     host_interfaces io (Some name) reported () = Ub StringOverflow) ∧
  (∀ name, Forall (λ c, comma c = true) name → (length name < IFNAMES_SIZE)%nat →
     host_interfaces io (Some name) reported () = Ub NullDeref).
Proof.
  unfold host_interfaces. split; intros name Hc Hl; erewrite bind_ok by done.
  - destruct (IFNAMES_SIZE <=? length name)%nat; [done|].
    assert (E : strtok comma [] name = strtok comma name [])
      by (rewrite <- (app_nil_r name) at 1; by apply strtok_word).
    rewrite E. destruct name as [|c name]; [simpl in Hl; unfold IFNAMSIZ in Hl; lia|].
    cbn [strtok host_ifaces]. unfold bind, host_query. by rewrite (proj2 (Nat.leb_le _ _)).
  - rewrite (proj2 (Nat.leb_gt _ _)) by done.
    assert (E : strtok comma [] name = []) by (induction Hc as [|c n Hc1 _ IH]; [done|];
      simpl; rewrite Hc1; apply IH; simpl in Hl; lia). by rewrite E.
Qed.
End host_properties.

(** A line of /proc/net/route that describes a default route through a gateway. *)
Definition default_route (line : list Z) : Prop :=
  strtok blank [] line !! 1%nat = Some (replicate 8 (ch "0")) ∧
  strtok blank [] line !! 3%nat = Some (ch <$> ["0"; "0"; "0"; "3"]%char).

(** [find_default_gw] returns 1 exactly when one of the lines is a default route, as long
    as every line for the destination 0 has its flags. *)
Theorem default_gw_found (lines : list (list Z)) :
  (∀ line, line ∈ lines → strtok blank [] line !! 1%nat = Some (replicate 8 (ch "0")) →
     is_Some (strtok blank [] line !! 3%nat)) →
  ∃ r, find_default_gw lines () = Ok r () ∧ (r = 0 ∨ r = 1) ∧
    (r = 1 ↔ Exists default_route lines).
Proof.
  induction lines as [|line lines IH]; intros Hl.
  { exists 0. split_and!; [done|by left|]. split; [done|by intros ?%Exists_nil]. }
  destruct IH as (r & R & Hr & Hiff); [intros l Hin; apply Hl; by right|].
  assert (Hskip : ¬ default_route line → ∃ r, Ok r () = find_default_gw lines () ∧ (r = 0 ∨ r = 1) ∧
    (r = 1 ↔ Exists default_route (line :: lines))).
  { intros Hn. exists r. split_and!; [done|done|]. rewrite Exists_cons. tauto. }
  cbn [find_default_gw]. unfold default_route in Hskip at 1.
  destruct (strtok blank [] line !! 1%nat) as [dest|] eqn:E1.
  2:{ destruct Hskip as (r' & <- & H); [by intros [? _]|by exists r']. }
  case_bool_decide as Hd.
  2:{ destruct Hskip as (r' & <- & H); [intros [[= ->] _]; by destruct Hd|by exists r']. }
  subst dest. destruct (Hl line) as [flags E3]; [left|done|]. rewrite E3 in *. case_bool_decide as Hf.
  - exists 1. split_and!; [done|by right|]. split; [|done]. intros _. left. unfold default_route.
    by rewrite E1, E3, Hf.
  - destruct Hskip as (r' & <- & H); [intros [_ [= ->]]; by destruct Hf|by exists r'].
Qed.
