(* ===== verification/Startup.v ===== *)
(** * core/main.c, network/nl.c, nfqueue.c, aodv_socket.c: starting and stopping the services

    The results of the system calls and of the calls of libnetfilter_queue are an input:
    the [n]-th call returns [sys_result n].  The calls that were made, with their
    results, are recorded in [sys_trace], newest first. *)

From Stdlib Require Import Ascii String.
From S2P Require Import Prelude.
From S2P Require Import Params.
From S2P Require Import Format.
From S2P Require Import Cmdline.

#[local] Open Scope cm_scope.

Inductive callback_func := nl_rt_callback | nfqueue_fd_callback | aodv_socket_read_cb | llf_callback.

Inductive sockopt :=
  | SO_REUSEADDR | SO_BROADCAST | SO_BINDTODEVICE (name : list Z) | SO_PRIORITY
  | IP_RECVTTL | IP_PKTINFO | SO_RCVBUF (size : Z).

Inductive call :=
  | CSocket | CBind (fd : Z) | CSetsockopt (fd : Z) (opt : sockopt) | CGetsockname (fd : Z)
  | CClose (fd : Z) | COpen (path : list Z) | CWrite (fd c : Z)
  | CNfqOpen | CNfqUnbind | CNfqBind | CNfqCreate | CNfqSetMode | CNfqFd
  | CNfqDestroy | CNfqClose.

Record sstate := mk_sstate {
  sys_result : nat → Z;
  sys_made : nat;
  sys_trace : list (call * Z);
  callbacks : list (Z * callback_func);
  nfq_ctx : bool;            (* nfq_handle_ctx is not NULL *)
  nfq_qh : bool;             (* nfq_queue is not NULL *)
  nfq_socket : Z;
  rtnl_sock : Z;
  dev_socks : list Z;        (* DEV_NR(i).sock *)
  rth_fd : Z                 (* rth.fd of the link-layer feedback *)
}.

Definition set_callbacks v s := mk_sstate (sys_result s) (sys_made s) (sys_trace s) v (nfq_ctx s)
  (nfq_qh s) (nfq_socket s) (rtnl_sock s) (dev_socks s) (rth_fd s).
Definition set_nfq c q f s := mk_sstate (sys_result s) (sys_made s) (sys_trace s) (callbacks s) c
  q f (rtnl_sock s) (dev_socks s) (rth_fd s).
Definition set_rtnl_sock v s := mk_sstate (sys_result s) (sys_made s) (sys_trace s) (callbacks s)
  (nfq_ctx s) (nfq_qh s) (nfq_socket s) v (dev_socks s) (rth_fd s).
Definition set_dev_socks v s := mk_sstate (sys_result s) (sys_made s) (sys_trace s) (callbacks s)
  (nfq_ctx s) (nfq_qh s) (nfq_socket s) (rtnl_sock s) v (rth_fd s).
Definition set_rth_fd v s := mk_sstate (sys_result s) (sys_made s) (sys_trace s) (callbacks s)
  (nfq_ctx s) (nfq_qh s) (nfq_socket s) (rtnl_sock s) (dev_socks s) v.
Definition made (c : call) (s : sstate) : sstate :=
  mk_sstate (sys_result s) (S (sys_made s)) ((c, sys_result s (sys_made s)) :: sys_trace s)
    (callbacks s) (nfq_ctx s) (nfq_qh s) (nfq_socket s) (rtnl_sock s) (dev_socks s) (rth_fd s).

Abbreviation SM := (CM sstate).

Definition call_sys (c : call) : SM Z := λ s, Ok (sys_result s (sys_made s)) (made c s).

(** A call after whose failure the program exits. *)
Definition must (c : call) : SM () :=
  r ← call_sys c;
  if r <? 0 then cexit (-1) else ret ().

(** ** Callbacks *)

Definition CALLBACK_FUNCS : nat := 5.

Definition attach_callback_func (fd : Z) (func : callback_func) : SM Z :=
  l ← gets callbacks;
  if (CALLBACK_FUNCS <=? length l)%nat then cexit (-1) else
  modify (set_callbacks (l ++ [(fd, func)])) ;;
  ret 0.

(** ** The netlink socket *)

Definition nl_init : SM () :=
  sock ← call_sys CSocket;
  modify (set_rtnl_sock sock) ;;
  if sock <? 0 then cexit (-1) else
  status ← call_sys (CBind sock);
  if status =? -1 then cexit (-1) else
  must (CGetsockname sock) ;;
  r ← attach_callback_func sock nl_rt_callback;
  if r <? 0 then cexit (-1) else ret ().

Definition nl_cleanup : SM () :=
  sock ← gets rtnl_sock;
  when (0 <? sock) (call_sys (CClose sock) ;; ret ()).

(** ** The packet queue of the kernel *)

Definition nfqueue_init : SM Z :=
  ctx ← call_sys CNfqOpen;
  modify (λ s, set_nfq (negb (ctx =? 0)) (nfq_qh s) (nfq_socket s) s) ;;
  if ctx =? 0 then ret (-1) else
  call_sys CNfqUnbind ;;
  r ← call_sys CNfqBind;
  if r <? 0 then
    call_sys CNfqClose ;;
    modify (λ s, set_nfq false (nfq_qh s) (nfq_socket s) s) ;;
    ret (-1)
  else
  qh ← call_sys CNfqCreate;
  modify (λ s, set_nfq (nfq_ctx s) (negb (qh =? 0)) (nfq_socket s) s) ;;
  if qh =? 0 then
    call_sys CNfqClose ;;
    modify (λ s, set_nfq false (nfq_qh s) (nfq_socket s) s) ;;
    ret (-1)
  else
  r ← call_sys CNfqSetMode;
  if r <? 0 then
    call_sys CNfqDestroy ;;
    call_sys CNfqClose ;;
    modify (λ s, set_nfq false false (nfq_socket s) s) ;;
    ret (-1)
  else
  fd ← call_sys CNfqFd;
  modify (λ s, set_nfq (nfq_ctx s) (nfq_qh s) fd s) ;;
  r ← attach_callback_func fd nfqueue_fd_callback;
  if r <? 0 then
    call_sys CNfqDestroy ;;
    call_sys CNfqClose ;;
    modify (set_nfq false false (-1)) ;;
    ret (-1)
  else ret 0.

Definition nfqueue_cleanup : SM () :=
  q ← gets nfq_qh;
  when q (call_sys CNfqDestroy ;; modify (λ s, set_nfq (nfq_ctx s) false (nfq_socket s) s)) ;;
  ctx ← gets nfq_ctx;
  when ctx (call_sys CNfqClose ;; modify (λ s, set_nfq false (nfq_qh s) (nfq_socket s) s)) ;;
  modify (λ s, set_nfq (nfq_ctx s) (nfq_qh s) (-1) s).

(** ** The AODV sockets *)

Definition SO_RECVBUF_SIZE : Z := 256 * 1024.

(** The loop that looks for a size of the receive buffer the kernel accepts. *)
Fixpoint rcvbuf_loop (fuel : nat) (fd bufsize : Z) : SM Z :=
  match fuel with
  | O => undefined OutOfFuel
  | S fuel' =>
      r ← call_sys (CSetsockopt fd (SO_RCVBUF bufsize));
      if r =? 0 then ret bufsize
      else if bufsize <? RECV_BUF_SIZE then cexit (-1)
      else rcvbuf_loop fuel' fd (bufsize - 1024)
  end.

Definition rcvbuf_fuel : nat := 257.

(** One device: whether it is enabled, and its name.  The size of the receive buffer is
    not reset between the devices. *)
Definition socket_open (i : nat) (name : list Z) (bufsize : Z) : SM Z :=
  sock ← call_sys CSocket;
  modify (λ s, set_dev_socks (<[i := sock]> (dev_socks s)) s) ;;
  if sock <? 0 then cexit (-1) else
  must (CSetsockopt sock SO_REUSEADDR) ;;
  must (CBind sock) ;;
  must (CSetsockopt sock SO_BROADCAST) ;;
  must (CSetsockopt sock (SO_BINDTODEVICE name)) ;;
  must (CSetsockopt sock SO_PRIORITY) ;;
  must (CSetsockopt sock IP_RECVTTL) ;;
  must (CSetsockopt sock IP_PKTINFO) ;;
  size ← rcvbuf_loop rcvbuf_fuel sock bufsize;
  r ← attach_callback_func sock aodv_socket_read_cb;
  if r <? 0 then cexit (-1) else ret size.

(** The devices that are enabled, with their numbers. *)
Definition enabled (devs : list (bool * list Z)) : list (nat * list Z) :=
  omap (λ d, if (d.2.1 : bool) then Some (d.1, d.2.2) else None)
    (zip (seq 0 MAX_NR_INTERFACES) devs).

Definition aodv_socket_init (nif : Z) (devs : list (bool * list Z)) : SM () :=
  if nif =? 0 then cexit (-1) else
  foreach (enabled devs) SO_RECVBUF_SIZE (λ d size, socket_open d.1 d.2 size) ;;
  ret ().

Definition aodv_socket_cleanup (devs : list (bool * list Z)) : SM () :=
  foreach (enabled devs) () (λ d _,
    sock ← gets (λ s, default 0 (dev_socks s !! d.1));
    call_sys (CClose sock) ;; ret ()).

(** ** The link-layer feedback

    Only started in builds with [LLFEEDBACK].  [DEBUG] and [alog] exit at [LOG_ERR].
    A result of [getsockname] above 0 stands for an address of another length or
    family. *)

Definition llf_rtnl_open : SM Z :=
  fd ← call_sys CSocket;
  modify (set_rth_fd fd) ;;
  if fd <? 0 then ret (-1) else
  r ← call_sys (CBind fd);
  if r <? 0 then ret (-1) else
  r ← call_sys (CGetsockname fd);
  if negb (r =? 0) then ret (-1) else ret 0.

Definition llf_init : SM () :=
  r ← llf_rtnl_open;
  if r <? 0 then cexit (-1) else
  fd ← gets rth_fd;
  r ← attach_callback_func fd llf_callback;
  if r <? 0 then cexit (-1) else ret ().

Definition llf_cleanup : SM () :=
  fd ← gets rth_fd;
  call_sys (CClose fd) ;;
  ret ().

(** ** Kernel options *)


(** [sizeof(command)] *)
Definition COMMAND_SIZE : nat := 64.

(** A character is written to a file; the descriptor stays open when that fails. *)
Definition write_option (path : list Z) (c : ascii) : SM bool :=
  fd ← call_sys (COpen path);
  if fd <? 0 then ret false else
  r ← call_sys (CWrite fd (ch c));
  if r <? 0 then ret false else
  call_sys (CClose fd) ;;
  ret true.

(** The path is made in [command]. *)
Definition write_command (path : list Z) (c : ascii) : SM bool :=
  if (COMMAND_SIZE <=? length path)%nat then undefined StringOverflow else write_option path c.

Definition conf_path (ifname : list Z) (opt : string) : list Z :=
  (str "/proc/sys/net/ipv4/conf/" ++ ifname ++ str "/" ++ str opt)%list.

(** The writes stop at the first one that fails. *)
Fixpoint write_commands (cmds : list (list Z)) : SM Z :=
  match cmds with
  | [] => ret 0
  | path :: rest =>
      ok ← write_command path "0";
      if ok then write_commands rest else ret (-1)
  end.

Definition redirect_paths (ifname : list Z) : list (list Z) :=
  [conf_path ifname "send_redirects"; conf_path ifname "accept_redirects"].

Definition ip_forward : list Z := str "/proc/sys/net/ipv4/ip_forward".

Definition set_kernel_options (devs : list (bool * list Z)) : SM Z :=
  ok ← write_option ip_forward "1";
  if negb ok then ret (-1) else
  write_commands (((enabled devs).*2 ≫= redirect_paths) ++ redirect_paths (str "all"))%list.

(** ** Start and stop *)

(** The part of [main] that starts the services: the end of [host_init], [nl_init],
    [packet_input_init] and [aodv_socket_init]. *)
Definition start_services (nif : Z) (devs : list (bool * list Z)) : SM () :=
  r ← set_kernel_options devs;
  if r <? 0 then cexit (-1) else
  nl_init ;;
  r ← nfqueue_init;
  if r <? 0 then cexit (-1) else
  aodv_socket_init nif devs.

(** The part of [cleanup] that stops them. *)
Definition stop_services (devs : list (bool * list Z)) : SM () :=
  aodv_socket_cleanup devs ;;
  nfqueue_cleanup ;;
  nl_cleanup.

Definition start_state (results : nat → Z) : sstate :=
  mk_sstate results 0 [] [] false false (-1) 0 (replicate (S MAX_NR_INTERFACES) 0) 0.

(** ** What is held *)

Inductive sres := RNfq | RQueue | RFd (fd : Z).

Definition same (x y : sres) : bool :=
  match x, y with
  | RNfq, RNfq | RQueue, RQueue => true
  | RFd a, RFd b => a =? b
  | _, _ => false
  end.

Definition one (b : bool) : Z := if b then 1 else 0.

Definition sweight (x : sres) (c : call * Z) : Z :=
  match c with
  | (CNfqOpen, r) => one (same x RNfq && negb (r =? 0))
  | (CNfqClose, _) => - one (same x RNfq)
  | (CNfqCreate, r) => one (same x RQueue && negb (r =? 0))
  | (CNfqDestroy, _) => - one (same x RQueue)
  | ((CSocket | COpen _), r) => one (same x (RFd r) && negb (r <? 0))
  | (CClose fd, _) => - one (same x (RFd fd))
  | _ => 0
  end.

(** How many times [x] was opened and not closed. *)
Definition held (x : sres) (s : sstate) : Z := foldr (λ c n, sweight x c + n) 0 (sys_trace s).

Lemma held_made x c s : held x (made c s) = sweight x (c, sys_result s (sys_made s)) + held x s.
Proof. done. Qed.

Definition nothing (u : ub) : Prop := False.

Lemma wp_call c Q s : Q (sys_result s (sys_made s)) (made c s) → wp nothing (call_sys c) Q s.
Proof. done. Qed.

Lemma wp_must c Q s : Q () (made c s) → wp nothing (must c) Q s.
Proof. intros H. unfold must, wp, bind, call_sys. by destruct (_ <? 0). Qed.

Lemma attach_spec fd func Q s :
  ((length (callbacks s) < CALLBACK_FUNCS)%nat → Q 0 (set_callbacks (callbacks s ++ [(fd, func)]) s)) →
  wp nothing (attach_callback_func fd func) Q s.
Proof.
  intros H. unfold attach_callback_func. do 2 wp_step. destruct (_ <=? _)%nat eqn:E; [apply wp_exit|].
  apply Nat.leb_gt in E. by apply H.
Qed.

(** A step of the set-up code. *)
Ltac setup_step :=
  lazymatch goal with
  | |- wp _ (must _) _ _ => apply wp_must
  | |- wp _ (call_sys _) _ _ => apply wp_call
  | |- wp _ (attach_callback_func _ _) _ _ => apply attach_spec; intros ?
  | |- _ => wp_step
  end.

(** The parts of the state that only the calls themselves change. *)
Record kept (s s' : sstate) : Prop := {
  kp_nfq : (nfq_ctx s', nfq_qh s', nfq_socket s') = (nfq_ctx s, nfq_qh s, nfq_socket s);
  kp_rtnl : rtnl_sock s' = rtnl_sock s;
  kp_callbacks : callbacks s' = callbacks s;
  kp_socks : dev_socks s' = dev_socks s;
  kp_held : ∀ x, held x s' = held x s
}.

Lemma kept_refl s : kept s s.
Proof. done. Qed.
Lemma kept_trans s1 s2 s3 : kept s1 s2 → kept s2 s3 → kept s1 s3.
Proof.
  intros [A1 A2 A3 A4 A5] [B1 B2 B3 B4 B5]. split; [congruence..|]. intros x. by rewrite B5.
Qed.

(** The receive buffer: a size is found or the program exits. *)
Lemma rcvbuf_spec fuel : ∀ fd k s,
  0 <= k < Z.of_nat fuel →
  wp nothing (rcvbuf_loop fuel fd (1024 * k)) (λ size s', kept s s' ∧ ∃ k', size = 1024 * k' ∧ 0 <= k' <= k) s.
Proof.
  induction fuel as [|fuel IH]; intros fd k s Hk; [lia|]. cbn [rcvbuf_loop].
  do 2 setup_step. set (s1 := made _ s). assert (Hs1 : kept s s1) by by split.
  destruct (_ =? 0); [apply wp_ret; split; [done|exists k; lia]|].
  destruct (_ <? _) eqn:E; [apply wp_exit|]. apply Z.ltb_ge in E.
  assert (Hpos : 0 < k) by (vm_compute (RECV_BUF_SIZE) in E; lia).
  replace (1024 * k - 1024) with (1024 * (k - 1)) by lia.
  eapply wp_mono; [apply IH; lia|]. intros size s2 (H2 & k' & -> & Hk').
  split; [by eapply kept_trans|exists k'; lia].
Qed.

(** ** The netlink queue *)

(** Whether [x] belongs to the connection to the packet queue. *)
Definition nfq_part (x : sres) : bool := match x with RFd _ => false | _ => true end.

Lemma nfqueue_init_spec s :
  nfq_qh s = false →
  wp nothing nfqueue_init (λ r s',
    (r = 0 ∨ r = -1) ∧ nfq_ctx s' = (r =? 0) ∧ nfq_qh s' = (r =? 0) ∧
    rtnl_sock s' = rtnl_sock s ∧ dev_socks s' = dev_socks s ∧
    callbacks s' = (if r =? 0 then callbacks s ++ [(nfq_socket s', nfqueue_fd_callback)]
                    else callbacks s)%list ∧
    (r = 0 → (length (callbacks s) < CALLBACK_FUNCS)%nat) ∧
    ∀ x, held x s' = held x s + one (nfq_part x && (r =? 0))) s.
Proof.
  intros Hq. unfold nfqueue_init.
  repeat setup_step;
    cbn in *;
    split_and!; try done; try (by left); try (by right);
    intros [| |fd]; unfold held; cbn;
    repeat match goal with H : (sys_result _ _ =? 0) = _ |- _ => rewrite !H; clear H end; cbn; lia.
Qed.

Lemma nfqueue_cleanup_run s :
  ∃ s', nfqueue_cleanup s = Ok () s' ∧ nfq_ctx s' = false ∧ nfq_qh s' = false ∧
    rtnl_sock s' = rtnl_sock s ∧ dev_socks s' = dev_socks s ∧
    ∀ x, held x s' = held x s - one (same x RNfq && nfq_ctx s)
                     - one (same x RQueue && nfq_qh s).
Proof.
  unfold nfqueue_cleanup, bind, gets, modify, when.
  destruct (nfq_qh s) eqn:E1, (nfq_ctx s) eqn:E2; cbn; rewrite ?E1, ?E2; cbn; rewrite ?E1, ?E2;
    eexists; (split; [reflexivity|]); cbn; rewrite ?E1, ?E2; split_and!; try done;
    intros [| |fd]; unfold held; cbn; lia.
Qed.

(** Opening the packet queue is all or nothing: when [nfqueue_init] returns 0 the
    handle, the queue and the callback are there; when it returns -1, whichever
    of its calls failed, what it had opened is closed again and no callback is
    attached.  [nfqueue_cleanup] afterwards releases everything in both cases. *)
Theorem nfqueue_all_or_nothing (s : sstate) :
  nfq_qh s = false → (length (callbacks s) < CALLBACK_FUNCS)%nat →
  ∃ r s' s'', nfqueue_init s = Ok r s' ∧ (r = 0 ∨ r = -1) ∧
    (∀ x, held x s' = held x s + one (nfq_part x && (r =? 0))) ∧
    nfq_ctx s' = (r =? 0) ∧ nfq_qh s' = (r =? 0) ∧
    callbacks s' = (if r =? 0 then callbacks s ++ [(nfq_socket s', nfqueue_fd_callback)]
                    else callbacks s)%list ∧
    nfqueue_cleanup s' = Ok () s'' ∧ ∀ x, held x s'' = held x s.
Proof.
  intros Hq Hroom. pose proof (nfqueue_init_spec s Hq) as Hw. unfold wp in Hw.
  assert (Hret : ∃ r s', nfqueue_init s = Ok r s').
  { unfold nfqueue_init, attach_callback_func, bind, call_sys, gets, modify, ret.
    repeat (destruct (_ =? 0) || destruct (_ <? 0); [by do 2 eexists|]).
    cbn [callbacks made set_nfq]. rewrite (proj2 (Nat.leb_gt _ _)) by done. by do 2 eexists. }
  destruct Hret as (r & s' & R). rewrite R in Hw.
  destruct Hw as (Hr & Hc & Hh & _ & _ & Hcb & _ & Hheld).
  destruct (nfqueue_cleanup_run s') as (s'' & R2 & _ & _ & _ & _ & Hheld2).
  exists r, s', s''. split_and!; try done. intros x. rewrite Hheld2, Hheld, Hc, Hh.
  destruct Hr as [-> | ->]; destruct x; cbn; lia.
Qed.

(** ** The other services *)

Lemma write_option_spec path c s : wp nothing (write_option path c) (λ ok s',
  (nfq_ctx s', nfq_qh s', nfq_socket s') = (nfq_ctx s, nfq_qh s, nfq_socket s) ∧
  rtnl_sock s' = rtnl_sock s ∧ callbacks s' = callbacks s ∧ dev_socks s' = dev_socks s ∧
  (ok = true → ∀ x, held x s' = held x s)) s.
Proof.
  unfold write_option. repeat setup_step; split_and!; try done. intros _ x. unfold held. cbn in *.
  rewrite Hif. destruct x as [| |fd]; cbn; [lia..|]. destruct (_ =? _); cbn; lia.
Qed.

(** The options of the kernel are set, or the result says that they are not. *)
Lemma write_commands_spec cmds : ∀ s,
  Forall (λ path, (length path < COMMAND_SIZE)%nat) cmds →
  wp nothing (write_commands cmds) (λ r s', 0 <= r → kept s s') s.
Proof.
  induction cmds as [|path cmds IH]; intros s Hl; [by intros _|].
  apply Forall_cons in Hl as [Hp Hl]. cbn [write_commands]. apply wp_bind. unfold write_command.
  rewrite (proj2 (Nat.leb_gt _ _)) by done. eapply wp_mono; [apply write_option_spec|].
  intros [] s1 (H1 & H2 & H3 & H4 & H5); [|by intros ?].
  eapply wp_mono; [by apply IH|]. intros r s2 Hk Hr. eapply kept_trans; [|by apply Hk].
  split; [done..|]. by apply H5.
Qed.

Lemma conf_path_fits name opt :
  (length name < IFNAMSIZ)%nat → opt ∈ ["send_redirects"; "accept_redirects"]%string →
  (length (conf_path name opt) < COMMAND_SIZE)%nat.
Proof.
  intros Hn Ho. unfold conf_path, COMMAND_SIZE, IFNAMSIZ in *. rewrite !length_app.
  rewrite !elem_of_cons, elem_of_nil in Ho. destruct Ho as [->|[->|[]]]; cbn; lia.
Qed.

Lemma redirect_paths_fit name :
  (length name < IFNAMSIZ)%nat →
  Forall (λ path, (length path < COMMAND_SIZE)%nat) (redirect_paths name).
Proof.
  intros Hn. apply Forall_cons. split; [by apply conf_path_fits; [|left]|].
  apply Forall_cons. split; [by apply conf_path_fits; [|right; left]|by apply Forall_nil].
Qed.

Lemma kernel_options_spec devs s :
  Forall (λ name, (length name < IFNAMSIZ)%nat) (enabled devs).*2 →
  wp nothing (set_kernel_options devs) (λ r s', 0 <= r → kept s s') s.
Proof.
  intros Hn. unfold set_kernel_options. apply wp_bind.
  eapply wp_mono; [apply write_option_spec|]. intros [] s1 (H1 & H2 & H3 & H4 & H5); [|by intros ?].
  cbn [negb]. eapply wp_mono; [apply write_commands_spec, Forall_app_2|].
  - apply Forall_bind, (Forall_impl _ _ _ Hn). intros name. apply redirect_paths_fit.
  - apply redirect_paths_fit. unfold IFNAMSIZ. cbn. lia.
  - intros r s2 Hk Hr. eapply kept_trans; [|by apply Hk]. split; [done..|by apply H5].
Qed.

Lemma nl_init_spec s :
  callbacks s = [] →
  wp nothing nl_init (λ _ s',
    (nfq_ctx s', nfq_qh s', nfq_socket s') = (nfq_ctx s, nfq_qh s, nfq_socket s) ∧
    callbacks s' = [(rtnl_sock s', nl_rt_callback)] ∧ dev_socks s' = dev_socks s ∧
    ∀ x, held x s' = held x s + one (same x (RFd (rtnl_sock s')))) s.
Proof.
  intros Hc. unfold nl_init. repeat setup_step. split_and!; [done|cbn; by rewrite Hc|done|].
  intros x. unfold held. cbn in *. rewrite Hif. cbn. rewrite andb_true_r. lia.
Qed.

(** What the sockets of devices hold. *)
Definition sock_of (s : sstate) (d : nat * list Z) : Z := default 0 (dev_socks s !! d.1).
Fixpoint socks_held (x : sres) (s : sstate) (l : list (nat * list Z)) : Z :=
  match l with
  | [] => 0
  | d :: l' => one (same x (RFd (sock_of s d))) + socks_held x s l'
  end.

Lemma socket_open_spec i name k s :
  0 <= k < Z.of_nat rcvbuf_fuel → (i < length (dev_socks s))%nat →
  wp nothing (socket_open i name (1024 * k)) (λ size s', ∃ fd,
    (∃ k', size = 1024 * k' ∧ 0 <= k' <= k) ∧ dev_socks s' = <[i := fd]> (dev_socks s) ∧
    (nfq_ctx s', nfq_qh s', nfq_socket s') = (nfq_ctx s, nfq_qh s, nfq_socket s) ∧
    rtnl_sock s' = rtnl_sock s ∧ (length (callbacks s) < CALLBACK_FUNCS)%nat ∧
    callbacks s' = (callbacks s ++ [(fd, aodv_socket_read_cb)])%list ∧
    ∀ x, held x s' = held x s + one (same x (RFd fd))) s.
Proof.
  intros Hk Hi. unfold socket_open. do 4 setup_step. destruct (_ <? 0) eqn:E; [apply wp_exit|].
  do 15 setup_step. eapply wp_mono; [by apply rcvbuf_spec|].
  intros size s1 ([K1 K2 K3 K4 K5] & Hsize). do 2 setup_step.
  destruct (0 <? 0) eqn:E0; [done|]. apply wp_ret. eexists.
  split_and!; [exact Hsize|cbn; by rewrite K4|cbn; by rewrite K1|cbn; by rewrite K2|by rewrite K3 in H|cbn; by rewrite K3|].
  intros x. change (held x (set_callbacks _ s1)) with (held x s1). rewrite K5. unfold held. cbn in *.
  rewrite E. cbn. rewrite andb_true_r. lia.
Qed.

Lemma socks_held_ext x s s' l :
  (∀ d, d ∈ l → sock_of s' d = sock_of s d) → socks_held x s' l = socks_held x s l.
Proof.
  induction l as [|d l IH]; intros H; [done|]. cbn [socks_held].
  rewrite H by left. rewrite IH; [done|]. intros d' Hd. apply H. by right.
Qed.

Lemma sockets_spec l : ∀ k s,
  0 <= k < Z.of_nat rcvbuf_fuel → NoDup l.*1 → Forall (λ i, i < length (dev_socks s))%nat l.*1 →
  wp nothing (foreach l (1024 * k) (λ d size, socket_open d.1 d.2 size)) (λ _ s',
    (∀ i, i ∉ l.*1 → dev_socks s' !! i = dev_socks s !! i) ∧
    (nfq_ctx s', nfq_qh s', nfq_socket s') = (nfq_ctx s, nfq_qh s, nfq_socket s) ∧
    rtnl_sock s' = rtnl_sock s ∧
    callbacks s' = (callbacks s ++ ((λ d, (sock_of s' d, aodv_socket_read_cb)) <$> l))%list ∧
    (l = [] ∨ (length (callbacks s') <= CALLBACK_FUNCS)%nat) ∧
    ∀ x, held x s' = held x s + socks_held x s' l) s.
Proof.
  induction l as [|[i name] l IH]; intros k s Hk Hnd Hlen.
  { apply wp_ret. split_and!; try done; [by rewrite app_nil_r|by left|]. intros x. cbn. lia. }
  cbn [fmap list_fmap fst] in Hnd, Hlen. apply NoDup_cons in Hnd as [Hi Hnd].
  apply Forall_cons in Hlen as [Hil Hlen]. cbn [foreach fst snd]. apply wp_bind.
  eapply wp_mono; [by apply socket_open_spec|].
  intros size s1 (fd & (k' & -> & Hk') & Hs & Hn & Hr & Hc & Hcb & Hh).
  eapply wp_mono; [apply IH; [lia|done|by rewrite Hs, length_insert]|].
  intros size s2 (H1 & H2 & H3 & H4 & H5 & H6).
  assert (Hfd : sock_of s2 (i, name) = fd).
  { unfold sock_of. cbn [fst]. rewrite H1, Hs by done. by rewrite list_lookup_insert_eq. }
  split_and!; [|congruence|congruence| | |].
  - intros j Hj. cbn [fmap list_fmap fst] in Hj. apply not_elem_of_cons in Hj as [Hne Hj].
    by rewrite H1, Hs, list_lookup_insert_ne by done.
  - rewrite H4, Hcb, <- app_assoc. cbn. by rewrite Hfd.
  - right. destruct H5 as [->|?]; [|done]. rewrite H4, Hcb. cbn. rewrite !length_app. cbn. lia.
  - intros x. cbn [socks_held]. rewrite H6, Hh, Hfd. lia.
Qed.

Lemma sockets_closed l : ∀ s,
  ∃ s', foreach l () (λ d _, sock ← gets (λ s, default 0 (dev_socks s !! d.1));
                             call_sys (CClose sock) ;; ret ()) s = Ok () s' ∧
    (nfq_ctx s', nfq_qh s', nfq_socket s') = (nfq_ctx s, nfq_qh s, nfq_socket s) ∧
    rtnl_sock s' = rtnl_sock s ∧ dev_socks s' = dev_socks s ∧
    ∀ x, held x s' = held x s - socks_held x s l.
Proof.
  induction l as [|d l IH]; intros s; [exists s; split_and!; try done; intros x; cbn; lia|].
  cbn [foreach]. erewrite bind_ok by reflexivity.
  destruct (IH (made (CClose (sock_of s d)) s)) as (s' & R & H1 & H2 & H3 & H4).
  exists s'. split_and!; [exact R|done|done|done|]. intros x. cbn [socks_held].
  rewrite H4, held_made, (socks_held_ext _ s) by done. cbn [sweight]. lia.
Qed.

Lemma llf_init_spec s :
  wp nothing llf_init (λ _ s', callbacks s' = (callbacks s ++ [(rth_fd s', llf_callback)])%list ∧
    (length (callbacks s) < CALLBACK_FUNCS)%nat ∧
    ∀ x, held x s' = held x s + one (same x (RFd (rth_fd s')))) s.
Proof.
  unfold llf_init, llf_rtnl_open. repeat setup_step; try done. split_and!; [done|done|].
  intros x. unfold held. cbn in *. rewrite Hif. cbn. rewrite andb_true_r. lia.
Qed.

Lemma enabled_sublist devs : (enabled devs).*1 `sublist_of` seq 0 MAX_NR_INTERFACES.
Proof.
  unfold enabled. generalize MAX_NR_INTERFACES as n. generalize 0%nat as m.
  induction devs as [|[b name] devs IH]; intros m [|n]; [done|apply sublist_nil_l|done|].
  cbn [seq zip zip_with omap list_omap fst snd]. destruct b; cbn [fmap list_fmap fst].
  - apply sublist_skip, IH.
  - apply sublist_cons, IH.
Qed.

Lemma start_services_spec nif devs results :
  Forall (λ name, (length name < IFNAMSIZ)%nat) (enabled devs).*2 →
  wp nothing (start_services nif devs) (λ _ s,
    callbacks s = (rtnl_sock s, nl_rt_callback) :: (nfq_socket s, nfqueue_fd_callback)
                  :: ((λ d, (sock_of s d, aodv_socket_read_cb)) <$> enabled devs) ∧
    (length (enabled devs) <= 3)%nat ∧ nfq_ctx s = true ∧ nfq_qh s = true ∧
    ∀ x, held x s = one (same x (RFd (rtnl_sock s))) + one (nfq_part x)
                    + socks_held x s (enabled devs)) (start_state results).
Proof.
  intros Hn. unfold start_services. apply wp_bind. eapply wp_mono; [by apply kernel_options_spec|].
  intros r s1 H1. destruct (r <? 0) eqn:Er; [apply wp_exit|]. apply Z.ltb_ge in Er.
  destruct (H1 Er) as [K1 K2 K3 K4 K5]. apply wp_bind.
  eapply wp_mono; [by apply nl_init_spec; rewrite K3|]. intros _ s2 (N1 & N2 & N3 & N4).
  assert (Hq2 : nfq_qh s2 = false) by (injection N1 as _ E _; injection K1 as _ E' _; by rewrite E, E').
  apply wp_bind. eapply wp_mono; [by apply nfqueue_init_spec|].
  intros q s3 (Q1 & Q2 & Q3 & Q4 & Q5 & Q6 & Q7 & Q8).
  destruct (q <? 0) eqn:Eq; [apply wp_exit|]. assert (q = 0) as -> by (destruct Q1 as [->| ->]; done).
  cbn [Z.eqb] in *. unfold aodv_socket_init. destruct (nif =? 0); [apply wp_exit|]. apply wp_bind.
  pose proof (enabled_sublist devs) as Hsub. change SO_RECVBUF_SIZE with (1024 * 256).
  eapply wp_mono; [apply sockets_spec|].
  - unfold rcvbuf_fuel. lia.
  - eapply sublist_NoDup; [apply NoDup_seq|exact Hsub].
  - apply Forall_forall. intros i Hi. rewrite Q5, N3, K4. unfold start_state. cbn [dev_socks].
    rewrite length_replicate.
    eapply elem_of_sublist in Hi; [|exact Hsub]. apply elem_of_seq in Hi. lia.
  - intros size s4 (S1 & S2 & S3 & S4 & S5 & S6). apply wp_ret. rewrite Q6, N2 in S4. cbn [app] in S4.
    injection S2 as E1 E2 E3. split_and!; [by rewrite S4, S3, Q4, E3| |congruence|congruence|].
    + destruct S5 as [E|S5]; [rewrite E; simpl; lia|]. rewrite S4 in S5. cbn [length] in S5. rewrite length_fmap in S5.
      unfold CALLBACK_FUNCS in S5. lia.
    + intros x. rewrite S6, Q8, N4, K5, S3, Q4, andb_true_r. cbn. lia.
Qed.

(** C38: when the services have started, the callbacks are those of the netlink socket, of
    the packet queue and of the socket of each enabled interface, in this order, and
    there are at most three such interfaces: with more of them the daemon exits,
    since [CALLBACK_FUNCS] is 5, although [MAX_NR_INTERFACES] is 10.  Stopping the
    services closes everything that was opened.  No result of a system call makes a
    loop run for ever or a buffer overflow. *)
Theorem services_start_stop (nif : Z) (devs : list (bool * list Z)) (results : nat → Z) :
  Forall (λ name, (length name < IFNAMSIZ)%nat) (enabled devs).*2 →
  match start_services nif devs (start_state results) with
  | Ok _ s =>
      callbacks s = (rtnl_sock s, nl_rt_callback) :: (nfq_socket s, nfqueue_fd_callback)
                    :: ((λ d, (sock_of s d, aodv_socket_read_cb)) <$> enabled devs) ∧
      (length (enabled devs) <= 3)%nat ∧
      (0 < rtnl_sock s →
       ∃ s', stop_services devs s = Ok () s' ∧ ∀ x, held x s' = 0)
  | Exit _ => True
  | Ub _ => False
  end.
Proof.
  intros Hn. pose proof (start_services_spec nif devs results Hn) as Hw. unfold wp in Hw.
  destruct (start_services _ _ _) as [[] s|c|u]; [|done|done].
  destruct Hw as (Hc & Hl & H1 & H2 & Hh). split_and!; [done|done|]. intros Hsock.
  unfold stop_services. destruct (sockets_closed (enabled devs) s) as (s1 & R1 & A1 & A2 & A3 & A4).
  erewrite bind_ok by exact R1.
  destruct (nfqueue_cleanup_run s1) as (s2 & R2 & _ & _ & B1 & _ & B2). erewrite bind_ok by exact R2.
  unfold nl_cleanup. erewrite bind_ok by reflexivity. rewrite B1, A2, (proj2 (Z.ltb_lt _ _) Hsock).
  eexists. split; [reflexivity|]. intros x. rewrite held_made. cbn [sweight].
  injection A1 as E1 E2 _. rewrite B2, A4, Hh, E1, E2, H1, H2. destruct x; cbn; lia.
Qed.
