(* ===== verification/Debug.v ===== *)
(** * utils/debug.c: the log and the printed routing table

    Texts are written with [sprintf] to buffers of fixed size, a write past the end is
    [StringOverflow].  [ip_to_str] returns pointers into a ring of four buffers; the
    theorems show that no text is overwritten while it is used, that the buffers for the
    routing table are large enough, and what the log then holds. *)

From Stdlib Require Import Ascii String.
From S2P Require Import Prelude.
From S2P Require Import Params.
From S2P Require Import Format.
From S2P Require Import Bytes.
From S2P Require Import TimerQueue.
From S2P Require Import State.
From S2P Require Import RtTable.
From S2P Require Import Inv.
From S2P Require Import Timeouts.
From S2P Require Import Cmdline.

#[local] Open Scope cm_scope.

(** Severities of syslog. *)
Definition LOG_ERR : Z := 3.
Definition LOG_WARNING : Z := 4.
Definition LOG_NOTICE : Z := 5.
Definition LOG_INFO : Z := 6.
Definition LOG_DEBUG : Z := 7.

(** What is written. *)
Inductive log_event :=
  | LgFile (text : list Z)                (* the log file *)
  | LgRt (text : list Z)                  (* the log of the routing table *)
  | LgStdout (text : list Z)
  | LgStderr (text : list Z)
  | LgSyslog (type : Z) (text : list Z)   (* with the text of errno, if any *)
  | LgClose (fd : Z).

(** The daemon with the variables of [debug.c]; the settings [debug] and [log_to_file] are
    those of the command line. *)
Record lg := mk_lg {
  lg_state : state;
  debug : bool;
  log_to_file : bool;
  log_file_fd : Z;
  log_rt_fd : Z;
  ip_buf : list Z;   (* buf[16 * 4] of ip_to_str *)
  ip_index : nat;    (* index of ip_to_str *)
  lg_out : list log_event  (* most recent first *)
}.

Definition set_lg_state (v : state) (l : lg) : lg :=
  mk_lg v (debug l) (log_to_file l) (log_file_fd l) (log_rt_fd l) (ip_buf l) (ip_index l) (lg_out l).
Definition set_fds (f r : Z) (l : lg) : lg :=
  mk_lg (lg_state l) (debug l) (log_to_file l) f r (ip_buf l) (ip_index l) (lg_out l).
Definition set_ip (b : list Z) (i : nat) (l : lg) : lg :=
  mk_lg (lg_state l) (debug l) (log_to_file l) (log_file_fd l) (log_rt_fd l) b i (lg_out l).
Definition log_out (ev : log_event) (l : lg) : lg :=
  mk_lg (lg_state l) (debug l) (log_to_file l) (log_file_fd l) (log_rt_fd l) (ip_buf l) (ip_index l)
    (ev :: lg_out l).

Abbreviation DM := (CM lg).

Definition on_lg {A} (m : M A) : DM A := λ l,
  match m (lg_state l) with
  | Ok a s => Ok a (set_lg_state s l)
  | Exit c => Exit c
  | Ub u => Ub u
  end.

(** ** Addresses *)

(** [inet_ntoa]: the bytes of the address in the order of memory. *)
Definition inet_ntoa (a : Z) : list Z := dotted a.

Definition IP_BUF_SIZE : nat := 64.

(** [strcpy(&buf[i], t)] *)
Definition strcpy (buf : list Z) (i : nat) (t : list Z) : list Z := list_inserts i (t ++ [0]) buf.

(** The string that starts at the pointer [p]. *)
Fixpoint until_nul (l : list Z) : list Z :=
  match l with
  | [] => []
  | c :: l => if c =? 0 then [] else c :: until_nul l
  end.
Definition cstr (buf : list Z) (p : nat) : list Z := until_nul (drop p buf).

(** The result is a pointer into [buf]. *)
Definition ip_to_str (addr : Z) : DM nat :=
  b ← gets ip_buf;
  i ← gets ip_index;
  if (IP_BUF_SIZE <? i + length (inet_ntoa addr) + 1)%nat then undefined StringOverflow else
  modify (set_ip (strcpy b i (inet_ntoa addr)) ((i + 16) `mod` IP_BUF_SIZE)%nat) ;;
  ret i.

Record tm := mk_tm { tm_hour : Z; tm_min : Z; tm_sec : Z }.

(** [localtime] and [strerror] of the C library, and the order in which the arguments of a call
    are evaluated, which C leaves open. *)
Section output.
Context (localtime : Z → tm) (strerror : Z → list Z).
Context (backwards : bool).

(** [ip_to_str] on several arguments of one call, and the texts when the call starts. *)
Fixpoint ip_calls (l : list Z) : DM (list nat) :=
  match l with
  | [] => ret []
  | a :: l => p ← ip_to_str a; ps ← ip_calls l; ret (p :: ps)
  end.
Definition ip_args (l : list Z) : DM (list (list Z)) :=
  ps ← (if backwards then ps ← ip_calls (reverse l); ret (reverse ps) else ip_calls l);
  gets (λ s, cstr (ip_buf s) <$> ps).
Definition ip_arg (a : Z) : DM (list Z) := t ← ip_args [a]; ret (nth 0 t []).

(** ** The log *)

(** The results of [open] are inputs. *)
Definition log_init (log_fd rt_fd : Z) : DM () :=
  f ← gets log_to_file;
  when f (modify (λ l, set_fds log_fd (log_rt_fd l) l) ;; when (log_fd <? 0) (cexit (-1))) ;;
  o ← on_lg (gets opts);
  when (negb (rt_log_interval o =? 0))
    (modify (λ l, set_fds (log_file_fd l) rt_fd l) ;; when (rt_fd <? 0) (cexit (-1))).

Definition log_rt_table_init : DM () :=
  on_lg (o ← gets opts;
         on_tq (timer_init RtLogTimer print_rt_table) ;;
         set_timeout RtLogTimer (rt_log_interval o)).

Definition log_cleanup : DM () :=
  f ← gets log_to_file; fd ← gets log_file_fd;
  when (f && negb (fd =? 0)) (modify (log_out (LgClose fd))).

Definition write_to_log_file (msg : list Z) : DM () :=
  fd ← gets log_file_fd;
  if fd =? 0 then modify (log_out (LgStderr (str "Could not write to log file"))) else
  if (length msg <=? 0)%nat then modify (log_out (LgStderr (str "len=0"))) else
  modify (log_out (LgFile msg)).

Definition packet_type (type : Z) : DM (list Z) :=
  if type =? AODV_RREQ then ret (str "AODV_RREQ") else
  if type =? AODV_RREP then ret (str "AODV_RREP") else
  if type =? AODV_RERR then ret (str "AODV_RERR") else
  sprintf 50 [] (str "Unknown packet type " ++ fmt_d type).

Definition BUFFER_SIZE : nat := 256.
Definition LOG_BUF_SIZE : nat := 1024.
Definition newline : list Z := [10].

(** [time->tm_hour] and so on. *)
Definition clock_text (now : timeval) : list Z :=
  let t := localtime (tv_sec now) in
  pad_zero 2 (fmt_d (tm_hour t)) ++ str ":" ++ pad_zero 2 (fmt_d (tm_min t)) ++ str ":" ++
  pad_zero 2 (fmt_d (tm_sec t)) ++ str "." ++ pad_zero 3 (fmt_ld (tv_usec now / 1000)).

(** From the label [syslog] on. *)
Definition to_syslog (type errnum : Z) (function msg : list Z) : DM () :=
  when (type <=? LOG_NOTICE)
    (modify (log_out (LgSyslog type (function ++ str ": " ++ msg ++
       (if errnum =? 0 then [] else str ": " ++ strerror errnum))))) ;;
  when (type <=? LOG_ERR) (cexit (-1)).

(** [alog] for a message that formats to [msg]. *)
Definition alog (type errnum : Z) (function msg : list Z) : DM () :=
  if (BUFFER_SIZE <? (if (type =? LOG_WARNING)%Z then 9 else 0) + length msg + 1)%nat
  then undefined StringOverflow else
  d ← gets debug; f ← gets log_to_file;
  if negb d && negb f then to_syslog type errnum function msg else
  now ← on_lg gettimeofday;
  log_buf ← sprintf LOG_BUF_SIZE [] (clock_text now ++ str " " ++ function ++ str ": " ++ msg);
  log_buf ← (if errnum =? 0 then sprintf LOG_BUF_SIZE log_buf newline
             else sprintf LOG_BUF_SIZE log_buf (str ": " ++ strerror errnum ++ newline));
  (if (1024 <? length log_buf)%nat then
     modify (log_out (LgStderr (str "alog(): buffer to small! len = " ++ fmt_d (Z.of_nat (length log_buf)))))
   else
     when f (write_to_log_file log_buf) ;;
     when d (modify (log_out (LgStdout log_buf)))) ;;
  to_syslog type errnum function msg.

(** ** Texts for fields *)

(** The buffers hold the letters and the final NUL. *)
Definition rreq_flags_to_str (flags : Z) : DM (list Z) :=
  sprintf 5 [] (flag_letters [(has flags (2 ^ 7), ch "J"); (has flags (2 ^ 6), ch "R");
                              (has flags (2 ^ 5), ch "G"); (has flags (2 ^ 4), ch "D")]).
Definition rrep_flags_to_str (flags : Z) : DM (list Z) :=
  sprintf 3 [] (flag_letters [(has flags (2 ^ 7), ch "R"); (has flags (2 ^ 6), ch "A")]).
Definition rt_flags_to_str (flags : Z) : DM (list Z) :=
  sprintf 5 [] (flag_letters [(has flags RT_UNIDIR, ch "U"); (has flags RT_REPAIR, ch "R");
                              (has flags RT_INET_DEST, ch "I"); (has flags RT_GATEWAY, ch "G")]).

Definition state_to_str (state : Z) : list Z :=
  if state =? VALID then str "VAL" else if state =? INVALID then str "INV" else str "?".

(** [log_pkt_fields] of the message in [buf], reading past whose end is [RecvBufOverread].  An
    argument of [int] type for [%ld] or [%lu] is taken as its 32-bit value. *)
Definition field8 (buf : list Z) (off : Z) : DM Z :=
  match load8 buf off with Some v => ret v | None => undefined RecvBufOverread end.
Definition field32 (buf : list Z) (off : Z) : DM Z :=
  match load32 buf off with Some v => ret v | None => undefined RecvBufOverread end.
Definition debug_line (msg : list Z) : DM () := alog LOG_DEBUG 0 (str "log_pkt_fields") msg.

Definition log_pkt_fields (buf : list Z) : DM () :=
  type ← field8 buf 0;
  if type =? AODV_RREQ then
    dest ← field32 buf 8; orig ← field32 buf 16;
    flags ← field8 buf 1; hcnt ← field8 buf 3; id ← field32 buf 4;
    f ← rreq_flags_to_str flags;
    debug_line (str "rreq->flags:" ++ f ++ str " rreq->hopcount=" ++ fmt_d hcnt ++
                str " rreq->rreq_id=" ++ fmt_ld (ntohl id)) ;;
    seq ← field32 buf 12; d ← ip_arg dest;
    debug_line (str "rreq->dest_addr:" ++ d ++ str " rreq->dest_seqno=" ++ fmt_lu (ntohl seq)) ;;
    seq ← field32 buf 20; o ← ip_arg orig;
    debug_line (str "rreq->orig_addr:" ++ o ++ str " rreq->orig_seqno=" ++ fmt_ld (ntohl seq))
  else if type =? AODV_RREP then
    dest ← field32 buf 4; orig ← field32 buf 12;
    flags ← field8 buf 1; hcnt ← field8 buf 3;
    f ← rrep_flags_to_str flags;
    debug_line (str "rrep->flags:" ++ f ++ str " rrep->hcnt=" ++ fmt_d hcnt) ;;
    seq ← field32 buf 8; d ← ip_arg dest;
    debug_line (str "rrep->dest_addr:" ++ d ++ str " rrep->dest_seqno=" ++ fmt_d (ntohl seq)) ;;
    life ← field32 buf 16; o ← ip_arg orig;
    debug_line (str "rrep->orig_addr:" ++ o ++ str " rrep->lifetime=" ++ fmt_d (ntohl life))
  else if type =? AODV_RERR then
    n ← field8 buf 3; flags ← field8 buf 1;
    debug_line (str "rerr->dest_count:" ++ fmt_d n ++ str " rerr->flags=" ++
                (if has flags (2 ^ 7) then str "N" else str "-"))
  else ret ().

(** ** The routing table *)

Definition devs_ip_to_str : DM (list Z) :=
  s ← gets lg_state;
  foreach (enabled_devs s) [] (λ i buf,
    t ← ip_arg (dev_ipaddr (DEV_NR s i)); sprintf DEVS_BUF_SIZE buf (t ++ str ",")).

Definition RT_BUF_SIZE : nat := 2048.
Definition SEQNO_STR_SIZE : nat := 11.

(** [write(log_rt_fd, rt_buf, len)]; its result is not used. *)
Definition write_rt (text : list Z) : DM () := modify (log_out (LgRt text)).

(** One line of the table; [last] is the precursor in it, if any. *)
Definition route_line (dest next seqno expires flags name : list Z) (e : rt_table_t)
    (last : option (list Z)) : list Z :=
  pad_right 15 dest ++ str " " ++ pad_right 15 next ++ str " " ++ pad_right 3 (fmt_d (rt_hcnt e)) ++
  str " " ++ pad_right 3 (state_to_str (rt_state e)) ++ str " " ++ pad_right 5 seqno ++ str " " ++
  pad_right 6 expires ++ str " " ++ pad_right 5 flags ++ str " " ++ pad_right 5 name ++
  match last with None => [] | Some t => str " " ++ pad_right 15 t end ++ newline.

(** A line for a further precursor. *)
Definition prec_line (t : list Z) : list Z := pad_left 64 (str " ") ++ str " " ++ pad_right 15 t ++ newline.

(** The loop over the precursors, which passes over the first one; [rt_buf] is what has not been
    written yet. *)
Fixpoint print_precs (first : bool) (l : list Z) (rt_buf : list Z) : DM (list Z) :=
  match l with
  | [] => ret rt_buf
  | p :: l =>
      if first then print_precs false l rt_buf else
      t ← ip_arg p;
      rt_buf ← sprintf RT_BUF_SIZE rt_buf (prec_line t);
      write_rt rt_buf ;;
      print_precs false l []
  end.

Definition print_entry (now : timeval) (e : rt_table_t) : DM () :=
  seqno_str ← sprintf SEQNO_STR_SIZE []
    (if rt_dest_seqno e =? 0 then str "-" else fmt_u (rt_dest_seqno e));
  expires ← (if rt_hcnt e =? 255 then ret 0 else
    timeout ← on_lg (timer_timeout_of (RtTimer (rt_dest_addr e))); ret (timeval_diff timeout now));
  flags ← rt_flags_to_str (rt_flags e);
  name ← on_lg (gets (λ s, if_indextoname s (rt_ifindex e)));
  name ← match name with None => undefined NullString | Some n => ret n end;
  ips ← ip_args (rt_dest_addr e :: rt_next_hop e :: take 1 (rt_precursors e));
  rt_buf ← sprintf RT_BUF_SIZE []
    (route_line (nth 0 ips []) (nth 1 ips []) seqno_str (fmt_lu expires) flags name e (ips !! 2%nat));
  rt_buf ← print_precs true (rt_precursors e) rt_buf;
  when (0 <? length rt_buf)%nat (write_rt rt_buf).

Definition columns : list Z :=
  pad_right 15 (str "Destination") ++ str " " ++ pad_right 15 (str "Next hop") ++ str " " ++
  pad_right 3 (str "HC") ++ str " " ++ pad_right 3 (str "St.") ++ str " " ++ pad_right 5 (str "Seqno") ++
  str " " ++ pad_right 6 (str "Expire") ++ str " " ++ pad_right 5 (str "Flags") ++ str " " ++
  pad_right 5 (str "Iface") ++ str " " ++ pad_right 15 (str "Precursors") ++ newline.

Definition header (now : timeval) (ips : list Z) (s : state) : list Z :=
  str "# Time: " ++ clock_text now ++ str " IP: " ++ ips ++ str " seqno: " ++
  fmt_u (seqno (this_host s)) ++ str " entries/active: " ++ fmt_u (num_entries (rt_tbl s)) ++ str "/" ++
  fmt_u (num_active (rt_tbl s)) ++ newline.

Definition print_rt_table_text : DM () :=
  s ← gets lg_state;
  if num_entries (rt_tbl s) =? 0 then ret () else
  now ← on_lg gettimeofday;
  ips ← devs_ip_to_str;
  rt_buf ← sprintf RT_BUF_SIZE [] (header now ips s);
  rt_buf ← sprintf RT_BUF_SIZE rt_buf columns;
  write_rt rt_buf ;;
  foreach (concat (tbl (rt_tbl s))) () (λ e _, print_entry now e).

(** [print_rt_table] *)
Definition print_rt_table_full : DM () :=
  print_rt_table_text ;;
  o ← on_lg (gets opts); on_lg (set_timeout RtLogTimer (rt_log_interval o)).
End output.

(** ** Addresses: no text is overwritten while it is used *)

Lemma inet_ntoa_length a : (length (inet_ntoa a) <= 15)%nat.
Proof. apply dotted_length. Qed.
Lemma inet_ntoa_no_nul a : no_nul (inet_ntoa a).
Proof. apply dotted_no_nul. Qed.

(** The string [t] with its NUL is at [p]. *)
Definition holds (b : list Z) (p : nat) (t : list Z) : Prop :=
  ∀ k c, (t ++ [0]) !! k = Some c → b !! (p + k)%nat = Some c.

Lemma holds_cstr b p t : no_nul t → holds b p t → cstr b p = t.
Proof.
  unfold cstr, holds. intros Hn Hh.
  assert (Hl : ∀ k c, (t ++ [0]) !! k = Some c → drop p b !! k = Some c)
    by (intros k c Hk; rewrite lookup_drop; by apply Hh).
  clear Hh. revert Hl. generalize (drop p b). clear b p.
  induction Hn as [|c t Hc Hn IH]; intros l Hl.
  - specialize (Hl 0%nat 0 eq_refl). destruct l as [|c l]; [done|]. by injection Hl as ->.
  - pose proof (Hl 0%nat c eq_refl) as H0. destruct l as [|c' l]; [done|]. injection H0 as ->. cbn [until_nul].
    rewrite (proj2 (Z.eqb_neq _ _) Hc). f_equal. apply IH. intros k d Hk. by apply (Hl (S k)).
Qed.

Lemma strcpy_holds b i t : (i + length t + 1 <= length b)%nat → holds (strcpy b i t) i t.
Proof.
  intros Hl k c Hk. unfold strcpy. pose proof (lookup_lt_Some _ _ _ Hk) as Hlt. rewrite length_app in Hlt. cbn in Hlt.
  rewrite list_lookup_inserts by (rewrite ?length_app; cbn; lia). by replace (i + k - i)%nat with k by lia.
Qed.

Lemma strcpy_elsewhere b i t p u :
  holds b p u → (p + length u + 1 <= i ∨ i + length t + 1 <= p)%nat → holds (strcpy b i t) p u.
Proof.
  intros Hh Hd k c Hk. pose proof (lookup_lt_Some _ _ _ Hk) as Hlt. rewrite length_app in Hlt. cbn in Hlt.
  unfold strcpy. rewrite <- (Hh k c Hk). destruct Hd.
  - apply list_lookup_inserts_lt. lia.
  - apply list_lookup_inserts_ge. rewrite length_app. cbn. lia.
Qed.

Definition slot (n : nat) : nat := 16 * (n `mod` 4).

Lemma slot_next n : ((slot n + 16) `mod` IP_BUF_SIZE = slot (S n))%nat.
Proof.
  unfold slot, IP_BUF_SIZE. pose proof (Nat.mod_upper_bound n 4 ltac:(lia)).
  replace (S n `mod` 4)%nat with (S (n `mod` 4) `mod` 4)%nat.
  2:{ rewrite <- (Nat.add_1_r n), <- Nat.Div0.add_mod_idemp_l, Nat.add_1_r. done. }
  destruct (n `mod` 4)%nat as [|[|[|[|]]]]; [done..|lia].
Qed.

Lemma slot_le n : (slot n <= 48)%nat.
Proof. unfold slot. pose proof (Nat.mod_upper_bound n 4 ltac:(lia)). lia. Qed.

Lemma slots_apart n k : (0 < k < 4)%nat → (slot n + 16 <= slot (n + k) ∨ slot (n + k) + 16 <= slot n)%nat.
Proof.
  intros Hk. unfold slot. rewrite <- Nat.Div0.add_mod_idemp_l.
  pose proof (Nat.mod_upper_bound n 4 ltac:(lia)).
  destruct (n `mod` 4)%nat as [|[|[|[|]]]]; [..|lia]; destruct k as [|[|[|[|]]]]; first [lia|vm_compute; lia].
Qed.

(** The state of [ip_to_str] when its next buffer is the [n]-th. *)
Definition ip_ok (n : nat) (l : lg) : Prop := length (ip_buf l) = IP_BUF_SIZE ∧ ip_index l = slot n.

(** What logging leaves alone. *)
Definition same_lg (l l' : lg) : Prop :=
  (lg_state l', debug l', log_to_file l', log_file_fd l', log_rt_fd l', lg_out l')
  = (lg_state l, debug l, log_to_file l, log_file_fd l, log_rt_fd l, lg_out l).

#[export] Instance same_lg_preorder : PreOrder same_lg.
Proof. split; [done|]. intros l1 l2 l3. unfold same_lg. congruence. Qed.

Lemma ip_to_str_run n a l :
  ip_ok n l → ∃ l', ip_to_str a l = Ok (slot n) l' ∧ ip_ok (S n) l' ∧ same_lg l l' ∧
    holds (ip_buf l') (slot n) (inet_ntoa a) ∧
    ∀ p t, holds (ip_buf l) p t → (p + length t + 1 <= slot n ∨ slot n + 16 <= p)%nat → holds (ip_buf l') p t.
Proof.
  intros [Hb Hi]. pose proof (inet_ntoa_length a) as Hl. pose proof (slot_le n) as Hs.
  unfold ip_to_str. erewrite bind_ok by done. erewrite bind_ok by done. rewrite Hi.
  rewrite (proj2 (Nat.ltb_ge _ _)) by (unfold IP_BUF_SIZE; lia).
  eexists. split; [done|]. split_and!; [split|done|..]; cbn [ip_buf ip_index set_ip].
  - unfold strcpy. by rewrite length_inserts.
  - apply slot_next.
  - apply strcpy_holds. rewrite Hb. unfold IP_BUF_SIZE. lia.
  - intros p t Hh Hd. apply strcpy_elsewhere; [done|]. lia.
Qed.

(** Up to four texts are alive together. *)
Lemma ip_calls_run l : ∀ n s, (length l <= 4)%nat → ip_ok n s →
  ∃ s', ip_calls l s = Ok ((λ k, slot (n + k)) <$> seq 0 (length l)) s' ∧ ip_ok (n + length l) s' ∧ same_lg s s' ∧
    (∀ k a, l !! k = Some a → holds (ip_buf s') (slot (n + k)) (inet_ntoa a)) ∧
    ∀ p t, holds (ip_buf s) p t →
      (∀ k, (k < length l)%nat → p + length t + 1 <= slot (n + k) ∨ slot (n + k) + 16 <= p)%nat → holds (ip_buf s') p t.
Proof.
  induction l as [|a l IH]; intros n s Hl Hs; cbn [ip_calls].
  { exists s. rewrite Nat.add_0_r. split_and!; try done. }
  destruct (ip_to_str_run n a s Hs) as (s1 & R1 & H1 & E1 & Hn & Hp). cbn [length] in *.
  destruct (IH (S n) s1 ltac:(lia) H1) as (s2 & R2 & H2 & E2 & Hn2 & Hp2).
  exists s2. erewrite bind_ok by done. erewrite bind_ok by done. split_and!.
  - unfold ret. f_equal. cbn [seq fmap list_fmap]. rewrite Nat.add_0_r. f_equal.
    rewrite <- (fmap_S_seq 0), <- list_fmap_compose. apply list_fmap_ext. intros i k Hk. cbn. by rewrite Nat.add_succ_r.
  - by rewrite Nat.add_succ_r.
  - by trans s1.
  - intros [|k] b Hk; cbn in Hk.
    + injection Hk as <-. rewrite Nat.add_0_r. apply Hp2; [done|]. intros k Hk.
      pose proof (slots_apart n (S k) ltac:(lia)) as Hd. rewrite (Nat.add_succ_r n k) in Hd. cbn [Nat.add].
      pose proof (inet_ntoa_length a). lia.
    + rewrite Nat.add_succ_r. by apply Hn2.
  - intros p t Hh Hd. apply Hp2.
    + apply Hp; [done|]. specialize (Hd 0%nat ltac:(lia)). rewrite (Nat.add_0_r n) in Hd. exact Hd.
    + intros k Hk. specialize (Hd (S k) ltac:(lia)). rewrite (Nat.add_succ_r n k) in Hd. exact Hd.
Qed.

Lemma ip_args_run backwards n l s :
  (length l <= 4)%nat → ip_ok n s →
  ∃ s', ip_args backwards l s = Ok (inet_ntoa <$> l) s' ∧ ip_ok (n + length l) s' ∧ same_lg s s'.
Proof.
  intros Hl Hs. unfold ip_args.
  assert (Htexts : ∀ k s', (∀ i a, k !! i = Some a → holds (ip_buf s') (slot (n + i)) (inet_ntoa a)) →
    cstr (ip_buf s') <$> ((λ i, slot (n + i)) <$> seq 0 (length k)) = inet_ntoa <$> k).
  { intros k s' Hh. apply list_eq. intros i. rewrite !list_lookup_fmap.
    destruct (k !! i) as [a|] eqn:Hi; cbn.
    - rewrite lookup_seq_lt by (by eapply lookup_lt_Some). cbn. f_equal. apply holds_cstr; [apply inet_ntoa_no_nul|by apply Hh].
    - apply lookup_ge_None in Hi. by rewrite lookup_seq_ge. }
  destruct backwards.
  - destruct (ip_calls_run (reverse l) n s) as (s' & R & H & E & Hh & _); [by rewrite length_reverse|done|].
    exists s'. erewrite bind_ok; [|by erewrite bind_ok by done]. rewrite length_reverse in H. split_and!; [|done|done].
    unfold gets. f_equal. rewrite fmap_reverse, (Htexts _ _ Hh), <- fmap_reverse. by rewrite reverse_involutive.
  - destruct (ip_calls_run l n s Hl Hs) as (s' & R & H & E & Hh & _).
    exists s'. erewrite bind_ok by done. split_and!; [|done|done]. unfold gets. f_equal. by apply Htexts.
Qed.

(** ** The log *)

(** Lengths of texts with constant parts. *)
Ltac len :=
  cbn [length app]; rewrite ?length_app, ?pad_right_length, ?pad_left_length, ?pad_zero_length;
  repeat match goal with
  | |- context[length (str ?s)] => len_const (str s)
  | |- context[length newline] => len_const newline
  | |- context[length columns] => len_const columns
  end;
  unfold BUFFER_SIZE, LOG_BUF_SIZE, RT_BUF_SIZE, SEQNO_STR_SIZE; lia.

Ltac len_num :=
  cbn [length app]; rewrite ?length_app;
  width fmt_u fmt_u_length; width fmt_d fmt_d_length; width fmt_ld fmt_ld_length; width fmt_lu fmt_lu_length; len.

Section log.
Context (localtime : Z → tm) (strerror : Z → list Z).
Context (backwards : bool).

Lemma clock_text_length now : (length (clock_text localtime now) <= 57)%nat.
Proof.
  unfold clock_text. rewrite !length_app, !pad_zero_length. cbn [str ch fmap list_fmap length list_ascii_of_string].
  pose proof (fmt_d_length (tm_hour (localtime (tv_sec now)))). pose proof (fmt_d_length (tm_min (localtime (tv_sec now)))).
  pose proof (fmt_d_length (tm_sec (localtime (tv_sec now)))). pose proof (fmt_ld_length (tv_usec now / 1000)). lia.
Qed.

(** The line of the log for a message, and what is added to the output. *)
Definition log_line (now : timeval) (errnum : Z) (function msg : list Z) : list Z :=
  clock_text localtime now ++ str " " ++ function ++ str ": " ++ msg ++
  (if errnum =? 0 then [] else str ": " ++ strerror errnum) ++ newline.
Definition log_outputs (type errnum : Z) (function msg line : list Z) (l : lg) : list log_event :=
  (if type <=? LOG_NOTICE then
     [LgSyslog type (function ++ str ": " ++ msg ++ (if errnum =? 0 then [] else str ": " ++ strerror errnum))]
   else []) ++
  (if debug l then [LgStdout line] else []) ++ (if log_to_file l then [LgFile line] else []).

(** With the clock read [k] times and the events [evs] logged. *)
Definition logged (k : nat) (evs : list log_event) (l : lg) : lg :=
  mk_lg (set_clock_reads k (lg_state l)) (debug l) (log_to_file l) (log_file_fd l) (log_rt_fd l)
    (ip_buf l) (ip_index l) (evs ++ lg_out l).

(** What becomes of a log message.  A message that fits the buffers goes, with the time and
    the name of the function, once to the log file and once to the terminal, as the
    settings ask for, and to syslog when it is a notice or worse; an error ends the
    daemon. *)
Theorem alog_correct (type errnum : Z) (function msg : list Z) (l : lg) :
  (length msg <= 246)%nat → (length function + (if (errnum =? 0)%Z then 0 else length (strerror errnum)) <= 600)%nat →
  log_file_fd l ≠ 0 →
  let now := env_clock (env (lg_state l)) (clock_reads (lg_state l)) in
  match alog localtime strerror type errnum function msg l with
  | Ok _ l' => LOG_ERR < type ∧
      ∃ k, l' = logged k (log_outputs type errnum function msg (log_line now errnum function msg) l) l
  | Exit c => type <= LOG_ERR ∧ c = -1
  | Ub _ => False
  end.
Proof.
  intros Hm Hf Hfd now.
  set (sys := if type <=? LOG_NOTICE then
    [LgSyslog type (function ++ str ": " ++ msg ++ (if errnum =? 0 then [] else str ": " ++ strerror errnum))] else []).
  assert (Hsys : ∀ k evs, match to_syslog strerror type errnum function msg (logged k evs l) with
    | Ok _ l' => LOG_ERR < type ∧ l' = logged k (sys ++ evs) l
    | Exit c => type <= LOG_ERR ∧ c = -1
    | Ub _ => False
    end).
  { intros k evs. unfold to_syslog, sys. destruct (type <=? LOG_NOTICE) eqn:Hn; cbn [when]; erewrite bind_ok by done;
      destruct (Z.leb_spec type LOG_ERR); by split; [lia|]. }
  assert (Hend : ∀ k evs l1, l1 = logged k evs l → match to_syslog strerror type errnum function msg l1 with
    | Ok _ l' => LOG_ERR < type ∧ ∃ k, l' = logged k (sys ++ evs) l
    | Exit c => type <= LOG_ERR ∧ c = -1
    | Ub _ => False
    end).
  { intros k evs l1 ->. specialize (Hsys k evs). destruct (to_syslog _ _ _ _ _ _) as [[] l2|c|u]; [|done|done].
    destruct Hsys as [Ht ->]. split; [done|by exists k]. }
  unfold alog. rewrite (proj2 (Nat.ltb_ge BUFFER_SIZE _)) by (unfold BUFFER_SIZE; destruct (type =? LOG_WARNING); lia).
  erewrite bind_ok by done. erewrite bind_ok by done. unfold log_outputs.
  destruct (negb (debug l) && negb (log_to_file l)) eqn:Hoff.
  { apply andb_prop in Hoff as [->%negb_true_iff ->%negb_true_iff]. apply (Hend (clock_reads (lg_state l))).
    by destruct l as [[]]. }
  erewrite bind_ok by done. fold now. pose proof (clock_text_length now) as Hc.
  erewrite bind_ok; [|apply sprintf_run; len].
  set (l1 := set_lg_state _ l).
  erewrite bind_ok with (a := log_line now errnum function msg) (s' := l1).
  2:{ unfold log_line. destruct (errnum =? 0) in Hf |- *; rewrite sprintf_run by (len);
        by rewrite <- !app_assoc. }
  assert (Hlen : (0 < length (log_line now errnum function msg) <= 1024)%nat).
  { unfold log_line. destruct (errnum =? 0) in Hf |- *; cbn [length]; len. }
  rewrite (proj2 (Nat.ltb_ge _ _)) by lia.
  assert (Hw : write_to_log_file (log_line now errnum function msg) l1
    = Ok () (log_out (LgFile (log_line now errnum function msg)) l1)).
  { unfold write_to_log_file. erewrite bind_ok by done. cbn [log_file_fd l1 set_lg_state].
    rewrite (proj2 (Z.eqb_neq _ _) Hfd), (proj2 (Nat.leb_gt _ _)) by lia. done. }
  destruct (log_to_file l), (debug l); cbn [when];
    (erewrite bind_ok by (first [erewrite bind_ok by exact Hw|erewrite bind_ok by done]; done));
    by apply (Hend (S (clock_reads (lg_state l)))).
Qed.

(** ** Logging a message never overruns a buffer *)

(** [m] returns a result with [P], whatever buffer of [ip_to_str] is the next one. *)
Definition logs {A} (P : A → Prop) (m : DM A) : Prop :=
  ∀ n l, ip_ok n l → log_file_fd l ≠ 0 →
    ∃ a n' l', m l = Ok a l' ∧ P a ∧ ip_ok n' l' ∧ log_file_fd l' ≠ 0.

Lemma logs_bind {A B} P Q (m : DM A) (f : A → DM B) :
  logs P m → (∀ a, P a → logs Q (f a)) → logs Q (bind m f).
Proof.
  intros Hm Hf n l Hl Hfd. destruct (Hm n l Hl Hfd) as (a & n1 & l1 & R & HP & H1 & Hfd1).
  destruct (Hf a HP n1 l1 H1 Hfd1) as (b & n2 & l2 & R2 & H2). exists b, n2, l2. split; [|done]. by erewrite bind_ok.
Qed.

Lemma logs_ret {A} (P : A → Prop) a : P a → logs P (ret a).
Proof. intros H n l Hl Hfd. by exists a, n, l. Qed.

Lemma logs_ip_arg a : logs (λ t, (length t <= 15)%nat) (ip_arg backwards a).
Proof.
  intros n l Hl Hfd. destruct (ip_args_run backwards n [a] l) as (l' & R & H & E); [cbn; lia|done|].
  eexists _, _, l'. unfold ip_arg. erewrite bind_ok by done. split_and!; [done|apply inet_ntoa_length|done|].
  injection E as _ _ _ -> _ _. done.
Qed.

Lemma logs_sprintf size text t :
  (length text + length t + 1 <= size)%nat → logs (λ r, r = text ++ t) (sprintf size text t).
Proof. intros H n l Hl Hfd. exists (text ++ t), n, l. by rewrite sprintf_run. Qed.

Lemma logs_field8 buf off : 0 <= off < Z.of_nat (length buf) → logs (λ _, True) (field8 buf off).
Proof.
  intros Ho. unfold field8, load8. rewrite (proj2 (Z.ltb_ge _ _)) by lia.
  destruct (lookup_lt_is_Some_2 buf (Z.to_nat off)) as [v ->]; [lia|]. by apply logs_ret.
Qed.

Lemma logs_field32 buf off : 0 <= off < Z.of_nat (length buf) - 3 → logs (λ _, True) (field32 buf off).
Proof.
  intros Ho. assert (H8 : ∀ i, 0 <= i < Z.of_nat (length buf) → ∃ v, load8 buf i = Some v).
  { intros i Hi. unfold load8. rewrite (proj2 (Z.ltb_ge _ _)) by lia. apply lookup_lt_is_Some_2. lia. }
  unfold field32, load32. destruct (H8 off) as [? E0], (H8 (off + 1)) as [? E1], (H8 (off + 2)) as [? E2],
    (H8 (off + 3)) as [? E3]; [lia..|]. rewrite E0, E1, E2, E3. by apply logs_ret.
Qed.

Lemma logs_alog function msg :
  (length msg <= 246)%nat → (length function <= 600)%nat →
  logs (λ _, True) (alog localtime strerror LOG_DEBUG 0 function msg).
Proof.
  intros Hm Hf n l Hl Hfd.
  pose proof (alog_correct LOG_DEBUG 0 function msg l Hm ltac:(cbn; lia) Hfd) as Hr.
  destruct (alog _ _ _ _ _ _ _) as [[] l'|c|u]; [|by destruct Hr|done].
  destruct Hr as [_ [k ->]]. by exists (), n, (logged k (log_outputs LOG_DEBUG 0 function msg
    (log_line (env_clock (env (lg_state l)) (clock_reads (lg_state l))) 0 function msg) l) l).
Qed.

Lemma logs_debug_line msg :
  (length msg <= 246)%nat → logs (λ _, True) (debug_line localtime strerror msg).
Proof. intros Hm. apply logs_alog; [done|cbn; lia]. Qed.

Lemma logs_flags size l :
  (length l < size)%nat → logs (λ r, length r <= length l)%nat (sprintf size [] (flag_letters l)).
Proof.
  intros Hl. pose proof (flag_letters_length l). intros n s Hs Hfd.
  destruct (logs_sprintf size [] (flag_letters l) ltac:(cbn; lia) n s Hs Hfd) as (r & n' & s' & R & -> & H').
  by exists (flag_letters l), n', s'.
Qed.

Ltac logs_go :=
  repeat (eapply logs_bind;
    [first [apply logs_field8; lia|apply logs_field32; lia|apply logs_ip_arg|apply logs_flags; cbn; lia
           |apply logs_debug_line; cbn beta in *; cbn [length] in *; len_num]|intros ? ?]);
  apply logs_debug_line; cbn beta in *; cbn [length] in *; len_num.

(** C36: logging a received message is safe.  For every message of at least 24 bytes, whatever it
    contains, the texts for its fields fit the buffers they are written to, also the
    static ones of the flags, and logging returns. *)
Theorem log_pkt_fields_safe (buf : list Z) (n : nat) (l : lg) :
  (24 <= length buf)%nat → ip_ok n l → log_file_fd l ≠ 0 →
  ∃ n' l', log_pkt_fields localtime strerror backwards buf l = Ok () l' ∧ ip_ok n' l'.
Proof.
  intros Hb Hl Hfd.
  assert (Hall : logs (λ _, True) (log_pkt_fields localtime strerror backwards buf)).
  { unfold log_pkt_fields. eapply logs_bind; [apply logs_field8; lia|]. intros type _.
    destruct (_ =? _); [logs_go|]. destruct (_ =? _); [logs_go|]. destruct (_ =? _); [|by apply logs_ret].
    do 2 (eapply logs_bind; [apply logs_field8; lia|intros ? _]). apply logs_debug_line.
    destruct (has _ _); len_num. }
  destruct (Hall n l Hl Hfd) as ([] & n' & l' & R & _ & H' & _). by exists n', l'.
Qed.
End log.

(** ** The routing table *)

Section table.
Context (localtime : Z → tm) (backwards : bool).

(** What has been written to the log of the routing table. *)
Definition rt_text (l : lg) : list Z :=
  concat (reverse (omap (λ ev, match ev with LgRt t => Some t | _ => None end) (lg_out l))).

Lemma rt_text_write t l : rt_text (log_out (LgRt t) l) = rt_text l ++ t.
Proof. unfold rt_text. cbn [omap list_omap log_out lg_out]. by rewrite reverse_cons, concat_app; cbn; rewrite app_nil_r. Qed.

Lemma rt_text_same l l' : same_lg l l' → rt_text l' = rt_text l.
Proof. intros E. unfold rt_text. by injection E as _ _ _ _ _ ->. Qed.

(** The addresses of the interfaces: the whole text, or an overrun when it is too long. *)
Definition writes_devs (l l' : lg) (r : outcome lg (list Z)) (text : list Z) : Prop :=
  if bool_decide (length text < DEVS_BUF_SIZE)%nat then r = Ok text l' else r = Ub StringOverflow.

Lemma devs_loop_run s k : ∀ acc n l,
  ip_ok n l → (length acc < DEVS_BUF_SIZE)%nat →
  ∃ n' l', writes_devs l l'
      (foreach k acc (λ i buf, t ← ip_arg backwards (dev_ipaddr (DEV_NR s i)); sprintf DEVS_BUF_SIZE buf (t ++ str ",")) l)
      (acc ++ (k ≫= dev_text s)) ∧ ip_ok n' l' ∧ same_lg l l'.
Proof.
  induction k as [|i k IH]; intros acc n l Hl Hacc.
  { exists n, l. split_and!; [|done|done]. cbn. rewrite app_nil_r. unfold writes_devs. by rewrite bool_decide_true. }
  destruct (ip_args_run backwards n [dev_ipaddr (DEV_NR s i)] l) as (l1 & R1 & H1 & E1); [cbn; lia|done|].
  rewrite foreach_cons, bind_cons, app_assoc.
  assert (Rt : ∀ B (f : list Z → DM B), bind (t ← ip_arg backwards (dev_ipaddr (DEV_NR s i)); sprintf DEVS_BUF_SIZE acc (t ++ str ",")) f l
    = bind (sprintf DEVS_BUF_SIZE acc (dev_text s i)) f l1).
  { intros B f. unfold bind at 1. erewrite (bind_ok (ip_arg _ _)) by (unfold ip_arg; by erewrite bind_ok by done). done. }
  rewrite Rt. clear Rt. destruct (decide (length (acc ++ dev_text s i) < DEVS_BUF_SIZE)%nat) as [Hd|Hd].
  - destruct (IH (acc ++ dev_text s i) _ l1 H1 Hd) as (n2 & l2 & R2 & H2 & E2). exists n2, l2.
    split_and!; [|done|by trans l1]. erewrite bind_ok; [exact R2|]. apply sprintf_run. rewrite length_app in Hd. lia.
  - exists n, l. split_and!; [|done|done]. unfold writes_devs. rewrite bool_decide_false.
    + unfold bind. by rewrite sprintf_long by (rewrite length_app in Hd; lia).
    + rewrite length_app. lia.
Qed.

Lemma devs_run n l :
  ip_ok n l →
  ∃ n' l', writes_devs l l' (devs_ip_to_str backwards l) (devs_text (lg_state l)) ∧ ip_ok n' l' ∧ same_lg l l'.
Proof.
  intros Hl. unfold devs_ip_to_str. erewrite bind_ok by done. unfold devs_text.
  apply (devs_loop_run (lg_state l) (enabled_devs (lg_state l)) [] n l Hl). cbn. lia.
Qed.

(** The lines for an entry. *)
Definition expiry (s : state) (now : timeval) (e : rt_table_t) : Z :=
  if rt_hcnt e =? 255 then 0 else
  match timers (tq s) !! RtTimer (rt_dest_addr e) with
  | Some t => timeval_diff (tm_timeout t) now
  | None => 0
  end.
Definition rt_letters (flags : Z) : list Z :=
  flag_letters [(has flags RT_UNIDIR, ch "U"); (has flags RT_REPAIR, ch "R");
                (has flags RT_INET_DEST, ch "I"); (has flags RT_GATEWAY, ch "G")].
Lemma rt_letters_length flags : (length (rt_letters flags) <= 4)%nat.
Proof. apply (flag_letters_length [_; _; _; _]). Qed.

Definition entry_text (s : state) (now : timeval) (e : rt_table_t) : list Z :=
  route_line (inet_ntoa (rt_dest_addr e)) (inet_ntoa (rt_next_hop e))
    (if rt_dest_seqno e =? 0 then str "-" else fmt_u (rt_dest_seqno e)) (fmt_lu (expiry s now e))
    (rt_letters (rt_flags e)) (default [] (if_indextoname s (rt_ifindex e))) e
    (inet_ntoa <$> head (rt_precursors e)) ++
  (tail (rt_precursors e) ≫= λ p, prec_line (inet_ntoa p)).

Lemma print_precs_run ps : ∀ n l buf, ip_ok n l → (length buf <= 1900)%nat →
  ∃ n' l' buf', print_precs backwards false ps buf l = Ok buf' l' ∧ ip_ok n' l' ∧ lg_state l' = lg_state l ∧
    rt_text l' ++ buf' = rt_text l ++ buf ++ (ps ≫= λ p, prec_line (inet_ntoa p)).
Proof.
  induction ps as [|p ps IH]; intros n l buf Hl Hb; cbn [print_precs].
  { exists n, l, buf. cbn. by rewrite app_nil_r. }
  destruct (ip_args_run backwards n [p] l) as (l1 & R1 & H1 & E1); [cbn; lia|done|].
  destruct (IH (n + 1)%nat (log_out (LgRt (buf ++ prec_line (inet_ntoa p))) l1) []) as (n2 & l2 & b2 & R2 & H2 & E2 & Ht2);
    [by destruct H1; split|cbn; lia|].
  exists n2, l2, b2. split_and!; [|done| |].
  - erewrite bind_ok by (unfold ip_arg; by erewrite bind_ok by done). cbn [nth fmap list_fmap].
    erewrite bind_ok. 2:{ apply sprintf_run. unfold prec_line. pose proof (inet_ntoa_length p). len. }
    erewrite bind_ok by done. exact R2.
  - rewrite E2. cbn. by injection E1.
  - rewrite Ht2, rt_text_write, (rt_text_same l l1 E1), bind_cons. by rewrite <- !app_assoc.
Qed.

Definition timed (s : state) (e : rt_table_t) : Prop := is_Some (timers (tq s) !! RtTimer (rt_dest_addr e)).

Lemma print_entry_run now e n l :
  ip_ok n l → timed (lg_state l) e →
  if named (lg_state l) e then
    ∃ n' l', print_entry backwards now e l = Ok () l' ∧ ip_ok n' l' ∧ lg_state l' = lg_state l ∧
      rt_text l' = rt_text l ++ entry_text (lg_state l) now e
  else print_entry backwards now e l = Ub NullString.
Proof.
  intros Hl [t Ht]. unfold print_entry, entry_text, named.
  set (sq := if rt_dest_seqno e =? 0 then str "-" else fmt_u (rt_dest_seqno e)).
  assert (Hsq : (length sq <= 10)%nat).
  { unfold sq. destruct (_ =? _); [cbn; lia|apply fmt_u_length]. }
  erewrite bind_ok by (apply sprintf_run; unfold SEQNO_STR_SIZE; cbn [length]; lia).
  erewrite bind_ok with (a := expiry (lg_state l) now e) (s' := l).
  2:{ unfold expiry. destruct (_ =? 255); [done|]. erewrite bind_ok; [by rewrite Ht|].
      unfold on_lg, timer_timeout_of, on_tq, bind, timer_get. rewrite Ht. cbn. by destruct l as [[]]. }
  erewrite bind_ok. 2:{ apply sprintf_run. pose proof (rt_letters_length (rt_flags e)). fold (rt_letters (rt_flags e)).
    cbn [length]. lia. }
  erewrite (bind_ok (on_lg _) _ l (if_indextoname (lg_state l) (rt_ifindex e)) l) by (unfold on_lg; cbn; by destruct l).
  cbn [app]. destruct (if_indextoname (lg_state l) (rt_ifindex e)) as [name|] eqn:Hname;
    [rewrite bool_decide_true by eauto|by rewrite bool_decide_false by (by intros [])]. cbn [default].
  assert (Hnl : (length name < IFNAMSIZ)%nat).
  { unfold if_indextoname in Hname. apply fmap_Some in Hname as (name' & _ & ->). rewrite length_take. unfold IFNAMSIZ. lia. }
  erewrite bind_ok by done.
  destruct (ip_args_run backwards n (rt_dest_addr e :: rt_next_hop e :: take 1 (rt_precursors e)) l)
    as (l1 & R1 & H1 & E1); [cbn [length]; rewrite length_take; lia|done|].
  erewrite bind_ok by done. cbn [fmap list_fmap nth lookup list_lookup].
  replace ((inet_ntoa <$> take 1 (rt_precursors e)) !! 0%nat) with (inet_ntoa <$> head (rt_precursors e))
    by by destruct (rt_precursors e).
  set (line := route_line _ _ _ _ _ _ _ _).
  assert (Hline : (1 <= length line <= 150)%nat).
  { unfold line, route_line. fold (rt_letters (rt_flags e)). pose proof (rt_letters_length (rt_flags e)).
    pose proof (fmt_d_length (rt_hcnt e)). pose proof (fmt_lu_length (expiry (lg_state l) now e)).
    pose proof (inet_ntoa_length (rt_dest_addr e)). pose proof (inet_ntoa_length (rt_next_hop e)).
    assert ((length (state_to_str (rt_state e)) <= 3)%nat).
    { unfold state_to_str. destruct (rt_state e =? VALID); [len|]. destruct (rt_state e =? INVALID); len. }
    assert (Hlast : ∀ o, (length (match inet_ntoa <$> o with None => [] | Some t => str " " ++ pad_right 15 t end) <= 16)%nat).
    { intros [p|]; [|cbn; lia]. pose proof (inet_ntoa_length p).
      change (length (str " " ++ pad_right 15 (inet_ntoa p)) <= 16)%nat. len. }
    specialize (Hlast (head (rt_precursors e))). unfold IFNAMSIZ in *.
    rewrite !length_app, !pad_right_length. set (x := match _ with None => _ | Some _ => _ end) in *. len. }
  erewrite bind_ok by (apply sprintf_run; unfold RT_BUF_SIZE; cbn [length]; lia). cbn [app].
  assert (Hprecs : ∃ n2 l2 b2, print_precs backwards true (rt_precursors e) line l1 = Ok b2 l2 ∧ ip_ok n2 l2 ∧
    lg_state l2 = lg_state l1 ∧ rt_text l2 ++ b2 = rt_text l1 ++ line ++ (tail (rt_precursors e) ≫= λ p, prec_line (inet_ntoa p))).
  { destruct (rt_precursors e) as [|p ps]; cbn [print_precs tail].
    - eexists _, l1, line. split; [done|]. split_and!; [exact H1|done|]. cbn. by rewrite app_nil_r.
    - eapply print_precs_run; [exact H1|lia]. }
  destruct Hprecs as (n2 & l2 & b2 & R2 & H2 & E2 & Ht2). erewrite bind_ok by exact R2.
  assert (Hst : lg_state l2 = lg_state l) by (rewrite E2; by injection E1). rewrite (rt_text_same l l1 E1) in Ht2.
  destruct b2 as [|c b2]; cbn [length Nat.ltb Nat.leb when].
  - exists n2, l2. rewrite app_nil_r in Ht2. by split_and!.
  - exists n2, (log_out (LgRt (c :: b2)) l2). split_and!; [done|by destruct H2; split|done|]. by rewrite rt_text_write.
Qed.
Lemma print_rows_run s now k : ∀ n l,
  lg_state l = s → ip_ok n l → Forall (timed s) k →
  if forallb (named s) k then
    ∃ n' l', foreach k () (λ e _, print_entry backwards now e) l = Ok () l' ∧ ip_ok n' l' ∧
      lg_state l' = s ∧ rt_text l' = rt_text l ++ (k ≫= entry_text s now)
  else foreach k () (λ e _, print_entry backwards now e) l = Ub NullString.
Proof.
  induction k as [|e k IH]; intros n l Hs Hl Ht.
  { exists n, l. cbn. by rewrite app_nil_r. }
  apply Forall_cons in Ht as [Ht Hts]. cbn [forallb]. rewrite foreach_cons.
  assert (Ht' : timed (lg_state l) e) by by rewrite Hs.
  pose proof (print_entry_run now e n l Hl Ht') as H1. rewrite Hs in H1. destruct (named s e); cbn [andb].
  - destruct H1 as (n1 & l1 & R1 & H1 & E1 & T1). specialize (IH n1 l1 E1 H1 Hts).
    erewrite bind_ok by exact R1. destruct (forallb (named s) k); [|done].
    destruct IH as (n2 & l2 & R2 & H2 & E2 & T2). exists n2, l2. split_and!; [done|done|done|].
    rewrite T2, T1, bind_cons. by rewrite <- app_assoc.
  - unfold bind. by rewrite H1.
Qed.

(** The printed table, without reference to buffers. *)
Definition table_text (s : state) (now : timeval) : list Z :=
  header localtime now (devs_text s) s ++ columns ++ (concat (tbl (rt_tbl s)) ≫= entry_text s now).

(** Printing the table goes as [print_routes] of the daemon says. *)
Lemma print_text_run n l :
  let s := lg_state l in
  let s1 := set_clock_reads (S (clock_reads s)) s in
  ip_ok n l → inv s → num_entries (rt_tbl s) ≠ 0 →
  match print_outcome s with
  | Ok _ s' => ∃ n' l', print_rt_table_text localtime backwards l = Ok () l' ∧ ip_ok n' l' ∧ lg_state l' = s' ∧
      rt_text l' = rt_text l ++ table_text s1 (env_clock (env s) (clock_reads s))
  | Exit c => False
  | Ub u => print_rt_table_text localtime backwards l = Ub u
  end.
Proof.
  intros s s1 Hl Hinv Hne. unfold print_outcome. fold s1. set (now := env_clock _ _).
  unfold print_rt_table_text. erewrite bind_ok by done. fold s. rewrite (proj2 (Z.eqb_neq _ _) Hne).
  erewrite bind_ok by done. fold s. change (env_clock (env s) (clock_reads s)) with now. set (l0 := set_lg_state _ l).
  destruct (devs_run n l0) as (n1 & l1 & R1 & H1 & E1); [exact Hl|]. unfold writes_devs in R1.
  change (devs_text (lg_state l0)) with (devs_text s) in R1.
  case_bool_decide as Hlen; [|unfold bind; by rewrite R1]. erewrite bind_ok by exact R1.
  pose proof (clock_text_length localtime now) as Hclock.
  assert (Hh : (length (header localtime now (devs_text s) s) <= 400)%nat).
  { unfold header. unfold DEVS_BUF_SIZE, IFNAMSIZ, MAX_NR_INTERFACES in Hlen. len_num. }
  erewrite bind_ok by (apply sprintf_run; len). erewrite bind_ok by (apply sprintf_run; len).
  erewrite bind_ok by done. cbn [app].
  set (l2 := log_out _ l1).
  assert (Hs2 : lg_state l2 = s1) by (unfold l2; cbn [lg_state log_out]; by injection E1 as E1 _ _ _ _ _).
  assert (Ht : Forall (timed s1) (concat (tbl (rt_tbl s)))).
  { apply Forall_forall. intros e He. apply (to_owned _ _ (inv_timers _ Hinv)). cbn [timer_owned]. unfold rt_live.
    by rewrite (rt_lookup_elem _ _ (inv_table _ Hinv) He). }
  pose proof (print_rows_run s1 now (concat (tbl (rt_tbl s))) n1 l2 Hs2 ltac:(by destruct H1; split) Ht) as H3.
  destruct (forallb _ _); [|done]. destruct H3 as (n3 & l3 & R3 & H3 & E3 & Ht3).
  exists n3, l3. split_and!; [done|done|done|]. rewrite Ht3. unfold l2. rewrite rt_text_write, (rt_text_same l0 l1 E1).
  unfold table_text. by rewrite <- !app_assoc.
Qed.

(** C33: the printed routing table is that of the daemon.  In any state with its invariant the whole
    function does to the daemon what its handler [print_rt_table_h] does: it goes wrong in
    exactly the cases in which the handler does (the addresses of the interfaces do not fit their
    160 bytes, or a route's interface has no name), and otherwise writes no byte outside its
    buffers and returns with the timer restarted.  The log then has got nothing if the table is
    empty, and else a header and, for every entry in the order of the table, its lines with its own
    addresses and precursors, in whatever order the arguments of [sprintf] are evaluated. *)
Theorem print_rt_table_correct (n : nat) (l : lg) :
  let s := lg_state l in
  let s1 := set_clock_reads (S (clock_reads s)) s in
  ip_ok n l → inv s →
  match print_rt_table_h s with
  | Ok _ s' => ∃ n' l', print_rt_table_full localtime backwards l = Ok () l' ∧ ip_ok n' l' ∧ lg_state l' = s' ∧
      rt_text l' = rt_text l ++
        (if num_entries (rt_tbl s) =? 0 then [] else table_text s1 (env_clock (env s) (clock_reads s)))
  | Exit c => print_rt_table_full localtime backwards l = Exit c
  | Ub u => print_rt_table_full localtime backwards l = Ub u
  end.
Proof.
  intros s s1 Hl Hinv. set (text := if _ =? 0 then _ else _).
  assert (Hend : ∀ n' l', ip_ok n' l' → print_rt_table_text localtime backwards l = Ok () l' →
    when (negb (num_entries (rt_tbl s) =? 0)) print_routes s = Ok () (lg_state l') → rt_text l' = rt_text l ++ text →
    match print_rt_table_h s with
    | Ok _ s' => ∃ n' l', print_rt_table_full localtime backwards l = Ok () l' ∧ ip_ok n' l' ∧ lg_state l' = s' ∧
        rt_text l' = rt_text l ++ text
    | Exit c => print_rt_table_full localtime backwards l = Exit c
    | Ub u => print_rt_table_full localtime backwards l = Ub u
    end).
  { intros n' l' Hl' R1 R2 Ht. unfold print_rt_table_h, print_rt_table_full. erewrite bind_ok by done.
    rewrite (bind_ok _ _ _ _ _ R2), (bind_ok _ _ _ _ _ R1). erewrite bind_ok by done.
    assert (Ro : on_lg (gets opts) l' = Ok (opts (lg_state l')) l') by (unfold on_lg; cbn; by destruct l').
    rewrite (bind_ok _ _ _ _ _ Ro). unfold on_lg.
    destruct (set_timeout _ _ (lg_state l')) as [[] s'| |]; [|done|done].
    exists n', (set_lg_state s' l'). split_and!; [done|by destruct Hl'; split|done|done]. }
  destruct (Z.eqb_spec (num_entries (rt_tbl s)) 0) as [He|He].
  - apply Z.eqb_eq in He. apply (Hend n l); [done| |done|].
    + unfold print_rt_table_text. erewrite bind_ok by done. fold s. by rewrite He.
    + unfold text. by rewrite app_nil_r.
  - pose proof (print_text_run n l Hl Hinv He) as H. cbv zeta in H. fold s in H. pose proof (print_routes_outcome s Hinv) as Rp.
    destruct (print_outcome s) as [[] s'| |u].
    + destruct H as (n' & l' & R & Hl' & Hs' & Ht). apply (Hend n' l'); [done|done| |done].
      rewrite Hs'. exact Rp.
    + done.
    + unfold print_rt_table_h, print_rt_table_full, bind. cbn [gets]. rewrite (proj2 (Z.eqb_neq _ _) He).
      cbn [negb when]. by rewrite Rp, H.
Qed.
End table.
