(* ===== verification/NlCallback.v ===== *)
(** * network/nl.c: logging what the kernel sends

    [nl_rt_callback] of [NlRecv.v] with the log of [Debug.v].  The theorems: it ends whatever
    arrives, and logs the addresses in every notification of an IPv4 address. *)

From Stdlib Require Import String.
From S2P Require Import Prelude.
From S2P Require Import Params.
From S2P Require Import Format.
From S2P Require Import Bytes.
From S2P Require Import State.
From S2P Require Import NlRecv.
From S2P Require Import Debug.

#[local] Open Scope cm_scope.

Section callback.
Context (localtime : Z → tm) (strerror : Z → list Z) (backwards : bool).

Definition nl_debug (msg : list Z) : DM () := alog localtime strerror LOG_DEBUG 0 (str "nl_rt_callback") msg.

(** The [DEBUG] statements of the callback. *)
Definition log_note (x : nl_note) : DM () :=
  match x with
  | NlError error type =>
      nl_debug (str "NLMSG_ERROR, error=" ++ fmt_d error ++ str " type=" ++ fmt_d type)
  | NlAddress ifa_index ifaddr =>
      t ← ip_arg backwards ifaddr;
      nl_debug (str "Interface index " ++ fmt_d ifa_index ++ str " changed address to " ++ t)
  | NlRoute => nl_debug (str "RTM_NEWROUTE")
  end.

Definition nl_rt_callback_h (received : option (list Z)) : DM () := nl_rt_callback log_note received.

Definition log_ok (l : lg) : Prop := (∃ n, ip_ok n l) ∧ log_file_fd l ≠ 0.

Lemma logs_nl_debug msg : (length msg <= 246)%nat → logs (λ _, True) (nl_debug msg).
Proof. intros Hm. apply logs_alog; [done|cbn; lia]. Qed.

Lemma logs_note x : logs (λ _, True) (log_note x).
Proof.
  destruct x as [error type|idx a|]; cbn [log_note].
  - apply logs_nl_debug. len_num.
  - eapply logs_bind; [apply logs_ip_arg|]. intros t Ht. cbv beta in Ht. apply logs_nl_debug. len_num.
  - apply logs_nl_debug. cbn. lia.
Qed.

Lemma logs_notes l : logs (λ _, True) (foreach l () (λ x _, log_note x)).
Proof.
  induction l as [|x l IH]; [by apply logs_ret|]. rewrite foreach_cons.
  eapply logs_bind; [apply logs_note|]. intros [] _. exact IH.
Qed.

(** The callback of the netlink socket ends, whatever has been received; it returns, with
    the buffer of [ip_to_str] in order, unless the message makes it read what was not
    received or copy an address of the wrong length. *)
Theorem nl_rt_callback_ends (received : option (list Z)) (l : lg) :
  log_ok l → wp nl_ub (nl_rt_callback_h received) (λ _ l', log_ok l') l.
Proof.
  apply nl_rt_callback_keeps. intros x l' ((n & Hl) & Hfd).
  destruct (logs_note x n l' Hl Hfd) as ([] & n' & l2 & R & _ & Hl2 & Hfd2).
  unfold wp. rewrite R. split; [by exists n'|done].
Qed.

(** C37: notifications of IPv4 addresses are logged.  For every message of at most 256 bytes about
    an address of an interface, in which the attributes with an address have four bytes and the
    others, such as the name of the interface, any number, padded to whole words: the
    callback logs exactly the addresses in it, in their order, with the index of the interface, and
    returns; nothing behind the message is read and nothing is copied past [ifaddr]. *)
Theorem newaddr_logged (hdr ifa : list Z) (attrs : list (Z * list Z)) (idx : Z) (n : nat) (l : lg) :
  length hdr = 10%nat → length ifa = 8%nat → load32 ifa 4 = Some idx → Forall ifa_ok attrs →
  (length (newaddr_msg hdr ifa attrs) <= 256)%nat → ip_ok n l → log_file_fd l ≠ 0 →
  ∃ n' l', nl_rt_callback_h (Some (newaddr_msg hdr ifa attrs)) l = Ok () l' ∧ ip_ok n' l' ∧
    foreach (NlAddress idx <$> ifa_addresses attrs) () (λ x _, log_note x) l = Ok () l'.
Proof.
  intros Hh Hi Hidx Hok Hlen Hl Hfd.
  destruct (logs_notes (NlAddress idx <$> ifa_addresses attrs) n l Hl Hfd) as ([] & n' & l' & R & _ & Hl' & _).
  exists n', l'. split_and!; [|done|done]. unfold nl_rt_callback_h. by rewrite (newaddr_run _ _ _ _ idx).
Qed.
End callback.
