(* ===== verification/Scenarios.v ===== *)
(** * Runs of the daemon on concrete inputs

    A node with the address 1000 on one interface, its neighbours 1001 and
    1002, and the states it reaches when it is started and receives HELLOs,
    replies and data packets.  The states are used to instantiate the theorems
    of the other files at inputs on which their hypotheses hold, and to show
    runs of the daemon that go wrong. *)

From Stdlib Require Import String.
From S2P Require Import Prelude.
From S2P Require Import Params.
From S2P Require Import Format.
From S2P Require Import Bytes.
From S2P Require Import DList.
From S2P Require Import TimerQueue.
From S2P Require Import TimerHeap.
From S2P Require Import State.
From S2P Require Import Frame.
From S2P Require Import Nl.
From S2P Require Import NlRecv.
From S2P Require Import RtTable.
From S2P Require Import Inv.
From S2P Require Import Total.
From S2P Require Import PacketQueue.
From S2P Require Import SeekList.
From S2P Require Import Socket.
From S2P Require Import Rerr.
From S2P Require Import RtUpdate.
From S2P Require Import Rrep.
From S2P Require Import Rreq.
From S2P Require Import Timeouts.
From S2P Require Import PacketInput.
From S2P Require Import Daemon.
From S2P Require Import Progress.
From S2P Require Import Wire.
From S2P Require Import Network.
From S2P Require Import Llf.
From S2P Require Import Cmdline.
From S2P Require Import Startup.
From S2P Require Import Debug.
From S2P Require Import NlCallback.

#[local] Open Scope cm_scope.

(** ** The node and its environment *)

Definition be32 (v : Z) : list Z := reverse (le_bytes32 v).

Definition opts0 (unidir ring : bool) : options :=
  mk_options unidir false ring false 0 true false true false 0 3000 2 15000.

(** The interface 3 is [wlan0]. *)
Definition wlan0 : list Z := str "wlan0"%string.
Definition wlan (i : Z) : option (list Z) := if i =? 3 then Some wlan0 else None.

(** The clock advances by [step] microseconds with every reading. *)
Definition env0 (unidir ring : bool) (step : Z) : environment :=
  mk_env (opts0 unidir ring)
    (λ n, timeval_add_msec (mk_timeval 1000 0) (Z.of_nat n * step / 1000))
    (λ _, 0) (λ _, true) 1000 (λ _, wlan).

Definition ifs0 : list if_info := [mk_if_info [119; 49] 3 1000 4294967295 4294967295 7].

Definition ran {A} (m : M A) (s : state) : bool :=
  match m s with Ok _ _ => true | _ => false end.

Definition final {A} (m : M A) (s : state) : state :=
  match m s with Ok _ s' => s' | _ => s end.

Lemma final_ok {A} (m : M A) s : ran m s = true → ∃ a, m s = Ok a (final m s).
Proof. unfold ran, final. destruct (m s) as [a s'| |]; [by exists a|done|done]. Qed.

(** A specification at a run that returns. *)
Lemma wp_final {A} E (m : M A) Q s :
  ran m s = true → wp E m Q s → ∃ a, m s = Ok a (final m s) ∧ Q a (final m s).
Proof.
  intros Hr Hw. destruct (final_ok m s Hr) as [a Ha]. exists a.
  split; [done|]. by eapply wp_ok.
Qed.

(** The same, for an operation shown to return under the condition [R]. *)
Lemma spec_final {A} E (R : Prop) (m : M A) Q s :
  (R → returns m s) ∧ wp E m Q s → R → ∃ a, m s = Ok a (final m s) ∧ Q a (final m s).
Proof.
  intros [Hr Hw] HR. destruct (wp_returned _ _ _ _ (Hr HR) Hw) as (a & s' & Hm & HQ).
  exists a. unfold final. by rewrite Hm.
Qed.

Lemma run_final {A} (m : M A) a (Q : state → Prop) s :
  (∃ s', m s = Ok a s' ∧ Q s') → Q (final m s).
Proof. intros (s' & Hm & HQ). unfold final. by rewrite Hm. Qed.

Definition after_init (e : environment) : state := final (daemon_init ifs0) (boot_state e false).
Definition after (i : input) (s : state) : state := final (main_loop_step [i]) s.

Lemma reachable_init e :
  ran (daemon_init ifs0) (boot_state e false) = true → reachable e (after_init e).
Proof. intros H. destruct (final_ok _ _ H) as [[] Ha]. by eapply reach_init. Qed.

Lemma reachable_after e i s :
  reachable e s → input_ok i → ran (main_loop_step [i]) s = true → reachable e (after i s).
Proof.
  intros Hr Hi H. destruct (final_ok _ _ H) as [t Ha]. eapply reach_step; [done| |done].
  by apply Forall_singleton.
Qed.

(** Evaluation of closed goals. *)
Ltac by_eval := vm_compute; reflexivity.
Ltac room_eval := split_and!; [vm_compute; discriminate..|left; by_eval].
Ltac bytes_eval := unfold input_ok, bytes_ok; vm_compute; repeat constructor; discriminate.

(** ** Messages *)

Definition rrep_bytes (hcnt dest sq orig life : Z) : list Z :=
  [AODV_RREP; 0; 0; hcnt] ++ le_bytes32 dest ++ be32 sq ++ le_bytes32 orig ++ be32 life.
Definition rreq_bytes (id dest sq orig orig_sq : Z) : list Z :=
  [AODV_RREQ; 0; 0; 0] ++ be32 id ++ le_bytes32 dest ++ be32 sq ++ le_bytes32 orig
  ++ be32 orig_sq.
Definition rerr_bytes (dest sq : Z) : list Z :=
  [AODV_RERR; 0; 0; 1] ++ le_bytes32 dest ++ be32 sq.
(** An IP header without options, protocol ICMP. *)
Definition ip_bytes (src dest : Z) : list Z :=
  [69; 0; 0; 20; 0; 0; 0; 0; 64; 1; 0; 0] ++ le_bytes32 src ++ le_bytes32 dest.

Definition hello_from (a : Z) : input :=
  InAodv 7 (Some (mk_datagram (rrep_bytes 0 a 5 a 2000) a [CmsgTtl 1; CmsgPktinfo AODV_BROADCAST])).
Definition rrep_from (src hcnt dest sq orig : Z) : input :=
  InAodv 7 (Some (mk_datagram (rrep_bytes hcnt dest sq orig 3000) src
                    [CmsgTtl 200; CmsgPktinfo 1000])).
Definition packet_out (id dest : Z) : input :=
  InNfqueue [mk_nf_packet (Some (id, 3)) (Some (ip_bytes 1000 dest)) 0 3].

(** ** States *)

(** A slow clock: no timer runs out. *)
Definition slow : environment := env0 false true 10.
Definition st0 : state := after_init slow.
(** 1001 has been heard. *)
Definition st1 : state := after (hello_from 1001) st0.
(** A route to 1005 through 1001 is known. *)
Definition st2 : state := after (rrep_from 1001 1 1005 9 1000) st1.
(** Two packets wait for a route to 1006. *)
Definition st3 : state := after (packet_out 22 1006) (after (packet_out 21 1006) st2).

Lemma slow_ok : env_ok slow.
Proof. unfold env_ok. simpl. lia. Qed.

Lemma reach0 : reachable slow st0.
Proof. apply reachable_init. by_eval. Qed.
Lemma reach1 : reachable slow st1.
Proof. apply reachable_after; [apply reach0|bytes_eval|by_eval]. Qed.
Lemma reach2 : reachable slow st2.
Proof. apply reachable_after; [apply reach1|bytes_eval|by_eval]. Qed.
Lemma reach3 : reachable slow st3.
Proof.
  apply reachable_after; [|done|by_eval]. apply reachable_after; [apply reach2|done|by_eval].
Qed.

Lemma reachable_inv s : reachable slow s → inv s.
Proof. intros Hr. by apply (reachable_is_idle slow); [apply slow_ok|]. Qed.
Definition inv0 : inv st0 := reachable_inv _ reach0.
Definition inv1 : inv st1 := reachable_inv _ reach1.
Definition inv2 : inv st2 := reachable_inv _ reach2.
Definition inv3 : inv st3 := reachable_inv _ reach3.

(** What the states hold. *)
Example routes2 :
  (λ e, (rt_dest_addr e, rt_next_hop e, rt_hcnt e, rt_dest_seqno e, rt_state e))
    <$> concat (entries st2) = [(1001, 1001, 1, 5, VALID); (1005, 1001, 2, 9, VALID)].
Proof. by_eval. Qed.
Example queue3 : (λ qp, (qp_dest_addr qp, qp_packet_id qp)) <$> pq_head (PQ st3)
                 = [(1006, 21); (1006, 22)].
Proof. by_eval. Qed.
Example seek3 : seekhead st3 = [mk_seek 1006 0 0 0 2].
Proof. by_eval. Qed.

(** ** The daemon *)

(** A RREQ whose last two bytes announce an extension of 200 bytes. *)
Definition rreq_bad_ext : input :=
  InAodv 7 (Some (mk_datagram (rreq_bytes 77 1007 0 1003 4 ++ [9; 200]) 1002
                    [CmsgTtl 20; CmsgPktinfo AODV_BROADCAST])).

Lemma daemon_memory_safe_witness :
  main_loop_step [rreq_bad_ext] st1 = Ub RecvBufOverread ∧
  ((RecvBufOverread = SendBufOverflow ∨ RecvBufOverread = RecvBufOverread) ∨
   (rt_log_interval (env_opts slow) ≠ 0 ∧
     ((RecvBufOverread = StringOverflow ∧ (DEVS_BUF_SIZE <= length (devs_text st1))%nat) ∨
      (RecvBufOverread = NullString ∧ ∃ n i, env_ifname slow n i = None))) ∨
   ((RecvBufOverread = Uninitialised ∨ RecvBufOverread = StringOverflow) ∧
     ∃ d, InNetlink (Some d) ∈ [rreq_bad_ext] ∧ ∀ l, ¬ kernel_msg d l)).
Proof.
  assert (H : main_loop_step [rreq_bad_ext] st1 = Ub RecvBufOverread) by by_eval.
  split; [exact H|].
  apply (daemon_memory_safe slow st1 [rreq_bad_ext]); [apply slow_ok|apply reach1| |exact H].
  apply Forall_singleton. bytes_eval.
Defined.

(** The four undefined behaviours of one turn.  The callback of the netlink socket given an address
    of 16 bytes: *)
Definition hdr0 : list Z := replicate 10 0.
Definition ifa0 : list Z := [2; 24; 0; 0; 3; 0; 0; 0].
Theorem long_address_turn :
  main_loop_step [InNetlink (Some (newaddr_msg hdr0 ifa0 [(IFA_ADDRESS, replicate 16 0)]))] st1
  = Ub StringOverflow.
Proof. by_eval. Qed.

(** a header alone, announced as an error: *)
Theorem short_error_turn :
  main_loop_step [InNetlink (Some (le_bytes32 16 ++ [2; 0] ++ hdr0))] st1 = Ub Uninitialised.
Proof. by_eval. Qed.

(** and the log of the routing table of a node whose interface is gone. *)
Definition logs_routes (e : environment) : environment :=
  mk_env (mk_options false false true false 0 true false true false 10 3000 2 15000)
    (env_clock e) (env_jitter e) (env_sys_ok e) (env_heap e) (λ _ _, None).
Theorem missing_interface_turn :
  main_loop_step [] (after (hello_from 1001) (after_init (logs_routes (env0 false true 20000)))) = Ub NullString.
Proof. by_eval. Qed.

Lemma daemon_init_establishes_witness : idle st0.
Proof.
  pose proof (daemon_init_establishes slow false ifs0 slow_ok) as H.
  destruct (final_ok (daemon_init ifs0) (boot_state slow false)) as [a Ha]; [by_eval|].
  rewrite Ha in H. exact H.
Defined.

Lemma reachable_invariant_witness :
  pq_len (PQ st3) = Z.of_nat (length (pq_head (PQ st3))) ∧ GcTimer ∈ TQ (tq st3) ∧
  (is_Some (timers (tq st3) !! SeekTimer 1006) ↔ timer_owned st3 (SeekTimer 1006)).
Proof.
  destruct (reachable_invariant slow st3 slow_ok reach3) as (_ & _ & Ho & _ & _ & Hl & _ & _ & Hg).
  split; [exact Hl|]. split; [exact Hg|apply Ho].
Defined.

Lemma reachable_types_witness :
  0 <= num_entries (rt_tbl st3) < 2 ^ 32 ∧ bytes_ok (recv_buf st3) ∧
  ∃ r, rt_lookup (rt_tbl st3) 1005 = Some r ∧ 0 <= rt_hcnt r < 2 ^ 8.
Proof.
  destruct (reachable_types slow st3 slow_ok reach3) as (Hr & Hn & _ & _ & _ & Hb & _).
  split; [exact Hn|]. split; [exact Hb|].
  destruct (rt_lookup (rt_tbl st3) 1005) as [r|] eqn:E.
  - exists r. split; [reflexivity|apply (Hr 1005 r E)].
  - exfalso. assert (F : is_Some (rt_lookup (rt_tbl st3) 1005)) by (eexists; by_eval).
    rewrite E in F. destruct F as [r F]. discriminate.
Defined.

Lemma cleanup_releases_witness :
  ∃ tr, trace (final cleanup st3) = [EvVerdict 22 NF_DROP; EvVerdict 21 NF_DROP] ++ tr.
Proof.
  destruct (run_final _ _ _ _ (cleanup_releases st3 inv3)) as (_ & _ & _ & tr & Htr).
  exists tr. rewrite Htr. f_equal.
Defined.

(** Three turns: a HELLO of 1001, one of 1002 with a packet that has no route, and one
    in which only timers run. *)
Definition turns0 : list (list input) :=
  [[hello_from 1001]; [hello_from 1002; packet_out 21 1006]; []].

Lemma daemon_progress_witness :
  ∃ s', main_loop turns0 st0 = Ok () s' ∧ reachable slow s'.
Proof.
  apply daemon_progress; [apply slow_ok|apply reach0| |].
  - split_and!; [room_eval|by_eval|by_eval|by intros []].
  - assert (Hh : ∀ a, bytes_ok (rrep_bytes 0 a 5 a 2000) → handled st0 (hello_from a)).
    { intros a Ha. split_and!; [exact Ha|by split|eexists; by_eval]. }
    apply Forall_cons. split; [apply Forall_singleton, Hh; bytes_eval|].
    apply Forall_cons. split; [|by apply Forall_singleton].
    apply Forall_cons. split; [apply Hh; bytes_eval|by apply Forall_singleton].
Defined.

(** ** Timers *)

Lemma timer_set_timeout_correct_witness :
  ∃ q', timer_set_timeout HelloSendTimer (mk_timeval 1000 0) 1500 (tq st1) = Ok () q' ∧
    due (timers q') HelloSendTimer = 1001500000.
Proof.
  assert (Ht : timers (tq st1) !! HelloSendTimer
               = Some (mk_timer true (mk_timeval 1001 0) (Some hello_send_h))) by by_eval.
  destruct (timer_set_timeout_correct (tq st1) HelloSendTimer _ hello_send_h
              (mk_timeval 1000 0) 1500 (to_wf _ _ (inv_timers _ inv1)) Ht eq_refl)
    as (q' & Hrun & _ & _ & Hdue & _).
  exists q'. split; [exact Hrun|]. rewrite Hdue. reflexivity.
Defined.

(** After 1.2 seconds the collector's timer is due and the route's is not. *)
Lemma collect_expired_correct_witness :
  ∃ q', collect_expired (mk_timeval 1001 200000) (tq st1) = Ok () q' ∧
    GcTimer ∈ expTQ q' ∧ RtTimer 1001 ∈ TQ q'.
Proof.
  destruct (collect_expired_correct (tq st1) (mk_timeval 1001 200000)
              (to_wf _ _ (inv_timers _ inv1))) as (q' & Hrun & _ & _ & H).
  exists q'. split; [exact Hrun|]. split.
  - apply H; [vm_compute; repeat constructor|vm_compute; discriminate].
  - apply H; [vm_compute; repeat constructor|vm_compute; discriminate].
Defined.

Lemma remaining_time_correct_witness :
  ∃ r, remaining_time (mk_timeval 1000 200000) (tq st1) = Ok (Some r) (tq st1) ∧
    tv_us r = 800000.
Proof.
  assert (Hq : TQ (tq st1)
               = GcTimer :: [HelloSendTimer; HelloTimer 1001; RtTimer 1001]) by by_eval.
  assert (Ht : map_Forall (λ _ t, 0 <= tv_usec (tm_timeout t) < 1000000) (timers (tq st1))).
  { apply (bool_decide_unpack _). vm_compute. exact I. }
  destruct (remaining_time_correct (tq st1) (mk_timeval 1000 200000) GcTimer _
              (to_wf _ _ (inv_timers _ inv1)) Hq ltac:(simpl; lia) Ht) as (r & Hrun & Hr & _).
  exists r. split; [exact Hrun|]. rewrite Hr. by_eval.
Defined.

(** ** The routing table *)

Definition entry5 : rt_table_t := mk_rt 1005 3 3 1001 2 0 VALID tv_zero 0 1005 0 [].

Lemma entry5_ok : entry_ok entry5.
Proof. split; simpl; try done; [by right|by constructor]. Qed.

Lemma table_refines_map_witness :
  rt_map (tbl_detach (rt_tbl st1) 1001) = delete 1001 (rt_map (rt_tbl st1)) ∧
  rt_map (tbl_add (rt_tbl st1) entry5) = <[1005 := entry5]> (rt_map (rt_tbl st1)) ∧
  rt_map (tbl_modify (rt_tbl st1) 1001 (set_rt_state INVALID))
  = alter (set_rt_state INVALID) 1001 (rt_map (rt_tbl st1)).
Proof.
  destruct (table_refines_map (rt_tbl st1) 1001 (set_rt_state INVALID) entry5)
    as (_ & Hm & Hd & Ha & _).
  - apply inv1.
  - intros x. reflexivity.
  - intros x []. split; try assumption. left. reflexivity.
  - apply entry5_ok.
  - by_eval.
  - by_eval.
  - split; [exact Hd|]. split; [exact Ha|exact Hm].
Defined.

Lemma rt_table_insert_correct_witness :
  rt_table_insert 1001 1001 1 9 3000 VALID 0 3 st1 = Ok None st1 ∧
  rt_lookup (rt_tbl (final (rt_table_insert 1005 1001 2 9 3000 VALID 0 3) st1)) 1005
  = Some (mk_rt 1005 9 3 1001 2 0 VALID tv_zero 0 1005 0 []).
Proof.
  destruct (rt_table_insert_correct st1 1001 1001 1 9 3000 VALID 0 3 inv1 ltac:(lia)
              (or_intror eq_refl)) as [Hold _].
  destruct (rt_table_insert_correct st1 1005 1001 2 9 3000 VALID 0 3 inv1 ltac:(lia)
              (or_intror eq_refl)) as (_ & _ & Hnew).
  split; [apply Hold; eexists; by_eval|].
  destruct (run_final _ _ _ _ (Hnew ltac:(intros [e He]; vm_compute in He; discriminate)
              ltac:(by_eval))) as [Hl _].
  exact Hl.
Defined.

(** The neighbour 1001 is now reached over 1002: the route to 1005 is gone. *)
Lemma rt_table_update_correct_witness :
  let s' := final (rt_table_update 1001 1002 2 11 3000 VALID 0) st2 in
  rt_next_hop <$> rt_lookup (rt_tbl s') 1001 = Some 1002 ∧
  rt_state <$> rt_lookup (rt_tbl s') 1005 = Some INVALID.
Proof.
  destruct (rt_lookup (rt_tbl st2) 1001) as [e|] eqn:He; [|vm_compute in He; discriminate].
  destruct (spec_final _ _ _ _ _
              (rt_table_update_correct st2 1001 1002 2 11 3000 VALID 0 e inv2 He ltac:(lia)
                 (or_intror eq_refl)) ltac:(room_eval)) as (a & _ & (e' & Hl & Hn & _) & Ho).
  cbv zeta. split; [rewrite Hl; simpl; rewrite Hn; reflexivity|].
  rewrite (Ho 1005 ltac:(lia)). vm_compute in He. injection He as <-. by_eval.
Defined.

(** ** Broken links and RERRs *)

Lemma link_break_invalidates_witness :
  let s' := final (neighbor_link_break 1001) st2 in
  ∃ e, rt_lookup (rt_tbl s') 1005 = Some e ∧ rt_state e = INVALID ∧ rt_dest_seqno e = 10.
Proof.
  destruct (rt_lookup (rt_tbl st2) 1001) as [e|] eqn:He; [|vm_compute in He; discriminate].
  assert (Hh : rt_hcnt e = 1) by (vm_compute in He; injection He as <-; reflexivity).
  destruct (spec_final _ _ _ _ _ (link_break_invalidates st2 1001 e inv2 He Hh)
              ltac:(room_eval)) as (a & _ & _ & Hb & _).
  destruct (rt_lookup (rt_tbl st2) 1005) as [f|] eqn:Hf; [|vm_compute in Hf; discriminate].
  destruct (Hb 1005 f Hf) as (f' & Hl & Hs & Hq);
    [vm_compute in Hf; injection Hf as <-; reflexivity..|].
  exists f'. split; [exact Hl|]. split; [exact Hs|].
  rewrite Hq. vm_compute in Hf. injection Hf as <-. reflexivity.
Defined.

(** The state with the bytes of a datagram in the receive buffer. *)
Definition receive (bytes : list Z) (s : state) : state :=
  set_recv_buf (take (Z.to_nat RECV_BUF_SIZE) bytes
    ++ drop (length (take (Z.to_nat RECV_BUF_SIZE) bytes)) (recv_buf s)) s.

Lemma inv_receive bytes s : bytes_ok bytes → inv s → inv (receive bytes s).
Proof. intros Hb Hi. apply (safe_recv_data [] bytes Hb s Hi). constructor. Qed.

Lemma rerr_process_scope_witness :
  let s := receive (rerr_bytes 1005 12) st2 in
  let s' := final (rerr_process 12 1001) s in
  (∀ e, rt_lookup (rt_tbl s') 1005 = Some e → rt_state e = VALID → rt_next_hop e ≠ 1001) ∧
  rt_lookup (rt_tbl s') 1001 = rt_lookup (rt_tbl s) 1001.
Proof.
  cbv zeta.
  assert (Hi : inv (receive (rerr_bytes 1005 12) st2))
    by (apply inv_receive; [bytes_eval|apply inv2]).
  destruct (spec_final _ _ _ _ _
              (rerr_process_scope (receive (rerr_bytes 1005 12) st2) 12 1001 1 0 Hi
                 ltac:(by_eval) ltac:(by_eval) ltac:(vm_compute; discriminate))
              ltac:(vm_compute; discriminate))
    as (a & _ & Hother & Hgone).
  split.
  - intros e. apply (Hgone eq_refl 0%nat); [simpl; lia|by_eval].
  - destruct (rt_lookup (rt_tbl (receive (rerr_bytes 1005 12) st2)) 1001) as [e|] eqn:He;
      [|vm_compute in He; discriminate].
    apply Hother; [exact He|]. right. right.
    intros [|i] Hlt; [vm_compute; discriminate|simpl in Hlt; lia].
Defined.

Lemma rerr_roundtrip_witness :
  ∃ s', rerr_build 0 (1001, 7) [(1005, 10)] st0 = Ok () s' ∧
    udest_at (send_buf s') 1 = Some 1005.
Proof.
  destruct (rerr_roundtrip st0 0 (1001, 7) [(1005, 10)] ltac:(simpl; lia))
    as (s' & Hrun & _ & Hr).
  exists s'. split; [exact Hrun|]. destruct (Hr 1%nat 1005 10 eq_refl) as [Hu _]. exact Hu.
Defined.

Lemma rerr_build_overflow_witness :
  rerr_build 0 (1, 1) (replicate 101 (2, 2)) st0 = Ub SendBufOverflow.
Proof. apply rerr_build_overflow. reflexivity. Defined.

(** ** Buffered packets *)

Lemma set_verdict_exact_witness :
  let s' := final (packet_queue_set_verdict 1006 PQ_DROP) st3 in
  pq_head (PQ s') = [] ∧
  trace s' = [EvVerdict 22 NF_DROP; EvVerdict 21 NF_DROP] ++ trace st3.
Proof.
  destruct (set_verdict_exact st3 1006 PQ_DROP inv3 (or_introl eq_refl))
    as (s' & Hrun & Hq & Htr).
  cbv zeta. unfold final. rewrite Hrun, Hq, Htr. split; [by_eval|]. f_equal.
Defined.

Lemma packet_queue_add_bounded_witness :
  ∃ now s', packet_queue_add 23 1001 st3 = Ok () s' ∧
    pq_head (PQ s') = pq_head (PQ st3) ++ [mk_q_pkt 1001 now 23].
Proof.
  destruct (packet_queue_add_bounded st3 23 1001 inv3) as (now & s' & Hrun & Hq & _).
  exists now, s'. split; [exact Hrun|]. rewrite Hq. by_eval.
Defined.

Lemma garbage_collect_exact_witness :
  ∃ s', packet_queue_garbage_collect st3 = Ok 0 s' ∧ pq_head (PQ s') = pq_head (PQ st3).
Proof.
  destruct (garbage_collect_exact st3 inv3) as (s' & Hrun & Hq & _).
  exists s'. rewrite Hrun, Hq. split; [f_equal; by_eval|by_eval].
Defined.

(** ** Rate limiting *)

(** One message every 50 milliseconds for two seconds. *)
Definition busy_times : list timeval :=
  (λ n, timeval_add_msec (mk_timeval 1000 0) (Z.of_nat n * 50)) <$> seq 0 40.

Lemma rate_limit_spacing_witness :
  1000 <= timeval_diff (mk_timeval 1001 50000) (mk_timeval 1000 50000).
Proof.
  apply (rate_limit_spacing RREQ_RATELIMIT busy_times 1); [vm_compute; lia|by_eval|by_eval].
Defined.

(** ** RREPs *)

Lemma rrep_roundtrip_witness :
  ∃ s', rrep_create 0 0 3 1005 9 1000 6000 st0 = Ok () s' ∧
    load8 (send_buf s') 3 = Some 3 ∧ ntohl <$> load32 (send_buf s') 8 = Some 9.
Proof.
  destruct (rrep_roundtrip st0 0 0 3 1005 9 1000 6000 ltac:(lia))
    as (s' & Hrun & _ & Hh & _ & Hn & _).
  exists s'. split; [exact Hrun|]. split; [exact Hh|exact Hn].
Defined.

(** An older RREP, from another neighbour, for the destination 1005. *)
Lemma rrep_process_stale_witness :
  let s := receive (rrep_bytes 1 1005 8 1000 3000) st2 in
  rrep_process 20 1002 200 3 s = Ok () s.
Proof.
  cbv zeta. set (s := receive (rrep_bytes 1 1005 8 1000 3000) st2).
  assert (Hi : inv s) by (apply inv_receive; [bytes_eval|apply inv2]).
  destruct (rt_lookup (rt_tbl s) 1005) as [e|] eqn:He; [|vm_compute in He; discriminate].
  assert (Hsq : rt_dest_seqno e = 9) by (vm_compute in He; injection He as <-; reflexivity).
  destruct (rrep_process_stale s 20 1002 200 3 Hi) as [H|[H _]].
  - right. right. exists e. split; [exact He|]. unfold rrep_stale. rewrite Hsq.
    split; [discriminate|left; by_eval].
  - exact H.
  - destruct (ext_loop_none s RREP_SIZE 20 RREP_SIZE) as (a & s' & Hr); [done|done|].
    rewrite Hr in H. discriminate H.
Defined.

(** A newer one. *)
Lemma rrep_process_installs_witness :
  let s := receive (rrep_bytes 1 1005 10 1000 3000) st2 in
  ∃ e, rt_lookup (rt_tbl (final (rrep_process 20 1002 200 3) s)) 1005 = Some e ∧
    rt_state e = VALID ∧ rt_next_hop e = 1002.
Proof.
  cbv zeta. set (s := receive (rrep_bytes 1 1005 10 1000 3000) st2).
  assert (Hi : inv s) by (apply inv_receive; [bytes_eval|apply inv2]).
  assert (Hacc : ∀ e, rt_lookup (rt_tbl s) (recv32 s 4) = Some e →
                      rrep_accepts e (ntohl (recv32 s 8)) (recv8 s 3 + 1) = true).
  { intros e He. vm_compute in He. injection He as <-. by_eval. }
  destruct (rrep_process_installs s 20 1002 200 3 Hi ltac:(vm_compute; discriminate)
              ltac:(vm_compute; discriminate) Hacc) as [Hret Hspec].
  assert (Hr : returns (rrep_process 20 1002 200 3) s).
  { apply Hret; [room_eval|vm_compute; discriminate|apply ext_loop_none; vm_compute; intuition discriminate]. }
  destruct (spec_final _ True _ _ _ (conj (λ _, Hr) Hspec) I) as (a & _ & e & Hl & Hs & Hn & _).
  exists e. split; [exact Hl|]. split; [exact Hs|exact Hn].
Defined.

(** ** RREQs *)

(** Its own RREQ, forwarded back by a neighbour. *)
Lemma rreq_process_ignores_witness :
  let s := receive (rreq_bytes 4 1006 0 1000 2) st2 in rreq_process 24 1001 3 3 s = Ok () s.
Proof.
  cbv zeta. apply rreq_process_ignores.
  - apply inv_receive; [bytes_eval|apply inv2].
  - left. by_eval.
Defined.

(** A RREQ of 1003 comes from 1001 and, after it was processed, from 1002. *)
Definition rreq_of_1003 : list Z := rreq_bytes 4 1006 0 1003 2.
Lemma rreq_again s : rx_rreq_orig (receive rreq_of_1003 s) = 1003 ∧ rx_rreq_id (receive rreq_of_1003 s) = 4.
Proof. split; by_eval. Qed.


(** ** Route discovery *)

(** The search for 1006, which started with a TTL of 2: it is repeated with 4, 6, 8, 35 and 35. *)
Lemma discovery_terminates_witness :
  ∃ s1 s2, timeouts 5 1006 st3 = Ok [Some 4; Some 6; Some 8; Some 35; Some 35] s1 ∧
    route_discovery_timeout_h 1006 s1 = Ok () s2 ∧
    (¬ 1006 ∈ (sk_dest_addr <$> seekhead s2)) ∧ ∀ qp, qp ∈ pq_head (PQ s2) → qp_dest_addr qp ≠ 1006.
Proof.
  pose proof (discovery_terminates st3 1006 (mk_seek 1006 0 0 0 2) inv3 ltac:(by_eval)
                ltac:(by_eval) ltac:(cbn; lia)) as H.
  assert (Hr : expanding_ring_search (opts st3) = true) by by_eval. rewrite Hr in H.
  destruct H as (_ & s1 & s2 & R1 & _ & R2 & Hd & Hq). exists s1, s2.
  split; [exact R1|]. split; [exact R2|]. split; [exact Hd|exact Hq].
Defined.

(** Its first timeout, without the rate limit: the RREQ goes out on the interface 0. *)
Definition unlimited : environment :=
  mk_env (mk_options false false true false 0 true false false false 0 3000 2 15000)
    (env_clock slow) (λ _, 0) (λ _, true) 1000 (λ _, wlan).
Example first_ring :
  let s := after (packet_out 21 1006) (after_init unlimited) in
  outgoing (final (route_discovery_timeout_h 1006) s)
  = (0%nat, AODV_BROADCAST, 4, Some AODV_RREQ) :: outgoing s.
Proof. by_eval. Qed.

(** A fast clock and no expanding ring search: after 16 turns without any input
    the RREQ has been sent three times. *)
Definition fast : environment := env0 false false 200000.

Fixpoint idle_turns (n : nat) (s : state) : state :=
  match n with O => s | S n => idle_turns n (final (main_loop_step []) s) end.

Definition st_tired : state := idle_turns 16 (after (packet_out 21 1006) (after_init fast)).

Lemma reachable_idle_turn e s :
  reachable e s → ran (main_loop_step []) s = true →
  reachable e (final (main_loop_step []) s).
Proof.
  intros Hr H. destruct (final_ok _ _ H) as [t Ha]. eapply reach_step; [done| |done]. constructor.
Qed.

Lemma reach_tired : reachable fast st_tired.
Proof.
  unfold st_tired, idle_turns. do 16 (apply reachable_idle_turn; [|by_eval]).
  apply reachable_after; [|done|by_eval]. apply reachable_init. by_eval.
Qed.

Lemma discovery_gives_up_witness :
  let s' := final (route_discovery_timeout_h 1006) st_tired in
  (¬ 1006 ∈ (sk_dest_addr <$> seekhead s')) ∧
  ∀ qp, qp ∈ pq_head (PQ s') → qp_dest_addr qp ≠ 1006.
Proof.
  assert (Hi : inv st_tired).
  { apply (reachable_is_idle fast); [unfold env_ok; simpl; lia|apply reach_tired]. }
  exact (run_final _ _ _ _ (discovery_gives_up st_tired 1006 (mk_seek 1006 0 0 2 35) Hi
           ltac:(by_eval) ltac:(vm_compute; discriminate))).
Defined.

(** ** Data packets *)

(** A packet that 1002 sends to 1005 through this node. *)
Lemma packet_with_route_accepted_witness :
  let s' := final (packet_input_handle_packet 30 (Some (ip_bytes 1002 1005)) NF_INET_FORWARD 3 0)
              st2 in
  entries s' = entries st2 ∧ PQ s' = PQ st2.
Proof.
  destruct (run_final _ _ _ _
              (packet_with_route_accepted st2 30 (ip_bytes 1002 1005) NF_INET_FORWARD 3 0 inv2
                 ltac:(vm_compute; discriminate) ltac:(vm_compute; discriminate)
                 ltac:(by_eval) ltac:(by_eval))) as (He & Hq & _).
  split; [exact He|exact Hq].
Defined.

Lemma packet_without_route_queued_witness :
  let s' := final (packet_input_handle_packet 31 (Some (ip_bytes 1000 1009)) 3 0 3) st2 in
  1009 ∈ (sk_dest_addr <$> seekhead s') ∧
  ∃ q now, pq_head (PQ s') = q ++ [mk_q_pkt 1009 now 31].
Proof.
  destruct (run_final _ _ _ _
              (packet_without_route_queued st2 31 (ip_bytes 1000 1009) 3 0 3 inv2
                 ltac:(vm_compute; discriminate) ltac:(vm_compute; discriminate)
                 ltac:(by_eval) ltac:(by_eval) ltac:(right; discriminate)))
    as [Hs Hq].
  split; [exact Hs|exact Hq].
Defined.

Lemma packet_without_route_dropped_witness :
  ∃ s', packet_input_handle_packet 32 (Some (ip_bytes 1002 1009)) NF_INET_FORWARD 3 0 st2
        = Ok NF_DROP s' ∧ PQ s' = PQ st2.
Proof.
  destruct (packet_without_route_dropped st2 32 (ip_bytes 1002 1009) NF_INET_FORWARD 3 0 inv2
                 ltac:(vm_compute; discriminate) ltac:(vm_compute; discriminate)
                 ltac:(by_eval) ltac:(by_eval) ltac:(by_eval) eq_refl ltac:(by_eval))
    as (s' & Hrun & Hq & _).
  exists s'. split; [exact Hrun|exact Hq].
Defined.

(** ** New routes *)

(** A packet waits for 1005, which is sought, when its route becomes valid. *)
Definition st_wait : state :=
  final (seek_list_insert 1005 0 2 0) (final (packet_queue_add 40 1005) st2).

Lemma inv_wait : inv st_wait.
Proof.
  destruct (wp_final _ (packet_queue_add 40 1005) _ st2 ltac:(by_eval)
              (safe_packet_queue_add Full [] 40 1005 st2 inv2 (List.Forall_nil _)))
    as (a & _ & Hi & _).
  assert (Hn : 1005 ∉ sk_dest_addr <$> seekhead (final (packet_queue_add 40 1005) st2))
    by (vm_compute; intros H; by inversion H).
  destruct (wp_final _ (seek_list_insert 1005 0 2 0) _ (final (packet_queue_add 40 1005) st2)
              ltac:(by_eval) (seek_list_insert_spec _ 1005 0 2 0 Hi Hn)) as (b & _ & _ & Hi' & _).
  exact Hi'.
Qed.

Lemma release_packets_correct_witness :
  let s' := final (release_packets 1005) st_wait in
  pq_head (PQ s') = [] ∧ trace s' = EvVerdict 40 NF_ACCEPT :: trace st_wait.
Proof.
  destruct (rt_lookup (rt_tbl st_wait) 1005) as [e|] eqn:He; [|vm_compute in He; discriminate].
  assert (Hv : rt_state e = VALID) by (vm_compute in He; injection He as <-; reflexivity).
  assert (Hd : 1005 ∈ (sk_dest_addr <$> seekhead st_wait)) by (vm_compute; constructor).
  destruct (release_packets_correct st_wait 1005 e inv_wait He Hv Hd)
    as (s' & Hrun & _ & Hq & Htr).
  cbv zeta. unfold final. rewrite Hrun, Hq, Htr. split; [by_eval|].
  change (EvVerdict 40 NF_ACCEPT :: trace st_wait)
    with ([EvVerdict 40 NF_ACCEPT] ++ trace st_wait). f_equal.
Defined.

Lemma hello_process_installs_witness :
  let s := receive (rrep_bytes 0 1001 8 1001 2000) st2 in
  route_of <$> rt_lookup (rt_tbl (final (hello_process 20 3) s)) 1001
  = Some (1001, 1001, 1, 8, VALID).
Proof.
  cbv zeta. set (s := receive (rrep_bytes 0 1001 8 1001 2000) st2).
  assert (Hi : inv s) by (apply inv_receive; [bytes_eval|apply inv2]).
  assert (Hu : ∀ e, rt_lookup (rt_tbl s) (recv32 s 4) = Some e →
                    has (rt_flags e) RT_UNIDIR = false).
  { intros e He. vm_compute in He. injection He as <-. by_eval. }
  destruct (spec_final _ _ _ _ _
              (hello_process_installs s 20 3 Hi ltac:(vm_compute; discriminate)
                 ltac:(by_eval) ltac:(by_eval) Hu) ltac:(room_eval)) as (a & _ & H).
  assert (H4 : recv32 s 4 = 1001) by by_eval. assert (H8 : ntohl (recv32 s 8) = 8) by by_eval.
  rewrite H4, H8 in H. exact H.
Defined.

(** An older RREQ from 1005, over 1002, does not replace the route to 1005. *)
Lemma rreq_reverse_route_correct_witness :
  route_of <$> rt_lookup (rt_tbl (final (rreq_reverse_route 1005 1002 1 8 3) st2)) 1005
  = Some (1005, 1001, 2, 9, VALID).
Proof.
  destruct (spec_final _ _ _ _ _
              (rreq_reverse_route_correct st2 1005 1002 1 8 3 inv2 ltac:(lia)) ltac:(room_eval))
    as (a & _ & _ & H).
  rewrite H. by_eval.
Defined.

Lemma dest_seqno_fresh_witness : int32 5 < int32 (dest_seqno_update 5 5).
Proof.
  destruct (dest_seqno_fresh 5 5 ltac:(lia) ltac:(lia) ltac:(lia)) as (_ & _ & _ & H).
  apply H. reflexivity.
Defined.

(** ** Runs that go wrong *)

(** [num_active] drifts: after the HELLO of 1001 and a RREP that moves the
    route to 1001 behind 1002, there are two valid routes, but [num_active]
    counts one, in a state that the daemon reaches. *)
Theorem num_active_drift :
  let s := after (rrep_from 1002 1 1001 9 1000) st1 in
  reachable slow s ∧ num_active (rt_tbl s) = 1 ∧
  (rt_state <$> concat (entries s)) = [VALID; VALID].
Proof.
  cbv zeta. split; [|split; by_eval].
  apply reachable_after; [apply reach1|bytes_eval|by_eval].
Qed.

(** A RREQ that ends in an extension header whose length goes beyond the
    message makes the loop over the extensions run off the receive buffer: the
    remaining length wraps around below zero. *)
Theorem rreq_ext_overread :
  reachable slow st1 ∧ input_ok rreq_bad_ext ∧
  main_loop_step [rreq_bad_ext] st1 = Ub RecvBufOverread.
Proof. split; [apply reach1|]. split; [bytes_eval|by_eval]. Qed.

(** A RREQ with a hop count above 69 creates a reverse route that stays for 49
    days: its lifetime is computed below zero and wraps around. *)
Theorem reverse_route_lifetime_wraps :
  let rreq := InAodv 7 (Some (mk_datagram
    ([AODV_RREQ; 0; 0; 70] ++ be32 77 ++ le_bytes32 1007 ++ be32 0 ++ le_bytes32 1003 ++ be32 4)
    1002 [CmsgTtl 20; CmsgPktinfo AODV_BROADCAST])) in
  let s := after rreq st1 in
  reachable slow s ∧
  tv_sec ∘ tm_timeout <$> timers (tq s) !! RtTimer 1003 = Some (1000 + 4294967).
Proof.
  cbv zeta. split; [|by_eval]. apply reachable_after; [apply reach1|bytes_eval|by_eval].
Qed.

(** With [--unidir-hack] and the two neighbours 1001 and 1002, the neighbour set
    of a HELLO has the length of two addresses but holds only one of them: each
    address is written over the one before. *)
Theorem hello_neighbor_set_overlaps :
  let e := env0 true true 300000 in
  let s := after (hello_from 1002) (after (hello_from 1001) (after_init e)) in
  let s' := final (hello_neighbor_set RREP_SIZE)
              (final (send_store8 (RREP_SIZE + 1) 0) (final aodv_socket_new_msg s)) in
  reachable e s ∧
  load8 (send_buf s') (RREP_SIZE + 1) = Some 8 ∧
  load32 (send_buf s') (RREP_SIZE + AODV_EXT_HDR_SIZE) = Some 1002 ∧
  load32 (send_buf s') (RREP_SIZE + AODV_EXT_HDR_SIZE + 4) = Some 0.
Proof.
  cbv zeta. split; [|split; [|split]; by_eval].
  apply reachable_after; [|bytes_eval|by_eval]. apply reachable_after; [|bytes_eval|by_eval].
  apply reachable_init. by_eval.
Qed.

(** ** Linked lists *)

(** The ring of [head] through [l], as memory. *)
Definition ring_cells (head : Z) (l : list Z) : gmap Z (list_t Z) :=
  list_to_map (imap (λ i x, (x, mk_list_t
    (Some (List.last (take i (head :: l)) (List.last l head)))
    (Some (hd head (drop (S i) (head :: l)))))) (head :: l)).

(** A list of 1, 2 and 3 at 10, an empty list at 20, and 4 in no list. *)
Definition cells0 : gmap Z (list_t Z) :=
  <[4 := mk_list_t None None]> (ring_cells 10 [1; 2; 3] ∪ ring_cells 20 []).

Lemma cells0_list : is_list cells0 10 [1; 2; 3].
Proof.
  split; [repeat split; by_eval|]. apply (bool_decide_unpack _). by_eval.
Qed.

Lemma cells0_empty : is_list cells0 20 [].
Proof. split; [split; by_eval|]. apply (bool_decide_unpack _). by_eval. Qed.

Lemma list_ops_refine_witness :
  (∃ h', list_add_tail (Some 10) (Some 4) cells0 = Ok LIST_SUCCESS h' ∧
     is_list h' 10 [1; 2; 3; 4] ∧ is_list h' 20 []) ∧
  (∃ h', list_detach (Some 2) cells0 = Ok LIST_SUCCESS h' ∧ is_list h' 10 [1; 3] ∧
     list_unattached (Some 2) h' = Ok true h' ∧ is_list h' 20 []).
Proof.
  split.
  - destruct (list_ops_refine cells0 10 [1; 2; 3] 4 20 [] cells0_list ltac:(eexists; by_eval)
                cells0_empty ltac:(set_solver by lia)) as (_ & H & _).
    destruct (H ltac:(set_solver by lia)) as [_ Ht]. exact Ht.
  - destruct (list_ops_refine cells0 10 [1; 2; 3] 2 20 [] cells0_list ltac:(eexists; by_eval)
                cells0_empty ltac:(set_solver by lia)) as (_ & _ & H).
    destruct (H [1] [3] eq_refl) as [_ Hd]. exact Hd.
Defined.

(** The odd elements are unlinked. *)
Lemma list_drain_filters_witness :
  ∃ h', list_drain Z.odd (Some 10) cells0 = Ok 2 h' ∧ is_list h' 10 [2].
Proof.
  destruct (list_drain_filters Z.odd cells0 10 [1; 2; 3] cells0_list) as (h' & R & Hl & _).
  exists h'. split; [exact R|exact Hl].
Defined.

(** Two timers, none of them running. *)
Definition tms0 : gmap Z (timer ()) :=
  list_to_map [(1, mk_timer false tv_zero (Some ())); (2, mk_timer false tv_zero (Some ()))].
Definition mem0 : @tmem Z () _ _ :=
  mk_tmem (list_to_map [(inl false, mk_list_t TQ_head TQ_head);
                        (inl true, mk_list_t expTQ_head expTQ_head);
                        (inr 1, mk_list_t None None); (inr 2, mk_list_t None None)]) tms0.

Lemma mem0_reps : reps mem0 (mk_tqueue tms0 [] []).
Proof.
  split; simpl.
  - done.
  - apply NoDup_nil_2.
  - by intros k ?%not_elem_of_nil.
  - split; [split; by_eval|apply (bool_decide_unpack _); by_eval].
  - split; [split; by_eval|apply (bool_decide_unpack _); by_eval].
  - intros k [t Ht] _. apply elem_of_list_to_map_2 in Ht. simpl in Ht.
    rewrite !elem_of_cons, elem_of_nil in Ht. destruct Ht as [[= -> _]|[[= -> _]|[]]]; by_eval.
Qed.

Lemma timer_queue_refined_witness :
  ∃ s', timer_set_timeout_p 2 (mk_timeval 5 0) 100 mem0 = Ok () s' ∧
    is_list (cells s') (inl false) [inr 2].
Proof.
  destruct (timer_queue_refined 2 (mk_timeval 5 0) 100 mem0 _ mem0_reps) as (_ & H & _).
  destruct (timer_set_timeout 2 (mk_timeval 5 0) 100 (mk_tqueue tms0 [] []))
    as [[] q'|c|u] eqn:E; [|vm_compute in E; discriminate E..].
  destruct (H q' eq_refl) as (s' & R & Hr). exists s'. split; [exact R|].
  assert (HT : TQ q' = [2]) by (vm_compute in E; injection E as <-; reflexivity).
  pose proof (rp_TQ _ _ Hr) as Hl. rewrite HT in Hl. exact Hl.
Defined.

(** ** Starting the daemon *)

Definition eth0 : list Z := str "eth0"%string.
Definition io0 : ioctls :=
  mk_ioctls (λ name, Some (Z.of_nat (length name))) (λ _, Some 1000) (λ _, Some 255)
    (λ _, Some 1255) (λ _, false).

(** [-i eth0,wlan0] *)
Lemma interfaces_stored_witness :
  ∃ data, host_interfaces io0 (Some (join [eth0; wlan0])) [] () = Ok data () ∧
    Forall2 (λ name d, id_name d = name) [eth0; wlan0] data.
Proof.
  destruct (interfaces_stored io0 [eth0; wlan0] []) as (data & R & H).
  - repeat constructor; try discriminate; by_eval.
  - discriminate.
  - unfold MAX_NR_INTERFACES. simpl. lia.
  - intros name _. split_and!; eexists; reflexivity.
  - exists data. split; [exact R|]. eapply Forall2_impl; [exact H|]. by intros name d [E _].
Defined.

(** One interface, and a system on which all calls succeed. *)
Definition devs1 : list (bool * list Z) := [(true, eth0)].
Definition results1 (n : nat) : Z := if (n =? 32)%nat then 0 else 3 + Z.of_nat n.

Lemma services_start_stop_witness :
  ∃ s s', start_services 1 devs1 (start_state results1) = Ok () s ∧
    map snd (callbacks s) = [nl_rt_callback; nfqueue_fd_callback; aodv_socket_read_cb] ∧
    stop_services devs1 s = Ok () s' ∧ ∀ x, held x s' = 0.
Proof.
  pose proof (services_start_stop 1 devs1 results1 ltac:(repeat constructor; by_eval)) as H.
  assert (Hr : match start_services 1 devs1 (start_state results1) with
               | Ok _ s => (0 <? rtnl_sock s) = true | _ => False end) by by_eval.
  destruct (start_services 1 devs1 (start_state results1)) as [[] s|c|u]; [|destruct Hr..].
  destruct H as (Hc & _ & Hstop). destruct (Hstop (proj1 (Z.ltb_lt _ _) Hr)) as (s' & R & Hh).
  exists s, s'. split_and!; [reflexivity|rewrite Hc; reflexivity|exact R|exact Hh].
Defined.

(** ** Link-layer feedback *)

(** Events of two bytes for the number and six for the address. *)
Definition extract8 (version : Z) (stream : list Z) : Z * iw_event * list Z :=
  if (8 <=? length stream)%nat
  then (1, mk_iw_event (default 0 (load16 stream 0)) (take 6 (drop 2 stream)), drop 8 stream)
  else (0, mk_iw_event 0 [], stream).

Lemma extract8_consumes version stream r event rest :
  extract8 version stream = (r, event, rest) → 0 < r → (length rest < length stream)%nat.
Proof.
  unfold extract8. destruct (8 <=? length stream)%nat eqn:E; intros [= <- <- <-] Hr; [|lia].
  apply Nat.leb_le in E. rewrite length_drop. lia.
Qed.

(** The neighbour 1001 has the address 1:2:3:4:5:6; a frame to it was dropped. *)
Definition arp0 : option (list (option (Z * list Z))) := Some [Some (1001, [1; 2; 3; 4; 5; 6])].
Definition drop_report : list Z :=
  newlink_msg (replicate 10 0) (replicate 16 0) [(IFLA_WIRELESS, [0; 140; 1; 2; 3; 4; 5; 6])]
  ++ replicate 16 0.

Lemma llf_keeps_invariant_witness :
  wp llf_ub (llf_handle_netlink_events extract8 arp0 [drop_report]) (λ _ l', inv (ll_daemon l'))
    (mk_lstate st1 (λ _, 1) 0 [] 0).
Proof. apply (llf_keeps_invariant extract8 arp0 extract8_consumes). exact inv1. Defined.

(** A frame to the neighbour 1001, over which the route to 1005 leads, was dropped. *)
Lemma llf_drop_breaks_link_witness :
  ∃ s', llf_print_event arp0 (mk_iw_event IWEVTXDROP [1; 2; 3; 4; 5; 6]) st2 = Ok () s' ∧
    (∃ e', rt_lookup (rt_tbl s') 1001 = Some e' ∧ rt_state e' = INVALID) ∧
    ∀ j ej, j ≠ 1001 → rt_lookup (rt_tbl s') j = Some ej → rt_state ej = VALID → rt_next_hop ej ≠ 1001.
Proof.
  pose proof (llf_drop_breaks_link arp0 st2 (mk_iw_event IWEVTXDROP [1; 2; 3; 4; 5; 6]) inv2 ltac:(room_eval)) as H.
  destruct H as (s' & R & _ & H). exists s'. split; [exact R|].
  assert (Hd : ∃ e, dropped arp0 st2 (mk_iw_event IWEVTXDROP [1; 2; 3; 4; 5; 6]) = Some e ∧
    rt_dest_addr e = 1001 ∧ rt_hcnt e = 1) by (eexists; split; [by_eval|split; by_eval]).
  destruct Hd as (e & Hd & Ha & Hh). rewrite Hd in H. cbv zeta in H. rewrite Hh, Ha in H.
  destruct H as (H1 & H2 & _). split; [exact H1|exact H2].
Defined.

(** ** Logging *)

Definition noon (sec : Z) : tm := mk_tm 12 0 0.
Definition no_error (errnum : Z) : list Z := str "No such device"%string.

(** The daemon in the state [s] that logs to a file and to the terminal. *)
Definition logging (s : state) : lg := mk_lg s true true 5 6 (replicate 64 0) 0 [].

Lemma logging_ok s : ip_ok 0 (logging s).
Proof. by split. Qed.

Lemma alog_correct_witness :
  ∃ k, alog noon no_error LOG_WARNING 19 (str "f"%string) (str "Failed"%string) (logging st2)
    = Ok () (logged k
        [LgSyslog LOG_WARNING (str "f: Failed: No such device"%string);
         LgStdout (str "12:00:00.000 f: Failed: No such device"%string ++ [10]);
         LgFile (str "12:00:00.000 f: Failed: No such device"%string ++ [10])] (logging st2)).
Proof.
  pose proof (alog_correct noon no_error LOG_WARNING 19 (str "f"%string) (str "Failed"%string) (logging st2)
    ltac:(vm_compute; lia) ltac:(vm_compute; lia) ltac:(discriminate)) as H.
  cbv zeta in H. lazymatch type of H with match ?m with _ => _ end => destruct m as [[] l'|c|u] end.
  - destruct H as [_ [k ->]]. exists k. f_equal.
  - destruct H as [H _]. exfalso. unfold LOG_WARNING, LOG_ERR in H. lia.
  - destruct H.
Defined.

(** A RREQ with all flags. *)
Lemma log_pkt_fields_safe_witness :
  ∃ n' l', log_pkt_fields noon no_error true (1 :: 255 :: replicate 22 255) (logging st2) = Ok () l' ∧ ip_ok n' l'.
Proof.
  apply (log_pkt_fields_safe noon no_error true (1 :: 255 :: replicate 22 255) 0 (logging st2));
    [cbn; lia|apply logging_ok|discriminate].
Defined.

(** A node that logs its table every ten seconds, with the neighbour 1001. *)
Definition logging_env : environment :=
  mk_env (mk_options false false true false 0 true false true false 10000 3000 2 15000)
    (env_clock slow) (env_jitter slow) (env_sys_ok slow) (env_heap slow) (λ _, wlan).
Definition st_log : state := after (hello_from 1001) (after_init logging_env).
Lemma inv_log : inv st_log.
Proof.
  apply (reachable_is_idle logging_env); [unfold env_ok; simpl; lia|].
  apply reachable_after; [apply reachable_init; by_eval|bytes_eval|by_eval].
Qed.

Definition tick (s : state) : state := set_clock_reads (S (clock_reads s)) s.
Lemma print_rt_table_correct_witness :
  ∃ n' l', print_rt_table_full noon true (logging st_log) = Ok () l' ∧ ip_ok n' l' ∧
    print_rt_table_h st_log = Ok () (lg_state l') ∧
    rt_text l' = table_text noon (tick st_log) (env_clock (env st_log) (clock_reads st_log)).
Proof.
  assert (Hr : ran print_rt_table_h st_log = true) by by_eval.
  assert (Hne : (num_entries (rt_tbl st_log) =? 0) = false) by by_eval.
  pose proof inv_log as Hi. generalize dependent st_log. intros s Hr Hne Hi. unfold ran in Hr.
  pose proof (print_rt_table_correct noon true 0 (logging s) (logging_ok s) Hi) as H. cbv zeta in H.
  cbn [logging lg_state] in H. rewrite Hne in H.
  destruct (print_rt_table_h s) as [[] s'| |]; [|discriminate..]. destruct H as (n' & l' & R & Hl & Hs & Ht).
  exists n', l'. split; [exact R|]. split; [exact Hl|]. split; [rewrite Hs; reflexivity|exact Ht].
Defined.

(** The text for [st2]: the neighbour 1001 and the route to 1005. *)
Definition st2_text : list Z :=
  (str "# Time: 12:00:00.000 IP: 232.3.0.0, seqno: 1 entries/active: 2/2"%string ++ [10] ++
   str "Destination     Next hop        HC  St. Seqno Expire Flags Iface Precursors     "%string ++ [10] ++
   str "233.3.0.0       233.3.0.0       1   VAL 5     3000         wlan0"%string ++ [10] ++
   str "237.3.0.0       233.3.0.0       2   VAL 9     3000         wlan0"%string ++ [10]).

Lemma st2_printed : table_text noon (tick st2) (env_clock (env st2) (clock_reads st2)) = st2_text.
Proof. by_eval. Qed.

(** With ten interfaces whose addresses have 15 characters the buffer of [devs_ip_to_str] is one
    byte too short for the final NUL. *)
Definition crowded : state :=
  set_this_host (mk_host 1 tv_zero tv_zero 0 10
    (replicate 10 (mk_dev true 3 3 wlan0 4294967295 0 0))) st2.

Theorem devs_buffer_overflows : devs_ip_to_str true (logging crowded) = Ub StringOverflow.
Proof. by_eval. Qed.

(** A route over an interface that is gone makes [print_rt_table] pass NULL for its name. *)
Theorem missing_interface_printed :
  print_rt_table_full noon true (logging (set_env (logs_routes slow) st2)) = Ub NullString.
Proof. by_eval. Qed.

(** The time to the expiry of a route is printed as an unsigned number: one that has expired seems
    to live for millions of years. *)
Theorem expired_route_printed (s : state) (now : timeval) (e : rt_table_t) :
  - 2 ^ 63 <= expiry s now e < 0 → 2 ^ 63 <= numeral (fmt_lu (expiry s now e)).
Proof.
  intros He. unfold fmt_lu. pose proof (Z.mod_pos_bound (expiry s now e) (2 ^ 64) ltac:(lia)).
  rewrite dec_numeral by lia. rewrite (Z.mod_eq _ (2 ^ 64)) by lia.
  replace (expiry s now e / 2 ^ 64) with (-1); [lia|]. apply (Z.div_unique _ _ _ (expiry s now e + 2 ^ 64)); lia.
Qed.

(** ** The answers of the kernel *)

(** Interface 3 gets the address 10.0.0.1; the other attribute is its name, [eth0] with its NUL. *)
Definition attrs0 : list (Z * list Z) := [(IFA_ADDRESS, [10; 0; 0; 1]); (3, [101; 116; 104; 48; 0])].
Lemma newaddr_logged_witness :
  ifa_addresses attrs0 = [16777226] ∧
  ∃ n' l', nl_rt_callback_h noon no_error true (Some (newaddr_msg hdr0 ifa0 attrs0)) (logging st2) = Ok () l' ∧
    ip_ok n' l' ∧
    foreach (NlAddress 3 <$> ifa_addresses attrs0) () (λ x _, log_note noon no_error true x) (logging st2) = Ok () l'.
Proof.
  split; [by_eval|].
  apply (newaddr_logged noon no_error true hdr0 ifa0 attrs0 3 0 (logging st2));
    [reflexivity|reflexivity|by_eval| |vm_compute; lia|apply logging_ok|discriminate].
  repeat constructor; cbn; try lia; try (intros; discriminate).
Defined.

(** The header of a message alone: the type of an error is not there. *)
Lemma nl_rt_callback_ends_witness :
  wp nl_ub (nl_rt_callback_h noon no_error true (Some (le_bytes32 16 ++ [2; 0] ++ hdr0))) (λ _ l', log_ok l') (logging st2).
Proof.
  apply (nl_rt_callback_ends noon no_error true). split; [exists 0%nat; apply logging_ok|discriminate].
Defined.

(** An attribute with an address of another length is copied to [ifaddr] all the same. *)
Theorem long_address_overflows :
  nl_rt_callback_h noon no_error true (Some (newaddr_msg hdr0 ifa0 [(IFA_ADDRESS, replicate 16 0)])) (logging st2)
  = Ub StringOverflow.
Proof. by_eval. Qed.
