(* ===== verification/NetScenarios.v ===== *)
(** * Runs of networks

    Three nodes in a line, 1001 - 1002 - 1003, whose daemons hear what their neighbours
    send: the route discovery that brings 1001 a route to 1003, one whose reply is
    swallowed, and a routing loop. *)

From S2P Require Import Prelude.
From S2P Require Import Params.
From S2P Require Import Bytes.
From S2P Require Import TimerQueue.
From S2P Require Import State.
From S2P Require Import Nl.
From S2P Require Import RtTable.
From S2P Require Import Inv.
From S2P Require Import Total.
From S2P Require Import Socket.
From S2P Require Import Rerr.
From S2P Require Import PacketInput.
From S2P Require Import Daemon.
From S2P Require Import Progress.
From S2P Require Import Wire.
From S2P Require Import Steady.
From S2P Require Import Waiting.
From S2P Require Import Hop.
From S2P Require Import Report.
From S2P Require Import Discovery.
From S2P Require Import Network.
From S2P Require Import Scenarios.

#[local] Open Scope cm_scope.

(** The address of no interface, and the three nodes. *)
Definition line : gset Z := {[0; 1001; 1002; 1003]}.

Lemma line_closed : closed line.
Proof.
  split; [|set_solver|vm_compute; discriminate].
  intros a. unfold line. rewrite !elem_of_union, !elem_of_singleton. lia.
Qed.

Definition if_of (a : Z) : if_info := mk_if_info [119; 49] 3 a 4294967295 4294967295 7.

Definition node (e : environment) (a : Z) : state :=
  final (daemon_init [if_of a]) (boot_state e false).

Lemma log_off s : rt_log_interval (env_opts (env s)) = 0 → log_safe s.
Proof. intros H Hon. by destruct Hon. Qed.

Lemma node_starts e a :
  env_ok e → MAX_REPORTED <= env_heap e → unidir_hack (env_opts e) = false →
  rt_log_interval (env_opts e) = 0 → a ∈ line →
  ran (daemon_init [if_of a]) (boot_state e false) = true → node_start line (node e a).
Proof.
  intros He Hh Hu Hlog Ha [[] Hr]%final_ok. exists e, [if_of a].
  split_and!; [done|done|done| |by apply Forall_singleton|done].
  apply log_off. pose proof (proj2 (reachable_is_idle e _ He (reach_init _ _ _ _ Hr))) as E.
    change (node e a) with (final (daemon_init [if_of a]) (boot_state e false)). by rewrite E.
Qed.

(** What happens to node [a]: the last message of node [b] arrives, the kernel queues a
    packet for [d], of its own or from [src], or time passes. *)
Inductive happening :=
  | Hears (a b : Z)
  | Wants (a d : Z)
  | Relays (a src d : Z)
  | Waits (a : Z).

Definition actor (h : happening) : Z :=
  match h with Hears a _ | Wants a _ | Relays a _ _ | Waits a => a end.

(** The last message a node has sent: its source, destination, TTL and bytes. *)
Definition last_send (s : state) : option (Z * Z * Z * list Z) :=
  head (omap (λ ev, match ev with
                    | EvSend dev dst ttl p => Some (dev_ipaddr (DEV_NR s dev), dst, ttl, p)
                    | _ => None
                    end) (trace s)).

Definition what (N : network) (h : happening) : list input :=
  match h with
  | Hears a b =>
      match N !! b ≫= last_send with
      | Some (src, dst, ttl, p) => [InAodv 7 (Some (mk_datagram p src [CmsgTtl ttl; CmsgPktinfo dst]))]
      | None => []
      end
  | Wants a d => [InNfqueue [mk_nf_packet (Some (21, 3)) (Some (ip_bytes a d)) 0 3]]
  | Relays a src d => [InNfqueue [mk_nf_packet (Some (22, NF_INET_FORWARD)) (Some (ip_bytes src d)) 3 3]]
  | Waits a => []
  end.

Definition happen (N : network) (h : happening) : network :=
  match N !! actor h with
  | Some s => <[actor h := final (main_loop_step (what N h)) s]> N
  | None => N
  end.

Definition happens (hs : list happening) (N : network) : network := foldl happen N hs.

Definition happen_ok (N : network) (h : happening) : bool :=
  match N !! actor h with
  | Some s => bool_decide (is_Some (devfromsock s 7)) && ran (main_loop_step (what N h)) s
  | None => false
  end.

Fixpoint happens_ok (hs : list happening) (N : network) : bool :=
  match hs with
  | [] => true
  | h :: hs => happen_ok N h && happens_ok hs (happen N h)
  end.

Lemma last_send_on_air N b sb src dst ttl p :
  N !! b = Some sb → last_send sb = Some (src, dst, ttl, p) → on_air N src p.
Proof.
  intros Hb Hl.
  apply head_Some_elem_of, list_elem_of_omap in Hl as ([dev dst' ttl' p'| |] & Hin & [= <- <- <- <-]).
  by exists b, sb, dev, dst', ttl'.
Qed.

Lemma what_receivable N h s :
  is_Some (devfromsock s 7) → Forall (receivable N s) (what N h).
Proof.
  intros Hd. destruct h as [a b|a d|a src d|a]; simpl; [|by repeat constructor..|constructor].
  destruct (N !! b) as [sb|] eqn:Hb; [|constructor]. simpl.
  destruct (last_send sb) as [[[[src dst] ttl] p]|] eqn:Hl; [|constructor].
  apply Forall_singleton. split; [done|]. by eapply last_send_on_air.
Qed.

(** A fact about a node, found by evaluation. *)
Lemma at_node {A} (N : network) (a : Z) (f : state → A) (v : A) :
  f <$> N !! a = Some v → ∃ s, N !! a = Some s ∧ f s = v.
Proof. destruct (N !! a) as [s|]; [|done]. intros [= H]. by exists s. Qed.

Lemma happen_step N h : happen_ok N h = true → net_step N (happen N h).
Proof.
  intros Hok. unfold happen_ok, happen in *. destruct (N !! actor h) as [s|] eqn:Hs; [|done].
  apply andb_true_iff in Hok as [Hd%bool_decide_eq_true [t Hrun]%final_ok].
  econstructor; [done|by apply what_receivable|done].
Qed.

Lemma happens_run hs : ∀ N, happens_ok hs N = true → rtc net_step N (happens hs N).
Proof.
  induction hs as [|h hs IH]; intros N; simpl; [constructor|].
  intros [Hh Hhs]%andb_true_iff. eapply rtc_l; [by apply happen_step|by apply IH].
Qed.

Definition routes (s : state) : list (Z * Z * Z * Z * Z) :=
  (λ e, (rt_dest_addr e, rt_next_hop e, rt_hcnt e, rt_dest_seqno e, rt_state e)) <$> concat (entries s).

Definition line_of (e1 e2 e3 : environment) : network :=
  {[1001 := node e1 1001; 1002 := node e2 1002; 1003 := node e3 1003]}.

(** ** A route discovery *)

Definition N0 : network := line_of slow slow slow.

(** 1001 has a packet for 1003; its RREQ reaches 1003 over 1002. *)
Definition rreq_travels : list happening := [Wants 1001 1003; Hears 1002 1001; Hears 1003 1002].
(** The reply comes back. *)
Definition rrep_travels : list happening := [Hears 1002 1003; Hears 1001 1002].

Definition N1 : network := happens rreq_travels N0.
Definition N2 : network := happens (rreq_travels ++ rrep_travels) N0.

Lemma line_start e1 e2 e3 :
  Forall (λ e, env_ok e ∧ MAX_REPORTED <= env_heap e ∧ unidir_hack (env_opts e) = false ∧
    rt_log_interval (env_opts e) = 0) [e1; e2; e3] →
  ran (daemon_init [if_of 1001]) (boot_state e1 false) = true →
  ran (daemon_init [if_of 1002]) (boot_state e2 false) = true →
  ran (daemon_init [if_of 1003]) (boot_state e3 false) = true →
  net_start line (line_of e1 e2 e3).
Proof.
  rewrite !Forall_cons. intros ((?&?&?&?) & (?&?&?&?) & (?&?&?&?) & _) R1 R2 R3. unfold line_of.
  apply map_Forall_insert_2; [|apply map_Forall_insert_2; [|apply map_Forall_singleton]];
    apply node_starts; assumption || set_solver.
Qed.

Lemma N0_start : net_start line N0.
Proof. apply line_start; [repeat constructor; vm_compute; discriminate|by_eval..]. Qed.

Lemma N1_run : rtc net_step N0 N1.
Proof. apply happens_run. by_eval. Qed.
Lemma N2_run : rtc net_step N0 N2.
Proof. apply happens_run. by_eval. Qed.

(** In the end every node has its routes, and the packet has left. *)
Example routes_found :
  routes <$> N2 !! 1001 = Some [(1002, 1002, 1, 0, VALID); (1003, 1002, 2, 1, VALID)] ∧
  routes <$> N2 !! 1002 = Some [(1001, 1001, 1, 2, VALID); (1003, 1003, 1, 1, VALID)] ∧
  routes <$> N2 !! 1003 = Some [(1001, 1002, 2, 2, VALID); (1002, 1002, 1, 0, VALID)] ∧
  (head ∘ trace) <$> N2 !! 1001 = Some (Some (EvVerdict 21 NF_ACCEPT)).
Proof. split_and!; by_eval. Qed.

(** After the RREQ has arrived, 1002 receives the answer, and at the same time its kernel
    hands it a packet for 1003. *)
Lemma network_never_fails_witness :
  ∃ s t s', N1 !! 1002 = Some s ∧
    main_loop_step (what N1 (Hears 1002 1003) ++ what N1 (Wants 1002 1003)) s = Ok t s'.
Proof.
  destruct (at_node N1 1002 (λ s, bool_decide (is_Some (devfromsock s 7))) true)
    as (s & Hs & Hd%bool_decide_eq_true); [by_eval|].
  exists s. destruct (network_never_fails line line_closed N0 N1 1002 s
    (what N1 (Hears 1002 1003) ++ what N1 (Wants 1002 1003)) N0_start N1_run Hs) as (t & s' & R).
  - apply Forall_app. split; apply what_receivable; exact Hd.
  - exists t, s'. split; [exact Hs|exact R].
Defined.

(** The RREP that 1002 has sent to 1001. *)
Lemma network_messages_witness : ∃ p, on_air N2 1002 p ∧ 1002 ∈ line ∧ frame_ok line p.
Proof.
  destruct (network_messages line line_closed N0 N2 N0_start N2_run) as [H _].
  destruct (at_node N2 1002 last_send (Some (1002, 1001, 254, rrep_bytes 1 1003 1 1001 6000)))
    as (s & Hs & Hl); [by_eval|].
  exists (rrep_bytes 1 1003 1 1001 6000). pose proof (last_send_on_air _ _ _ _ _ _ _ Hs Hl) as Ha.
  split; [exact Ha|exact (H _ _ Ha)].
Defined.

(** When 1002 loses 1003 it tells 1001, for which it has forwarded the reply. *)
Lemma link_break_reports_witness :
  ∃ s s' p, N2 !! 1002 = Some s ∧ neighbor_link_break 1003 s = Ok () s' ∧
    rerr_holds p [(1003, 2)] ∧ sends s' = (0%nat, 1001, 1, p) :: sends s.
Proof.
  destruct (at_node N2 1002 (λ s, (env_sys_ok (env s), (env_heap (env s), optimized_hellos (opts s)),
      wait_on_reboot s, (λ e, (rt_hcnt e, unreachable s 1003 e)) <$> rt_lookup (rt_tbl s) 1003,
      addressees s [(1003, 2, [1001])], num_rerr s, rt_count s))
    (λ _, true, (1000, false), false, Some (1, [(1003, 2, [1001])]), [(0%nat, 1001)], 0, 2%nat))
    as (s & Hs & Hf); [by_eval|].
  pose proof (f_equal (λ v, v.1.1.2) Hf : addressees s _ = _) as Ha.
  injection Hf as Hsys Hheap Hopt Hw He _ Hn Hc.
  destruct (net_run_ok line line_closed N0 N2 N0_start N2_run 1002 s Hs) as [(e & Hok & _ & Hr) _ _].
  destruct (reachable_is_idle e s Hok Hr) as [[Hi _ _ _] _].
  destruct (rt_lookup (rt_tbl s) 1003) as [e3|] eqn:He3; [|discriminate]. injection He as Hh Hu.
  destruct (link_break_reports s 1003 e3 Hi He3 Hh) as (s' & R & _ & Hsent).
  - split_and!; [rewrite Hc; vm_compute; discriminate|rewrite Hc, Hheap; vm_compute; discriminate|left; exact Hopt].
  - split; [rewrite Hsys; reflexivity|exact Hw].
  - right. rewrite Hu, Ha, Hn. vm_compute. discriminate.
  - rewrite Hu, Ha in Hsent. destruct Hsent as (p & Hp & Hsent); [discriminate|].
    exists s, s', p. split_and!; [exact Hs|exact R|exact Hp|exact Hsent].
Defined.

(** The same discovery as an instance of the theorem about all paths. *)
Definition no_routes (s : state) : bool := bool_decide (concat (entries s) = []).

Lemma no_routes_lookup s k : no_routes s = true → rt_lookup (rt_tbl s) k = None.
Proof.
  intros He%bool_decide_eq_true. unfold rt_lookup. destruct (search _ _) as [e|] eqn:Hs; [|done].
  apply search_Some in Hs as [Hs _]. unfold bucket in Hs.
  destruct (tbl (rt_tbl s) !! hash_index k) as [b|] eqn:Hb; simpl in Hs; [|by apply not_elem_of_nil in Hs].
  pose proof (elem_of_concat_lookup _ _ _ _ Hb Hs) as Hin. unfold entries in He. rewrite He in Hin.
  by apply not_elem_of_nil in Hin.
Qed.

Lemma no_routes_way s k : no_routes s = true → way s k = None.
Proof. unfold way. intros H. by rewrite no_routes_lookup. Qed.

Lemma nodes_ind (P : Z → Prop) a : P 1001 → P 1002 → P 1003 → a ∈ [1001; 1002; 1003] → P a.
Proof. intros H1 H2 H3. rewrite !elem_of_cons, elem_of_nil. intros [->|[->|[->|[]]]]; assumption. Qed.

(** A node that has just been started. *)
Lemma fresh_router a : a ∈ [1001; 1002; 1003] → router a (node slow a) ∧ has_room 4 (node slow a) ∧
  under_limit AODV_RREQ (node slow a) ∧ no_routes (node slow a) = true.
Proof.
  intros Ha.
  assert (Hok : ran (daemon_init [if_of a]) (boot_state slow false) = true ∧ no_routes (node slow a) = true ∧
    enabled_devs (node slow a) = [0%nat] ∧ dev_ipaddr (DEV_NR (node slow a) 0) = a ∧
    devfromsock (node slow a) (dev_sock (DEV_NR (node slow a) 0)) = Some (DEV_NR (node slow a) 0) ∧
    ifindex2devindex (node slow a) (dev_ifindex (DEV_NR (node slow a) 0)) = 0%nat ∧
    wait_on_reboot (node slow a) = false ∧
    has_room 4 (node slow a) ∧ under_limit AODV_RREQ (node slow a)).
  { pattern a. apply nodes_ind; [..|exact Ha].
    all: do 7 (split; [by_eval|]); (split; [room_eval|]);
      (split; [vm_compute; discriminate|intros _; right; by_eval]). }
  destruct Hok as (Hrun & Hno & Hen & Had & Hso & Hix & Hw & Hroom & Hlim).
  apply final_ok in Hrun as [[] Hrun].
  assert (idle (node slow a) ∧ env (node slow a) = slow) as [[Hi _ _ _] He].
  { apply reachable_is_idle; [apply slow_ok|]. eapply reach_init. exact Hrun. }
  split_and!; [|exact Hroom|exact Hlim|exact Hno].
  split; [exact Hi|split; [rewrite He; reflexivity|exact Hw]|unfold opts; rewrite He; reflexivity..
    |exact Hen|exact Had|exact Hso|exact Hix|].
  intros k e. rewrite no_routes_lookup by exact Hno. discriminate.
Qed.


(** A clock that goes slowly, but jumps by seven seconds at the reading [k]. *)
Definition jump (k : nat) : environment :=
  mk_env (opts0 false true)
    (λ n, timeval_add_msec (mk_timeval 1000 0)
            ((if bool_decide (k <= n)%nat then 7000 else 0) + Z.of_nat n * 10 / 1000))
    (λ _, 0) (λ _, true) 1000 (λ _, wlan).

(** ** A reply that is swallowed *)

(** The three clocks jump after the discovery, so that all routes expire. *)
Definition J0 : network := line_of (jump 17) (jump 20) (jump 11).
Definition J1 : network :=
  happens (rreq_travels ++ rrep_travels ++ [Waits 1001; Waits 1002; Waits 1003]) J0.
(** 1001 wants to send again: its RREQ reaches 1003, and 1002 receives the reply. *)
Definition J2 : network := happens (rreq_travels ++ [Hears 1002 1003]) J1.

Lemma J0_start : net_start line J0.
Proof.
  apply line_start; [|by_eval..].
  repeat constructor; cbn; try done; intros n; case_bool_decide; lia.
Qed.

(** The destination answers a RREQ with the sequence number its neighbour has given the
    expired route, and the neighbour makes that route valid when it hears the reply: so it
    finds the reply no newer than its own route, and does not pass it on.  The originator
    still has no route, and its packet waits. *)
Theorem rrep_swallowed :
  net_start line J0 ∧ rtc net_step J0 J2 ∧
  routes <$> J1 !! 1002 = Some [(1001, 1001, 1, 3, INVALID); (1003, 1003, 1, 2, INVALID)] ∧
  last_send <$> J2 !! 1003 = Some (Some (1003, 1002, 255, rrep_bytes 0 1003 2 1001 6000)) ∧
  routes <$> J2 !! 1002 = Some [(1001, 1001, 1, 3, VALID); (1003, 1003, 1, 2, VALID)] ∧
  last_send <$> J2 !! 1002 = last_send <$> happens rreq_travels J1 !! 1002 ∧
  routes <$> J2 !! 1001 = Some [(1002, 1002, 1, 0, INVALID); (1003, 1002, 2, 2, INVALID)] ∧
  (λ s, qp_dest_addr <$> pq_head (PQ s)) <$> J2 !! 1001 = Some [1003].
Proof.
  split; [apply J0_start|]. split.
  - trans J1; apply happens_run; by_eval.
  - split_and!; by_eval.
Qed.

(** ** A routing loop *)

(** A fourth node, 1004, behind 1003, and no expanding ring search. *)
Definition line4 : gset Z := line ∪ {[1004]}.
Definition wide : environment := env0 false false 10.
Definition L0 : network := <[1004 := node wide 1004]> (line_of wide wide wide).

(** 1001 finds a route to 1004. *)
Definition L1 : network :=
  happens [Wants 1001 1004; Hears 1002 1001; Hears 1003 1002; Hears 1004 1003;
           Hears 1003 1004; Hears 1002 1003; Hears 1001 1002] L0.

(** 1003 is started again, with the wait of the default settings. *)
Definition restarted : state := final (daemon_init [if_of 1003]) (boot_state wide true).

(** It gets a packet from 1001 for 1004, and 1002 hears its RERR; 1001 does not hear the one
    of 1002.  Then 1002 has a packet for 1004 itself, and 1001 hears its RREQ. *)
Definition L2 : network :=
  happens [Relays 1003 1001 1004; Hears 1002 1003; Wants 1002 1004; Hears 1001 1002; Hears 1002 1001]
    (<[1003 := restarted]> L1).

Lemma line4_closed : closed line4.
Proof.
  destruct line_closed as [Ha H0 _]. split; [|set_solver|vm_compute; discriminate].
  intros a. unfold line4. rewrite elem_of_union, elem_of_singleton. intros [Hl|Hl]; [by apply Ha|lia].
Qed.

Lemma L0_start : net_start line4 L0.
Proof.
  assert (Hs : ∀ a, a ∈ line4 → ran (daemon_init [if_of a]) (boot_state wide false) = true →
    node_start line4 (node wide a)).
  { intros a Ha [[] Hr]%final_ok. exists wide, [if_of a].
    assert (He : env_ok wide) by (unfold env_ok; simpl; lia).
    split_and!; [done|vm_compute; discriminate|done| |by apply Forall_singleton|done].
    apply log_off. pose proof (proj2 (reachable_is_idle wide _ He (reach_init _ _ _ _ Hr))) as E.
    change (node wide a) with (final (daemon_init [if_of a]) (boot_state wide false)). by rewrite E. }
  unfold L0, line_of.
  do 3 (apply map_Forall_insert_2; [apply Hs; [set_solver|by_eval]|]).
  apply map_Forall_singleton, Hs; [set_solver|by_eval].
Qed.

(** A RERR for a destination that its sender does not know makes the receiver forget the
    sequence number: so it accepts the route of a node that still routes through it.  One
    lost RERR, after a restart of the node behind, is enough for a loop between 1001 and
    1002. *)
Theorem routing_loop :
  net_start line4 L0 ∧ rtc net_step L0 L1 ∧
  daemon_init [if_of 1003] (boot_state wide true) = Ok () restarted ∧
  rtc net_step (<[1003 := restarted]> L1) L2 ∧
  (λ s, way s 1004) <$> L1 !! 1001 = Some (Some (1004, 1002, 3, 1, VALID)) ∧
  (λ s, way s 1004) <$> L1 !! 1002 = Some (Some (1004, 1003, 2, 1, VALID)) ∧
  last_send <$> happens [Relays 1003 1001 1004] (<[1003 := restarted]> L1) !! 1003 =
    Some (Some (1003, AODV_BROADCAST, 1, rerr_bytes 1004 0)) ∧
  (λ s, way s 1004) <$> L2 !! 1001 = Some (Some (1004, 1002, 3, 1, VALID)) ∧
  (λ s, way s 1004) <$> L2 !! 1002 = Some (Some (1004, 1001, 4, 1, VALID)).
Proof.
  split; [apply L0_start|]. split; [apply happens_run; by_eval|]. split.
  - destruct (final_ok (daemon_init [if_of 1003]) (boot_state wide true)) as [[] R]; [by_eval|exact R].
  - split; [apply happens_run; by_eval|]. split_and!; by_eval.
Qed.
