(* ===== verification/Gateway.v ===== *)
(** * The gateway code of the routing table and of route discovery

    Builds with [CONFIG_GATEWAY], as the ns-2 port is one, know destinations in the Internet:
    their entries have the flag [RT_INET_DEST] and a gateway (flag [RT_GATEWAY]) for the
    next hop.  The functions that this changes have the suffix [_gw].  The theorems: when a
    gateway is lost so are the destinations behind it, and the recursion ends; when a gateway
    is itself a destination in the Internet, updating it never returns. *)

From S2P Require Import Prelude.
From S2P Require Import Params.
From S2P Require Import Bytes.
From S2P Require Import TimerQueue.
From S2P Require Import State.
From S2P Require Import Frame.
From S2P Require Import Nl.
From S2P Require Import RtTable.
From S2P Require Import Inv.
From S2P Require Import Total.
From S2P Require Import SeekList.
From S2P Require Import PacketQueue.
From S2P Require Import Socket.
From S2P Require Import Rerr.
From S2P Require Import RtUpdate.
From S2P Require Import Rrep.
From S2P Require Import Rreq.

#[local] Open Scope cm_scope.

Definition RREP_INET_DEST_EXT : Z := 4.

(** ** routing/locality.c *)

Inductive host_kind := HOST_ADHOC | HOST_INET | HOST_UNKNOWN.

(** [gw_prefix] is set with the mode of a gateway; [resolves] whether [gethostbyaddr] finds a host. *)
Definition locality (gw_prefix : bool) (resolves : Z → bool) (dest ifindex : Z) (s : state) : host_kind :=
  if gw_prefix then
    let d := DEV_IFINDEX s ifindex in
    if Z.land dest (dev_netmask d) =? Z.land (dev_ipaddr d) (dev_netmask d) then HOST_ADHOC else HOST_INET
  else if resolves dest then HOST_INET else HOST_UNKNOWN.

(** [locality] of the ns-2 port: [get_subnetaddr] of ns-2 returns a new string or NULL. *)
Definition ns_locality {S} (get_subnetaddr : Z → option (list Z)) (me dest : Z) : CM S host_kind :=
  match get_subnetaddr me, get_subnetaddr dest with
  | Some subnet, Some dstnet =>
      if bool_decide (dstnet = subnet) then cexit 134 (* assert(dstnet == NULL) *) else ret HOST_INET
  | None, Some _ => cexit 134
  | _, None => ret HOST_UNKNOWN
  end.

(** ** Invalidation *)

(** [rt_table_invalidate] up to the message to the kernel: [false] when the route is invalid. *)
Definition invalidate_front (rt : Z) : M bool :=
  gettimeofday ;;
  e ← rt_deref rt;
  if rt_state e =? INVALID then ret false else
  on_tq (timer_remove (RtTimer rt)) ;;
  on_tq (timer_remove (HelloTimer rt)) ;;
  on_tq (timer_remove (AckTimer rt)) ;;
  rt_modify rt (set_rt_state INVALID) ;;
  modify (λ s, set_rt_tbl (set_num_active (u32 (num_active (rt_tbl s) - 1)) (rt_tbl s)) s) ;;
  rt_modify rt (set_rt_hello_cnt 0) ;;
  rt_modify rt (λ e, set_rt_dest_seqno (seqno_incr (rt_dest_seqno e)) e) ;;
  rt_modify rt (set_rt_last_hello_time tv_zero) ;;
  e ← rt_deref rt;
  nl_send_del_route_msg (rt_dest_addr e) (rt_next_hop e) (rt_hcnt e) ;;
  ret true.

(** Its end. *)
Definition invalidate_end (rt : Z) : M () :=
  e ← rt_deref rt;
  o ← gets opts;
  if has (rt_flags e) RT_REPAIR then
    set_handler (RtTimer rt) local_repair_timeout ;;
    set_timeout (RtTimer rt) (active_route_timeout o)
  else
    set_handler (RtTimer rt) route_delete_timeout ;;
    set_timeout (RtTimer rt) (delete_period o).

(** One turn of the loop over the table in between, with the recursive call [invalidate]. *)
Definition drop_inet (invalidate : Z → M Z) (gw rt2 : Z) : M () :=
  e ← rt_deref gw;
  e2 ← rt_deref rt2;
  when ((rt_state e2 =? VALID) && has (rt_flags e2) RT_INET_DEST && (rt_next_hop e2 =? rt_dest_addr e))
    (invalidate rt2 ;; precursor_list_destroy rt2).

(** The recursion invalidates a valid route with every call, so one call more than there are
    routes is enough. *)
Fixpoint invalidate_rec (fuel : nat) (rt : Z) : M Z :=
  match fuel with
  | O => undefined OutOfFuel
  | S fuel =>
      go ← invalidate_front rt;
      if negb go then ret (-1) else
      e ← rt_deref rt;
      when (has (rt_flags e) RT_GATEWAY)
        (keys ← gets rt_keys; foreach keys () (λ k _, drop_inet (invalidate_rec fuel) rt k)) ;;
      invalidate_end rt ;;
      ret 0
  end.

Definition rt_table_invalidate_gw (rt : Z) : M Z :=
  n ← gets (λ s, length (rt_keys s)); invalidate_rec (S n) rt.

(** ** Properties of invalidation *)

Lemma invalidate_front_eff k e :
  rt_state e ≠ INVALID → eff k e (invalidated e) (invalidate_front k).
Proof.
  intros He. unfold invalidate_front. eapply eff_bind; [eff_leaf|intros _]. apply eff_deref.
  rewrite (proj2 (Z.eqb_neq _ _) He). do 3 (eapply eff_bind; [eff_leaf|intros _]).
  eapply eff_bind; [apply eff_modify; [done|entry]|intros _].
  eapply eff_bind; [apply (eff_num_active _ _ (λ n, u32 (n - 1)))|intros _].
  do 3 (eapply eff_bind; [apply eff_modify; [done|entry]|intros _]).
  apply eff_deref. eapply eff_bind; [eff_leaf|intros _]. apply eff_ret.
Qed.

Lemma invalidate_end_eff k e : eff k e e (invalidate_end k).
Proof.
  unfold invalidate_end. apply eff_deref. eapply eff_bind; [eff_leaf|intros o].
  destruct (has _ _); (eapply eff_bind; [eff_leaf|intros _]); eff_leaf.
Qed.

Lemma invalidate_front_result k e s a s' :
  rt_lookup (rt_tbl s) k = Some e → rt_state e ≠ INVALID → invalidate_front k s = Ok a s' → a = true.
Proof.
  intros He Hst. unfold invalidate_front. intros (t & s1 & H1 & R)%bind_inv.
  assert (Ht : rt_tbl s1 = rt_tbl s) by (injection H1 as _ <-; done).
  apply bind_inv in R as (e1 & s2 & H2 & R). unfold rt_deref in H2. rewrite Ht, He in H2. injection H2 as <- <-.
  rewrite (proj2 (Z.eqb_neq _ _) Hst) in R.
  repeat (apply bind_inv in R as (? & ? & _ & R)). by injection R.
Qed.

(** A destination behind a lost gateway. *)
Definition dropped (e : rt_table_t) : rt_table_t := without_precursors (invalidated e).

(** What losing gateways does to the entry of [j]. *)
Definition demotes (s s' : state) (j : Z) : Prop :=
  rt_lookup (rt_tbl s') j = rt_lookup (rt_tbl s) j ∨
  ∃ e, rt_lookup (rt_tbl s) j = Some e ∧ rt_state e = VALID ∧ has (rt_flags e) RT_INET_DEST = true ∧
       rt_lookup (rt_tbl s') j = Some (dropped e).

Lemma demotes_trans s1 s2 s3 j : demotes s1 s2 j → demotes s2 s3 j → demotes s1 s3 j.
Proof.
  intros [E1|(e & H1 & H2 & H3 & H4)] [E2|(e' & H1' & H2' & H3' & H4')].
  - left. congruence.
  - right. exists e'. by rewrite <- E1.
  - right. exists e. by rewrite E2.
  - rewrite H4 in H1'. injection H1' as <-. done.
Qed.

Lemma demotes_valid s s' j e :
  demotes s s' j → rt_lookup (rt_tbl s') j = Some e → rt_state e = VALID → rt_lookup (rt_tbl s) j = Some e.
Proof. intros [E|(e0 & _ & _ & _ & H)] He Hv; [congruence|]. rewrite H in He. by injection He as <-. Qed.

(** No valid destination is behind [gw]. *)
Definition behind (gw : Z) (e : rt_table_t) : bool :=
  (rt_state e =? VALID) && has (rt_flags e) RT_INET_DEST && (rt_next_hop e =? gw).

(** The specification of a call for the valid entry [e] of [k]. *)
Definition lost_with (k : Z) (e : rt_table_t) (s : state) (r : Z) (s' : state) : Prop :=
  r = 0 ∧ inv s' ∧ ext Quiet s s' ∧
  rt_lookup (rt_tbl s') k = Some (invalidated e) ∧ (∀ j, j ≠ k → demotes s s' j) ∧
  (has (rt_flags e) RT_GATEWAY = true → ∀ j ej, rt_lookup (rt_tbl s') j = Some ej → behind k ej = false).
Definition invalidates (m : M Z) (k : Z) (e : rt_table_t) (s : state) : Prop :=
  wp buf_ub m (lost_with k e s) s.

(** The routes that are valid are among [ks]. *)
Definition covers (ks : list Z) (s : state) : Prop :=
  ∀ j e, rt_lookup (rt_tbl s) j = Some e → rt_state e = VALID → j ∈ ks.

Lemma covers_demotes ks s s' : covers ks s → (∀ j, demotes s s' j) → covers ks s'.
Proof. intros Hc Hd j e He Hv. eapply Hc; [|done]. by eapply demotes_valid. Qed.

Section loop.
Context (invalidate : Z → M Z) (ks : list Z) (gw : Z).
Context (Hinv : ∀ s k e, inv s → rt_lookup (rt_tbl s) k = Some e → rt_state e = VALID → covers ks s →
  invalidates (invalidate k) k e s).

(** One turn: what was behind the gateway is dropped. *)
Lemma drop_inet_run s eg k e :
  inv s → rt_lookup (rt_tbl s) gw = Some eg → rt_state eg = INVALID → rt_lookup (rt_tbl s) k = Some e → covers ks s →
  wp buf_ub (drop_inet invalidate gw k) (λ _ s', inv s' ∧ ext Quiet s s' ∧ (∀ j, demotes s s' j) ∧
    ∀ e', rt_lookup (rt_tbl s') k = Some e' → behind gw e' = false) s.
Proof.
  intros Hi Hg Hgs He Hc. unfold drop_inet. eapply wp_run; [unfold rt_deref; by rewrite Hg|].
  eapply wp_run; [unfold rt_deref; by rewrite He|]. rewrite (rt_lookup_dest _ _ _ Hg).
  destruct (_ && _) eqn:Hb; cbn [when].
  2:{ apply wp_ret. split_and!; [done|done|by left|]. intros e'. rewrite He. by intros [= <-]. }
  apply andb_prop in Hb as [[Hv%Z.eqb_eq Hin]%andb_prop _].
  apply wp_bind. eapply wp_mono; [by apply Hinv|]. intros r s1 (_ & Hi1 & Hx1 & Hk1 & Hd1 & _).
  eapply wp_mono; [by apply precursor_list_destroy_eff|]. intros [] s2 (Hi2 & Hx2 & Hk2 & Ho2).
  split_and!; [done|by etransitivity| |].
  - intros j. destruct (decide (j = k)) as [->|Hj]; [right; by exists e|].
    unfold demotes. rewrite Ho2 by done. by apply Hd1.
  - intros e'. rewrite Hk2. by intros [= <-].
Qed.

Lemma drop_inet_loop keys : ∀ s eg,
  inv s → rt_lookup (rt_tbl s) gw = Some eg → rt_state eg = INVALID → live_all s keys → covers ks s →
  wp buf_ub (foreach keys () (λ k _, drop_inet invalidate gw k)) (λ _ s', inv s' ∧ ext Quiet s s' ∧
    (∀ j, demotes s s' j) ∧ ∀ j e', j ∈ keys → rt_lookup (rt_tbl s') j = Some e' → behind gw e' = false) s.
Proof.
  induction keys as [|k keys IH]; intros s eg Hi Hg Hgs Hl Hc; cbn [foreach].
  { apply wp_ret. split_and!; [done|done|by left|]. by intros j e' ?%elem_of_nil. }
  apply Forall_cons in Hl as [[e He] Hl]. apply wp_bind. eapply wp_mono; [by eapply drop_inet_run|].
  intros [] s1 (Hi1 & Hx1 & Hd1 & Hk1).
  assert (Hg1 : rt_lookup (rt_tbl s1) gw = Some eg).
  { destruct (Hd1 gw) as [E|(e0 & H0 & Hv & _)]; [congruence|]. rewrite Hg in H0. injection H0 as <-. by rewrite Hgs in Hv. }
  eapply wp_mono; [eapply IH; [done|done|done|by eapply live_all_ext|by eapply covers_demotes]|].
  intros [] s2 (Hi2 & Hx2 & Hd2 & Hk2). split_and!; [done|by etransitivity|intros j; by eapply demotes_trans|].
  intros j e' [->|Hj]%elem_of_cons He'; [|by eapply Hk2].
  destruct (behind gw e') eqn:Hb; [|done]. pose proof Hb as [[Hv%Z.eqb_eq _]%andb_prop _]%andb_prop.
  rewrite <- Hb. apply Hk1. by eapply demotes_valid.
Qed.
End loop.

(** The end of a call keeps what the loop has done. *)
Lemma invalidate_end_keeps s k e s2 :
  inv s2 → ext Quiet s s2 → rt_lookup (rt_tbl s2) k = Some (invalidated e) → (∀ j, j ≠ k → demotes s s2 j) →
  (has (rt_flags e) RT_GATEWAY = true → ∀ j ej, rt_lookup (rt_tbl s2) j = Some ej → behind k ej = false) →
  wp buf_ub (invalidate_end k ;; ret 0) (lost_with k e s) s2.
Proof.
  intros Hi2 Hx2 Hk2 Hd2 Hb2. apply wp_bind. eapply wp_mono; [by apply (invalidate_end_eff k (invalidated e))|].
  intros [] s3 (Hi3 & Hx3 & Hk3 & Ho3).
  assert (Hsame : ∀ j, rt_lookup (rt_tbl s3) j = rt_lookup (rt_tbl s2) j).
  { intros j. destruct (decide (j = k)) as [->|Hj]; [congruence|by apply Ho3]. }
  apply wp_ret. split_and!; [done|done|by etransitivity|done| |].
  - intros j Hj. unfold demotes. rewrite Hsame. by apply Hd2.
  - intros Hgw j ej. rewrite Hsame. by apply Hb2.
Qed.

Lemma invalidate_rec_spec fuel : ∀ ks s k e,
  inv s → rt_lookup (rt_tbl s) k = Some e → rt_state e = VALID → covers ks s → (length ks < fuel)%nat →
  invalidates (invalidate_rec fuel k) k e s.
Proof.
  induction fuel as [|fuel IH]; intros ks s k e Hi He Hv Hc Hf; [lia|].
  assert (Hst : rt_state e ≠ INVALID) by by rewrite Hv.
  unfold invalidates. cbn [invalidate_rec]. apply wp_bind.
  eapply wp_mono; [apply wp_also; [by apply invalidate_front_eff|intros a s1; by apply (invalidate_front_result k e)]|].
  intros go s1 ((Hi1 & Hx1 & Hk1 & Ho1) & ->). cbn [negb].
  eapply wp_run; [unfold rt_deref; by rewrite Hk1|]. apply wp_bind.
  assert (Hd1 : ∀ j, j ≠ k → demotes s s1 j) by (intros j Hj; left; by apply Ho1).
  change (rt_flags (invalidated e)) with (rt_flags e). destruct (has (rt_flags e) RT_GATEWAY) eqn:Hgw; cbn [when].
  2:{ apply wp_ret, invalidate_end_keeps; [done..|]. by rewrite Hgw. }
  apply wp_bind, wp_gets.
  assert (Hc1 : covers (filter (λ j, j ≠ k) ks) s1).
  { intros j ej Hj Hvj. apply list_elem_of_filter. destruct (decide (j = k)) as [->|Hne].
    - rewrite Hk1 in Hj. by injection Hj as <-.
    - split; [done|]. apply (Hc j ej); [by rewrite <- Ho1|done]. }
  assert (Hlen : (length (filter (λ j, j ≠ k) ks) < fuel)%nat).
  { assert (length (filter (λ j, j ≠ k) ks) < length ks)%nat; [|lia].
    apply (length_filter_lt _ ks k); [by apply (Hc k e)|tauto]. }
  eapply wp_mono; [apply (drop_inet_loop (invalidate_rec fuel) (filter (λ j, j ≠ k) ks) k) with (eg := invalidated e)|].
  - intros s0 k0 e0 Hi0 He0 Hv0 Hc0. by eapply IH.
  - done.
  - done.
  - done.
  - apply Forall_forall. intros j Hj. by apply elem_of_rt_keys; [apply Hi1|].
  - done.
  - intros [] s2 (Hi2 & Hx2 & Hd2 & Hk2).
    assert (Hks : rt_lookup (rt_tbl s2) k = Some (invalidated e)).
    { destruct (Hd2 k) as [E|(e0 & H0 & Hv0 & _)]; [congruence|]. rewrite Hk1 in H0. by injection H0 as <-. }
    apply invalidate_end_keeps; [done|by etransitivity|done| |].
    + intros j Hj. eapply demotes_trans; [by apply Hd1|done].
    + intros _ j ej Hj. apply (Hk2 j ej); [|done]. apply elem_of_rt_keys; [apply Hi1|].
      destruct (Hd2 j) as [E|(e0 & H0 & _)]; [exists ej; congruence|by exists e0].
Qed.

(** C31: losing a gateway.  Invalidating a valid route ends, also when gateways are behind other
    gateways; the route gets invalid, of the others only destinations in the Internet
    change, and when the route was that of a gateway no valid destination has it as its
    gateway any more. *)
Theorem gateway_lost (s : state) (k : Z) (e : rt_table_t) :
  inv s → rt_lookup (rt_tbl s) k = Some e → rt_state e = VALID →
  wp buf_ub (rt_table_invalidate_gw k) (λ r s', r = 0 ∧ inv s' ∧
    rt_lookup (rt_tbl s') k = Some (invalidated e) ∧
    (∀ j ej, j ≠ k → rt_lookup (rt_tbl s) j = Some ej →
       rt_lookup (rt_tbl s') j = Some ej ∨
       rt_state ej = VALID ∧ has (rt_flags ej) RT_INET_DEST = true ∧ rt_lookup (rt_tbl s') j = Some (dropped ej)) ∧
    (has (rt_flags e) RT_GATEWAY = true →
       ∀ j ej, rt_lookup (rt_tbl s') j = Some ej → rt_state ej = VALID →
         has (rt_flags ej) RT_INET_DEST = true → rt_next_hop ej ≠ k)) s.
Proof.
  intros Hi He Hv. unfold rt_table_invalidate_gw. apply wp_bind, wp_gets.
  eapply wp_mono; [eapply (invalidate_rec_spec _ (rt_keys s)); [done|done|done| |lia]|].
  { intros j ej Hj _. apply elem_of_rt_keys; [apply Hi|by exists ej]. }
  intros r s' (-> & Hi' & _ & Hk & Hd & Hb). split_and!; [done|done|done| |].
  - intros j ej Hj Hej. destruct (Hd j Hj) as [E|(e0 & H0 & H1 & H2 & H3)]; [left; congruence|].
    right. rewrite Hej in H0. injection H0 as <-. done.
  - intros Hg j ej Hj Hvj Hij Hn. specialize (Hb Hg j ej Hj). unfold behind in Hb.
    by rewrite Hvj, Hij, Hn, !Z.eqb_refl in Hb.
Qed.

(** ** Link breaks *)

Definition link_break_entry_gw (rt : Z) (rt_u : Z) (acc : rerr_acc) : M rerr_acc :=
  e ← rt_deref rt;
  u ← rt_deref rt_u;
  if (rt_state u =? VALID) && (rt_next_hop u =? rt_dest_addr e)
     && negb (rt_dest_addr u =? rt_dest_addr e) then
    if has (rt_flags e) RT_REPAIR && (rt_hcnt u <=? MAX_REPAIR_TTL) then
      rt_modify rt_u (λ u, set_rt_flags (Z.lor (rt_flags u) RT_REPAIR) u) ;;
      rt_table_invalidate_gw rt_u ;;
      ret acc
    else
      rt_table_invalidate_gw rt_u ;;
      nprec ← rt_get rt_u rt_nprec;
      acc ← (if negb (nprec =? 0) then rerr_include 0 rt_u acc else ret acc);
      precursor_list_destroy rt_u ;;
      ret acc
  else ret acc.

Definition link_break_self_gw (rt : Z) : M rerr_acc :=
  rt_table_invalidate_gw rt ;;
  e ← rt_deref rt;
  acc ← (if negb (rt_nprec e =? 0) && negb (has (rt_flags e) RT_REPAIR)
         then rerr_include 0 rt (mk_rerr_acc false 0)
         else ret (mk_rerr_acc false 0));
  when (negb (has (rt_flags e) RT_REPAIR)) (precursor_list_destroy rt) ;;
  ret acc.

Definition neighbor_link_break_gw (rt : Z) : M () :=
  e ← rt_deref rt;
  if negb (rt_hcnt e =? 1) then ret () else
  acc ← link_break_self_gw rt;
  keys ← gets rt_keys;
  acc ← foreach keys acc (link_break_entry_gw rt);
  rerr_transmit acc.

(** ** Updates *)

(** [rt_table_update_inet_rt] of a gateway, with the recursive call [update]: the valid destinations
    in the Internet get this gateway. *)
Definition rt_table_update_inet_rt (update : Z → Z → Z → Z → Z → Z → Z → M ()) (gw life : Z) : M Z :=
  keys ← gets rt_keys;
  foreach keys 0 (λ k n,
    e ← rt_deref k;
    if has (rt_flags e) RT_INET_DEST && (rt_state e =? VALID) then
      g ← rt_deref gw;
      update k (rt_dest_addr g) (rt_hcnt g) 0 life VALID (rt_flags e) ;;
      ret (n + 1)
    else ret n).

(** [rt_table_update]; nothing in it bounds the depth of the recursion, [fuel] does. *)
Fixpoint update_rec (fuel : nat) (rt next hops seqno lifetime st flags : Z) : M () :=
  match fuel with
  | O => undefined OutOfFuel
  | S fuel =>
      let hops := u8 hops in
      e ← rt_deref rt;
      flags ← (if (rt_state e =? INVALID) && (st =? VALID) then
                 modify (λ s, set_rt_tbl
                   (set_num_active (u32 (num_active (rt_tbl s) + 1)) (rt_tbl s)) s) ;;
                 let flags := if has (rt_flags e) RT_REPAIR
                              then Z.land flags (Z.lnot RT_REPAIR) else flags in
                 nl_send_add_route_msg (rt_dest_addr e) next hops (rt_ifindex e) ;;
                 ret flags
               else
                 when (negb (rt_next_hop e =? 0) && negb (rt_next_hop e =? next))
                   (nl_send_add_route_msg (rt_dest_addr e) next hops (rt_ifindex e)) ;;
                 ret flags);
      when ((1 <? hops) && (rt_hcnt e =? 1))
        (rt_modify rt (λ e, set_rt_hello_cnt 0 (set_rt_last_hello_time tv_zero e)) ;;
         on_tq (timer_remove (HelloTimer rt)) ;;
         neighbor_link_break_gw rt) ;;
      rt_modify rt (λ e, set_rt_hcnt hops (set_rt_next_hop next
                          (set_rt_dest_seqno seqno (set_rt_flags flags e)))) ;;
      e ← rt_deref rt;
      when (has (rt_flags e) RT_GATEWAY) (rt_table_update_inet_rt (update_rec fuel) rt lifetime ;; ret ()) ;;
      set_handler (RtTimer rt) route_expire_timeout ;;
      e ← rt_deref rt;
      when (negb (has (rt_flags e) RT_INET_DEST)) (rt_table_update_timeout rt lifetime) ;;
      rt_modify rt (set_rt_state st) ;;
      release_packets rt
  end.

(** *** The recursion of an update *)

Lemma bind_ub {S A B} (m : CM S A) (f : A → CM S B) s a s1 u :
  m s = Ok a s1 → f a s1 = Ub u → bind m f s = Ub u.
Proof. unfold bind. by intros ->. Qed.

Lemma bind_ub_first {S A B} (m : CM S A) (f : A → CM S B) s u : m s = Ub u → bind m f s = Ub u.
Proof. unfold bind. by intros ->. Qed.

(** A destination in the Internet with a valid route. *)
Definition inet_valid (e : rt_table_t) : bool := has (rt_flags e) RT_INET_DEST && (rt_state e =? VALID).

(** [rt] is the only one in the table. *)
Definition only_inet (rt : Z) (s : state) : Prop :=
  ∀ j e, j ≠ rt → rt_lookup (rt_tbl s) j = Some e → inet_valid e = false.

(** The loop reaches the entry of the gateway itself. *)
Lemma inet_loop_reaches (update : Z → Z → Z → Z → Z → Z → Z → M ()) (rt life : Z) (e : rt_table_t) s :
  inv s → rt_lookup (rt_tbl s) rt = Some e → inet_valid e = true → only_inet rt s →
  update rt rt (rt_hcnt e) 0 life VALID (rt_flags e) s = Ub OutOfFuel →
  rt_table_update_inet_rt update rt life s = Ub OutOfFuel.
Proof.
  intros Hi He Hv Ho Hu. unfold rt_table_update_inet_rt. eapply bind_ub; [done|].
  assert (Hin : rt ∈ rt_keys s) by (apply elem_of_rt_keys; [apply Hi|by exists e]).
  assert (Hl : live_all s (rt_keys s)) by (apply Forall_forall; intros j; by apply elem_of_rt_keys, Hi).
  match goal with |- foreach _ _ ?f _ = _ => set (body := f) end.
  revert Hin Hl. generalize (rt_keys s) 0. induction l as [|k keys IH]; intros n Hin Hl; [by apply elem_of_nil in Hin|].
  apply Forall_cons in Hl as [[ek Hk] Hl]. cbn [foreach]. destruct (decide (k = rt)) as [->|Hne].
  - apply bind_ub_first. unfold body. eapply bind_ub; [unfold rt_deref; by rewrite He|].
    unfold inet_valid in Hv. rewrite Hv. eapply bind_ub; [unfold rt_deref; by rewrite He|].
    apply bind_ub_first. by rewrite (rt_lookup_dest _ _ _ He).
  - apply elem_of_cons in Hin as [E|Hin]; [by destruct Hne|]. eapply (bind_ub _ _ _ n s); [|by apply IH].
    unfold body, bind, rt_deref. rewrite Hk. specialize (Ho k ek Hne Hk). unfold inet_valid in Ho. by rewrite Ho.
Qed.

(** What an update has done when it comes to that loop. *)
Definition refreshed (next hops seqno flags : Z) (e : rt_table_t) : rt_table_t :=
  set_rt_hcnt (u8 hops) (set_rt_next_hop next (set_rt_dest_seqno seqno (set_rt_flags flags e))).

(** A change of the entry of [rt] in a run that returns. *)
Lemma eff_returns {A} k e e' (m : M A) s :
  eff k e e' m → total None [k] m → inv s → rt_lookup (rt_tbl s) k = Some e →
  ∃ a s', m s = Ok a s' ∧ inv s' ∧ updated k e' s s'.
Proof.
  intros Hm Ht Hi He. assert (Hl : live_all s [k]) by (constructor; [by exists e|constructor]).
  destruct (wp_returned buf_ub m _ s (total_returns None [k] m s Ht Hi Hl I) (Hm s Hi He)) as (a & s' & ? & ? & _ & ?).
  by exists a, s'.
Qed.

Lemma only_inet_updated rt e s s' : updated rt e s s' → only_inet rt s → only_inet rt s'.
Proof. intros [_ H] Ho j ej Hj. rewrite H by done. by apply Ho. Qed.

(** An update that never returns.  When the entry of a gateway is also that of a destination in
    the Internet, updating it updates it again, whatever the depth of the recursion. *)
Theorem gateway_update_endless (fuel : nat) (rt next hops seqno lifetime flags : Z) (e : rt_table_t) (s : state) :
  inv s → rt_lookup (rt_tbl s) rt = Some e → rt_state e = VALID → only_inet rt s →
  has flags RT_GATEWAY = true → has flags RT_INET_DEST = true → 0 <= seqno < 4294967296 →
  (1 <? u8 hops) && (rt_hcnt e =? 1) = false →
  update_rec fuel rt next hops seqno lifetime VALID flags s = Ub OutOfFuel.
Proof.
  revert next hops seqno e s. induction fuel as [|fuel IH]; intros next hops seqno e s Hi He Hv Ho Hg Hin Hs Hb; [done|].
  cbn [update_rec]. eapply bind_ub; [unfold rt_deref; by rewrite He|]. rewrite Hv. cbn [Z.eqb VALID INVALID andb].
  set (msg := when (negb _ && negb _) _).
  destruct (eff_returns rt e e msg s) as (? & s1 & R1 & Hi1 & Hk1); [|apply total_when, total_nl_add|done|done|].
  { subst msg. destruct (negb _ && negb _); cbn [when]; [apply eff_frame; [apply safe_nl_add|apply frames_nl_add]|apply eff_ret]. }
  eapply bind_ub; [unfold bind; by rewrite R1|]. rewrite Hb. eapply bind_ub; [done|].
  destruct (eff_returns rt e (refreshed next hops seqno flags e)
    (rt_modify rt (refreshed next hops seqno flags)) s1) as ([] & s2 & R2 & Hi2 & Hk2);
    [apply eff_modify; [done|entry]|apply total_rt_modify; elem|done|apply Hk1|].
  eapply bind_ub; [exact R2|]. eapply bind_ub; [unfold rt_deref; by rewrite (proj1 Hk2)|].
  change (rt_flags (refreshed next hops seqno flags e)) with flags. rewrite Hg. cbn [when]. do 2 apply bind_ub_first. eapply inet_loop_reaches; [done|apply Hk2| | |].
  - unfold inet_valid. cbn. by rewrite Hin, Hv.
  - by eapply only_inet_updated, only_inet_updated.
  - eapply IH; [done|apply Hk2|done|by eapply only_inet_updated, only_inet_updated|done|done|lia|].
    cbn. rewrite (u8_small (u8 hops)) by apply u8_range. lia.
Qed.

(** ** The RREP of a gateway *)

(** The answer of a gateway to a RREQ for [rreq_dest]; [true] when it has answered. *)
Definition rreq_gateway (kind : host_kind) (rev rreq_dest : Z) : M bool :=
  match kind with
  | HOST_INET =>
      modify (λ s, set_this_host (set_seqno (seqno_incr (seqno (this_host s))) (this_host s)) s) ;;
      h ← gets this_host;
      o ← gets opts;
      r ← rt_deref rev;
      my ← gets (λ s, dev_ipaddr (DEV_IFINDEX s (rt_ifindex r)));
      rrep_create 0 0 0 my (seqno h) (rt_dest_addr r) (active_route_timeout o) ;;
      ext ← rrep_add_ext RREP_INET_DEST_EXT RREP_SIZE (le_bytes32 rreq_dest);
      match ext with
      | None => undefined NullDeref
      | Some off =>
          elen ← send_load8 (off + 1);
          rrep_send (Some rev) None (RREP_SIZE + AODV_EXT_HDR_SIZE + elen) ;;
          ret true
      end
  | _ => ret false
  end.

Section rreq.
Context (update : Z → Z → Z → Z → Z → Z → Z → M ()).

Definition rreq_reverse_route_gw (rreq_orig ip_src rreq_new_hcnt rreq_orig_seqno ifindex : Z)
  : M (option Z) :=
  rev_rt ← rt_table_find rreq_orig;
  let life := u32 (PATH_DISCOVERY_TIME - 2 * rreq_new_hcnt * NODE_TRAVERSAL_TIME) in
  match rev_rt with
  | None =>
      rt_table_insert rreq_orig ip_src rreq_new_hcnt rreq_orig_seqno life VALID 0 ifindex
  | Some rev =>
      e ← rt_deref rev;
      when (rreq_accepts e rreq_orig_seqno rreq_new_hcnt)
        (update rev ip_src rreq_new_hcnt rreq_orig_seqno life VALID (rt_flags e)) ;;
      ret (Some rev)
  end.

(** [rreq_process]; [locate] is [locality]. *)
Definition rreq_process_gw (internet_gw_mode : bool) (locate : Z → Z → M host_kind)
    (rreqlen ip_src ip_ttl ifindex : Z) : M () :=
  rreq_dest ← recv_load32 8;
  rreq_orig ← recv_load32 16;
  raw_id ← recv_load32 4;
  raw_dseq ← recv_load32 12;
  raw_oseq ← recv_load32 20;
  hcnt ← recv_load8 3;
  let rreq_id := ntohl raw_id in
  let rreq_dest_seqno := ntohl raw_dseq in
  let rreq_orig_seqno := ntohl raw_oseq in
  let rreq_new_hcnt := hcnt + 1 in
  my ← gets (λ s, dev_ipaddr (DEV_IFINDEX s ifindex));
  if rreq_orig =? my then ret () else
  if rreqlen <? RREQ_SIZE then ret () else
  bl ← rreq_blacklist_find ip_src;
  if bool_decide (is_Some bl) then ret () else
  rec ← rreq_record_find rreq_orig rreq_id;
  if bool_decide (is_Some rec) then ret () else
  rreq_record_insert rreq_orig rreq_id ;;
  ext_loop ext_fuel RREQ_SIZE rreqlen 0 RREQ_SIZE ;;
  rev_rt ← rreq_reverse_route_gw rreq_orig ip_src rreq_new_hcnt rreq_orig_seqno ifindex;
  match rev_rt with
  | None => undefined NullDeref
  | Some rev =>
      answered ← (if internet_gw_mode
                  then kind ← locate rreq_dest ifindex; rreq_gateway kind rev rreq_dest
                  else ret false);
      if answered then ret () else
      if rreq_dest =? my then rreq_reply_as_dest rev rreq_dest_seqno
      else
        b1 ← recv_load8 1;
        rreq_intermediate rev rreq_dest rreqlen ip_ttl rreq_dest_seqno b1
  end.
End rreq.

(** The loop of [rrep_process] over the extensions: the destination in the Internet, if any. *)
Fixpoint inet_ext_loop (fuel : nat) (len extlen off : Z) (inet : option Z) : M (option Z) :=
  match fuel with
  | O => undefined OutOfFuel
  | S fuel =>
      if u32 (len - extlen) <=? RREP_SIZE then ret inet else
      type ← recv_load8 off;
      elen ← recv_load8 (off + 1);
      inet ← (if (type =? RREP_INET_DEST_EXT) && (elen =? 4)
              then d ← recv_load32 (off + AODV_EXT_HDR_SIZE); ret (Some d) else ret inet);
      inet_ext_loop fuel len (u32 (extlen + (AODV_EXT_HDR_SIZE + elen)))
        (off + AODV_EXT_HDR_SIZE + elen) inet
  end.

Lemma ext_fuel_two : ∃ f, ext_fuel = S (S f).
Proof. exists (Z.to_nat 810). by vm_compute. Qed.

(** The message of a gateway: the RREP and the extension. *)
Definition INET_RREP_SIZE : Z := RREP_SIZE + AODV_EXT_HDR_SIZE + 4.

(** The extension as it is stored. *)
Lemma add_inet_ext s dest :
  inv s → ∃ s', rrep_add_ext RREP_INET_DEST_EXT RREP_SIZE (le_bytes32 dest) s = Ok (Some RREP_SIZE) s' ∧
    load8 (send_buf s') RREP_SIZE = Some RREP_INET_DEST_EXT ∧ load8 (send_buf s') (RREP_SIZE + 1) = Some 4 ∧
    load32 (send_buf s') (RREP_SIZE + AODV_EXT_HDR_SIZE) = Some (u32 dest) ∧
    ∀ i, i < RREP_SIZE → load8 (send_buf s') i = load8 (send_buf s) i.
Proof.
  intros Hi. pose proof (inv_send _ Hi) as Hl. unfold rrep_add_ext, add_ext, bind, send_store8, send_store.
  change (RREP_SIZE <? RREP_SIZE) with false. cbv iota beta. change (Z.to_nat SEND_BUF_SIZE) with 812%nat in Hl.
  destruct (store8 (send_buf s) RREP_SIZE RREP_INET_DEST_EXT) as [b1|] eqn:E1; [|by rewrite store8_Some in E1 by (unfold RREP_SIZE; lia)].
  pose proof (store8_length _ _ _ _ E1) as L1. cbn [send_buf set_send_buf].
  change (Z.of_nat (length (le_bytes32 dest))) with 4.
  destruct (store8 b1 (RREP_SIZE + 1) 4) as [b2|] eqn:E2; [|by rewrite store8_Some in E2 by (unfold RREP_SIZE; lia)].
  pose proof (store8_length _ _ _ _ E2) as L2. cbn [send_buf set_send_buf].
  destruct (store32_is_Some b2 (RREP_SIZE + AODV_EXT_HDR_SIZE) dest) as [b3 E3]; [done|unfold RREP_SIZE, AODV_EXT_HDR_SIZE; lia|].
  pose proof E3 as E4. unfold store32 in E4. rewrite E4. eexists. split; [reflexivity|]. cbn [send_buf set_send_buf].
  assert (H3 : ∀ i, i < RREP_SIZE + AODV_EXT_HDR_SIZE → load8 b3 i = load8 b2 i) by (intros i Hi'; eapply load8_store32_ne; [done|by left]).
  split_and!.
  - rewrite H3 by done. rewrite (load8_store8_ne _ _ _ _ _ E2) by done. by rewrite (load8_store8_eq _ _ _ _ E1).
  - rewrite H3 by done. by rewrite (load8_store8_eq _ _ _ _ E2).
  - by apply load32_store32_eq in E3.
  - intros i Hlt. rewrite H3 by (unfold AODV_EXT_HDR_SIZE; lia). rewrite (load8_store8_ne _ _ _ _ _ E2) by lia.
    by rewrite (load8_store8_ne _ _ _ _ _ E1) by lia.
Qed.

(** C35: the destination that a gateway answers for comes back: the extension that [rrep_add_ext]
    appends to the RREP, which it leaves as it is, is the one the loop of [rrep_process] finds in a
    receive buffer with the bytes of the message. *)
Theorem inet_ext_roundtrip (s : state) (dest : Z) :
  inv s → 0 <= dest < 2 ^ 32 →
  ∃ s', rrep_add_ext RREP_INET_DEST_EXT RREP_SIZE (le_bytes32 dest) s = Ok (Some RREP_SIZE) s' ∧
    (∀ i, i < RREP_SIZE → load8 (send_buf s') i = load8 (send_buf s) i) ∧
    ∀ r, (∀ i, 0 <= i < INET_RREP_SIZE → load8 (recv_buf r) i = load8 (send_buf s') i) →
      inet_ext_loop ext_fuel INET_RREP_SIZE 0 RREP_SIZE None r = Ok (Some dest) r.
Proof.
  intros Hi Hd. destruct (add_inet_ext s dest Hi) as (s' & R & Ht & Hn & Hv & Ho). exists s'. split_and!; [done|done|].
  intros r Hr. destruct ext_fuel_two as [f ->]. cbn [inet_ext_loop].
  change (u32 (INET_RREP_SIZE - 0) <=? RREP_SIZE) with false. cbv iota.
  assert (L8 : ∀ i v, 0 <= i < INET_RREP_SIZE → load8 (send_buf s') i = Some v → recv_load8 i r = Ok v r)
    by (intros i v Hb E; unfold recv_load8; by rewrite Hr, E).
  rewrite (bind_ok _ _ _ _ _ (L8 RREP_SIZE _ ltac:(done) Ht)), (bind_ok _ _ _ _ _ (L8 (RREP_SIZE + 1) _ ltac:(done) Hn)).
  change ((RREP_INET_DEST_EXT =? RREP_INET_DEST_EXT) && (4 =? 4)) with true. cbv iota.
  assert (L32 : recv_load32 (RREP_SIZE + AODV_EXT_HDR_SIZE) r = Ok dest r).
  { unfold recv_load32. rewrite (load32_ext (send_buf s')), Hv by (intros i Hb; apply Hr; unfold INET_RREP_SIZE, RREP_SIZE, AODV_EXT_HDR_SIZE in *; lia).
    by rewrite u32_small. }
  unfold bind. rewrite L32. reflexivity.
Qed.

Section rrep.
Context (update : Z → Z → Z → Z → Z → Z → Z → M ()).

(** The entry for a destination in the Internet. *)
Definition install_inet (inet_dest rrep_dest hcnt life ifindex : Z) : M () :=
  inet_rt ← rt_table_find inet_dest;
  match inet_rt with
  | None => rt_table_insert inet_dest rrep_dest hcnt 0 life VALID RT_INET_DEST ifindex ;; ret ()
  | Some k =>
      e ← rt_deref k;
      when ((rt_state e =? INVALID) || (hcnt <? rt_hcnt e))
        (update k rrep_dest hcnt 0 life VALID (Z.lor RT_INET_DEST (rt_flags e)))
  end.

(** The end of [rrep_process]. *)
Definition rrep_finish_gw (fwd : Z) (rev_rt : option Z) (pre_repair_hcnt pre_repair_flags : Z)
    (for_us : bool) (rreplen ip_ttl : Z) (install : M ()) : M () :=
  b1 ← recv_load8 1;
  when (Z.testbit b1 6)
    (rrep_ack_create ;;
     f ← rt_deref fwd;
     dev ← gets (λ s, ifindex2devindex s (rt_ifindex f));
     aodv_socket_send (rt_next_hop f) NEXT_HOP_WAIT MAXTTL dev ;;
     recv_store (λ b, store8 b 1 (Z.clearbit b1 6))) ;;
  (if for_us then install ;; rrep_repair_rerr fwd pre_repair_hcnt pre_repair_flags
   else match rev_rt with
        | None => ret ()
        | Some rev =>
            valid ← rt_is_valid rev;
            when valid (rrep_forward rreplen (Some rev) (Some fwd) (ip_ttl - 1))
        end) ;;
  hello_start_if_optimized.

Definition rrep_process_gw (rreplen ip_src ip_ttl ifindex : Z) : M () :=
  rrep_dest ← recv_load32 4;
  rrep_orig ← recv_load32 12;
  raw_seqno ← recv_load32 8;
  raw_life ← recv_load32 16;
  hcnt ← recv_load8 3;
  let rrep_seqno := ntohl raw_seqno in
  let rrep_lifetime := ntohl raw_life in
  let rrep_new_hcnt := hcnt + 1 in
  if rreplen <? RREP_SIZE then ret () else
  my ← gets (λ s, dev_ipaddr (DEV_IFINDEX s ifindex));
  if rrep_dest =? my then ret () else
  inet ← inet_ext_loop ext_fuel rreplen 0 RREP_SIZE None;
  let rt_flags_ := match inet with Some _ => RT_GATEWAY | None => 0 end in
  let install := match inet with
                 | Some d => install_inet d rrep_dest rrep_new_hcnt rrep_lifetime ifindex
                 | None => ret () end in
  fwd_rt ← rt_table_find rrep_dest;
  rev_rt ← rt_table_find rrep_orig;
  let finish fwd pre_repair_hcnt pre_repair_flags :=
    rrep_finish_gw fwd rev_rt pre_repair_hcnt pre_repair_flags (rrep_orig =? my) rreplen ip_ttl install in
  match fwd_rt with
  | None =>
      k ← rt_table_insert rrep_dest ip_src rrep_new_hcnt rrep_seqno rrep_lifetime
            VALID rt_flags_ ifindex;
      match k with
      | None => undefined NullDeref
      | Some fwd => finish fwd 0 0
      end
  | Some fwd =>
      e ← rt_deref fwd;
      if rrep_accepts e rrep_seqno rrep_new_hcnt then
        update fwd ip_src rrep_new_hcnt rrep_seqno rrep_lifetime VALID
          (Z.lor rt_flags_ (rt_flags e)) ;;
        finish fwd (rt_hcnt e) (u8 (rt_flags e))
      else ret ()
  end.
End rrep.
