(* ===== verification/NoGateway.v ===== *)
(** * Builds with and without the gateway code

    As long as no gateway is known the functions of Gateway.v do what those of the daemon do, so
    that the theorems on the daemon are about a build with [CONFIG_GATEWAY] too. *)

From S2P Require Import Prelude.
From S2P Require Import Params.
From S2P Require Import Bytes.
From S2P Require Import TimerQueue.
From S2P Require Import State.
From S2P Require Import Frame.
From S2P Require Import Nl.
From S2P Require Import RtTable.
From S2P Require Import Inv.
From S2P Require Import Socket.
From S2P Require Import Rerr.
From S2P Require Import RtUpdate.
From S2P Require Import Rrep.
From S2P Require Import Rreq.
From S2P Require Import Gateway.

#[local] Open Scope cm_scope.

(** No entry is that of a gateway. *)
Definition no_gw (e : rt_table_t) : Prop := has (rt_flags e) RT_GATEWAY = false.
Definition gw_free (s : state) : Prop := Forall (Forall no_gw) (entries s).

(** [agree m m']: run without gateways, [m] and [m'] do the same and bring none. *)
Definition agree {A} (m m' : M A) : Prop :=
  ∀ s, gw_free s → m s = m' s ∧ ∀ a s', m' s = Ok a s' → gw_free s'.

Lemma agree_bind {A B} (m m' : M A) (f f' : A → M B) :
  agree m m' → (∀ a, agree (f a) (f' a)) → agree (bind m f) (bind m' f').
Proof.
  intros Hm Hf s Hs. destruct (Hm s Hs) as [E H]. unfold bind. rewrite E.
  destruct (m' s) as [a s1| |]; [|done|done]. by apply Hf, (H a).
Qed.

Lemma agree_frame {A} (m : M A) : frames entries m → agree m m.
Proof. intros Hf s Hs. split; [done|]. intros a s' R. unfold gw_free. by rewrite (Hf _ _ _ R). Qed.

(** The entry that is read is not a gateway's. *)
Lemma deref_no_gw k s e s' : gw_free s → rt_deref k s = Ok e s' → no_gw e.
Proof.
  intros Hs. unfold rt_deref. destruct (rt_lookup (rt_tbl s) k) as [e0|] eqn:He; [|done]. intros [= -> _].
  apply search_Some in He as [Hin _]. unfold gw_free in Hs. rewrite Forall_forall in Hs.
  unfold bucket in Hin. destruct (tbl (rt_tbl s) !! hash_index k) as [b|] eqn:Hb; [|by apply elem_of_nil in Hin].
  cbn in Hin. assert (Hb' : Forall no_gw b) by by eapply Hs, list_elem_of_lookup_2. rewrite Forall_forall in Hb'. by apply Hb'.
Qed.

Lemma agree_deref {B} k (f f' : rt_table_t → M B) :
  (∀ e, no_gw e → agree (f e) (f' e)) → agree (bind (rt_deref k) f) (bind (rt_deref k) f').
Proof.
  intros Hf s Hs. unfold bind. destruct (rt_deref k s) as [e s1| |] eqn:R; [|done|done].
  pose proof (frames_rt_deref entries k s e s1 R) as E.
  apply Hf; [by eapply deref_no_gw|unfold gw_free; by rewrite E].
Qed.

Lemma no_gw_modify_first p f l : (∀ e, no_gw e → no_gw (f e)) → Forall no_gw l → Forall no_gw (modify_first p f l).
Proof.
  intros Hf. induction 1 as [|e l He Hl IH]; cbn [modify_first]; [constructor|].
  destruct (p e); constructor; auto.
Qed.

Lemma agree_modify k f : (∀ e, no_gw e → no_gw (f e)) → agree (rt_modify k f) (rt_modify k f).
Proof.
  intros Hf s Hs. split; [done|]. unfold rt_modify, bind, rt_deref, modify.
  destruct (rt_lookup (rt_tbl s) k); [|done]. intros _ s' [= _ <-]. unfold gw_free, entries in *. cbn.
  apply Forall_insert; [done|]. apply no_gw_modify_first; [done|]. unfold bucket.
  destruct (tbl (rt_tbl s) !! hash_index k) as [b|] eqn:Hb; [|constructor]. by eapply Forall_lookup_1 in Hb.
Qed.

Lemma agree_foreach {A B} (l : list A) (acc : B) body body' :
  (∀ a b, agree (body a b) (body' a b)) → agree (foreach l acc body) (foreach l acc body').
Proof.
  intros Hb. revert acc. induction l as [|x l IH]; intros acc; cbn [foreach].
  - apply agree_frame, frames_ret.
  - apply agree_bind; [apply Hb|intros; apply IH].
Qed.

Lemma agree_when b m m' : agree m m' → agree (when b m) (when b m').
Proof. intros H. destruct b; [done|apply agree_frame, frames_ret]. Qed.

Lemma agree_after {A} (m1 m2 m3 : M A) : (∀ s, gw_free s → m1 s = m2 s) → agree m2 m3 → agree m1 m3.
Proof. intros E H s Hs. rewrite E by done. by apply H. Qed.

(** Operations that leave the table alone. *)
Lemma frames_entries_of {A} (m : M A) : frames rt_tbl m → frames entries m.
Proof. intros Hf s a s' R. unfold entries. by rewrite (Hf _ _ _ R). Qed.

Ltac same :=
  lazymatch goal with
  | |- agree (bind (rt_deref _) _) _ => apply agree_deref; intros ? ?
  | |- agree (bind _ _) _ => apply agree_bind; [|intros ?]
  | |- agree (foreach _ _ _) _ => apply agree_foreach; intros ? ?
  | |- agree (when _ _) _ => apply agree_when
  | |- agree (if ?b then _ else _) _ => destruct b eqn:?
  | |- agree (match ?x with _ => _ end) _ => destruct x
  | |- agree (rt_modify _ _) _ => apply agree_modify; try done
  | |- agree (precursor_list_destroy _) _ => apply agree_modify; done
  | |- agree _ _ => first [solve [eauto 3 with agree] | apply agree_frame; solve [frame_go | apply frames_entries_of; frame_go] ]
  end.
Ltac sames := repeat same.
Create HintDb agree.

(** ** Invalidation *)

(** The parts of [rt_table_invalidate]. *)
Lemma invalidate_parts k s :
  rt_table_invalidate k s
  = (go ← invalidate_front k; if negb go then ret (-1) else invalidate_end k ;; ret 0) s.
Proof.
  unfold rt_table_invalidate, invalidate_front, invalidate_end, bind, gets.
  destruct (gettimeofday s) as [? s0| |]; [|done|done].
  unfold rt_deref at 1 3. destruct (rt_lookup (rt_tbl s0) k) as [e|]; [|done].
  destruct (rt_state e =? INVALID); [done|].
  do 3 (destruct (on_tq _ _) as [? ?s1| |]; [|done|done]).
  destruct (rt_modify _ _ _) as [? ?s1| |]; [|done|done]. cbn [modify].
  do 3 (destruct (rt_modify _ _ _) as [? ?s1| |]; [|done|done]).
  destruct (rt_deref k _) as [e1 s9| |] eqn:R; [|done|done].
  destruct (nl_send_del_route_msg _ _ _ _) as [? s10| |] eqn:Rn; [|done|done].
  assert (Rd : rt_deref k s10 = Ok e1 s10).
  { unfold rt_deref in *. rewrite (frames_nl_del _ _ _ _ _ _ Rn).
    match type of R with context [rt_lookup ?t k] => destruct (rt_lookup t k) eqn:E end; [|done]. injection R as -> <-. by rewrite E. }
  cbn [negb ret]. by rewrite Rd.
Qed.

Lemma frames_entries_invalidate k : ∀ s, gw_free s → ∀ a s', rt_table_invalidate k s = Ok a s' → gw_free s'.
Proof.
  intros s Hs. assert (H : agree (rt_table_invalidate k) (rt_table_invalidate k)); [|apply (H s Hs)].
  unfold rt_table_invalidate. sames.
Qed.

Lemma invalidate_front_free k : agree (invalidate_front k) (invalidate_front k).
Proof. unfold invalidate_front. sames. Qed.

Lemma agree_invalidate k : agree (rt_table_invalidate_gw k) (rt_table_invalidate k).
Proof.
  intros s Hs. split; [|by apply frames_entries_invalidate]. rewrite invalidate_parts.
  unfold rt_table_invalidate_gw. cbn [bind gets]. cbn [invalidate_rec].
  apply agree_bind; [apply invalidate_front_free| |done]. intros go. destruct (negb go); [sames|].
  eapply (agree_after _ (rt_deref k ;; invalidate_end k ;; ret 0)).
  - intros s1 Hs1. apply agree_deref; [|done]. intros e He. unfold no_gw in He. rewrite He. cbn [when].
    unfold invalidate_end. change (bind (ret ()) ?f) with (f ()). sames.
  - intros s1 Hs1. split.
    + unfold invalidate_end, bind, rt_deref. cbv beta. by destruct (rt_lookup (rt_tbl s1) k) eqn:E; rewrite ?E.
    + apply (agree_bind (invalidate_end k) (invalidate_end k) (λ _, ret 0)); [|intros; sames|done].
      unfold invalidate_end. sames.
Qed.
#[export] Hint Resolve agree_invalidate : agree.

(** ** Link breaks *)

Lemma no_gw_repair e : no_gw e → no_gw (set_rt_flags (Z.lor (rt_flags e) RT_REPAIR) e).
Proof. unfold no_gw, has. cbn. by rewrite Z.land_lor_distr_l, Z.lor_0_r. Qed.

Lemma agree_link_break k : agree (neighbor_link_break_gw k) (neighbor_link_break k).
Proof.
  unfold neighbor_link_break_gw, neighbor_link_break, link_break_self_gw, link_break_self,
    link_break_entry_gw, link_break_entry.
  sames. by apply no_gw_repair.
Qed.
#[export] Hint Resolve agree_link_break : agree.

(** ** Updates *)

(** The entry after a change of it. *)
Lemma rt_modify_deref k f s s' :
  (∀ e, rt_dest_addr (f e) = rt_dest_addr e) → rt_modify k f s = Ok () s' → ∃ e, rt_deref k s' = Ok (f e) s'.
Proof.
  intros Hf. unfold rt_modify, bind, rt_deref, modify.
  destruct (rt_lookup (rt_tbl s) k) as [e|] eqn:He; [|done]. intros [= <-]. exists e. cbn.
  assert (H : rt_lookup (tbl_modify (rt_tbl s) k f) k = Some (f e)); [|by rewrite H].
  unfold rt_lookup, bucket, tbl_modify in *. cbn. destruct (tbl (rt_tbl s) !! hash_index k) as [b|] eqn:Hb; [|done].
  rewrite list_lookup_insert_eq by by eapply lookup_lt_Some. cbn in *.
  unfold bucket. rewrite Hb. apply search_modify_first_eq; [|done]. intros e'. by rewrite Hf.
Qed.

(** The flags an update stores. *)
Lemma has_without_repair flags : has flags RT_GATEWAY = false → has (Z.land flags (Z.lnot RT_REPAIR)) RT_GATEWAY = false.
Proof. unfold has. intros H. by rewrite <- Z.land_assoc. Qed.

Lemma agree_bind_result {A B} (P : A → Prop) (m m' : M A) (f f' : A → M B) :
  agree m m' → (∀ s a s', m' s = Ok a s' → P a) → (∀ a, P a → agree (f a) (f' a)) → agree (bind m f) (bind m' f').
Proof.
  intros Hm HP Hf s Hs. destruct (Hm s Hs) as [E H]. unfold bind. rewrite E.
  destruct (m' s) as [a s1| |] eqn:R; [|done|done]. eapply Hf; [by eapply HP|by eapply (H a)].
Qed.

(** The test for a gateway in an update fails. *)
Lemma agree_gw_test k f X (K K' : M ()) :
  (∀ e, rt_dest_addr (f e) = rt_dest_addr e) → (∀ e, no_gw (f e)) → agree K K' →
  agree (rt_modify k f ;; e ← rt_deref k; when (has (rt_flags e) RT_GATEWAY) X ;; K) (rt_modify k f ;; K').
Proof.
  intros Hd Hf HK s Hs. destruct (agree_modify k f) with (s := s) as [_ H]; [done|done|].
  unfold bind at 1. unfold bind at 3. unfold bind at 3.
  destruct (rt_modify k f s) as [[] s1| |] eqn:R; [|done|done].
  destruct (rt_modify_deref k f s s1 Hd R) as [e He]. unfold bind at 1. rewrite He.
  specialize (Hf e). unfold no_gw in Hf. rewrite Hf. by apply HK, (H ()).
Qed.

Lemma agree_update fuel rt next hops seqno life st flags :
  has flags RT_GATEWAY = false →
  agree (update_rec (S fuel) rt next hops seqno life st flags) (rt_table_update rt next hops seqno life st flags).
Proof.
  intros Hf. cbn [update_rec]. unfold rt_table_update. apply agree_deref. intros e He.
  apply (agree_bind_result (λ fl, has fl RT_GATEWAY = false)).
  - sames.
  - intros s fl s'. destruct (_ && _).
    + intros (? & ? & _ & (? & ? & _ & [= <- _])%bind_inv)%bind_inv.
      destruct (has (rt_flags e) RT_REPAIR); [by apply has_without_repair|done].
    + intros (? & ? & _ & [= <- _])%bind_inv. done.
  - intros fl Hfl. apply agree_bind; [sames|intros _]. apply agree_gw_test; [done|done|]. sames.
Qed.

(** ** Received RREPs *)

(** The end of a handler may add what it likes. *)
Definition alike {A} (m m' : M A) : Prop := ∀ s, gw_free s → m s = m' s.

Lemma alike_bind {A B} (m m' : M A) (f f' : A → M B) :
  agree m m' → (∀ a, alike (f a) (f' a)) → alike (bind m f) (bind m' f').
Proof.
  intros Hm Hf s Hs. destruct (Hm s Hs) as [E H]. unfold bind. rewrite E.
  destruct (m' s) as [a s1| |]; [|done|done]. by apply Hf, (H a).
Qed.

Lemma alike_deref {B} k (f f' : rt_table_t → M B) :
  (∀ e, no_gw e → alike (f e) (f' e)) → alike (bind (rt_deref k) f) (bind (rt_deref k) f').
Proof.
  intros Hf s Hs. unfold bind. destruct (rt_deref k s) as [e s1| |] eqn:R; [|done|done].
  pose proof (frames_rt_deref entries k s e s1 R) as E.
  apply Hf; [by eapply deref_no_gw|unfold gw_free; by rewrite E].
Qed.

Lemma alike_rrep fuel src ttl i len :
  len <= RREP_SIZE →
  alike (rrep_process_gw (update_rec (S fuel)) len src ttl i) (rrep_process len src ttl i).
Proof.
  intros Hl. unfold rrep_process_gw, rrep_process. do 5 (apply alike_bind; [sames|intros ?]).
  destruct (len <? RREP_SIZE) eqn:Hlt; [done|]. apply alike_bind; [sames|intros my]. destruct (_ =? my); [done|].
  assert (Hlen : len = RREP_SIZE) by lia. subst len. cbv zeta.
  change (inet_ext_loop ext_fuel RREP_SIZE 0 RREP_SIZE None) with (@ret state _ (@None Z)).
  change (ext_loop ext_fuel RREP_SIZE RREP_SIZE 0 RREP_SIZE) with (@ret state _ ()).
  change (bind (ret (@None Z)) ?f) with (f None). change (bind (ret ()) ?f) with (f ()). cbv beta iota.
  do 2 (apply alike_bind; [sames|intros ?]). case_match; [|done].
  apply alike_deref. intros e He. destruct (rrep_accepts _ _ _); [|done].
  rewrite Z.lor_0_l. apply alike_bind; [by apply agree_update|]. done.
Qed.

(** ** Received RREQs *)

Lemma entries_ext_loop fuel : ∀ size len extlen off, frames entries (ext_loop fuel size len extlen off).
Proof.
  induction fuel as [|fuel IH]; intros; cbn [ext_loop]; [apply frames_undefined|].
  destruct (_ <=? _); [apply frames_ret|]. do 2 (apply frames_bind; [frame_go|intros ?]). apply IH.
Qed.

Lemma alike_reverse_route fuel o src h q i :
  alike (rreq_reverse_route_gw (update_rec (S fuel)) o src h q i) (rreq_reverse_route o src h q i).
Proof.
  unfold rreq_reverse_route_gw, rreq_reverse_route. apply alike_bind; [sames|]. intros [rev|]; [|done].
  apply alike_deref. intros e He. apply alike_bind; [|done]. apply agree_when. by apply agree_update.
Qed.

(** A last step whose effect on the table does not matter. *)
Lemma alike_last {A B} (m m' : M A) (f f' : A → M B) :
  alike m m' → (∀ a s, f a s = f' a s) → alike (bind m f) (bind m' f').
Proof. intros Hm Hf s Hs. unfold bind. rewrite Hm by done. by destruct (m' s). Qed.

Lemma alike_rreq fuel locate len src ttl i :
  alike (rreq_process_gw (update_rec (S fuel)) false locate len src ttl i) (rreq_process len src ttl i).
Proof.
  unfold rreq_process_gw, rreq_process. do 6 (apply alike_bind; [sames|intros ?]). cbv zeta.
  apply alike_bind; [sames|intros my]. destruct (_ =? my); [done|]. destruct (len <? RREQ_SIZE); [done|].
  apply alike_bind; [unfold rreq_blacklist_find; sames|intros bl]. destruct (bool_decide _); [done|].
  apply alike_bind; [unfold rreq_record_find; sames|intros rec]. destruct (bool_decide _); [done|].
  apply alike_bind; [unfold rreq_record_insert, rreq_record_find; sames|intros ?].
  apply alike_bind; [apply agree_frame, entries_ext_loop|intros ?].
  apply alike_last; [apply alike_reverse_route|]. by intros [rev|].
Qed.

(** C32: builds with and without [CONFIG_GATEWAY] do the same as long as no gateway is in the
    routing table and the node is not a gateway itself ([internet_gw_mode] off): when a route is
    invalidated, when a link breaks, when a route is updated with flags that do not make it a
    gateway (the recursion is one call deep), when a RREP without extensions is received and when a
    RREQ is. *)
Theorem same_without_gateways (s : state) (rt : Z) (fuel : nat) :
  gw_free s →
  rt_table_invalidate_gw rt s = rt_table_invalidate rt s ∧
  neighbor_link_break_gw rt s = neighbor_link_break rt s ∧
  (∀ next hops seqno life st flags, has flags RT_GATEWAY = false →
     update_rec (S fuel) rt next hops seqno life st flags s = rt_table_update rt next hops seqno life st flags s) ∧
  (∀ len ip_src ip_ttl ifindex, len <= RREP_SIZE →
     rrep_process_gw (update_rec (S fuel)) len ip_src ip_ttl ifindex s = rrep_process len ip_src ip_ttl ifindex s) ∧
  (∀ locate len ip_src ip_ttl ifindex,
     rreq_process_gw (update_rec (S fuel)) false locate len ip_src ip_ttl ifindex s = rreq_process len ip_src ip_ttl ifindex s).
Proof.
  intros Hs. split_and!.
  - by apply agree_invalidate.
  - by apply agree_link_break.
  - intros. by apply agree_update.
  - intros. by apply alike_rrep.
  - intros. by apply alike_rreq.
Qed.
