(* ===== verification/GatewayScenarios.v ===== *)
(** * Runs with gateways

    The node of Scenarios.v with a gateway, 1007, and destinations in the Internet behind it. *)

From S2P Require Import Prelude.
From S2P Require Import Params.
From S2P Require Import Bytes.
From S2P Require Import State.
From S2P Require Import Frame.
From S2P Require Import RtTable.
From S2P Require Import Inv.
From S2P Require Import Rerr.
From S2P Require Import RtUpdate.
From S2P Require Import Rrep.
From S2P Require Import Scenarios.
From S2P Require Import Gateway.
From S2P Require Import NoGateway.

#[local] Open Scope cm_scope.

(** ** States *)

Definition with_route (d next hops sq flags : Z) (s : state) : state :=
  final (rt_table_insert d next hops sq 3000 VALID flags 3) s.

Lemma inv_with_route d next hops sq flags s :
  inv s → rt_lookup (rt_tbl s) d = None → 0 <= sq < 4294967296 →
  ran (rt_table_insert d next hops sq 3000 VALID flags 3) s = true → inv (with_route d next hops sq flags s).
Proof.
  intros Hi Hd Hs Hr. destruct (final_ok _ _ Hr) as [a Ha].
  by destruct (wp_ok _ _ _ _ _ _ (rt_table_insert_new s d next hops sq 3000 VALID flags 3 Hi
    ltac:(intros [? E]; by rewrite Hd in E) Hs (or_intror eq_refl)) Ha) as (_ & ? & _).
Qed.

(** The gateway 1007 and 5000 behind it. *)
Definition gw1 : state := with_route 1007 1001 2 5 RT_GATEWAY st2.
Definition gw2 : state := with_route 5000 1007 2 0 RT_INET_DEST gw1.

Lemma inv_gw1 : inv gw1.
Proof. apply inv_with_route; [apply inv2|by_eval|lia|by_eval]. Qed.
Lemma inv_gw2 : inv gw2.
Proof. apply inv_with_route; [apply inv_gw1|by_eval|lia|by_eval]. Qed.

(** ** The theorems at these states *)

(** 5000 is lost with its gateway. *)
Lemma gateway_lost_witness :
  let s' := final (rt_table_invalidate_gw 1007) gw2 in
  rt_state <$> rt_lookup (rt_tbl s') 1007 = Some INVALID ∧ rt_state <$> rt_lookup (rt_tbl s') 5000 ≠ Some VALID.
Proof.
  destruct (rt_lookup (rt_tbl gw2) 1007) as [e|] eqn:He; [|vm_compute in He; discriminate].
  assert (Hv : rt_state e = VALID) by (vm_compute in He; injection He as <-; by_eval).
  assert (Hg : has (rt_flags e) RT_GATEWAY = true) by (vm_compute in He; injection He as <-; by_eval).
  assert (Hr : ran (rt_table_invalidate_gw 1007) gw2 = true) by by_eval.
  pose proof (gateway_lost gw2 1007 e inv_gw2 He Hv) as Hw.
  pose proof (wp_final _ _ _ _ Hr Hw) as Hf.
  clear Hw. destruct Hf as [a Hf]. destruct Hf as [_ Hf]. destruct Hf as (_ & _ & Hk & Ho & Hb).
  cbv zeta. split; [rewrite Hk; reflexivity|].
  assert (He5 : ∃ e5, rt_lookup (rt_tbl gw2) 5000 = Some e5 ∧ has (rt_flags e5) RT_INET_DEST = true ∧ rt_next_hop e5 = 1007)
    by (eexists; split; [by_eval|split; reflexivity]).
  destruct He5 as (e5 & H5 & H5f).
  destruct (Ho 5000 e5 ltac:(lia) H5) as [E|(_ & _ & E)]; rewrite E; simpl; intros [= Hv5].
  by apply (Hb Hg 5000 e5 E Hv5 (proj1 H5f)), H5f.
Defined.

(** The answer for 5000 as another node finds it. *)
Definition received (b : list Z) (s : state) : state := set_recv_buf b s.

Lemma inet_ext_roundtrip_witness :
  ∃ s', rrep_add_ext RREP_INET_DEST_EXT RREP_SIZE (le_bytes32 5000) st2 = Ok (Some RREP_SIZE) s' ∧
    inet_ext_loop ext_fuel INET_RREP_SIZE 0 RREP_SIZE None (received (send_buf s') st1) = Ok (Some 5000) (received (send_buf s') st1).
Proof.
  destruct (inet_ext_roundtrip st2 5000 inv2 ltac:(lia)) as (s' & R & _ & H). exists s'.
  split; [exact R|]. apply H. reflexivity.
Defined.

(** Without a gateway: the neighbour 1001 gets lost. *)
Lemma same_without_gateways_witness :
  gw_free st2 ∧ neighbor_link_break_gw 1001 st2 = neighbor_link_break 1001 st2 ∧
  rt_state <$> rt_lookup (rt_tbl (final (neighbor_link_break_gw 1001) st2)) 1005 = Some INVALID.
Proof.
  assert (Hs : gw_free st2) by (vm_compute; repeat constructor).
  destruct (same_without_gateways st2 1001 0 Hs) as (_ & E & _). split; [exact Hs|]. split; [exact E|].
  unfold final. rewrite E. by_eval.
Defined.

(** ** A gateway that is a destination in the Internet *)

(** 5000 sends a RREP as a gateway for 6000. *)
Definition gw_rrep : list Z := rrep_bytes 1 5000 9 1000 3000 ++ [RREP_INET_DEST_EXT; 4] ++ le_bytes32 6000.
Definition gw3 : state := set_recv_buf (gw_rrep ++ replicate (Z.to_nat RECV_BUF_SIZE - length gw_rrep) 0) gw2.

Lemma inv_gw3 : inv gw3.
Proof.
  assert (Hf : ∀ s b, inv s → length b = Z.to_nat RECV_BUF_SIZE → bytes_ok b → inv (set_recv_buf b s))
    by (intros s b [] ? ?; by split).
  apply Hf; [apply inv_gw2|by_eval|unfold bytes_ok; vm_compute; repeat constructor; discriminate].
Qed.

Definition both : Z := Z.lor RT_GATEWAY RT_INET_DEST.

Lemma only_inet_eval rt s :
  forallb (λ e, (rt_dest_addr e =? rt) || negb (inet_valid e)) (concat (entries s)) = true → only_inet rt s.
Proof.
  rewrite forallb_forall. intros H j e Hj He. pose proof (rt_lookup_dest _ _ _ He) as Hd.
  specialize (H e). rewrite Hd, (proj2 (Z.eqb_neq _ _) Hj) in H. cbn in H. apply negb_true_iff, H.
  apply search_Some in He as [Hin _]. unfold bucket in Hin.
  destruct (tbl (rt_tbl s) !! hash_index j) as [b|] eqn:Hb; [|by apply elem_of_nil in Hin].
  apply list_elem_of_In in Hin. apply in_concat. exists b. split; [|done]. by apply list_elem_of_In; eapply list_elem_of_lookup_2.
Qed.

(** The update of its route never returns. *)
Lemma endless_update fuel : update_rec fuel 5000 1001 2 9 3000 VALID both gw3 = Ub OutOfFuel.
Proof.
  destruct (rt_lookup (rt_tbl gw3) 5000) as [e|] eqn:He; [|vm_compute in He; discriminate].
  assert (Hv : rt_state e = VALID ∧ rt_hcnt e = 2) by (vm_compute in He; injection He as <-; split; reflexivity).
  apply (gateway_update_endless fuel 5000 1001 2 9 3000 both e gw3 inv_gw3 He (proj1 Hv)); [|by_eval|by_eval|lia|].
  - apply only_inet_eval. by_eval.
  - rewrite (proj2 Hv). by_eval.
Qed.

(** Operations that only read, evaluated. *)
Definition value {A} (m : M A) (s : state) : option A := match m s with Ok v _ => Some v | _ => None end.

Lemma reads {A} (m : M A) s v : frames (λ s, s) m → value m s = Some v → m s = Ok v s.
Proof.
  intros Hf. unfold value. destruct (m s) as [a s'| |] eqn:R; [|done|done]. intros [= ->].
  by rewrite (Hf _ _ _ R).
Qed.

Lemma inet_ext_loop_reads fuel : ∀ len extlen off inet, frames (λ s, s) (inet_ext_loop fuel len extlen off inet).
Proof.
  induction fuel as [|fuel IH]; intros; cbn [inet_ext_loop]; [apply frames_undefined|].
  destruct (_ <=? _); [apply frames_ret|]. do 3 (apply frames_bind; [frame_go|intros ?]). apply IH.
Qed.

(** So a node that knows 5000 as a destination in the Internet does not survive the RREP. *)
Theorem gateway_rrep_endless (fuel : nat) :
  rrep_process_gw (update_rec fuel) INET_RREP_SIZE 1001 200 3 gw3 = Ub OutOfFuel.
Proof.
  unfold rrep_process_gw.
  eapply bind_ub; [apply (reads _ _ 5000); [frame_go|by_eval]|].
  eapply bind_ub; [apply (reads _ _ 1000); [frame_go|by_eval]|].
  eapply bind_ub; [apply (reads _ _ 150994944); [frame_go|by_eval]|].
  eapply bind_ub; [apply (reads _ _ 3087728640); [frame_go|by_eval]|].
  eapply bind_ub; [apply (reads _ _ 1); [frame_go|by_eval]|].
  change (INET_RREP_SIZE <? RREP_SIZE) with false. cbv iota zeta.
  eapply bind_ub; [apply (reads _ _ 1000); [frame_go|by_eval]|]. change (5000 =? 1000) with false. cbv iota.
  eapply bind_ub; [apply (reads _ _ (Some 6000)); [apply inet_ext_loop_reads|by_eval]|].
  eapply bind_ub; [apply (reads _ _ (Some 5000)); [apply frames_rt_table_find|by_eval]|].
  eapply bind_ub; [apply (reads _ _ None); [apply frames_rt_table_find|by_eval]|]. cbv iota.
  assert (He : ∃ e, value (rt_deref 5000) gw3 = Some e ∧ rt_flags e = RT_INET_DEST ∧ rrep_accepts e 9 2 = true)
    by (eexists; split; [by_eval|split; reflexivity]).
  destruct He as (e & He & Hf & Ha). eapply bind_ub; [apply reads; [apply frames_rt_deref|exact He]|].
  change (ntohl 150994944) with 9. change (ntohl 3087728640) with 3000. change (1 + 1) with 2.
  rewrite Ha, Hf. apply bind_ub_first, endless_update.
Qed.

(** ** [locality] of the ns-2 port *)

(** For a destination in its own subnet a gateway finds its [assert] false: a string that has been
    freed is not NULL. *)
Theorem local_destination_aborts {S} (get_subnetaddr : Z → option (list Z)) (me dest : Z) (net : list Z) (s : S) :
  get_subnetaddr me = Some net → get_subnetaddr dest = Some net →
  ns_locality get_subnetaddr me dest s = Exit 134.
Proof. intros E1 E2. unfold ns_locality. rewrite E1, E2. by rewrite bool_decide_true. Qed.
