(* ===== verification/Ns.v ===== *)
(** * sim/: packets, the interface queue and the packet queue of the ns-2 port

    The port runs the protocol code inside the simulator ns-2, where packets are C++ objects.
    [pkts] holds the packets that belong to the routing agent; a packet that is dropped,
    delivered, or scheduled on the link layer leaves it, so that touching it afterwards is
    [UseAfterFree].  The protocol code that the port shares with the daemon runs on the daemon's
    state, the field [core]: see [on_core]. *)

From S2P Require Import Prelude.
From S2P Require Import Params.
From S2P Require Import TimerQueue.
From S2P Require Import State.
From S2P Require Import RtTable.

#[local] Open Scope cm_scope.

(** ** Packets *)

(** The packet types the port distinguishes; [PT_DATA] stands for the types of [DATA_PACKET]
    other than TCP. *)
Inductive ptype := PT_AODVUU | PT_ENCAPSULATED | PT_TCP | PT_DATA | PT_PING | PT_OTHER.
#[export] Instance ptype_eq_dec : EqDecision ptype.
Proof. solve_decision. Defined.

Inductive direction := NONE | UP | DOWN.
#[export] Instance direction_eq_dec : EqDecision direction.
Proof. solve_decision. Defined.

(** Addresses are the 32-bit values that [struct in_addr] holds. *)

(** The common header, the IP header, the message of an AODV-UU packet and the packet inside
    an encapsulated one. *)
Record packet := mk_packet {
  ch_ptype : ptype;
  ch_direction : direction;
  ch_size : Z;
  ch_num_forwards : Z;
  ch_next_hop : Z;
  ch_prev_hop : Z;
  ch_inet : bool;  (* addr_type: NS_AF_INET, or NS_AF_NONE *)
  ch_failure : bool;  (* xmit_failure_ is link_layer_callback *)
  ih_saddr : Z;
  ih_daddr : Z;
  ih_ttl : Z;
  hdr_aodvuu : list Z;
  hdr_encap : option Z
}.

Definition set_direction (v : direction) (p : packet) : packet :=
  mk_packet (ch_ptype p) v (ch_size p) (ch_num_forwards p) (ch_next_hop p) (ch_prev_hop p) (ch_inet p)
    (ch_failure p) (ih_saddr p) (ih_daddr p) (ih_ttl p) (hdr_aodvuu p) (hdr_encap p).
Definition set_size (v : Z) (p : packet) : packet :=
  mk_packet (ch_ptype p) (ch_direction p) v (ch_num_forwards p) (ch_next_hop p) (ch_prev_hop p) (ch_inet p)
    (ch_failure p) (ih_saddr p) (ih_daddr p) (ih_ttl p) (hdr_aodvuu p) (hdr_encap p).
Definition set_ttl (v : Z) (p : packet) : packet :=
  mk_packet (ch_ptype p) (ch_direction p) (ch_size p) (ch_num_forwards p) (ch_next_hop p) (ch_prev_hop p)
    (ch_inet p) (ch_failure p) (ih_saddr p) (ih_daddr p) v (hdr_aodvuu p) (hdr_encap p).
Definition set_encap (v : option Z) (p : packet) : packet :=
  mk_packet (ch_ptype p) (ch_direction p) (ch_size p) (ch_num_forwards p) (ch_next_hop p) (ch_prev_hop p)
    (ch_inet p) (ch_failure p) (ih_saddr p) (ih_daddr p) (ih_ttl p) (hdr_aodvuu p) v.
(** The assignments of [sendPacket] before it schedules the packet. *)
Definition set_hops (next prev : Z) (inet fail : bool) (p : packet) : packet :=
  mk_packet (ch_ptype p) (ch_direction p) (ch_size p) (ch_num_forwards p) next prev inet fail
    (ih_saddr p) (ih_daddr p) (ih_ttl p) (hdr_aodvuu p) (hdr_encap p).

Definition IP_HDR_LEN : Z := 20.
Definition IP_BROADCAST : Z := 4294967295.
Definition MIN_ENC_OVERHEAD : Z := 8.
(** [ARP_DELAY] in milliseconds. *)
Definition ARP_DELAY : Z := 5.

Inductive reason :=
  | DROP_END_OF_SIMULATION | DROP_RTR_QTIMEOUT | DROP_RTR_QFULL | DROP_RTR_NO_ROUTE
  | DROP_RTR_ROUTE_LOOP | DROP_RTR_TTL | DROP_RTR_MAC_CALLBACK.

(** A fixed delay, or one from the [n]-th random number. *)
Inductive delay := After (ms : Z) | Jitter (n : nat).

(** What the agent hands to the simulator. *)
Inductive ns_event :=
  | NsDrop (p : Z) (pk : packet) (why : option reason)
  | NsSchedule (p : Z) (pk : packet) (d : delay)  (* on the link layer *)
  | NsTarget (p : Z) (pk : packet)                (* target_->recv *)
  | NsFree (p : Z).

(** [struct q_pkt] *)
Record ns_q_pkt := mk_ns_q_pkt { nq_dest_addr : Z; nq_q_time : timeval; nq_p : Z }.

(** ** The agent *)

(** What the port has beside the settings of the daemon. *)
Record ns_options := mk_ns_options {
  ns_internet_gw_mode : bool;
  ns_blank : packet  (* what Agent::allocpkt of ns-2 fills in *)
}.

(** The members that [startAODVUUAgent] sets. *)
Record ns_params := mk_ns_params {
  ns_active_route_timeout : Z;
  ns_ttl_start : Z;
  ns_delete_period : Z
}.

(** The members of the class [AODVUU]: [core] are those that the daemon has as globals. *)
Record agent := mk_agent {
  core : state;
  ns_opts : ns_options;
  pkts : gmap Z packet;
  ns_draws : nat;  (* random numbers drawn *)
  ns_head : list ns_q_pkt;  (* PQ.head *)
  ns_len : Z;  (* PQ.len *)
  ifqueue : option (list Z);
  initialized : bool;
  params : option ns_params;  (* None: not written yet *)
  ns_trace : list ns_event
}.

#[local] Abbreviation NM := (CM agent).

Definition set_core (v : state) (s : agent) : agent :=
  mk_agent v (ns_opts s) (pkts s) (ns_draws s) (ns_head s)
  (ns_len s) (ifqueue s) (initialized s) (params s) (ns_trace s).
Definition set_pkts (v : gmap Z packet) (s : agent) : agent :=
  mk_agent (core s) (ns_opts s) v (ns_draws s) (ns_head s)
  (ns_len s) (ifqueue s) (initialized s) (params s) (ns_trace s).
Definition set_draws (v : nat) (s : agent) : agent :=
  mk_agent (core s) (ns_opts s) (pkts s) v (ns_head s)
  (ns_len s) (ifqueue s) (initialized s) (params s) (ns_trace s).
Definition set_queue (h : list ns_q_pkt) (n : Z) (s : agent) : agent :=
  mk_agent (core s) (ns_opts s) (pkts s) (ns_draws s) h
  n (ifqueue s) (initialized s) (params s) (ns_trace s).
Definition set_ifqueue (v : option (list Z)) (s : agent) : agent :=
  mk_agent (core s) (ns_opts s) (pkts s) (ns_draws s) (ns_head s)
  (ns_len s) v (initialized s) (params s) (ns_trace s).
Definition set_initialized (v : bool) (s : agent) : agent :=
  mk_agent (core s) (ns_opts s) (pkts s) (ns_draws s) (ns_head s)
  (ns_len s) (ifqueue s) v (params s) (ns_trace s).
Definition note_event (v : ns_event) (s : agent) : agent :=
  mk_agent (core s) (ns_opts s) (pkts s) (ns_draws s) (ns_head s)
  (ns_len s) (ifqueue s) (initialized s) (params s) (v :: ns_trace s).
Definition set_params (v : option ns_params) (s : agent) : agent :=
  mk_agent (core s) (ns_opts s) (pkts s) (ns_draws s) (ns_head s)
  (ns_len s) (ifqueue s) (initialized s) v (ns_trace s).

(** [DEV_IFINDEX(ifindex)]: the port has one interface. *)
Definition NS_DEV_NR : nat := 0.
Definition ipaddr (s : agent) : Z := dev_ipaddr (DEV_NR (core s) NS_DEV_NR).

(** The headers of a packet. *)
Definition HDR (p : Z) : NM packet := λ s,
  match pkts s !! p with Some pk => Ok pk s | None => Ub UseAfterFree end.
Definition hdr_modify (p : Z) (f : packet → packet) : NM () :=
  pk ← HDR p; modify (λ s, set_pkts (<[p := f pk]> (pkts s)) s).
Definition get_params : NM ns_params := λ s,
  match params s with Some v => Ok v s | None => Ub Uninitialised end.
(** [assert] *)
Definition cassert (b : bool) : NM () := if b then ret () else cexit 134.

(** Handing a packet over, with the packets inside it: each turn of the loop goes one level
    deeper and takes a packet out of [pkts], so its size is enough. *)
Fixpoint hand_over (fuel : nat) (p : Z) : NM () :=
  match fuel with
  | O => undefined OutOfFuel
  | S fuel =>
      pk ← HDR p;
      modify (λ s, set_pkts (delete p (pkts s)) s) ;;
      match hdr_encap pk with
      | Some q => hand_over fuel q
      | None => ret ()
      end
  end.

Definition give (p : Z) (ev : packet → ns_event) : NM () :=
  pk ← HDR p;
  n ← gets (λ s, size (pkts s));
  hand_over n p ;;
  modify (note_event (ev pk)).
Definition drop (p : Z) (why : option reason) : NM () := give p (λ pk, NsDrop p pk why).
Definition target_recv (p : Z) : NM () := give p (NsTarget p).
Definition schedule (p : Z) (d : delay) : NM () := give p (λ pk, NsSchedule p pk d).
Definition Packet_free (p : Z) : NM () := give p (λ _, NsFree p).

(** [allocpkt()]: [Packet::alloc] aborts rather than return NULL. *)
Definition allocpkt : NM Z :=
  o ← gets ns_opts;
  p ← gets (λ s, 1 + foldr Z.max 0 (elements (dom (pkts s))));
  modify (λ s, set_pkts (<[p := ns_blank o]> (pkts s)) s) ;;
  ret p.

Definition random_uniform : NM nat :=
  n ← gets ns_draws; modify (set_draws (S n)) ;; ret n.

(** ** sim/aodv-uu.cc: sending and encapsulation *)

Definition sendPacket (p next_hop : Z) (d : delay) : NM () :=
  pk ← HDR p;
  me ← gets ipaddr;
  ok ← (if bool_decide (ch_direction pk = UP) && negb (ih_saddr pk =? me) then
          hdr_modify p (set_ttl (ih_ttl pk - 1)) ;;
          if ih_ttl pk - 1 <? 1 then drop p (Some DROP_RTR_TTL) ;; ret false
          else hdr_modify p (set_direction DOWN) ;; ret true
        else if bool_decide (ch_direction pk = DOWN) && (ih_saddr pk =? me) then ret true
        else drop p None ;; ret false);
  if negb ok then ret () else
  if ih_daddr pk =? AODV_BROADCAST then
    hdr_modify p (λ pk, set_hops 0 me false (ch_failure pk) pk) ;;
    n ← random_uniform;
    schedule p (Jitter n)
  else
    o ← gets (λ s, opts (core s));
    hdr_modify p (λ pk, set_hops next_hop me true (if llfeedback o then true else ch_failure pk) pk) ;;
    schedule p d.

(** The part of [aodv_socket_send] that differs in the port: the message becomes a packet. *)
Definition send_message (msg : list Z) (dst ttl : Z) : NM () :=
  p ← allocpkt;
  me ← gets ipaddr;
  hdr_modify p (λ e, mk_packet PT_AODVUU DOWN (ch_size e + Z.of_nat (length msg) + IP_HDR_LEN)
    (ch_num_forwards e) (ch_next_hop e) me (negb (dst =? AODV_BROADCAST)) (ch_failure e) me dst (u8 ttl)
    msg (hdr_encap e)) ;;
  sendPacket p dst (After 0).

(** [hdr_encap::encap] of ns-2 stores a packet in the header, [hdr_encap::decap] takes it out.
    The result is never NULL. *)
Definition pkt_encapsulate (p gw_addr : Z) : NM (option Z) :=
  ep ← allocpkt;
  pk ← HDR p;
  hdr_modify ep (λ e, mk_packet PT_ENCAPSULATED (ch_direction e) (ch_size pk + MIN_ENC_OVERHEAD)
    (ch_num_forwards e) (ch_next_hop e) (ch_prev_hop e) (ch_inet e) (ch_failure e)
    (ih_saddr pk) gw_addr (ih_ttl e) (hdr_aodvuu e) (Some p)) ;;
  ret (Some ep).

Definition pkt_decapsulate (p : Z) : NM (option Z) :=
  pk ← HDR p;
  if bool_decide (ch_ptype pk = PT_ENCAPSULATED) then
    hdr_modify p (set_encap None) ;;
    Packet_free p ;;
    ret (hdr_encap pk)
  else ret None.
(** ** The shared protocol code

    The port compiles the files of [src/src] that the daemon is made of.  What it calls of
    them while it handles a packet ([neighbor_link_break], [rreq_local_repair],
    [rreq_route_discovery], [hello_start], [rerr_create], the timers and the routing table)
    differs from the daemon's code in two ways only: a message goes out as a packet, and
    there is no kernel to tell about routes.  So [on_core] runs the daemon's definition on
    [core]; every message that it sends becomes a packet, in the same order, and what it
    tells the kernel goes nowhere.  Undefined behaviour stays what it is.  (The packet of a
    message that the rate limiter holds back is freed at once, and not modelled.) *)

(** What an operation of the daemon adds to the trace, oldest first. *)
Definition new_events (before after : state) : list event :=
  reverse (take (length (trace after) - length (trace before)) (trace after)).

Definition transmit (ev : event) : NM () :=
  match ev with
  | EvSend _ dst ttl msg => send_message msg dst ttl
  | _ => ret ()
  end.

Definition on_core {A} (m : M A) : NM A := λ s,
  match m (core s) with
  | Ok a c => (foreach (new_events (core s) c) () (λ ev _, transmit ev) ;; ret a) (set_core c s)
  | Exit n => Exit n
  | Ub u => Ub u
  end.

(** [rt_table_find], with the fields of the entry. *)
Definition ns_rt_find (d : Z) : NM (option rt_table_t) := gets (λ s, find_entry (rt_tbl (core s)) d).

(** ** sim/packet_queue.cc *)

Definition ns_packet_queue_init : NM () :=
  modify (set_queue [] 0) ;;
  on_core (on_tq (timer_init GcTimer packet_queue_timeout) ;; set_timeout GcTimer GARBAGE_COLLECT_TIME).

(** The loops with [list_foreach_safe] over the queue: [l] is what remains, [kept] what the
    loop has passed.  [act] does the work for a selected packet and its number; when its
    result is [false] the function returns -1, before the entry is freed and the length
    is decreased. *)
Fixpoint ns_drain (sel : ns_q_pkt → bool) (act : ns_q_pkt → Z → NM bool)
    (l kept : list ns_q_pkt) (count : Z) : NM Z :=
  match l with
  | [] => ret count
  | q :: l =>
      if sel q then
        modify (λ s, set_queue (kept ++ l) (ns_len s) s) ;;
        go ← act q count;
        if negb go then ret (-1) else
        modify (λ s, set_queue (ns_head s) (u32 (ns_len s - 1)) s) ;;
        ns_drain sel act l kept (count + 1)
      else ns_drain sel act l (kept ++ [q]) count
  end.

Definition ns_packet_queue_destroy : NM () :=
  l ← gets ns_head;
  ns_drain (λ _, true) (λ q _, drop (nq_p q) (Some DROP_END_OF_SIMULATION) ;; ret true) l [] 0 ;;
  ret ().

Definition ns_packet_queue_garbage_collect : NM Z :=
  t ← on_core gettimeofday;
  l ← gets ns_head;
  ns_drain (λ q, MAX_QUEUE_TIME <? timeval_diff t (nq_q_time q))
    (λ q _, drop (nq_p q) (Some DROP_RTR_QTIMEOUT) ;; ret true) l [] 0.

Definition ns_packet_queue_timeout : NM () :=
  ns_packet_queue_garbage_collect ;;
  on_core (set_timeout GcTimer GARBAGE_COLLECT_TIME).

Definition ns_packet_queue_add (p dest_addr : Z) : NM () :=
  pk ← HDR p;
  cassert (ih_daddr pk =? dest_addr) ;;
  n ← gets ns_len;
  when (MAX_QUEUE_LENGTH <=? n)
    (l ← gets ns_head;
     match l with
     | [] => ret ()
     | q :: l =>
         modify (set_queue l n) ;;
         drop (nq_p q) (Some DROP_RTR_QFULL) ;;
         modify (set_queue l (u32 (n - 1)))
     end) ;;
  t ← on_core gettimeofday;
  modify (λ s, set_queue (ns_head s ++ [mk_ns_q_pkt dest_addr t p]) (u32 (ns_len s + 1)) s).

(** What [packet_queue_set_verdict] does with the packet of the entry [q]: [rt] is the route
    it is sent on, [gw] the gateway. *)
Definition ns_verdict (verdict gw : Z) (rt : option rt_table_t) (q : ns_q_pkt) (count : Z) : NM bool :=
  if verdict =? PQ_SEND then
    match rt with
    | None => ret false
    | Some e => sendPacket (nq_p q) (rt_next_hop e) (After (ARP_DELAY * count)) ;; ret true
    end
  else if verdict =? PQ_DROP then drop (nq_p q) (Some DROP_RTR_NO_ROUTE) ;; ret true
  else if verdict =? PQ_ENC_SEND then
    match rt with
    | None => ret false
    | Some e =>
        ep ← pkt_encapsulate (nq_p q) gw;
        match ep with
        | None => cexit (-1)
        | Some ep => sendPacket ep (rt_next_hop e) (After (ARP_DELAY * count)) ;; ret true
        end
    end
  else ret true.

(** The timeouts of a route and of its next hop. *)
Definition refresh_both (e : rt_table_t) (timeout : Z) : NM () :=
  on_core (rt_table_update_timeout (rt_dest_addr e) timeout) ;;
  n ← ns_rt_find (rt_next_hop e);
  match n with
  | Some n =>
      when ((rt_state n =? VALID) && negb (rt_dest_addr n =? rt_dest_addr e))
        (on_core (rt_table_update_timeout (rt_dest_addr n) timeout))
  | None => ret ()
  end.

(** The update of the timeouts at its end. *)
Definition ns_refresh (dest_addr verdict : Z) (inet : option Z) (rt : option rt_table_t) : NM () :=
  match rt with
  | Some e =>
      me ← gets ipaddr;
      when ((rt_state e =? VALID) && ((verdict =? PQ_SEND) || (verdict =? PQ_ENC_SEND))
            && negb (dest_addr =? me))
        (o ← get_params;
         match inet with
         | Some i => when (verdict =? PQ_ENC_SEND) (on_core (rt_table_update_timeout i (ns_active_route_timeout o)))
         | None => ret ()
         end ;;
         refresh_both e (ns_active_route_timeout o))
  | None => ret ()
  end.

Definition ns_packet_queue_set_verdict (dest_addr verdict : Z) : NM Z :=
  inet ← (if verdict =? PQ_ENC_SEND then ns_rt_find dest_addr else ret None);
  match inet, verdict =? PQ_ENC_SEND with
  | None, true => ret (-1)
  | _, _ =>
      rt ← ns_rt_find (match inet with Some i => rt_next_hop i | None => dest_addr end);
      l ← gets ns_head;
      count ← ns_drain (λ q, nq_dest_addr q =? dest_addr)
        (ns_verdict verdict (match inet with Some i => rt_next_hop i | None => 0 end) rt) l [] 0;
      if count =? -1 then ret (-1) else
      ns_refresh dest_addr verdict (rt_dest_addr <$> inet) rt ;;
      ret count
  end.
