(* ===== verification/NsOwn.v ===== *)
(** * Ownership of packets in the ns-2 port

    [sound ins s]: every packet of the agent is in exactly one place: in its queue, in the
    interface queue, inside another packet, or among the packets [ins] in hand.
    [settles ins m outs]: started with the packets [ins] in hand, [m] touches no other
    packet that it does not own, and leaves [outs] in hand, so that it has neither lost nor
    used twice what it was given. *)

From S2P Require Import Prelude.
From S2P Require Import Params.
From S2P Require Import TimerQueue.
From S2P Require Import State.
From S2P Require Import RtTable.
From S2P Require Import Inv.
From S2P Require Import Frame.
From S2P Require Import Ns.

#[local] Open Scope cm_scope.

(** ** Counting *)

Definition one (p q : Z) : nat := if decide (p = q) then 1 else 0.
Definition count (p : Z) (l : list Z) : nat := foldr (λ q n, one p q + n)%nat 0%nat l.

Lemma count_app p l k : count p (l ++ k) = (count p l + count p k)%nat.
Proof. induction l as [|q l IH]; simpl; [done|rewrite IH; lia]. Qed.
Lemma count_perm p l k : l ≡ₚ k → count p l = count p k.
Proof. induction 1; simpl; lia. Qed.
Lemma count_in p l : p ∈ l → (1 <= count p l)%nat.
Proof.
  induction 1 as [|q r l _ IH]; simpl; [|lia]. unfold one. rewrite decide_True by done. lia.
Qed.
Lemma count_cons p q l : count p (q :: l) = (one p q + count p l)%nat.
Proof. done. Qed.
Lemma one_refl p : one p p = 1%nat.
Proof. unfold one. by rewrite decide_True. Qed.
Lemma one_ne p q : p ≠ q → one p q = 0%nat.
Proof. intros H. unfold one. by rewrite decide_False. Qed.

(** How often [p] is inside other packets. *)
Definition inside (p : Z) (pk : packet) : nat := match hdr_encap pk with Some q => one p q | None => 0 end.
Definition wrapped (p : Z) (m : gmap Z packet) : nat :=
  foldr (λ kv n, inside p kv.2 + n)%nat 0%nat (map_to_list m).

Lemma wrapped_perm p (l k : list (Z * packet)) :
  l ≡ₚ k → foldr (λ kv n, inside p kv.2 + n)%nat 0%nat l = foldr (λ kv n, inside p kv.2 + n)%nat 0%nat k.
Proof. induction 1; simpl; lia. Qed.

Lemma wrapped_new p m k pk : m !! k = None → wrapped p (<[k := pk]> m) = (inside p pk + wrapped p m)%nat.
Proof. intros H. unfold wrapped. by rewrite (wrapped_perm p _ _ (map_to_list_insert m k pk H)). Qed.

Lemma wrapped_delete p m k pk : m !! k = Some pk → wrapped p m = (inside p pk + wrapped p (delete k m))%nat.
Proof.
  intros H. rewrite <- (insert_delete_id m k pk) at 1 by done. by rewrite wrapped_new by apply lookup_delete_eq.
Qed.

Lemma wrapped_insert p m k pk pk' :
  m !! k = Some pk → (wrapped p (<[k := pk']> m) + inside p pk = wrapped p m + inside p pk')%nat.
Proof.
  intros H. rewrite (wrapped_delete p m k pk H), <- insert_delete_eq, wrapped_new by apply lookup_delete_eq. lia.
Qed.

(** ** The invariant *)

#[local] Abbreviation NM := (CM agent).

Definition live (p : Z) (s : agent) : nat := match pkts s !! p with Some _ => 1 | None => 0 end.

Definition held (s : agent) : list Z := (nq_p <$> ns_head s) ++ default [] (ifqueue s).

(** [k] is 1 while an entry is taken off the queue, otherwise 0.  The state of the shared code is
    the daemon's, with its invariant, and the routes [ks] are in its table. *)
Record sound (ks : list Z) (k : Z) (ins : list Z) (s : agent) : Prop := {
  so_own p : live p s = (count p (held s) + wrapped p (pkts s) + count p ins)%nat;
  so_encap p pk : pkts s !! p = Some pk → ch_ptype pk = PT_ENCAPSULATED → is_Some (hdr_encap pk);
  so_len : ns_len s = Z.of_nat (length (ns_head s)) + k;
  so_max : ns_len s <= MAX_QUEUE_LENGTH;
  so_params : is_Some (params s);
  so_blank : hdr_encap (ns_blank (ns_opts s)) = None ∧ ch_ptype (ns_blank (ns_opts s)) ≠ PT_ENCAPSULATED;
  so_core : inv (core s) ∧ live_all (core s) ks
}.

Lemma sound_live ks k ins s p : sound ks k ins s → (1 <= count p (held s) + count p ins)%nat → is_Some (pkts s !! p).
Proof.
  intros Hs Hp. pose proof (so_own _ _ _ _ Hs p) as Ho. unfold live in Ho.
  destruct (pkts s !! p); [done|lia].
Qed.

(** What the operations of the port leave alone. *)
Definition settings (s : agent) := (ns_opts s, initialized s, params s).

(** With [b] the packet queue too, with [c] the interface queue. *)
Definition view (b c : bool) (s : agent) :=
  (settings s, if b then Some (ns_head s, ns_len s) else None, if c then Some (ifqueue s) else None).

Section judgement.
Context (b c : bool) (ks : list Z).

Definition settles {A} (ins : list Z) (m : NM A) (outs : A → list Z) : Prop :=
  ∀ k s F, (b = false → k = 0) → sound ks k (ins ++ F) s →
    wp buf_ub m (λ a s', sound ks k (outs a ++ F) s' ∧ view b c s' = view b c s) s.

Lemma settles_ret {A} ins (a : A) outs : outs a = ins → settles ins (ret a) outs.
Proof. intros <- k s F Hk Hs. by split. Qed.

Lemma settles_bind {A B} ins (m : NM A) (f : A → NM B) mid outs :
  settles ins m mid → (∀ a, settles (mid a) (f a) outs) → settles ins (bind m f) outs.
Proof.
  intros Hm Hf k s F Hk Hs. apply wp_bind. eapply wp_mono; [by apply Hm|].
  intros a s1 [Hs1 He1]. eapply wp_mono; [by apply Hf|]. intros a2 s2 [Hs2 He2]. split; [done|congruence].
Qed.

Lemma settles_gets {A} ins (f : agent → A) : settles ins (gets f) (λ _, ins).
Proof. by intros k s F Hk Hs. Qed.

Lemma settles_exit {A} ins code outs : settles ins (cexit (A:=A) code) outs.
Proof. by intros k s F Hk Hs. Qed.

Lemma settles_when ins w (m : NM ()) :
  (w = true → settles ins m (λ _, ins)) → settles ins (when w m) (λ _, ins).
Proof. intros H. destruct w; [by apply H|by apply settles_ret]. Qed.

Lemma settles_assert ins w : settles ins (cassert w) (λ _, ins).
Proof. destruct w; [by apply settles_ret|apply settles_exit]. Qed.

(** A change that touches neither the packets nor the queues. *)
Lemma settles_modify ins (f : agent → agent) :
  (∀ s, (pkts (f s), ns_head (f s), ns_len (f s), ifqueue (f s), settings (f s), core (f s))
      = (pkts s, ns_head s, ns_len s, ifqueue s, settings s, core s)) →
  settles ins (modify f) (λ _, ins).
Proof.
  intros Hf k s F Hk [Ho He Hl Hm Hp Hb Hco]. specialize (Hf s). injection Hf as H1 H2 H3 H4 H5 H6 H7 H8.
  split; [|unfold view, settings; by rewrite H2, H3, H4, H5, H6, H7]. split; unfold live, held in *; rewrite ?H1, ?H2, ?H3, ?H4, ?H5, ?H6, ?H7, ?H8; done.
Qed.

Lemma settles_params {A} ins (f : ns_params → NM A) outs :
  (∀ v, settles ins (f v) outs) → settles ins (bind get_params f) outs.
Proof.
  intros H k s F Hk Hs. destruct (so_params _ _ _ _ Hs) as [v Hv]. eapply wp_run; [unfold get_params; by rewrite Hv|]. by apply H.
Qed.

(** Reading a packet in hand, with what is known of it. *)
Lemma settles_HDR {A} ins p (f : packet → NM A) outs :
  p ∈ ins → (∀ pk, settles ins (f pk) outs) → settles ins (bind (HDR p) f) outs.
Proof.
  intros Hp Hf k s F Hk Hs. assert (Hc : (1 <= count p (ins ++ F))%nat) by (rewrite count_app; pose proof (count_in p ins Hp); lia).
  destruct (sound_live _ _ _ _ p Hs) as [pk Hpk]; [lia|]. eapply wp_run; [unfold HDR; by rewrite Hpk|]. by apply Hf.
Qed.

(** Writing its header. *)
Lemma sound_insert k ins s p pk pk' :
  sound ks k ins s → pkts s !! p = Some pk → hdr_encap pk' = hdr_encap pk →
  (ch_ptype pk' = PT_ENCAPSULATED → ch_ptype pk = PT_ENCAPSULATED) →
  sound ks k ins (set_pkts (<[p := pk']> (pkts s)) s).
Proof.
  intros [Ho He Hl Hm Hp Hb Hco] Hpk H1 H2. split; try done.
  - intros q. unfold live, held. cbn [pkts set_pkts ns_head ifqueue].
    pose proof (wrapped_insert q (pkts s) p pk pk' Hpk) as Hw.
    assert (inside q pk' = inside q pk) by (unfold inside; by rewrite H1).
    specialize (Ho q). unfold live, held in Ho. destruct (decide (q = p)) as [->|Hne].
    + rewrite lookup_insert_eq. rewrite Hpk in Ho. lia.
    + rewrite lookup_insert_ne by done. lia.
  - intros q pk2. cbn [pkts set_pkts]. destruct (decide (q = p)) as [->|Hne].
    + rewrite lookup_insert_eq. intros [= <-] Ht%H2. rewrite H1. by apply (He p).
    + rewrite lookup_insert_ne by done. apply (He q).
Qed.

Lemma settles_hdr_modify ins p f :
  p ∈ ins → (∀ pk, hdr_encap (f pk) = hdr_encap pk ∧
     (ch_ptype (f pk) = PT_ENCAPSULATED → ch_ptype pk = PT_ENCAPSULATED)) →
  settles ins (hdr_modify p f) (λ _, ins).
Proof.
  intros Hp Hf k s F Hk Hs. assert (Hc : (1 <= count p (ins ++ F))%nat) by (rewrite count_app; pose proof (count_in p ins Hp); lia).
  destruct (sound_live _ _ _ _ p Hs) as [pk Hpk]; [lia|]. unfold hdr_modify.
  eapply wp_run; [unfold HDR; by rewrite Hpk|]. apply wp_modify. split; [|done].
  apply (sound_insert _ _ _ _ pk); [done|done|apply Hf..].
Qed.

(** Handing over a packet. *)
Lemma sound_delete k ins s p pk :
  sound ks k (p :: ins) s → pkts s !! p = Some pk →
  sound ks k (option_list (hdr_encap pk) ++ ins) (set_pkts (delete p (pkts s)) s).
Proof.
  intros [Ho He Hl Hm Hp Hb Hco] Hpk. split; try done.
  - intros q. specialize (Ho q). rewrite (wrapped_delete q _ p pk Hpk) in Ho.
    unfold live, held in *. cbn [pkts set_pkts ns_head ifqueue] in *. rewrite (count_app q (option_list _)).
    rewrite count_cons in Ho.
    assert (Hi : count q (option_list (hdr_encap pk)) = inside q pk)
      by (unfold inside; destruct (hdr_encap pk); simpl; lia).
    destruct (decide (q = p)) as [->|Hne].
    + rewrite lookup_delete_eq. rewrite Hpk, one_refl in Ho. lia.
    + rewrite lookup_delete_ne by done. rewrite one_ne in Ho by done. lia.
  - intros q pk2. cbn [pkts set_pkts]. intros [_ Hq]%lookup_delete_Some. by apply (He q).
Qed.

Lemma settles_hand_over k fuel : ∀ p s F,
  sound ks k (p :: F) s → (size (pkts s) <= fuel)%nat →
  wp buf_ub (hand_over fuel p) (λ _ s', sound ks k F s' ∧ view b c s' = view b c s) s.
Proof.
  induction fuel as [|fuel IH]; intros p s F Hs Hn.
  - assert (Hc : (1 <= count p (p :: F))%nat) by (rewrite count_cons, one_refl; lia).
    destruct (sound_live _ _ _ _ p Hs) as [pk Hpk]; [lia|].
    assert (pkts s = ∅) as He by (apply map_size_empty_iff; lia). by rewrite He in Hpk.
  - assert (Hc : (1 <= count p (p :: F))%nat) by (rewrite count_cons, one_refl; lia).
    destruct (sound_live _ _ _ _ p Hs) as [pk Hpk]; [lia|]. cbn [hand_over].
    eapply wp_run; [unfold HDR; by rewrite Hpk|]. apply wp_bind, wp_modify.
    pose proof (sound_delete _ _ _ _ _ Hs Hpk) as Hd. destruct (hdr_encap pk) as [q|]; cbn in Hd; [|done].
    eapply wp_mono; [apply IH; [done|]|done]. cbn [pkts set_pkts]. rewrite map_size_delete_Some by done. lia.
Qed.

Lemma settles_give p ev : settles [p] (give p ev) (λ _, []).
Proof.
  intros k s F Hk Hs. unfold give.
  assert (Hc : (1 <= count p ([p] ++ F))%nat) by (cbn [app]; rewrite count_cons, one_refl; lia).
  destruct (sound_live _ _ _ _ p Hs) as [pk Hpk]; [lia|].
  eapply wp_run; [unfold HDR; by rewrite Hpk|]. apply wp_bind, wp_gets, wp_bind.
  eapply wp_mono; [by apply settles_hand_over|]. intros _ s1 [Hs1 He1]. apply wp_modify.
  split; [|done]. by destruct Hs1.
Qed.

Lemma settles_drop p why : settles [p] (drop p why) (λ _, []).
Proof. apply settles_give. Qed.
Lemma settles_target p : settles [p] (target_recv p) (λ _, []).
Proof. apply settles_give. Qed.
Lemma settles_schedule p d : settles [p] (schedule p d) (λ _, []).
Proof. apply settles_give. Qed.
Lemma settles_free p : settles [p] (Packet_free p) (λ _, []).
Proof. apply settles_give. Qed.

(** Reading and writing in the middle of a program. *)
Lemma settles_seq {A} ins (m : NM ()) (f : NM A) outs :
  settles ins m (λ _, ins) → settles ins f outs → settles ins (m ;; f) outs.
Proof. intros Hm Hf. eapply settles_bind; [exact Hm|]. by intros []. Qed.

Lemma settles_then {A} ins (m : NM ()) (f : NM A) outs :
  settles ins m (λ _, []) → settles [] f outs → settles ins (m ;; f) outs.
Proof. intros Hm Hf. eapply settles_bind; [exact Hm|]. by intros []. Qed.

Lemma settles_read {A B} ins (g : agent → A) (f : A → NM B) outs :
  (∀ a, settles ins (f a) outs) → settles ins (bind (gets g) f) outs.
Proof. intros Hf. eapply settles_bind; [apply settles_gets|done]. Qed.

(** ** Sending *)

Lemma settles_sendPacket p next d : settles [p] (sendPacket p next d) (λ _, []).
Proof.
  unfold sendPacket. apply settles_HDR; [by left|]. intros pk. apply settles_read. intros me.
  eapply (settles_bind _ _ _ (λ ok : bool, if ok then [p] else [])).
  - destruct (_ && _).
    + apply settles_seq; [apply settles_hdr_modify; [by left|done]|].
      destruct (_ <? 1); [eapply settles_bind; [apply settles_drop|intros ?; by apply settles_ret]|].
      apply settles_seq; [apply settles_hdr_modify; [by left|done]|by apply settles_ret].
    + destruct (_ && _); [by apply settles_ret|].
      eapply settles_bind; [apply settles_drop|intros ?; by apply settles_ret].
  - intros [|]; cbn [negb]; [|by apply settles_ret]. destruct (_ =? _).
    + apply settles_seq; [apply settles_hdr_modify; [by left|done]|].
      eapply settles_bind; [|intros n; apply settles_schedule]. unfold random_uniform.
      apply settles_read. intros n. apply settles_seq; [by apply settles_modify|by apply settles_ret].
    + apply settles_read. intros o.
      apply settles_seq; [apply settles_hdr_modify; [by left|done]|apply settles_schedule].
Qed.

Lemma fresh_packet (m : gmap Z packet) : m !! (1 + foldr Z.max 0 (elements (dom m))) = None.
Proof.
  apply not_elem_of_dom. intros Hin%elem_of_elements. revert Hin.
  assert (H : ∀ l x, x ∈ l → x <= foldr Z.max 0 l).
  { induction l as [|y l IH]; intros x; [by intros ?%not_elem_of_nil|].
    rewrite elem_of_cons. intros [->|Hx]; simpl; [lia|]. apply IH in Hx. lia. }
  intros Hin%H. lia.
Qed.

(** A new packet is nowhere else, and holds nothing. *)
Lemma sound_alloc k s F p :
  sound ks k F s → pkts s !! p = None → sound ks k (p :: F) (set_pkts (<[p := ns_blank (ns_opts s)]> (pkts s)) s).
Proof.
  intros [Ho He Hl Hm Hp [Hb1 Hb2] Hco] Hf. split; try done.
  - intros q. specialize (Ho q). unfold live, held in *. cbn [pkts set_pkts ns_head ifqueue].
    rewrite wrapped_new by done. rewrite count_cons. unfold inside. rewrite Hb1.
    destruct (decide (q = p)) as [->|Hne].
    + rewrite lookup_insert_eq, one_refl. rewrite Hf in Ho. lia.
    + rewrite lookup_insert_ne, one_ne by done. lia.
  - intros q pk2. cbn [pkts set_pkts]. destruct (decide (q = p)) as [->|Hne].
    + rewrite lookup_insert_eq. by intros [= <-].
    + rewrite lookup_insert_ne by done. apply (He q).
Qed.

Lemma settles_allocpkt k s F :
  sound ks k F s →
  wp buf_ub allocpkt (λ p s', sound ks k (p :: F) s' ∧ view b c s' = view b c s ∧
    pkts s' = <[p := ns_blank (ns_opts s)]> (pkts s) ∧ pkts s !! p = None) s.
Proof.
  intros Hs. unfold allocpkt. apply wp_bind, wp_gets, wp_bind, wp_gets, wp_bind, wp_modify, wp_ret.
  pose proof (fresh_packet (pkts s)) as Hf. split_and!; [by apply sound_alloc|done..].
Qed.

Lemma settles_send_message msg dst ttl : settles [] (send_message msg dst ttl) (λ _, []).
Proof.
  unfold send_message. eapply (settles_bind _ _ _ (λ p, [p])).
  { intros k s F Hk Hs. eapply wp_mono; [by apply settles_allocpkt|]. by intros p s' (? & ? & _). }
  intros p. apply settles_read. intros me. apply settles_seq; [apply settles_hdr_modify; [by left|done]|].
  apply settles_sendPacket.
Qed.

Lemma settles_foreach {X} (l : list X) (f : X → NM ()) :
  (∀ x, settles [] (f x) (λ _, [])) → settles [] (foreach l () (λ x _, f x)) (λ _, []).
Proof.
  intros Hf. induction l as [|x l IH]; cbn [foreach]; [by apply settles_ret|].
  apply (settles_bind _ _ _ (λ _, [])); [apply Hf|]. intros []. apply IH.
Qed.

(** The shared code keeps its invariant and its routes; its messages are sent. *)
Lemma settles_on_core {A} md ins (m : M A) :
  safe md ks m nop → settles ins (on_core m) (λ _, ins).
Proof.
  intros Hm k s F Hk Hs. destruct (so_core _ _ _ _ Hs) as [Hi Hl]. specialize (Hm (core s) Hi Hl).
  unfold wp, on_core in *. destruct (m (core s)) as [a c'| |]; [|done|done]. destruct Hm as (Hi' & Hx & _).
  assert (Hsend : settles [] (foreach (new_events (core s) c') () (λ ev _, transmit ev) ;; ret a) (λ _, [])).
  { apply settles_seq; [|by apply settles_ret]. apply settles_foreach.
    intros []; try by apply settles_ret. apply settles_send_message. }
  apply (Hsend k (set_core c' s) (ins ++ F) Hk). destruct Hs as [Ho He Hq Hm Hp Hb Hco].
  split; try done. split; [done|]. by eapply live_all_ext.
Qed.

Lemma settles_encapsulate p gw :
  settles [p] (pkt_encapsulate p gw) (λ o, match o with Some ep => [ep] | None => [p] end).
Proof.
  intros k s F Hk Hs. unfold pkt_encapsulate. apply wp_bind. eapply wp_mono; [by apply (settles_allocpkt k s ([p] ++ F))|].
  intros ep s1 (Hs1 & He1 & Hm1 & Hf).
  assert (Hc : (1 <= count p ([p] ++ F))%nat) by (cbn [app]; rewrite count_cons, one_refl; lia).
  destruct (sound_live _ _ _ _ p Hs) as [pk Hpk]; [lia|].
  assert (Hne : p ≠ ep) by congruence.
  eapply wp_run; [unfold HDR; by rewrite Hm1, lookup_insert_ne, Hpk by done|].
  assert (Hep : pkts s1 !! ep = Some (ns_blank (ns_opts s))) by by rewrite Hm1, lookup_insert_eq.
  apply wp_bind. unfold hdr_modify. eapply wp_run; [unfold HDR; by rewrite Hep|]. apply wp_modify, wp_ret.
  set (pk' := mk_packet _ _ _ _ _ _ _ _ _ _ _ _ _). split; [|done].
  destruct Hs1 as [Ho He Hl Hm Hp Hb Hco]. split; try done.
  - intros q. specialize (Ho q). pose proof (wrapped_insert q _ _ _ pk' Hep) as Hw.
    unfold inside in Hw. rewrite (proj1 (so_blank _ _ _ _ Hs)) in Hw. cbn [pk' hdr_encap] in Hw.
    unfold live, held in *. cbn [pkts set_pkts ns_head ifqueue app] in *. rewrite !count_cons in *.
    destruct (decide (q = ep)) as [->|Hq]; [rewrite lookup_insert_eq; rewrite Hep in Ho; lia|].
    rewrite lookup_insert_ne by done. lia.
  - intros q pk2. cbn [pkts set_pkts]. destruct (decide (q = ep)) as [->|Hq].
    + rewrite lookup_insert_eq. intros [= <-] _. by eexists.
    + rewrite lookup_insert_ne by done. apply (He q).
Qed.

Lemma settles_decapsulate k s p F pk :
  sound ks k (p :: F) s → pkts s !! p = Some pk → ch_ptype pk = PT_ENCAPSULATED →
  wp buf_ub (pkt_decapsulate p) (λ o s', (∃ q, o = Some q ∧ sound ks k (q :: F) s') ∧ view b c s' = view b c s) s.
Proof.
  intros Hs Hpk Hty. destruct (so_encap _ _ _ _ Hs p pk Hpk Hty) as [q Hq]. unfold pkt_decapsulate.
  eapply wp_run; [unfold HDR; by rewrite Hpk|]. rewrite bool_decide_true by done.
  unfold hdr_modify. apply wp_bind. eapply wp_run; [unfold HDR; by rewrite Hpk|]. apply wp_modify, wp_bind.
  set (m := <[p := set_encap None pk]> (pkts s)).
  assert (Hm : m !! p = Some (set_encap None pk)) by apply lookup_insert_eq.
  unfold Packet_free, give. eapply wp_run; [unfold HDR; cbn [pkts set_pkts]; by rewrite Hm|].
  apply wp_bind, wp_gets, wp_bind. cbn [pkts set_pkts].
  destruct (size m) as [|n] eqn:Hn; [apply map_size_empty_inv in Hn; by rewrite Hn in Hm|]. cbn [hand_over].
  eapply wp_run; [unfold HDR; cbn [pkts set_pkts]; by rewrite Hm|]. cbn [set_encap hdr_encap].
  apply wp_bind, wp_modify, wp_ret, wp_modify, wp_ret. split; [|done]. exists q. split; [done|].
  pose proof (sound_delete _ _ _ _ _ Hs Hpk) as Hd. rewrite Hq in Hd. cbn [option_list app] in Hd.
  destruct Hd as [Ho He Hl Hx Hp Hb Hco]. unfold live, held in *. cbn [pkts set_pkts ns_head ifqueue] in *.
  split; unfold live, held; cbn [pkts set_pkts ns_head ifqueue note_event]; unfold m;
    rewrite ?delete_insert_eq; done.
Qed.
End judgement.

Lemma view_weaken b c b' c' (s s' : agent) :
  (b' = true → b = true) → (c' = true → c = true) → view b c s' = view b c s → view b' c' s' = view b' c' s.
Proof.
  intros Hb Hc Hv. pose proof (f_equal (fst ∘ fst) Hv : settings _ = settings _) as H1.
  pose proof (f_equal (snd ∘ fst) Hv) as H2. pose proof (f_equal snd Hv) as H3. cbn in H2, H3.
  unfold view. rewrite H1. f_equal; [f_equal|].
  - destruct b'; [|done]. by rewrite (Hb eq_refl) in H2.
  - destruct c'; [|done]. by rewrite (Hc eq_refl) in H3.
Qed.

Lemma sound_sub ks ks' k ins s : ks ⊆ ks' → sound ks' k ins s → sound ks k ins s.
Proof.
  intros Hk [Ho He Hl Hm Hp Hb [Hi Hc]]. split; try done. split; [done|].
  unfold live_all in *. rewrite Forall_forall in *. auto.
Qed.

(** A route that is found is in the table. *)
Lemma settles_find {A} b c ks ins d (f : option rt_table_t → NM A) outs :
  settles b c ks ins (f None) outs →
  (∀ e, rt_dest_addr e = d → settles b c (d :: ks) ins (f (Some e)) outs) →
  settles b c ks ins (bind (ns_rt_find d) f) outs.
Proof.
  intros Hn Hf k s F Hk Hs. apply wp_bind, wp_gets. destruct (so_core _ _ _ _ Hs) as [Hi Hl].
  rewrite find_entry_lookup by apply Hi. destruct (rt_lookup (rt_tbl (core s)) d) as [e|] eqn:He; [|by apply Hn].
  eapply wp_mono; [apply (Hf e (rt_lookup_dest _ _ _ He) k s F Hk)|].
  - destruct Hs as [Ho Hx Hq Hm Hp Hb _]. split; try done. split; [done|]. constructor; [by exists e|done].
  - intros a s' [Hs' Hv]. split; [|done]. eapply sound_sub; [|exact Hs']. set_solver.
Qed.

(** ** The packet queue *)

Section queue.
Context (ks : list Z).

(** An entry leaves the queue, and its packet is in hand. *)
Lemma sound_dequeue k (s : agent) F kept q l n :
  sound ks k F s → ns_head s = kept ++ q :: l →
  (∀ p, live p (set_queue (kept ++ l) n s) =
    (count p (held (set_queue (kept ++ l) n s)) + wrapped p (pkts s) + count p (nq_p q :: F))%nat).
Proof.
  intros Hs Hh p. pose proof (so_own _ _ _ _ Hs p) as Ho. unfold live, held in *. cbn [pkts ns_head ifqueue set_queue].
  rewrite Hh, !fmap_app, fmap_cons in Ho. rewrite fmap_app. rewrite !count_app, ?count_cons in *. lia.
Qed.

(** The loops that settle the packets of the selected entries. *)
Lemma settles_ns_drain sel act l : ∀ kept n (s : agent) F,
  (∀ q n, q ∈ l → sel q = true → settles true true ks [nq_p q] (act q n) (λ _, [])) →
  (∀ q n s go s', act q n s = Ok go s' → go = true) →
  sound ks 0 F s → ns_head s = kept ++ l →
  wp buf_ub (ns_drain sel act l kept n) (λ r s',
    sound ks 0 F s' ∧ view false true s' = view false true s ∧
    ns_head s' = kept ++ filter (λ q, sel q = false) l ∧
    r = n + Z.of_nat (length (filter (λ q, sel q = true) l))) s.
Proof.
  induction l as [|q l IH]; intros kept n s F Hact Hgo Hs Hh; cbn [ns_drain].
  - apply wp_ret. split_and!; [done|done|done|]. cbn. lia.
  - destruct (sel q) eqn:Hq.
    2:{ eapply wp_mono; [apply (IH (kept ++ [q])); [|done|done|by rewrite <- app_assoc]|].
        - intros q' m Hin. apply Hact. by right.
        - intros r s' (? & ? & Hk & ->). rewrite filter_cons_True, filter_cons_False by congruence.
          split_and!; [done|done| |done].
          by rewrite Hk, <- app_assoc. }
    apply wp_bind, wp_modify, wp_bind.
    assert (Hs1 : sound ks 1 ([nq_p q] ++ F) (set_queue (kept ++ l) (ns_len s) s)).
    { pose proof (sound_dequeue 0 s F kept q l (ns_len s) Hs Hh) as Hd. destruct Hs as [Ho He Hl Hm Hp Hb Hco].
      split; try done. cbn [ns_len ns_head set_queue]. rewrite Hl, Hh, !length_app. simpl length. lia. }
    eapply wp_mono; [apply wp_also; [apply (Hact q n ltac:(by left) Hq 1); [done|exact Hs1]|apply Hgo]|].
    intros go s2 ((Hs2 & [= H1 H2 H3 H4 H5 H6]) & ->). cbn [negb]. apply wp_bind, wp_modify.
    assert (Hs3 : sound ks 0 F (set_queue (ns_head s2) (u32 (ns_len s2 - 1)) s2)).
    { destruct Hs2 as [Ho He Hl Hm Hp Hb Hco]. unfold MAX_QUEUE_LENGTH in *.
      assert (Hn : u32 (ns_len s2 - 1) = ns_len s2 - 1) by (apply u32_small; lia).
      split; unfold live, held in *; cbn [ns_len ns_head set_queue pkts ifqueue params ns_opts]; rewrite ?Hn; try done; unfold MAX_QUEUE_LENGTH; lia. }
    eapply wp_mono; [apply (IH kept); [|done|exact Hs3|]|].
    + intros q' m Hin. apply Hact. by right.
    + cbn [ns_head set_queue]. by rewrite H4.
    + intros r s' (Hs' & Hv & Hk & ->). rewrite filter_cons_False, filter_cons_True by congruence.
      cbn [length]. split_and!; [done| |done|lia].
      rewrite Hv. unfold view, settings. cbn. congruence.
Qed.

Lemma settles_queue_add p d : settles false true ks [p] (ns_packet_queue_add p d) (λ _, []).
Proof.
  intros k s F Hk Hs. specialize (Hk eq_refl) as ->. revert s F Hs. unfold ns_packet_queue_add.
  assert (Hadd : ∀ (s : agent) F, sound ks 0 ([p] ++ F) s → Z.of_nat (length (ns_head s)) < MAX_QUEUE_LENGTH →
    wp buf_ub (t ← on_core gettimeofday;
          modify (λ s, set_queue (ns_head s ++ [mk_ns_q_pkt d t p]) (u32 (ns_len s + 1)) s))
      (λ _ s', sound ks 0 F s' ∧ view false true s' = view false true s) s).
  { intros s F Hs Hlt. apply wp_bind.
    eapply wp_mono; [apply (settles_on_core true true ks Full ([p] ++ F) gettimeofday (safe_gettimeofday _ ks) 0 s []);
      [done|by rewrite app_nil_r]|].
    intros t s1 [Hs1 [= H1 H2 H3 H4 H5 H6]]. rewrite app_nil_r in Hs1. apply wp_modify.
    split; [|unfold view, settings; cbn; congruence]. rewrite <- H4 in Hlt. clear s Hs H1 H2 H3 H4 H5 H6.
    destruct Hs1 as [Ho He Hl Hm Hp Hb Hco]. rename s1 into s.
    unfold MAX_QUEUE_LENGTH in *. assert (Hn : u32 (ns_len s + 1) = ns_len s + 1) by (apply u32_small; lia).
    split; unfold live, held in *; cbn [ns_len ns_head set_queue pkts ifqueue params ns_opts]; rewrite ?Hn; try done.
    - intros q. specialize (Ho q). cbn [app] in Ho. rewrite fmap_app, !count_app, ?count_cons in *. cbn. rewrite Ho. lia.
    - rewrite length_app. simpl. lia.
    - unfold MAX_QUEUE_LENGTH. lia. }
  intros s F Hs. assert (Hc : (1 <= count p ([p] ++ F))%nat) by (cbn [app]; rewrite count_cons, one_refl; lia).
  destruct (sound_live _ _ _ _ p Hs) as [pk Hpk]; [lia|]. eapply wp_run; [unfold HDR; by rewrite Hpk|].
  destruct (ih_daddr pk =? d); [|done]. eapply wp_run; [done|]. apply wp_bind, wp_gets, wp_bind.
  destruct (MAX_QUEUE_LENGTH <=? ns_len s) eqn:Hfull; cbn [when].
  2:{ apply wp_ret, Hadd; [done|]. apply Z.leb_gt in Hfull. rewrite (so_len _ _ _ _ Hs) in Hfull. lia. }
  apply Z.leb_le in Hfull. apply wp_bind, wp_gets. destruct (ns_head s) as [|q l] eqn:Hh.
  { pose proof (so_len _ _ _ _ Hs) as Hl. rewrite Hh in Hl. unfold MAX_QUEUE_LENGTH in Hfull. simpl in Hl. lia. }
  apply wp_bind, wp_modify, wp_bind.
  assert (Hs1 : sound ks 1 ([nq_p q] ++ [p] ++ F) (set_queue l (ns_len s) s)).
  { pose proof (sound_dequeue 0 s ([p] ++ F) [] q l (ns_len s) Hs Hh) as Hd. destruct Hs as [Ho He Hl Hm Hp Hb Hco].
    split; try done. cbn [ns_len ns_head set_queue]. rewrite Hl, Hh. simpl length. lia. }
  eapply wp_mono; [apply (settles_drop true true ks _ _ 1 _ ([p] ++ F)); [done|exact Hs1]|].
  intros _ s2 (Hs2 & [= H1 H2 H3 H4 H5 H6]). apply wp_modify.
  assert (Hlen : ns_len s = Z.of_nat (length (q :: l)) + 0) by (rewrite <- Hh; apply Hs).
  pose proof (so_max _ _ _ _ Hs) as Hmax. simpl length in Hlen. unfold MAX_QUEUE_LENGTH in *.
  assert (Hn : u32 (ns_len s - 1) = ns_len s - 1) by (apply u32_small; lia).
  eapply wp_mono; [apply Hadd|].
  - destruct Hs2 as [Ho He Hl Hm Hp Hb Hco]. rewrite H4 in *.
    split; unfold live, held in *; cbn [ns_len ns_head set_queue pkts ifqueue params ns_opts]; rewrite ?Hn, ?H4 in *; try done; unfold MAX_QUEUE_LENGTH; lia.
  - cbn [ns_head set_queue]. unfold MAX_QUEUE_LENGTH. lia.
  - intros [] s3 [Hs3 Hv]. split; [done|]. rewrite Hv. unfold view, settings. cbn. congruence.
Qed.
End queue.

(** ** What is handed over, in which order *)

Definition event_packet (ev : ns_event) : Z :=
  match ev with
  | NsDrop p _ _ | NsSchedule p _ _ | NsTarget p _ | NsFree p => p
  end.
(** The packets handed over so far, the last one first. *)
Definition handed (s : agent) : list Z := event_packet <$> ns_trace s.

(** [m] hands over the packets [l], in this order. *)
Definition hands {A} (l : list Z) (m : NM A) : Prop :=
  ∀ s a s', m s = Ok a s' → handed s' = reverse l ++ handed s.

Lemma hands_bind {A B} l k (m : NM A) (f : A → NM B) :
  hands l m → (∀ a, hands k (f a)) → hands (l ++ k) (bind m f).
Proof.
  intros Hm Hf s b s' (a & s1 & R1 & R2)%bind_inv.
  by rewrite (Hf _ _ _ _ R2), (Hm _ _ _ R1), reverse_app, app_assoc.
Qed.
Lemma hands_quiet {A B} l (m : NM A) (f : A → NM B) :
  hands [] m → (∀ a, hands l (f a)) → hands l (bind m f).
Proof. intros Hm Hf. by apply (hands_bind [] l). Qed.
Lemma hands_last {A} l (m : NM ()) (a : A) : hands l m → hands l (m ;; ret a).
Proof. intros Hm s b s' ([] & s1 & R1 & [= _ <-])%bind_inv. by rewrite (Hm _ _ _ R1). Qed.
Lemma hands_ret {A} (a : A) : hands [] (ret a).
Proof. by intros s b s' [= _ <-]. Qed.
Lemma hands_gets {A} (f : agent → A) : hands [] (gets f).
Proof. by intros s b s' [= _ <-]. Qed.
Lemma hands_modify f : (∀ s, handed (f s) = handed s) → hands [] (modify f).
Proof. intros Hf s b s' [= _ <-]. by rewrite Hf. Qed.
Lemma hands_HDR p : hands [] (HDR p).
Proof. intros s pk s'. unfold HDR. destruct (pkts s !! p); [by intros [= _ <-]|done]. Qed.
Lemma hands_hdr_modify p f : hands [] (hdr_modify p f).
Proof. apply hands_quiet; [apply hands_HDR|]. intros pk. by apply hands_modify. Qed.

(** Shared code that sends no message. *)
Lemma on_core_quiet {A} (m : M A) s a s' : frames trace m → on_core m s = Ok a s' → ∃ c, s' = set_core c s.
Proof.
  intros Hm. unfold on_core. specialize (Hm (core s)).
  destruct (m (core s)) as [r c| |] eqn:R; [|done|done].
  assert (Ht : trace c = trace (core s)) by by apply (Hm r c).
  unfold new_events. rewrite Ht, Nat.sub_diag. cbn. intros [= _ <-]. by exists c.
Qed.

Lemma hands_over fuel : ∀ p, hands [] (hand_over fuel p).
Proof.
  induction fuel as [|fuel IH]; intros p; [done|]. cbn [hand_over].
  apply hands_quiet; [apply hands_HDR|]. intros pk. apply hands_quiet; [by apply hands_modify|]. intros _.
  destruct (hdr_encap pk); [apply IH|apply hands_ret].
Qed.

Lemma hands_give p ev : (∀ pk, event_packet (ev pk) = p) → hands [p] (give p ev).
Proof.
  intros Hev. unfold give. apply hands_quiet; [apply hands_HDR|]. intros pk.
  apply hands_quiet; [apply hands_gets|]. intros n. apply hands_quiet; [apply hands_over|]. intros _.
  intros s a s' [= _ <-]. unfold handed. cbn. by rewrite Hev.
Qed.

Lemma hands_drop p why : hands [p] (drop p why).
Proof. by apply hands_give. Qed.

Lemma hands_sendPacket p next d : hands [p] (sendPacket p next d).
Proof.
  unfold sendPacket. apply hands_quiet; [apply hands_HDR|]. intros pk.
  apply hands_quiet; [apply hands_gets|]. intros me s u s' (ok & s1 & R1 & R2)%bind_inv.
  assert (H1 : handed s1 = (if ok then [] else [p]) ++ handed s).
  { assert (Hd : ∀ why s ok s1, (drop p why ;; ret false) s = Ok ok s1 → handed s1 = (if ok then [] else [p]) ++ handed s).
    { intros why t ok' t' ([] & t1 & Rd & [= <- <-])%bind_inv. by rewrite (hands_drop _ _ _ _ _ Rd). }
    destruct (_ && _) in R1.
    - apply bind_inv in R1 as ([] & s2 & Rm & R1). rewrite <- (hands_hdr_modify _ _ _ _ _ Rm : handed s2 = handed s).
      destruct (_ <? 1); [by eapply Hd|]. apply bind_inv in R1 as ([] & s3 & Rm2 & [= <- <-]).
      by rewrite (hands_hdr_modify _ _ _ _ _ Rm2).
    - destruct (_ && _) in R1; [by injection R1 as <- <-|by eapply Hd]. }
  destruct ok; cbn [negb] in R2; [|injection R2 as _ <-; by rewrite H1].
  assert (Hs : hands [p] (if ih_daddr pk =? AODV_BROADCAST then
      hdr_modify p (λ pk, set_hops 0 me false (ch_failure pk) pk) ;; n ← random_uniform; schedule p (Jitter n)
    else o ← gets (λ s, opts (core s));
      hdr_modify p (λ pk, set_hops next me true (if llfeedback o then true else ch_failure pk) pk) ;; schedule p d)).
  { destruct (ih_daddr pk =? AODV_BROADCAST).
    - apply hands_quiet; [apply hands_hdr_modify|]. intros _. apply hands_quiet; [|intros n; by apply hands_give].
      apply hands_quiet; [apply hands_gets|]. intros n. apply hands_last. by apply hands_modify.
    - apply hands_quiet; [apply hands_gets|]. intros o. apply hands_quiet; [apply hands_hdr_modify|].
      intros _. by apply hands_give. }
  by rewrite (Hs _ _ _ R2), H1.
Qed.

Lemma hands_ns_drain sel act l : ∀ kept n (s : agent) r s',
  (∀ q n, hands [nq_p q] (act q n)) → (∀ q n s go s', act q n s = Ok go s' → go = true) →
  ns_drain sel act l kept n s = Ok r s' →
  handed s' = reverse (nq_p <$> filter (λ q, sel q = true) l) ++ handed s.
Proof.
  induction l as [|q l IH]; intros kept n s r s' Hact Hgo R; cbn [ns_drain] in R; [by injection R as _ <-|].
  destruct (sel q) eqn:Hq.
  - apply bind_inv in R as ([] & s1 & [= <-] & R). apply bind_inv in R as (go & s2 & Ra & R).
    pose proof (Hgo _ _ _ _ _ Ra) as ->. cbn [negb] in R. apply bind_inv in R as ([] & s3 & [= <-] & R).
    rewrite (IH _ _ _ _ _ Hact Hgo R), filter_cons_True by done.
    rewrite fmap_cons, reverse_cons, <- app_assoc.
    change (handed (set_queue _ _ s2)) with (handed s2). by rewrite (Hact _ _ _ _ _ Ra).
  - rewrite (IH _ _ _ _ _ Hact Hgo R). by rewrite filter_cons_False by congruence.
Qed.
