(* ===== verification/NsAgent.v ===== *)
(** * sim/aodv-uu.cc and packet_input.cc: the routing agent of the ns-2 port

    Reception, the decision about data packets, and the reaction to failed transmissions, with
    the routing table, the timers, route discovery, local repair and error messages of the
    daemon's own definitions ([on_core]).  Left out are [scheduleNextEvent], the last call of
    [recv], [packetFailed] and [startAODVUUAgent], which runs the timers that are due, and
    the processing of a received AODV message ([recv] returns the message).
    The theorems: whatever the agent is handed, it settles every packet exactly once. *)

From S2P Require Import Prelude.
From S2P Require Import Params.
From S2P Require Import TimerQueue.
From S2P Require Import State.
From S2P Require Import RtTable.
From S2P Require Import Inv.
From S2P Require Import Frame.
From S2P Require Import SeekList.
From S2P Require Import Socket.
From S2P Require Import Rerr.
From S2P Require Import Rrep.
From S2P Require Import Rreq.
From S2P Require Import Daemon.
From S2P Require Import Ns.
From S2P Require Import NsOwn.

#[local] Open Scope cm_scope.

Definition TTL_START_LLF : Z := 1.
Definition DELETE_PERIOD_LLF : Z := ACTIVE_ROUTE_TIMEOUT_LLF.

Inductive ifq_action := IFQ_BUFFER | IFQ_DROP | IFQ_DROP_BY_DEST.

#[local] Abbreviation NM := (CM agent).

(** ** The interface queue *)

(** [PriQueue::filter(nsaddr_t)]: the first packet to the next hop leaves the queue; [kept] are
    those before it. *)
Fixpoint PriQueue_filter (l kept : list Z) (next_hop : Z) : NM (option Z) :=
  match l with
  | [] => ret None
  | p :: l =>
      pk ← HDR p;
      if ch_next_hop pk =? next_hop then
        modify (set_ifqueue (Some (kept ++ l))) ;; ret (Some p)
      else PriQueue_filter l (kept ++ [p]) next_hop
  end.

(** [PriQueue::filter(PacketFilter, void * )] with [ifqueue_filter_on_dest]: the packets to
    [addr] are taken out of the queue. *)
Fixpoint PriQueue_filter_dest (l kept : list Z) (addr : Z) : NM () :=
  match l with
  | [] => modify (set_ifqueue (Some kept))
  | p :: l =>
      pk ← HDR p;
      PriQueue_filter_dest l (if ih_daddr pk =? addr then kept else kept ++ [p]) addr
  end.

(** The [while] loops of [interfaceQueue]; every turn takes a packet off the queue, so one
    turn more than it has packets is enough. *)
Fixpoint ifq_loop (fuel : nat) (addr : Z) (act : Z → NM ()) : NM () :=
  match fuel with
  | O => undefined OutOfFuel
  | S fuel =>
      q ← gets ifqueue;
      p ← PriQueue_filter (default [] q) [] addr;
      match p with
      | None => ret ()
      | Some p => act p ;; ifq_loop fuel addr act
      end
  end.

Definition interfaceQueue (addr : Z) (action : ifq_action) : NM () :=
  q ← gets ifqueue;
  match q with
  | None => ret ()
  | Some l =>
      match action with
      | IFQ_DROP => ifq_loop (S (length l)) addr (λ p, drop p (Some DROP_RTR_NO_ROUTE))
      | IFQ_DROP_BY_DEST => PriQueue_filter_dest l [] addr
      | IFQ_BUFFER =>
          ifq_loop (S (length l)) addr
            (λ p, pk ← HDR p; ns_packet_queue_add p (ih_daddr pk))
      end
  end.

(** ** sim/packet_input.cc *)

Definition unusable (rt : option rt_table_t) : bool :=
  match rt with
  | None => true
  | Some e => (rt_state e =? INVALID) || ((rt_hcnt e =? 1) && has (rt_flags e) RT_UNIDIR)
  end.
Definition under_repair (rt : option rt_table_t) : bool :=
  match rt with None => false | Some e => has (rt_flags e) RT_REPAIR end.

(** The part that makes a RERR and drops the packet. *)
Definition reject_packet (p dest_addr : Z) (fwd_rt rev_rt : option rt_table_t) : NM () :=
  match fwd_rt with
  | Some e =>
      on_core (rerr_create 0 (rt_dest_addr e) (rt_dest_seqno e)) ;;
      o ← get_params;
      on_core (rt_table_update_timeout (rt_dest_addr e) (ns_delete_period o))
  | None => on_core (rerr_create 0 dest_addr 0)
  end ;;
  let rerr_dest :=
    match rev_rt with
    | Some e => if rt_state e =? VALID then rt_next_hop e else AODV_BROADCAST
    | None => AODV_BROADCAST
    end in
  on_core (n ← rerr_dest_count; aodv_socket_send rerr_dest (RERR_CALC_SIZE n) 1 NS_DEV_NR) ;;
  w ← gets (λ s, wait_on_reboot (core s));
  when w (o ← get_params; on_core (set_timeout WorbTimer (ns_delete_period o))) ;;
  drop p (Some DROP_RTR_NO_ROUTE).

(** From the label [route_discovery] on. *)
Definition buffer_packet (p dest_addr src_addr rreq_flags : Z) (fwd_rt : option rt_table_t) : NM () :=
  ns_packet_queue_add p dest_addr ;;
  match fwd_rt with
  | Some e =>
      if has (rt_flags e) RT_REPAIR then on_core (rreq_local_repair (rt_dest_addr e) src_addr)
      else on_core (rreq_route_discovery dest_addr rreq_flags)
  | None => on_core (rreq_route_discovery dest_addr rreq_flags)
  end.

(** The last part: [p] is addressed to [dest_addr]. *)
Definition route_packet (p dest_addr src_addr rreq_flags : Z) (fwd_rt rev_rt : option rt_table_t) : NM () :=
  on_core (rt_table_update_route_timeouts (rt_dest_addr <$> fwd_rt) (rt_dest_addr <$> rev_rt)) ;;
  me ← gets ipaddr;
  pk ← HDR p;
  if dest_addr =? me then
    hdr_modify p (set_size (ch_size pk - IP_HDR_LEN)) ;;
    target_recv p
  else if unusable fwd_rt then
    if under_repair fwd_rt then buffer_packet p dest_addr src_addr rreq_flags fwd_rt
    else if bool_decide (ch_direction pk = UP) then reject_packet p dest_addr fwd_rt rev_rt
    else buffer_packet p dest_addr src_addr rreq_flags fwd_rt
  else
    match fwd_rt with
    | None => undefined NullDeref
    | Some e =>
        sendPacket p (rt_next_hop e) (After 0) ;;
        t ← on_core gettimeofday;
        on_core (modify (λ c, set_this_host (set_fwd_time t (this_host c)) c)) ;;
        o ← gets (λ s, opts (core s));
        when (negb (llfeedback o) && optimized_hellos o) (on_core hello_start)
    end.

Definition processPacket (p : Z) : NM () :=
  pk ← HDR p;
  let src_addr := ih_saddr pk in
  let dest_addr := ih_daddr pk in
  if bool_decide (ch_direction pk = NONE) then drop p None else
  let rreq_flags := if bool_decide (ch_ptype pk = PT_TCP) then RREQ_GRATUITOUS else 0 in
  if (dest_addr =? IP_BROADCAST) || (dest_addr =? AODV_BROADCAST) then
    if bool_decide (ch_direction pk = DOWN) then sendPacket p dest_addr (After 0)
    else target_recv p
  else
    rev_rt ← ns_rt_find src_addr;
    fwd_rt ← ns_rt_find dest_addr;
    match fwd_rt with
    | Some e =>
        if (rt_state e =? VALID) && has (rt_flags e) RT_INET_DEST then
          o ← get_params;
          on_core (rt_table_update_timeout (rt_dest_addr e) (ns_active_route_timeout o)) ;;
          ep ← pkt_encapsulate p (rt_next_hop e);
          match ep with
          | None => cexit (-1)
          | Some ep =>
              fwd_rt ← ns_rt_find (rt_next_hop e);
              route_packet ep (rt_next_hop e) src_addr rreq_flags fwd_rt rev_rt
          end
        else route_packet p dest_addr src_addr rreq_flags fwd_rt rev_rt
    | None => route_packet p dest_addr src_addr rreq_flags None rev_rt
    end.

(** ** Failed transmissions *)

(** From the label [drop] on. *)
Definition drop_failed (p next_hop : Z) : NM () :=
  drop p (Some DROP_RTR_MAC_CALLBACK) ;;
  interfaceQueue next_hop IFQ_DROP.

Definition is_data (t : ptype) : bool :=
  match t with PT_TCP | PT_DATA | PT_PING | PT_ENCAPSULATED => true | _ => false end.

(** [packetFailed] up to its label [end]. *)
Definition packetFailed (p : Z) : NM () :=
  pk ← HDR p;
  let dest_addr := ih_daddr pk in
  let next_hop := ch_next_hop pk in
  if negb (is_data (ch_ptype pk)) || (dest_addr =? IP_BROADCAST) || (dest_addr =? AODV_BROADCAST)
  then drop p (Some DROP_RTR_MAC_CALLBACK) else
  sought ← gets (λ s, bool_decide (is_Some (seek_lookup (seekhead (core s)) dest_addr)));
  if sought then ns_packet_queue_add p dest_addr else
  rt_next_hop_ ← ns_rt_find next_hop;
  rt ← ns_rt_find dest_addr;
  match rt_next_hop_, rt with
  | Some n, Some e =>
      if (rt_state n =? INVALID) || (rt_state e =? INVALID) then drop_failed p next_hop else
      if negb (rt_next_hop e =? next_hop) then drop p (Some DROP_RTR_MAC_CALLBACK) else
      o ← gets (λ s, opts (core s));
      if local_repair o && (rt_hcnt e <=? MAX_REPAIR_TTL) then
        ns_packet_queue_add p dest_addr ;;
        interfaceQueue next_hop IFQ_BUFFER ;;
        on_core (rt_modify next_hop (λ e, set_rt_flags (Z.lor (rt_flags e) RT_REPAIR) e)) ;;
        on_core (neighbor_link_break next_hop) ;;
        on_core (rreq_local_repair dest_addr (ih_saddr pk))
      else
        on_core (neighbor_link_break next_hop) ;;
        drop_failed p next_hop
  | _, _ => drop_failed p next_hop
  end.

(** ** Reception *)

(** What [aodv_socket_process_packet] is given of a received message. *)
Record aodv_message := mk_message {
  msg_bytes : list Z;
  msg_len : Z;
  msg_src : Z;
  msg_dst : Z;
  msg_ttl : Z
}.

(** [recvAODVUUPacket] of [network/aodv_socket.c], up to the processing: the message is copied and
    the packet freed before; what the node has sent itself is ignored. *)
Definition recvAODVUUPacket (p : Z) : NM (option aodv_message) :=
  pk ← HDR p;
  cassert (bool_decide (ch_ptype pk = PT_AODVUU)) ;;
  cassert (bool_decide (ch_direction pk = UP)) ;;
  Packet_free p ;;
  local ← gets (λ s, is_local_source (core s) (ih_saddr pk));
  ret (if local : bool then None
       else Some (mk_message (hdr_aodvuu pk) (ch_size pk - IP_HDR_LEN) (ih_saddr pk) (ih_daddr pk) (ih_ttl pk))).

(** The gateway takes a packet out of its encapsulation. *)
Definition gateway_recv (p saddr : Z) : NM () :=
  rev ← ns_rt_find saddr;
  match rev with
  | Some e =>
      when (rt_state e =? VALID)
        (o ← get_params; refresh_both e (ns_active_route_timeout o))
  | None => ret ()
  end ;;
  q ← pkt_decapsulate p;
  match q with
  | Some q => target_recv q
  | None => undefined NullDeref
  end.

(** [recv] up to its label [end].  The result is the AODV message to process, if the packet
    was one. *)
Definition recv (p : Z) : NM (option aodv_message) :=
  pk ← HDR p;
  i ← gets initialized;
  cassert i ;;
  me ← gets ipaddr;
  go ← (if ih_saddr pk =? me then
          if ch_num_forwards pk =? 0 then
            hdr_modify p (λ pk, set_size (ch_size pk + IP_HDR_LEN) (set_direction DOWN pk)) ;; ret true
          else drop p (Some DROP_RTR_ROUTE_LOOP) ;; ret false
        else hdr_modify p (set_direction UP) ;; ret true);
  if negb go then ret None else
  o ← gets ns_opts;
  match ch_ptype pk with
  | PT_AODVUU => recvAODVUUPacket p
  | PT_ENCAPSULATED =>
      (if ns_internet_gw_mode o then gateway_recv p (ih_saddr pk) else processPacket p) ;; ret None
  | _ => processPacket p ;; ret None
  end.

(** ** Start and end *)

(** The constructor, as far as the port goes: an empty queue and no settings. *)
Definition AODVUU : NM () := ns_packet_queue_init.

(** The result is [TCL_OK] (0) or [TCL_ERROR] (1); up to the last [scheduleNextEvent]. *)
Definition startAODVUUAgent : NM Z :=
  i ← gets initialized;
  if i then ret 1 else
  w ← gets (λ s, wait_on_reboot (core s));
  when w (on_core (on_tq (timer_init WorbTimer wait_on_reboot_timeout)) ;;
          v ← get_params;
          on_core (set_timeout WorbTimer (ns_delete_period v))) ;;
  o ← gets (λ s, opts (core s));
  when (negb (llfeedback o) && negb (optimized_hellos o)) (on_core hello_start) ;;
  when (negb (rt_log_interval o =? 0))
    (on_core (on_tq (timer_init RtLogTimer print_rt_table) ;; set_timeout RtLogTimer (rt_log_interval o))) ;;
  modify (set_initialized true) ;;
  modify (set_params (Some (if llfeedback o
    then mk_ns_params ACTIVE_ROUTE_TIMEOUT_LLF TTL_START_LLF DELETE_PERIOD_LLF
    else mk_ns_params ACTIVE_ROUTE_TIMEOUT_HELLO TTL_START_HELLO DELETE_PERIOD_HELLO))) ;;
  ret 0.

(** ** Every packet is settled *)

(** The operations of [NsOwn.v] under the weakest frame. *)
Lemma s_send ks p next d : settles false false ks [p] (sendPacket p next d) (λ _, []).
Proof. apply settles_sendPacket. Qed.
Lemma s_drop ks p why : settles false false ks [p] (drop p why) (λ _, []).
Proof. apply settles_drop. Qed.
Lemma s_add ks p d : settles false false ks [p] (ns_packet_queue_add p d) (λ _, []).
Proof.
  intros k s F Hk Hs. eapply wp_mono; [exact (settles_queue_add ks p d k s F Hk Hs)|]. intros a s' [Hs' Hv].
  split; [exact Hs'|]. eapply (view_weaken false true); [| |exact Hv]; done.
Qed.

(** One packet of the interface queue comes in hand. *)
Lemma filter_settles ks a l : ∀ kept k (s : agent) F,
  sound ks k F s → ifqueue s = Some (kept ++ l) →
  wp buf_ub (PriQueue_filter l kept a) (λ o s',
    match o with
    | None => s' = s
    | Some p => sound ks k ([p] ++ F) s' ∧ view true false s' = view true false s ∧
                ∃ l', ifqueue s' = Some l' ∧ (length l' < length (kept ++ l))%nat
    end) s.
Proof.
  induction l as [|p l IH]; intros kept k s F Hs Hq; cbn [PriQueue_filter]; [by apply wp_ret|].
  assert (Hc : (1 <= count p (held s))%nat).
  { unfold held. rewrite Hq. cbn [default id from_option]. rewrite !count_app, count_cons, one_refl. lia. }
  destruct (sound_live _ _ _ _ p Hs) as [pk Hpk]; [lia|]. eapply wp_run; [unfold HDR; by rewrite Hpk|].
  destruct (_ =? _).
  - apply wp_bind, wp_modify, wp_ret. split_and!; [|done|].
    + destruct Hs as [Ho He Hl Hm Hp Hb Hco]. split; try done. intros q. specialize (Ho q). unfold live, held in *.
      cbn [pkts set_ifqueue ns_head ifqueue] in *. rewrite Hq in Ho. cbn [default id from_option app] in *.
      rewrite ?count_cons, ?count_app, ?count_cons in *. rewrite Ho. lia.
    + eexists. split; [done|]. rewrite !length_app. simpl. lia.
  - replace (kept ++ p :: l) with ((kept ++ [p]) ++ l) by by rewrite <- app_assoc.
    apply IH; [done|]. by rewrite <- app_assoc.
Qed.

Lemma ifq_loop_settles ks a act fuel : ∀ k (s : agent) F l,
  (∀ p, settles false true ks [p] (act p) (λ _, [])) → k = 0 →
  sound ks k F s → ifqueue s = Some l → (length l < fuel)%nat →
  wp buf_ub (ifq_loop fuel a act) (λ _ s', sound ks k F s' ∧ view false false s' = view false false s) s.
Proof.
  induction fuel as [|fuel IH]; intros k s F l Hact Hk Hs Hq Hn; [lia|]. cbn [ifq_loop].
  apply wp_bind, wp_gets, wp_bind. rewrite Hq. cbn [default id from_option].
  eapply wp_mono; [by apply (filter_settles ks a l [] k s F)|]. intros [p|] s1; [|by intros ->].
  intros (Hs1 & Hv1 & l' & Hq1 & Hlen). apply wp_bind.
  eapply wp_mono; [exact (Hact p k s1 F (λ _, Hk) Hs1)|]. intros [] s2 [Hs2 Hv2].
  assert (Hq2 : ifqueue s2 = Some l') by (rewrite <- Hq1; by injection Hv2).
  eapply wp_mono; [apply (IH k s2 F l'); [done|done|done|done|cbn in Hlen; lia]|].
  intros [] s3 [Hs3 Hv3]. split; [done|]. rewrite Hv3.
  trans (view false false s1); [apply (view_weaken false true)|apply (view_weaken true false)]; done.
Qed.

(** Dropping or buffering what waits in the interface queue. *)
Lemma interfaceQueue_settles ks a action :
  action ≠ IFQ_DROP_BY_DEST → settles false false ks [] (interfaceQueue a action) (λ _, []).
Proof.
  intros Hact k s F Hk Hs. unfold interfaceQueue. apply wp_bind, wp_gets.
  destruct (ifqueue s) as [l|] eqn:Hq; [|by apply wp_ret].
  destruct action; [| |done];
    (eapply wp_mono; [eapply ifq_loop_settles; [|by apply Hk|exact Hs|exact Hq|lia]|by intros [] s' ?]).
  - intros p. apply settles_HDR; [by left|]. intros pk. apply settles_queue_add.
  - intros p. apply settles_drop.
Qed.

(** With another packet in hand. *)
Lemma settles_call {A} ks ins (m : NM ()) (f : NM A) outs :
  settles false false ks [] m (λ _, []) → settles false false ks ins f outs →
  settles false false ks ins (m ;; f) outs.
Proof.
  intros Hm Hf. apply settles_seq; [|done]. intros k s F Hk Hs. exact (Hm k s (ins ++ F) Hk Hs).
Qed.

(** Runs the shared code: the routes that it needs are found. *)
Ltac core_step := apply (settles_on_core _ _ _ Full); safe_go.

(** The route, if any, is in the table. *)
Definition known (ks : list Z) (o : option rt_table_t) : Prop := option_list (rt_dest_addr <$> o) ⊆ ks.
Lemma known_None ks : known ks None.
Proof. apply list_subseteq_nil. Qed.
Lemma known_Some ks e : rt_dest_addr e ∈ ks → known ks (Some e).
Proof. unfold known. set_solver. Qed.
Lemma known_elem ks e : known ks (Some e) → rt_dest_addr e ∈ ks.
Proof. unfold known. set_solver. Qed.

Lemma reject_settles ks p d fwd rev :
  known ks fwd → settles false false ks [p] (reject_packet p d fwd rev) (λ _, []).
Proof.
  intros Hf. unfold reject_packet. apply settles_seq.
  { destruct fwd as [e|]; [|core_step]. assert (rt_dest_addr e ∈ ks) by by apply known_elem.
    apply settles_seq; [core_step|]. apply settles_params. intros v. core_step. }
  apply settles_seq; [core_step|]. apply settles_read. intros w.
  apply settles_seq; [|apply s_drop]. apply settles_when. intros _. apply settles_params. intros v. core_step.
Qed.

Lemma buffer_settles ks p d src f fwd :
  known ks fwd → settles false false ks [p] (buffer_packet p d src f fwd) (λ _, []).
Proof.
  intros Hf. unfold buffer_packet. apply settles_then; [apply s_add|].
  destruct fwd as [e|]; [|core_step]. assert (rt_dest_addr e ∈ ks) by by apply known_elem.
  destruct (has _ _); core_step.
Qed.

Lemma route_settles ks p d src f fwd rev :
  known ks fwd → known ks rev →
  settles false false ks [p] (route_packet p d src f fwd rev) (λ _, []).
Proof.
  intros Hf Hr. unfold route_packet. apply settles_seq.
  { apply (settles_on_core _ _ _ Full), safe_update_route_timeouts; done. }
  apply settles_read. intros me.
  apply settles_HDR; [by left|]. intros pk. destruct (d =? me).
  { apply settles_seq; [apply settles_hdr_modify; [by left|done]|apply settles_target]. }
  destruct (unusable fwd) eqn:Hu.
  - destruct (under_repair fwd); [by apply buffer_settles|].
    destruct (bool_decide _); [by apply reject_settles|by apply buffer_settles].
  - destruct fwd as [e|]; [|done]. apply settles_then; [apply s_send|].
    eapply (settles_bind _ _ _ _ _ _ (λ _, [])); [core_step|]. intros t.
    apply settles_seq; [core_step|]. apply settles_read. intros o.
    apply settles_when. intros _. core_step.
Qed.

Lemma process_settles ks p : settles false false ks [p] (processPacket p) (λ _, []).
Proof.
  unfold processPacket. apply settles_HDR; [by left|]. intros pk. destruct (bool_decide _); [apply s_drop|].
  destruct (_ || _). { destruct (bool_decide _); [apply s_send|apply settles_target]. }
  assert (Hgo : ∀ ks rev, known ks rev → settles false false ks [p]
    (fwd_rt ← ns_rt_find (ih_daddr pk);
     match fwd_rt with
     | Some e =>
         if (rt_state e =? VALID) && has (rt_flags e) RT_INET_DEST then
           o ← get_params;
           on_core (rt_table_update_timeout (rt_dest_addr e) (ns_active_route_timeout o)) ;;
           ep ← pkt_encapsulate p (rt_next_hop e);
           match ep with
           | None => cexit (-1)
           | Some ep =>
               fwd_rt ← ns_rt_find (rt_next_hop e);
               route_packet ep (rt_next_hop e) (ih_saddr pk)
                 (if bool_decide (ch_ptype pk = PT_TCP) then RREQ_GRATUITOUS else 0) fwd_rt rev
           end
         else route_packet p (ih_daddr pk) (ih_saddr pk)
           (if bool_decide (ch_ptype pk = PT_TCP) then RREQ_GRATUITOUS else 0) fwd_rt rev
     | None => route_packet p (ih_daddr pk) (ih_saddr pk)
         (if bool_decide (ch_ptype pk = PT_TCP) then RREQ_GRATUITOUS else 0) None rev
     end) (λ _, [])).
  { clear ks. intros ks rev Hr. apply settles_find; [by apply route_settles; [apply known_None|]|]. intros e He.
    assert (Hr' : ∀ d, known (d :: ks) rev) by (intros d; unfold known in *; set_solver).
    destruct (_ && _); [|apply route_settles; [apply known_Some; set_solver|done]].
    apply settles_params. intros v. assert (rt_dest_addr e ∈ ih_daddr pk :: ks) by set_solver.
    apply settles_seq; [core_step|]. eapply settles_bind; [apply settles_encapsulate|].
    intros [ep|]; [|apply settles_exit]. apply settles_find.
    - apply route_settles; [apply known_None|done].
    - intros g Hg. apply route_settles; [apply known_Some; set_solver|]. specialize (Hr' (ih_daddr pk)). unfold known in *; set_solver. }
  apply settles_find; [apply Hgo, known_None|]. intros r Hr. apply Hgo, known_Some. set_solver.
Qed.

Lemma drop_failed_settles ks p a : settles false false ks [p] (drop_failed p a) (λ _, []).
Proof. unfold drop_failed. apply settles_then; [apply s_drop|by apply interfaceQueue_settles]. Qed.

(** Refreshing a route and its next hop leaves the packets alone. *)
Lemma refresh_next_settles b c ks ins e v :
  rt_dest_addr e ∈ ks →
  settles b c ks ins (refresh_both e v) (λ _, ins).
Proof.
  intros He. unfold refresh_both. apply settles_seq; [core_step|]. apply settles_find; [by apply settles_ret|].
  intros n Hn. apply settles_when. intros _. assert (rt_dest_addr n ∈ rt_next_hop e :: ks) by set_solver. core_step.
Qed.

Lemma frames_trace_timeout k l : frames trace (rt_table_update_timeout k l).
Proof. unfold rt_table_update_timeout, timer_timeout_of. frame_go. Qed.

Lemma refresh_both_quiet e v s a s' : refresh_both e v s = Ok a s' → ∃ c, s' = set_core c s.
Proof.
  intros ([] & s1 & [c ->]%on_core_quiet & R)%bind_inv; [|apply frames_trace_timeout].
  apply bind_inv in R as (n & s2 & R2 & R). injection R2 as _ <-. destruct n as [n|]; [|injection R as _ <-; by exists c].
  destruct (_ && _); cbn [when] in R; [|injection R as _ <-; by exists c].
  apply on_core_quiet in R as [c' ->]; [by exists c'|apply frames_trace_timeout].
Qed.

(** The gateway: the way back is refreshed, and the packet inside goes to the wired side. *)
Lemma gateway_settles ks p a (s : agent) F pk :
  sound ks 0 ([p] ++ F) s → pkts s !! p = Some pk → ch_ptype pk = PT_ENCAPSULATED →
  wp buf_ub (gateway_recv p a) (λ _ s', sound ks 0 F s') s.
Proof.
  intros Hs Hpk Hty. unfold gateway_recv.
  assert (Hgo : ∀ s1 : agent, sound ks 0 ([p] ++ F) s1 → pkts s1 = pkts s →
    wp buf_ub (q ← pkt_decapsulate p; match q with Some q => target_recv q | None => undefined NullDeref end)
      (λ _ s', sound ks 0 F s') s1).
  { intros s1 Hs1 H1. apply wp_bind.
    eapply wp_mono; [eapply (settles_decapsulate true true ks 0 s1 p F pk Hs1); [by rewrite H1|done]|].
    intros o s2 [(q & -> & Hs2) _]. eapply wp_mono; [apply (settles_target true true ks q 0); [done|exact Hs2]|].
    by intros [] s3 [? _]. }
  apply wp_bind, wp_gets, wp_bind. destruct (so_core _ _ _ _ Hs) as [Hi Hl].
  rewrite find_entry_lookup by apply Hi. destruct (rt_lookup (rt_tbl (core s)) a) as [e|] eqn:He; [|by apply wp_ret, Hgo].
  destruct (rt_state e =? VALID); cbn [when]; [|by apply wp_ret, Hgo].
  destruct (so_params _ _ _ _ Hs) as [v Hv]. eapply wp_run; [unfold get_params; by rewrite Hv|].
  pose proof (rt_lookup_dest _ _ _ He) as Hd.
  assert (Hs' : sound (rt_dest_addr e :: ks) 0 ([p] ++ F) s).
  { destruct Hs as [Ho Hx Hq Hm Hp Hb _]. split; try done. split; [done|]. constructor; [rewrite Hd; by exists e|done]. }
  eapply wp_mono; [apply wp_also; [apply (refresh_next_settles true true (rt_dest_addr e :: ks) ([p] ++ F) e
    (ns_active_route_timeout v) ltac:(by left) 0 s []); [done|by rewrite app_nil_r]|apply refresh_both_quiet]|].
  intros [] s1 [[Hs1 _] [c ->]]. rewrite app_nil_r in Hs1. apply Hgo; [|done]. eapply sound_sub; [|exact Hs1]. set_solver.
Qed.
Lemma recv_message_settles ks p : settles false false ks [p] (recvAODVUUPacket p) (λ _, []).
Proof.
  unfold recvAODVUUPacket. apply settles_HDR; [by left|]. intros pk.
  do 2 (apply settles_seq; [apply settles_assert|]). apply settles_then; [apply settles_free|].
  apply settles_read. intros l. by apply settles_ret.
Qed.

(** The work that [recv] does once the direction of the packet is known. *)
Lemma recv_work_settles ks p s F pk o a :
  sound ks 0 (p :: F) s → pkts s !! p = Some pk →
  wp buf_ub (match ch_ptype pk with
     | PT_AODVUU => recvAODVUUPacket p
     | PT_ENCAPSULATED => (if ns_internet_gw_mode o then gateway_recv p a else processPacket p) ;; ret None
     | _ => processPacket p ;; ret None
     end) (λ _ s', sound ks 0 F s') s.
Proof.
  intros Hs Hpk.
  assert (Hall : ∀ {A} (m : NM A), settles false false ks [p] m (λ _, []) → wp buf_ub m (λ _ s', sound ks 0 F s') s).
  { intros A m Hm. eapply wp_mono; [exact (Hm 0 s F (λ _, eq_refl) Hs)|]. by intros r s' [? _]. }
  assert (Hp : wp buf_ub (processPacket p ;; ret (None : option aodv_message)) (λ _ s', sound ks 0 F s') s).
  { apply Hall. apply settles_then; [apply process_settles|by apply settles_ret]. }
  destruct (ch_ptype pk) eqn:Ht; [apply Hall, recv_message_settles| |exact Hp..].
  destruct (ns_internet_gw_mode o); [|exact Hp]. apply wp_bind.
  eapply wp_mono; [by apply (gateway_settles ks p a s F pk)|]. by intros [] s'.
Qed.

(** C23: every packet that the ns-2 agent receives is settled.  Whatever packet reaches [recv], from above or
    from the link layer, an AODV message, broadcast, for the node itself, to forward, without a
    route or encapsulated: up to the run of the timers at its end it is freed, delivered,
    scheduled, dropped or queued, and nothing is lost or used after it was handed over;
    afterwards every packet of the agent is again in exactly one place, the queue has its
    length and the routing tables, timers and lists of the shared code keep their invariant.
    Assertions of the port may abort, and an error message with too many destinations may
    overrun the send buffer. *)
Theorem recv_settles (p : Z) (s : agent) (F : list Z) :
  sound [] 0 (p :: F) s → wp buf_ub (recv p) (λ _ s', sound [] 0 F s') s.
Proof.
  intros Hs. assert (Hc : (1 <= count p (p :: F))%nat) by (rewrite count_cons, one_refl; lia).
  destruct (sound_live _ _ _ _ p Hs) as [pk Hpk]; [lia|].
  unfold recv. eapply wp_run; [unfold HDR; by rewrite Hpk|].
  apply wp_bind, wp_gets. destruct (initialized s); [|done]. eapply wp_run; [done|].
  apply wp_bind, wp_gets, wp_bind.
  assert (Hmod : ∀ f, (∀ pk, hdr_encap (f pk) = hdr_encap pk ∧ ch_ptype (f pk) = ch_ptype pk) →
    wp buf_ub (hdr_modify p f ;; ret true) (λ go s1, wp buf_ub (if negb go then ret None else
       o ← gets ns_opts;
       match ch_ptype pk with
       | PT_AODVUU => recvAODVUUPacket p
       | PT_ENCAPSULATED =>
           (if ns_internet_gw_mode o then gateway_recv p (ih_saddr pk) else processPacket p) ;; ret None
       | _ => processPacket p ;; ret None
       end) (λ _ s', sound [] 0 F s') s1) s).
  { intros f Hf. unfold hdr_modify. apply wp_bind. eapply wp_run; [unfold HDR; by rewrite Hpk|].
    apply wp_modify, wp_ret. cbn [negb]. apply wp_bind, wp_gets.
    rewrite <- (proj2 (Hf pk)). apply recv_work_settles; [|apply lookup_insert_eq].
    apply (sound_insert _ _ _ _ _ pk); [done|done|apply Hf|by rewrite (proj2 (Hf pk))]. }
  destruct (ih_saddr pk =? ipaddr s); [|by apply Hmod].
  destruct (ch_num_forwards pk =? 0); [by apply Hmod|].
  apply wp_bind. eapply wp_mono; [exact (s_drop [] p (Some DROP_RTR_ROUTE_LOOP) 0 s F (λ _, eq_refl) Hs)|].
  intros [] s1 [Hs1 _]. by do 2 apply wp_ret.
Qed.


(** Refreshing the routes. *)
Lemma refresh_settles ks d v rt :
  known ks rt → settles true true ks [] (ns_refresh d v None rt) (λ _, []).
Proof.
  intros Hk. unfold ns_refresh. destruct rt as [e|]; [|by apply settles_ret].
  apply settles_read. intros me. apply settles_when. intros _. apply settles_params. intros o.
  apply settles_seq; [by apply settles_ret|]. apply refresh_next_settles. by apply known_elem.
Qed.

Lemma refresh_hands d v rt : hands [] (ns_refresh d v None rt).
Proof.
  assert (Hp : hands [] get_params) by (intros s a s'; unfold get_params; destruct (params s); [by intros [= _ <-]|done]).
  unfold ns_refresh. destruct rt as [e|]; [|apply hands_ret].
  apply hands_quiet; [apply hands_gets|]. intros me. destruct (_ && _); cbn [when]; [|apply hands_ret].
  apply hands_quiet; [done|]. intros o. apply hands_quiet; [apply hands_ret|]. intros _.
  by intros s a s' [c ->]%refresh_both_quiet.
Qed.

(** The packets that waited for a destination are settled when the verdict falls: with a
    route they are sent and otherwise dropped, all of them, oldest first and no others,
    and their number is returned. *)
Theorem ns_set_verdict_exact (d v : Z) (s : agent) :
  sound [] 0 [] s → v = PQ_DROP ∨ v = PQ_SEND ∧ is_Some (find_entry (rt_tbl (core s)) d) →
  wp buf_ub (ns_packet_queue_set_verdict d v) (λ r s',
    sound [] 0 [] s' ∧ ns_head s' = filter (λ q, (nq_dest_addr q =? d) = false) (ns_head s) ∧
    r = Z.of_nat (length (filter (λ q, (nq_dest_addr q =? d) = true) (ns_head s))) ∧
    handed s' = reverse (nq_p <$> filter (λ q, (nq_dest_addr q =? d) = true) (ns_head s)) ++ handed s) s.
Proof.
  intros Hs Hv. unfold ns_packet_queue_set_verdict.
  assert (Hne : (v =? PQ_ENC_SEND) = false) by (by destruct Hv as [->|[-> _]]). rewrite Hne.
  eapply wp_run; [done|]. apply wp_bind, wp_gets, wp_bind, wp_gets, wp_bind.
  set (o := find_entry (rt_tbl (core s)) d) in *. set (act := ns_verdict v 0 o).
  assert (Hko : ∃ ks, known ks o ∧ sound ks 0 [] s).
  { destruct (so_core _ _ _ _ Hs) as [Hi _]. subst o. rewrite find_entry_lookup by apply Hi.
    destruct (rt_lookup _ d) as [e|] eqn:He; [|by exists []; split; [apply known_None|]].
    exists [rt_dest_addr e]. split; [apply known_Some; by left|].
    destruct Hs as [Ho Hx Hq Hm Hp Hb _]. split; try done. split; [done|].
    constructor; [|constructor]. rewrite (rt_lookup_dest _ _ _ He). by exists e. }
  clear Hs. destruct Hko as (ks & Hk & Hs).
  assert (Hgo : ∀ q n s1 go s2, act q n s1 = Ok go s2 → go = true).
  { intros q n s1 go s2. unfold act, ns_verdict. destruct Hv as [->|[-> [e He]]]; cbn; [|rewrite He];
      intros (a & s3 & _ & R)%bind_inv; by injection R. }
  assert (Hhands : ∀ q n, hands [nq_p q] (act q n)).
  { intros q n. unfold act, ns_verdict. destruct Hv as [->|[-> [e He]]]; cbn; [|rewrite He];
      apply hands_last; [apply hands_drop|apply hands_sendPacket]. }
  eapply wp_mono; [apply wp_also; [apply (settles_ns_drain ks _ act (ns_head s) [] 0 s []); [|exact Hgo|done|done]|]|].
  - intros q n Hq Hsel. unfold act, ns_verdict. destruct Hv as [->|[-> [e He]]]; cbn.
    + apply settles_then; [apply settles_drop|by apply settles_ret].
    + rewrite He. apply settles_then; [apply settles_sendPacket|by apply settles_ret].
  - intros r s1 R. exact (hands_ns_drain _ _ _ _ _ _ _ _ Hhands Hgo R).
  - intros r s1 ((Hs1 & Hv1 & Hh & ->) & Hrev). rewrite (proj2 (Z.eqb_neq _ _)) by lia. apply wp_bind.
    eapply wp_mono; [apply wp_also; [exact (refresh_settles ks d v o Hk 0 s1 [] (λ _, eq_refl) Hs1)|apply refresh_hands]|].
    intros [] s2 [[Hs2 Hv2] Hq2]. apply wp_ret.
    split_and!; [eapply sound_sub; [|exact Hs2]; apply list_subseteq_nil| |lia|by rewrite Hq2].
    cbn [app] in Hh. rewrite <- Hh. by injection Hv2.
Qed.

(** Giving a packet away that holds no other one. *)
Lemma give_run (p : Z) (ev : packet → ns_event) (s : agent) pk :
  pkts s !! p = Some pk → hdr_encap pk = None →
  give p ev s = Ok () (note_event (ev pk) (set_pkts (delete p (pkts s)) s)).
Proof.
  intros Hpk He. unfold give. erewrite bind_ok by (unfold HDR; by rewrite Hpk).
  erewrite bind_ok by done. erewrite bind_ok; [done|].
  destruct (size (pkts s)) as [|n] eqn:Hn; [apply map_size_empty_inv in Hn; by rewrite Hn in Hpk|].
  cbn [hand_over]. erewrite bind_ok by (unfold HDR; by rewrite Hpk). erewrite bind_ok by done. by rewrite He.
Qed.

Lemma hdr_modify_run (p : Z) f (s : agent) pk :
  pkts s !! p = Some pk → hdr_modify p f s = Ok () (set_pkts (<[p := f pk]> (pkts s)) s).
Proof. intros Hpk. unfold hdr_modify. by erewrite bind_ok by (unfold HDR; by rewrite Hpk). Qed.

(** The headers of a forwarded packet when it is on its way. *)
Definition forwarded (s : agent) (next : Z) (pk : packet) : packet :=
  set_hops next (ipaddr s) true (if llfeedback (opts (core s)) then true else ch_failure pk)
    (set_direction DOWN (set_ttl (ih_ttl pk - 1) pk)).

(** A forwarded packet that the link layer gives back is never sent.  Forwarding a packet of
    another node turns its direction to down; when its transmission fails and it is queued
    until the route is repaired, the next [sendPacket] takes it for an undefined one and
    drops it, so that local repair saves no packet but the node's own. *)
Theorem salvaged_packet_dropped (p next next' : Z) (d d' : delay) (s1 s2 : agent) (pk : packet) :
  pkts s1 !! p = Some pk → hdr_encap pk = None → ih_saddr pk ≠ ipaddr s1 →
  ch_direction pk = UP → 1 < ih_ttl pk → ih_daddr pk ≠ AODV_BROADCAST →
  pkts s2 !! p = Some (forwarded s1 next pk) → ipaddr s2 = ipaddr s1 →
  (∃ s1', sendPacket p next d s1 = Ok () s1' ∧
     ns_trace s1' = NsSchedule p (forwarded s1 next pk) d :: ns_trace s1) ∧
  (∃ s2', sendPacket p next' d' s2 = Ok () s2' ∧
     ns_trace s2' = NsDrop p (forwarded s1 next pk) None :: ns_trace s2).
Proof.
  intros Hpk He Hsrc Hdir Httl Hd Hpk2 Hip. split.
  - unfold sendPacket. erewrite bind_ok by (unfold HDR; by rewrite Hpk). erewrite bind_ok by done.
    rewrite bool_decide_true, (proj2 (Z.eqb_neq _ _) Hsrc) by done. cbn [andb negb].
    erewrite bind_ok.
    2:{ erewrite bind_ok by by apply hdr_modify_run. rewrite (proj2 (Z.ltb_ge _ _)) by lia.
        erewrite bind_ok by (apply hdr_modify_run; apply lookup_insert_eq). done. }
    cbn [negb]. rewrite (proj2 (Z.eqb_neq _ _) Hd). erewrite bind_ok by done.
    erewrite bind_ok by (apply hdr_modify_run; apply lookup_insert_eq).
    eexists. split; [unfold schedule; apply give_run; [apply lookup_insert_eq|done]|done].
  - unfold sendPacket. erewrite bind_ok by (unfold HDR; by rewrite Hpk2). erewrite bind_ok by done.
    rewrite Hip. change (ih_saddr (forwarded s1 next pk)) with (ih_saddr pk).
    rewrite (proj2 (Z.eqb_neq _ _) Hsrc), andb_false_r. cbn [forwarded set_hops set_direction ch_direction].
    erewrite bind_ok.
    2:{ rewrite bool_decide_false by done. cbn [andb]. unfold drop. by erewrite bind_ok by by apply give_run. }
    cbn [negb]. eexists. by split.
Qed.
