(* ===== verification/NsScenarios.v ===== *)
(** * Runs of the ns-2 port

    Witnesses of the port's theorems, and the runs in which the port loses packets or reads what
    it has not written. *)

From S2P Require Import Prelude.
From S2P Require Import Params.
From S2P Require Import TimerQueue.
From S2P Require Import State.
From S2P Require Import RtTable.
From S2P Require Import Inv.
From S2P Require Import SeekList.
From S2P Require Import Socket.
From S2P Require Import Rerr.
From S2P Require Import Rrep.
From S2P Require Import Rreq.
From S2P Require Import Daemon.
From S2P Require Import Scenarios.
From S2P Require Import Ns.
From S2P Require Import NsOwn.
From S2P Require Import NsAgent.

#[local] Open Scope cm_scope.

(** ** An agent *)

Lemma wp_result {S A} E (m : CM S A) Q s :
  match m s with Ok _ _ => true | _ => false end = true → wp E m Q s → ∃ a s', m s = Ok a s' ∧ Q a s'.
Proof. unfold wp. destruct (m s) as [a s'| |]; [|done|done]. intros _ H. by exists a, s'. Qed.

Lemma run_result {S A B} (m : CM S A) s (f : S → B) a b :
  match m s with Ok r s' => Some (r, f s') | _ => None end = Some (a, b) → ∃ s', m s = Ok a s' ∧ f s' = b.
Proof. destruct (m s) as [r s'| |]; [|done|done]. intros [= <- <-]. by exists s'. Qed.

Definition data (src dst ttl next : Z) (d : direction) : packet :=
  mk_packet PT_DATA d 100 0 next 0 true false src dst ttl [] None.

Definition opts_ns : ns_options :=
  mk_ns_options false (mk_packet PT_OTHER NONE 0 0 0 0 true false 0 0 32 [] None).

(** The node 1000 with the neighbour 1001 and a route over it to 1005.  The packets 2 and 4 are
    queued, 3 waits in the interface queue for the neighbour, and [pk], if any, is the
    packet 1 in hand. *)
Definition packets (pk : option packet) : gmap Z packet :=
  partial_alter (λ _, pk) 1
    (<[2 := data 1000 1006 32 0 DOWN]> (<[3 := data 1000 1007 32 1001 DOWN]>
      {[4 := data 1000 1005 32 0 DOWN]})).

(** The daemon's state, with link layer feedback and local repair. *)
Definition ns_env : environment :=
  mk_env (mk_options false false true true 0 true false true true 0 3000 2 15000)
    (env_clock slow) (env_jitter slow) (env_sys_ok slow) (env_heap slow) (env_ifname slow).
Definition st_ns : state := set_env ns_env st2.

Lemma inv_set_env e s : env_heap e = env_heap (env s) → inv s → inv (set_env e s).
Proof. intros He []. split; try done. cbn [env set_env rt_tbl]. by rewrite He. Qed.
Lemma inv_ns : inv st_ns.
Proof. apply inv_set_env; [by_eval|apply inv2]. Qed.

Definition agent1 (pk : option packet) : agent :=
  mk_agent st_ns opts_ns (packets pk) 0
    [mk_ns_q_pkt 1006 (mk_timeval 999 0) 2; mk_ns_q_pkt 1005 (mk_timeval 999 0) 4] 2 (Some [3]) true
    (Some (mk_ns_params ACTIVE_ROUTE_TIMEOUT_LLF TTL_START_LLF DELETE_PERIOD_LLF)) [].

Lemma packets_plain pk p q :
  (∀ v, pk = Some v → hdr_encap v = None ∧ ch_ptype v = PT_DATA) →
  packets pk !! p = Some q → hdr_encap q = None ∧ ch_ptype q = PT_DATA.
Proof.
  intros Hpk. unfold packets. destruct (decide (p = 1)) as [->|]; [rewrite lookup_partial_alter_eq; apply Hpk|].
  rewrite lookup_partial_alter_ne by done.
  intros [[_ <-]|[_ [[_ <-]|[_ [_ <-]%lookup_singleton_Some]]%lookup_insert_Some]]%lookup_insert_Some; done.
Qed.

Lemma plain_wrapped p (m : gmap Z packet) :
  (∀ k q, m !! k = Some q → hdr_encap q = None) → wrapped p m = 0%nat.
Proof.
  induction m as [|k q m Hk IH] using map_ind; [done|]. intros H. rewrite wrapped_new by done.
  rewrite IH; [|by intros j r Hj; apply (H j); rewrite lookup_insert_ne by congruence].
  unfold inside. by rewrite (H k q) by apply lookup_insert_eq.
Qed.

Lemma agent1_sound pk :
  (∀ v, pk = Some v → hdr_encap v = None ∧ ch_ptype v = PT_DATA) →
  sound [] 0 (match pk with Some _ => [1] | None => [] end) (agent1 pk).
Proof.
  intros Hpk. split; [..|by eexists|done|split; [exact inv_ns|constructor]].
  - intros p. cbn [pkts agent1]. rewrite plain_wrapped by (intros k q Hq; by apply (packets_plain pk k q Hpk)).
    unfold live. cbn [pkts agent1].
    destruct (decide (p = 1)) as [->|H1]; [by destruct pk|]. destruct (decide (p = 2)) as [->|H2]; [by destruct pk|].
    destruct (decide (p = 3)) as [->|H3]; [by destruct pk|]. destruct (decide (p = 4)) as [->|H4]; [by destruct pk|].
    unfold packets. rewrite lookup_partial_alter_ne, !lookup_insert_ne, lookup_singleton_ne by done.
    destruct pk; unfold held; cbn; by rewrite !one_ne by congruence.
  - intros p q Hq Ht. apply (packets_plain pk p q Hpk) in Hq as [_ Hq]. congruence.
  - done.
  - done.
Qed.

(** ** Witnesses *)

(** A packet from 2000 to 1005 is forwarded. *)
Definition passing : packet := data 2000 1005 10 0 UP.

(** The packets on the link layer and their next hops. *)
Definition sent (s : agent) : list (Z * Z) :=
  omap (λ ev, match ev with NsSchedule p pk _ => Some (p, ch_next_hop pk) | _ => None end) (ns_trace s).

Lemma recv_settles_witness :
  ∃ s', recv 1 (agent1 (Some passing)) = Ok None s' ∧ sound [] 0 [] s' ∧
    sent s' = [(1, 1001)].
Proof.
  assert (Hs : sound [] 0 [1] (agent1 (Some passing))) by (apply (agent1_sound (Some passing)); by intros v [= <-]).
  destruct (wp_result buf_ub (recv 1) (λ _ s', sound [] 0 [] s') (agent1 (Some passing)))
    as (o & s' & R & Hs'); [by_eval| |].
  { exact (recv_settles 1 (agent1 (Some passing)) [] Hs). }
  destruct (run_result (recv 1) (agent1 (Some passing)) sent None [(1, 1001)]) as (s2 & R2 & H2); [by_eval|].
  exists s'. rewrite R in R2. injection R2 as -> <-. split; [exact R|]. split; [exact Hs'|exact H2].
Defined.


(** The packet to 1005 goes, the other one stays. *)
Lemma ns_set_verdict_exact_witness :
  ∃ s', ns_packet_queue_set_verdict 1005 PQ_SEND (agent1 None) = Ok 1 s' ∧ sound [] 0 [] s' ∧
    handed s' = [4] ∧ nq_p <$> ns_head s' = [2].
Proof.
  assert (Hs : sound [] 0 [] (agent1 None)) by (by apply (agent1_sound None)).
  assert (Hv : PQ_SEND = PQ_DROP ∨ PQ_SEND = PQ_SEND ∧ is_Some (find_entry (rt_tbl (core (agent1 None))) 1005))
    by (right; split; [reflexivity|vm_compute; by eexists]).
  pose proof (ns_set_verdict_exact 1005 PQ_SEND (agent1 None) Hs Hv) as Hw.
  apply wp_result in Hw as (r & s' & R & Hs' & Hh & Hr & Hd); [|by_eval].
  exists s'. split; [rewrite R, Hr; reflexivity|]. split; [exact Hs'|]. rewrite Hd, Hh. split; by_eval.
Defined.

Definition passed : packet := forwarded (agent1 (Some passing)) 1001 passing.
Lemma salvaged_packet_dropped_witness :
  (∃ s', sendPacket 1 1001 (After 0) (agent1 (Some passing)) = Ok () s' ∧
     ns_trace s' = NsSchedule 1 passed (After 0) :: ns_trace (agent1 (Some passing))) ∧
  (∃ s', sendPacket 1 1001 (After 0) (agent1 (Some passed)) = Ok () s' ∧
     ns_trace s' = NsDrop 1 passed None :: ns_trace (agent1 (Some passed))).
Proof.
  assert (Hip : ∀ pk, ipaddr (agent1 pk) = 1000) by (intros pk; by_eval).
  apply (salvaged_packet_dropped 1 1001 1001 (After 0) (After 0) (agent1 (Some passing))
           (agent1 (Some passed)) passing);
    [reflexivity|reflexivity|rewrite Hip; discriminate|reflexivity|reflexivity|discriminate|reflexivity|].
  by rewrite !Hip.
Defined.

(** ** Runs that go wrong *)

(** A verdict to send without a route returns -1 after the entry has been taken off the queue:
    the packet 2 is in no place any more, and the length counts it still. *)
Theorem verdict_without_route_loses_packet :
  ∃ s', ns_packet_queue_set_verdict 1006 PQ_SEND (agent1 None) = Ok (-1) s' ∧
    (held s', ns_len s', handed s', pkts s' !! 2, wrapped 2 (pkts s'))
    = ([4; 3], 2, [], Some (data 1000 1006 32 0 DOWN), 0%nat).
Proof. apply run_result. by_eval. Qed.

(** Dropping by destination takes the packets off the interface queue and neither drops nor
    frees them. *)
Theorem drop_by_dest_loses_packet :
  ∃ s', interfaceQueue 1007 IFQ_DROP_BY_DEST (agent1 None) = Ok () s' ∧
    (held s', handed s', pkts s' !! 3, wrapped 3 (pkts s'))
    = ([2; 4], [], Some (data 1000 1007 32 1001 DOWN), 0%nat).
Proof. apply run_result. by_eval. Qed.

(** With [wait_on_reboot] the agent sets a timer with a delete period that it has not
    written yet. *)
Theorem start_reads_unwritten_period (s : agent) :
  initialized s = false → attached (tq (core s)) WorbTimer = false →
  wait_on_reboot (core s) = true → params s = None →
  startAODVUUAgent s = Ub Uninitialised.
Proof.
  intros Hi Ha Hw Hp. unfold startAODVUUAgent. erewrite bind_ok by done. rewrite Hi.
  erewrite bind_ok by done. rewrite Hw. cbn [when].
  assert (Hinit : ∃ c, on_core (on_tq (timer_init WorbTimer wait_on_reboot_timeout)) s = Ok () (set_core c s)).
  { unfold on_core, on_tq, timer_init. rewrite Ha. unfold timer_put, modify, new_events. cbn [trace set_tq].
    rewrite Nat.sub_diag. by eexists. }
  destruct Hinit as [c Hc]. unfold bind at 1 2. rewrite Hc. unfold bind at 1, get_params. cbn [params set_core].
  by rewrite Hp.
Qed.
